(** * ARC1: grid transformation inference engine

    A shallow embedding of the core of the repository:
    - [grid_ops.py]            ([GridOperations]),
    - [transform_analysis.py]  ([TransformationAnalyzer]),
    - [transform_predictor.py] ([TransformationPredictor]),
    - [pattern_testing.py]     ([PatternTester.test_progression]),
    - [recipe_testing/data_handlers.py] ([validate_grid]),
    followed by the properties of these functions.

    Conventions.  A two-dimensional integer [np.ndarray] is a list of rows
    of [Z].  Python exceptions are values of [Exn], and a function that can
    raise returns a [Result].  Python dictionaries whose iteration order is
    observable are association lists in insertion order; dictionaries that
    are only looked up and compared are [gmap]s.  Python floats are the
    binary64 numbers of [PrimFloat]. *)

From Stdlib Require Import ZArith Floats Uint63.
From stdpp Require Import gmap strings list fin_maps sorting.

Open Scope Z_scope.

Set Warnings "-clear-no-such-hyp".

(** ** Exceptions and results *)

Inductive Exn :=
  | KeyError (key : string)
  | IndexError (msg : string)
  | ValueError (msg : string)
  | TypeError (msg : string)
  | ZeroDivisionError
  | RecursionError
  | TaskError (msg : string).

Inductive Result (A : Type) :=
  | Ok (a : A)
  | Raise (e : Exn).
Arguments Ok {A} a.
Arguments Raise {A} e.

#[global] Instance result_ret : MRet Result := λ A a, Ok a.
#[global] Instance result_bind : MBind Result := λ A B f m,
  match m with
  | Ok a => f a
  | Raise e => Raise e
  end.

#[global] Instance result_fmap : FMap Result := λ A B f m,
  match m with
  | Ok a => Ok (f a)
  | Raise e => Raise e
  end.

(** [for x in l: acc = body(acc, x)], stopping at the first exception. *)
Fixpoint for_each {A S : Type} (l : list A) (body : S → A → Result S) (s : S)
  : Result S :=
  match l with
  | [] => Ok s
  | x :: l' => s' ← body s x; for_each l' body s'
  end.

(** ** The part of numpy the engine uses *)

Module np.

Definition Grid := list (list Z).
Definition Mask := list (list bool).
Definition Cell := (Z * Z)%type.

(** [grid.shape]: a two-dimensional array with no row has width 0 here. *)
Definition height {A} (g : list (list A)) : Z := Z.of_nat (length g).
Definition width {A} (g : list (list A)) : Z :=
  Z.of_nat (length (default [] (head g))).
Definition shape {A} (g : list (list A)) : Z * Z := (height g, width g).

(** [range(n)] *)
Definition range (n : Z) : list Z := seqZ 0 n.

(** [grid[r, c]], used only after a bounds check *)
Definition get (g : Grid) (r c : Z) : Z :=
  default 0 (row ← g !! Z.to_nat r; row !! Z.to_nat c).

(** all index pairs of an array of the given shape, in row-major order *)
Definition indices (sh : Z * Z) : list Cell :=
  r ← range sh.1; c ← range sh.2; [(r, c)].

(** [grid == val] *)
Definition eq_mask (g : Grid) (val : Z) : Mask :=
  map (map (λ x, bool_decide (x = val))) g.

(** [grid != val] *)
Definition ne_mask (g : Grid) (val : Z) : Mask :=
  map (map (λ x, negb (bool_decide (x = val)))) g.

(** [m1 & m2] *)
Definition and_mask (m1 m2 : Mask) : Mask :=
  zip_with (zip_with andb) m1 m2.

(** [np.any(mask)] *)
Definition any (m : Mask) : bool := existsb (existsb id) m.

(** [grid[mask]]: the entries under a true mask bit, row-major.  numpy
    raises [IndexError] when the shapes differ. *)
Definition select_row {A} (row : list A) (mrow : list bool) : list A :=
  (zip row mrow) ≫= (λ p : A * bool, if p.2 then [p.1] else []).
Definition select (g : Grid) (m : Mask) : Result (list Z) :=
  if bool_decide (shape g = shape m)
  then Ok (concat (zip_with select_row g m))
  else Raise (IndexError "boolean index did not match indexed array").

(** [np.argwhere(mask)] *)
Definition argwhere (m : Mask) : list Cell :=
  zip (range (height m)) m ≫= λ rm : Z * list bool,
    zip (range (Z.of_nat (length rm.2))) rm.2 ≫= λ cb : Z * bool,
      if cb.2 then [(rm.1, cb.1)] else [].

(** [grid[mask] = v] on the contents *)
Definition set_mask (g : Grid) (m : Mask) (v : Z) : Grid :=
  zip_with (zip_with (λ x (b : bool), if b then v else x)) g m.

(** [np.unique(values)]: the distinct values in increasing order *)
Definition unique (l : list Z) : list Z :=
  merge_sort Z.le (remove_dups l).

Fixpoint transpose_aux (w : nat) (g : Grid) : Grid :=
  match w with
  | O => []
  | S w' => map (λ row, default 0 (head row)) g
              :: transpose_aux w' (map (drop 1) g)
  end.

(** [grid.T] *)
Definition transpose (g : Grid) : Grid :=
  transpose_aux (Z.to_nat (width g)) g.

(** [np.flip(grid, axis)]: axis 0 reverses the order of the rows, axis 1
    reverses every row *)
Definition flip (g : Grid) (axis : Z) : Grid :=
  if bool_decide (axis = 0) then reverse g else map reverse g.

(** one counterclockwise quarter turn *)
Definition rot90_once (g : Grid) : Grid := reverse (transpose g).

(** [np.rot90(grid, k)]: [k] counterclockwise quarter turns, [k] taken
    modulo 4 *)
Definition rot90 (g : Grid) (k : Z) : Grid :=
  Nat.iter (Z.to_nat (k `mod` 4)) rot90_once g.

(** [np.kron(grid, np.ones((k, k)))]: every entry becomes a [k]x[k]
    block.  [np.ones] rejects a negative dimension. *)
Definition kron_ones (g : Grid) (k : Z) : Result Grid :=
  if bool_decide (k < 0)
  then Raise (ValueError "negative dimensions are not allowed")
  else Ok (row ← g;
           replicate (Z.to_nat k) (x ← row; replicate (Z.to_nat k) x)).

(** [np.array_equal(a, b)] *)
Definition array_equal (a b : Grid) : bool := bool_decide (a = b).

(** the entries of an integer array are 64-bit signed integers *)
Definition int64 (z : Z) : Prop := - 2 ^ 63 ≤ z < 2 ^ 63.

(** the int64 that integer arithmetic on arrays yields for the exact
    result [z]: numpy wraps around and raises nothing *)
Definition wrap64 (z : Z) : Z := (z + 2 ^ 63) `mod` 2 ^ 64 - 2 ^ 63.

(** [np.diff(row)]: [row[1:] - row[:-1]] in int64 *)
Definition diff (row : list Z) : list Z :=
  zip_with (λ a b, wrap64 (a - b)) (drop 1 row) row.

(** int64 to float64 conversion.  [Uint63] holds the integers below 2^63,
    so the least int64, -2^63, is converted apart. *)
Definition to_float (z : Z) : float :=
  match z with
  | Z0 => PrimFloat.zero
  | Zpos _ => PrimFloat.of_uint63 (Uint63.of_Z z)
  | Zneg p =>
    if bool_decide (z = - 2 ^ 63)
    then PrimFloat.opp
           (PrimFloat.mul (PrimFloat.of_uint63 (Uint63.of_Z (2 ^ 62)))
                          (PrimFloat.of_uint63 (Uint63.of_Z 2)))
    else PrimFloat.opp (PrimFloat.of_uint63 (Uint63.of_Z (Zpos p)))
  end.

(** [a / b] on integer arrays: true division in float64, which yields
    an infinity or a NaN for a zero divisor and raises nothing *)
Definition true_divide (a b : list Z) : list float :=
  zip_with (λ x y, PrimFloat.div (to_float x) (to_float y)) a b.

(** [values.min()] and [values.max()] of a non-empty column *)
Definition min (l : list Z) : Z :=
  match l with
  | [] => 0
  | x :: l' => foldl Z.min x l'
  end.
Definition max (l : list Z) : Z :=
  match l with
  | [] => 0
  | x :: l' => foldl Z.max x l'
  end.

(** [grid[r1:r2, c1:c2]] for in-range bounds *)
Definition slice (g : Grid) (r1 r2 c1 c2 : Z) : Grid :=
  map (λ row, take (Z.to_nat (c2 - c1)) (drop (Z.to_nat c1) row))
      (take (Z.to_nat (r2 - r1)) (drop (Z.to_nat r1) g)).

(** [grid[r1:r2, c1:c2] = block], where [block] has the shape of the
    slice *)
Definition set_slice (g : Grid) (r1 r2 c1 c2 : Z) (block : Grid) : Grid :=
  imap (λ i row,
    imap (λ j x,
      let r := Z.of_nat i in
      let c := Z.of_nat j in
      if bool_decide (r1 ≤ r < r2 ∧ c1 ≤ c < c2)
      then get block (r - r1) (c - c1) else x) row) g.

End np.

(** ** grid_ops.py *)

Module Object.
(** the dictionary [get_objects] builds for one connected component *)
Record t := mk {
  value : Z;
  coords : list np.Cell;
  min_r : Z;
  max_r : Z;
  min_c : Z;
  max_c : Z;
  size : Z;
  dimensions : Z * Z;
  center : float * float
}.
End Object.

Module GridOperations.
Import np.

(** The nested [flood_fill] of [get_objects].  The set [seen] it closes
    over is threaded through.

    The function calls itself once for every neighbour of a cell it
    collects, and every call that is still running holds a frame of the
    interpreter's stack.  The interpreter admits [sys.getrecursionlimit()]
    frames, and the call that needs one more raises [RecursionError].
    [frames] is the number of nested calls of [flood_fill] the interpreter
    still admits: the limit less the depth of the stack where [get_objects]
    runs.  The repository never calls [sys.setrecursionlimit], so the limit
    is the interpreter's default. *)
Fixpoint flood_fill (frames : nat) (grid : Grid) (r c value : Z)
    (seen : gset Cell) : Result (list Cell * gset Cell) :=
  match frames with
  | O => Raise RecursionError
  | S frames' =>
    if bool_decide (r < 0) || bool_decide (height grid ≤ r)
       || bool_decide (c < 0) || bool_decide (width grid ≤ c)
       || bool_decide (get grid r c ≠ value)
       || bool_decide ((r, c) ∈ seen)
    then Ok ([], seen)
    else
      for_each [(r + 1, c); (r - 1, c); (r, c + 1); (r, c - 1)]
        (λ (st : list Cell * gset Cell) (n : Cell),
           res ← flood_fill frames' grid n.1 n.2 value st.2;
           Ok (st.1 ++ res.1, res.2))
        ([(r, c)], {[ (r, c) ]} ∪ seen)
  end.

Definition make_object (value : Z) (coords : list Cell) : Object.t :=
  let rs := coords.*1 in
  let cs := coords.*2 in
  {| Object.value := value;
     Object.coords := coords;
     Object.min_r := min rs;
     Object.max_r := max rs;
     Object.min_c := min cs;
     Object.max_c := max cs;
     Object.size := Z.of_nat (length coords);
     Object.dimensions := (max rs - min rs + 1, max cs - min cs + 1);
     Object.center :=
       (PrimFloat.div (to_float (max rs + min rs)) (to_float 2),
        PrimFloat.div (to_float (max cs + min cs)) (to_float 2)) |}.

(** the body of the two scanning loops *)
Definition scan_cell (frames : nat) (grid : Grid)
    (st : list Object.t * gset Cell) (rc : Cell)
    : Result (list Object.t * gset Cell) :=
  let '(r, c) := rc in
  if bool_decide ((r, c) ∉ st.2) && bool_decide (get grid r c ≠ 0)
  then
    res ← flood_fill frames grid r c (get grid r c) st.2;
    if bool_decide (res.1 ≠ [])
    then Ok (st.1 ++ [make_object (get grid r c) res.1], res.2)
    else Ok (st.1, res.2)
  else Ok st.

Definition get_objects (frames : nat) (grid : Grid)
    : Result (list Object.t) :=
  st ← for_each (range (height grid))
         (λ st r, for_each (range (width grid))
                    (λ st c, scan_cell frames grid st (r, c)) st)
         ([], ∅);
  Ok st.1.

Definition get_object_grid (grid : Grid) (obj : Object.t) : Grid :=
  let r1 := Object.min_r obj in
  let r2 := Object.max_r obj + 1 in
  let c1 := Object.min_c obj in
  let c2 := Object.max_c obj + 1 in
  imap (λ i row,
    imap (λ j x,
      if bool_decide ((Z.of_nat i + r1, Z.of_nat j + c1) ∈ Object.coords obj)
      then x else 0) row)
    (slice grid r1 r2 c1 c2).

(** the keys of the result are in increasing order, as [np.unique]
    returns them *)
Definition count_values (grid : Grid) : list (Z * Z) :=
  let flat := concat grid in
  map (λ v, (v, Z.of_nat (length (filter (λ x, x = v) flat)))) (unique flat).

End GridOperations.

Module sys.
(** [sys.getrecursionlimit()] of an interpreter whose limit was never
    changed *)
Definition getrecursionlimit : nat := 1000.
End sys.

(** ** Python values shared by the analyzer and the predictor *)

(** [a % b] and [a // b] on Python integers *)
Definition py_mod (a b : Z) : Result Z :=
  if bool_decide (b = 0) then Raise ZeroDivisionError else Ok (a `mod` b).
Definition py_floordiv (a b : Z) : Result Z :=
  if bool_decide (b = 0) then Raise ZeroDivisionError else Ok (a `div` b).

(** A dictionary in insertion order. *)
Module dict.
Section dict.
Context {K V : Type} `{EqDecision K}.

Fixpoint get (d : list (K * V)) (k : K) : option V :=
  match d with
  | [] => None
  | (k', v) :: d' => if decide (k' = k) then Some v else get d' k
  end.

(** [d[k] = v]: a present key keeps its place, a new key goes last *)
Fixpoint set (d : list (K * V)) (k : K) (v : V) : list (K * V) :=
  match d with
  | [] => [(k, v)]
  | (k', v') :: d' =>
    if decide (k' = k) then (k', v) :: d' else (k', v') :: set d' k v
  end.

Definition keys (d : list (K * V)) : list K := d.*1.
End dict.
End dict.

(** the position categories ['corner'], ['edge'] and ['interior'] *)
Inductive PosType := corner | edge | interior.

#[global] Instance PosType_eq_dec : EqDecision PosType.
Proof. solve_decision. Defined.
#[global] Instance PosType_countable : Countable PosType.
Proof.
  refine (inj_countable'
    (λ p, match p with corner => 0%nat | edge => 1%nat | interior => 2%nat end)
    (λ n, match n with 0%nat => corner | 1%nat => edge | _ => interior end) _).
  by intros [].
Defined.

Module ValueMapping.
(** the entry of one input value, tagged by its ['type'] *)
Inductive t :=
  | direct (to : Z)
  | conditional (conditions : gmap PosType Z)
  | complex (position_values : gmap PosType (list Z)).

#[global] Instance eq_dec : EqDecision t.
Proof. solve_decision. Defined.
End ValueMapping.

Inductive Axis := horizontal | vertical.
#[global] Instance Axis_eq_dec : EqDecision Axis.
Proof. solve_decision. Defined.

Module Transform.
(** an object or global transform, tagged by its ['type'] *)
Inductive t :=
  | none
  | value_change (from to : Z)
  | scale (factor : Z)
  | rotation (degrees : Z)
  | flip (axis : Axis)
  | complex.

#[global] Instance eq_dec : EqDecision t.
Proof. solve_decision. Defined.
End Transform.

Module RelPos.
(** the dictionary of [_get_relative_position] *)
Record t := mk { dx : float; dy : float; distance : float; angle : float }.

(** [==] on two such dictionaries compares the floats numerically *)
Definition eqb (a b : t) : bool :=
  PrimFloat.eqb (dx a) (dx b) && PrimFloat.eqb (dy a) (dy b)
  && PrimFloat.eqb (distance a) (distance b)
  && PrimFloat.eqb (angle a) (angle b).
End RelPos.

Module RelChange.
(** an entry of ['relative_positions'] *)
Record t := mk { objects : Z * Z; from : RelPos.t; to : RelPos.t }.
End RelChange.

Module Match.
(** an entry of ['matches'] *)
Record t := mk { output_object : Object.t; transform : Transform.t }.
End Match.

Module ObjectMapping.
(** an entry of ['object_mappings'] *)
Record t := mk { input_object : Object.t; matches : list Match.t }.
End ObjectMapping.

Module ObjectAnalysis.
(** the result of [analyze_object_transformations] *)
Record t := mk {
  object_count_change : Z;
  object_mappings : list ObjectMapping.t
}.
End ObjectAnalysis.

Module SpatialAnalysis.
(** the result of [analyze_spatial_transformations] *)
Record t := mk {
  global_transform : Transform.t;
  relative_positions : list RelChange.t
}.
End SpatialAnalysis.

Module Analysis.
(** the per-pair dictionary [predict_output] builds *)
Record t := mk {
  value_mappings : list (Z * ValueMapping.t);
  object_transforms : ObjectAnalysis.t;
  spatial_transforms : SpatialAnalysis.t
}.
End Analysis.

(** ** transform_analysis.py *)

Module TransformationAnalyzer.
Import np.

Definition _get_position_type (pos : Cell) (shape : Z * Z) : PosType :=
  let '(r, c) := pos in
  let '(h, w) := shape in
  if bool_decide (r = 0 ∨ r = h - 1) && bool_decide (c = 0 ∨ c = w - 1)
  then corner
  else if bool_decide (r = 0 ∨ r = h - 1) || bool_decide (c = 0 ∨ c = w - 1)
  then edge
  else interior.

(** the loop filling [position_based] *)
Definition position_based (positions : list Cell) (out_vals : list Z)
    (shape : Z * Z) : gmap PosType (list Z) :=
  foldl (λ (pb : gmap PosType (list Z)) (po : Cell * Z),
           let key := _get_position_type po.1 shape in
           <[key := default [] (pb !! key) ++ [po.2]]> pb)
        ∅ (zip positions out_vals).

(** the loop filling [conditional]: the categories whose output values
    are all the same *)
Definition conditional_of (pb : gmap PosType (list Z)) : gmap PosType Z :=
  omap (λ values : list Z,
          if bool_decide (length (remove_dups values) = 1%nat)
          then head values else None) pb.

(** the body of the loop over [input_values] *)
Definition analyze_value (input_grid output_grid : Grid)
    (mappings : list (Z * ValueMapping.t)) (in_val : Z)
    : Result (list (Z * ValueMapping.t)) :=
  if bool_decide (in_val = 0) then Ok mappings
  else
    out_vals ← select output_grid (eq_mask input_grid in_val);
    let unique_out := unique out_vals in
    if bool_decide (length unique_out = 1%nat)
    then Ok (dict.set mappings in_val
               (ValueMapping.direct (default 0 (head unique_out))))
    else if bool_decide (1 < length unique_out)%nat
    then
      let positions := argwhere (eq_mask input_grid in_val) in
      let pb := position_based positions out_vals (shape input_grid) in
      let conditional := conditional_of pb in
      if bool_decide (conditional ≠ ∅)
      then Ok (dict.set mappings in_val (ValueMapping.conditional conditional))
      else Ok (dict.set mappings in_val (ValueMapping.complex pb))
    else Ok mappings.

Definition analyze_value_mappings (input_grid output_grid : Grid)
    : Result (list (Z * ValueMapping.t)) :=
  let input_values := GridOperations.count_values input_grid in
  for_each (dict.keys input_values)
           (analyze_value input_grid output_grid) [].

(** the rotation loops of [_find_object_transform] and
    [_find_global_transform]: the first [k] of [ks] that satisfies
    [test] *)
Definition first_rotation (test : Z → bool) (ks : list Z)
    : option Transform.t :=
  (λ k, Transform.rotation (k * 90)) <$> List.find test ks.

Definition _find_object_transform (obj1 obj2 : Grid) : Result Transform.t :=
  let '(h1, w1) := shape obj1 in
  let '(h2, w2) := shape obj2 in
  (* same size: identical, or a change of the single value *)
  early ←
    (if bool_decide (h1 = h2) && bool_decide (w1 = w2)
     then
       if array_equal obj1 obj2 then Ok (Some Transform.none)
       else
         unique1 ← unique <$> select obj1 (ne_mask obj1 0);
         unique2 ← unique <$> select obj2 (ne_mask obj2 0);
         if bool_decide (length unique1 = 1%nat)
            && bool_decide (length unique2 = 1%nat)
         then Ok (Some (Transform.value_change
                          (default 0 (head unique1))
                          (default 0 (head unique2))))
         else Ok None
     else Ok None);
  match early with
  | Some t => Ok t
  | None =>
    (* scaling: only the dimensions are compared *)
    mh ← py_mod h2 h1;
    scaled ←
      (if bool_decide (mh = 0)
       then
         mw ← py_mod w2 w1;
         if bool_decide (mw = 0)
         then
           scale_h ← py_floordiv h2 h1;
           scale_w ← py_floordiv w2 w1;
           if bool_decide (scale_h = scale_w)
           then Ok (Some (Transform.scale scale_h))
           else Ok None
         else Ok None
       else Ok None);
    match scaled with
    | Some t => Ok t
    | None =>
      match first_rotation
              (λ k, bool_decide (shape (rot90 obj1 k) = shape obj2)
                    && bool_decide (ne_mask (rot90 obj1 k) 0 = ne_mask obj2 0))
              [1; 2; 3] with
      | Some t => Ok t
      | None =>
        if bool_decide (ne_mask (flip obj1 0) 0 = ne_mask obj2 0)
        then Ok (Transform.flip horizontal)
        else if bool_decide (ne_mask (flip obj1 1) 0 = ne_mask obj2 0)
        then Ok (Transform.flip vertical)
        else Ok Transform.complex
      end
    end
  end.

Definition _find_global_transform (grid1 grid2 : Grid) : Result Transform.t :=
  let '(h1, w1) := shape grid1 in
  let '(h2, w2) := shape grid2 in
  let early :=
    if bool_decide (h1 = h2) && bool_decide (w1 = w2)
    then
      match first_rotation (λ k, array_equal (rot90 grid1 k) grid2)
                           [1; 2; 3] with
      | Some t => Some t
      | None =>
        if array_equal (flip grid1 0) grid2
        then Some (Transform.flip horizontal)
        else if array_equal (flip grid1 1) grid2
        then Some (Transform.flip vertical)
        else None
      end
    else None in
  match early with
  | Some t => Ok t
  | None =>
    (* scaling: only the dimensions are compared *)
    mh ← py_mod h2 h1;
    if bool_decide (mh = 0)
    then
      mw ← py_mod w2 w1;
      if bool_decide (mw = 0)
      then
        scale_h ← py_floordiv h2 h1;
        scale_w ← py_floordiv w2 w1;
        if bool_decide (scale_h = scale_w)
        then Ok (Transform.scale scale_h)
        else Ok Transform.none
      else Ok Transform.none
    else Ok Transform.none
  end.

(** Here and below [frames] is the number of nested calls of
    [flood_fill] the interpreter admits in the calls of [get_objects] the
    function makes. *)
Definition analyze_object_transformations (frames : nat)
    (input_grid output_grid : Grid) : Result ObjectAnalysis.t :=
  input_objects ← GridOperations.get_objects frames input_grid;
  output_objects ← GridOperations.get_objects frames output_grid;
  object_mappings ←
    for_each input_objects
      (λ mappings in_obj,
         let in_grid := GridOperations.get_object_grid input_grid in_obj in
         matches ←
           for_each output_objects
             (λ matches out_obj,
                let out_grid :=
                  GridOperations.get_object_grid output_grid out_obj in
                transform ← _find_object_transform in_grid out_grid;
                if bool_decide (transform ≠ Transform.none)
                then Ok (matches ++ [Match.mk out_obj transform])
                else Ok matches)
             [];
         if bool_decide (matches ≠ [])
         then Ok (mappings ++ [ObjectMapping.mk in_obj matches])
         else Ok mappings)
      [];
  Ok (ObjectAnalysis.mk
        (Z.of_nat (length output_objects) - Z.of_nat (length input_objects))
        object_mappings).

Definition _find_matching_object (obj : Object.t) (objects : list Object.t)
    : option Object.t :=
  let score (other : Object.t) : Z :=
    (if bool_decide (Object.value obj = Object.value other) then 1 else 0)
    + (if bool_decide (Object.size obj = Object.size other) then 1 else 0)
    + (if bool_decide (Object.dimensions obj = Object.dimensions other)
       then 1 else 0) in
  let best :=
    foldl (λ (best : option Object.t * Z) other,
             if bool_decide (best.2 < score other)
             then (Some other, score other) else best)
          (None, 0) objects in
  if bool_decide (0 < best.2) then best.1 else None.

Section spatial.
(** [np.arctan2] on float64, which [PrimFloat] does not provide *)
Variable arctan2 : float → float → float.

Definition _get_relative_position (obj1 obj2 : Object.t) : RelPos.t :=
  let center1 := Object.center obj1 in
  let center2 := Object.center obj2 in
  let dx := PrimFloat.sub center2.2 center1.2 in
  let dy := PrimFloat.sub center2.1 center1.1 in
  {| RelPos.dx := dx;
     RelPos.dy := dy;
     RelPos.distance :=
       PrimFloat.sqrt (PrimFloat.add (PrimFloat.mul dx dx)
                                     (PrimFloat.mul dy dy));
     RelPos.angle := arctan2 dy dx |}.

Definition analyze_spatial_transformations (frames : nat)
    (input_grid output_grid : Grid) : Result SpatialAnalysis.t :=
  input_objects ← GridOperations.get_objects frames input_grid;
  output_objects ← GridOperations.get_objects frames output_grid;
  global_transform ← _find_global_transform input_grid output_grid;
  let relative_positions :=
    if bool_decide (1 < length input_objects)%nat
       && bool_decide (length input_objects = length output_objects)
    then
      imap (λ i in_obj1, (i, in_obj1))
           (take (length input_objects - 1) input_objects)
      ≫= λ p : nat * Object.t,
        let '(i, in_obj1) := p in
        drop (i + 1) input_objects ≫= λ in_obj2 : Object.t,
          let in_rel := _get_relative_position in_obj1 in_obj2 in
          match _find_matching_object in_obj1 output_objects,
                _find_matching_object in_obj2 output_objects with
          | Some out_obj1, Some out_obj2 =>
            let out_rel := _get_relative_position out_obj1 out_obj2 in
            if negb (RelPos.eqb in_rel out_rel)
            then [RelChange.mk (Object.value in_obj1, Object.value in_obj2)
                               in_rel out_rel]
            else []
          | _, _ => []
          end
    else [] in
  Ok (SpatialAnalysis.mk global_transform relative_positions).
End spatial.

End TransformationAnalyzer.

(** ** Arrays as objects

    [_apply_transforms] copies its argument, takes views and writes in
    place.  An array object is a buffer of the heap seen through a chain of
    views: [np.rot90] and [np.flip] return views of the buffer of their
    argument, [copy] and [np.kron] allocate a new buffer, and an assignment
    through an array writes into the buffer it views. *)

Module ndarray.

Inductive ViewOp :=
  | v_rot90 (k : Z)
  | v_flip (axis : Z).

Record t := mk { buf : nat; view : list ViewOp }.

Abbreviation Heap := (list np.Grid).

Definition apply_op (g : np.Grid) (op : ViewOp) : np.Grid :=
  match op with
  | v_rot90 k => np.rot90 g k
  | v_flip axis => np.flip g axis
  end.

Definition unapply_op (op : ViewOp) (g : np.Grid) : np.Grid :=
  match op with
  | v_rot90 k => np.rot90 g (- k)
  | v_flip axis => np.flip g axis
  end.

(** the contents of an array object *)
Definition read (σ : Heap) (a : t) : np.Grid :=
  foldl apply_op (default [] (σ !! buf a)) (view a).

(** replace the contents of an array object, writing through its views *)
Definition write (a : t) (g : np.Grid) (σ : Heap) : Heap :=
  <[buf a := foldr unapply_op g (view a)]> σ.

End ndarray.

(** computations that read and write the heap and may raise *)
Definition M (A : Type) : Type := ndarray.Heap → Result (A * ndarray.Heap).

#[global] Instance M_ret : MRet M := λ A a σ, Ok (a, σ).
#[global] Instance M_bind : MBind M := λ A B f m σ,
  match m σ with
  | Ok (a, σ') => f a σ'
  | Raise e => Raise e
  end.

Definition lift {A} (r : Result A) : M A := λ σ,
  match r with
  | Ok a => Ok (a, σ)
  | Raise e => Raise e
  end.

Fixpoint for_each_M {A S : Type} (l : list A) (body : S → A → M S) (s : S)
  : M S :=
  match l with
  | [] => mret s
  | x :: l' => s' ← body s x; for_each_M l' body s'
  end.

Module heap.
(** [a.copy()], and the allocation of a computed array *)
Definition alloc (g : np.Grid) : M ndarray.t := λ σ,
  Ok (ndarray.mk (length σ) [], σ ++ [g]).
Definition get (a : ndarray.t) : M np.Grid := λ σ,
  Ok (ndarray.read σ a, σ).
Definition copy (a : ndarray.t) : M ndarray.t :=
  g ← get a; alloc g.
(** an assignment [a[...] = ...] that turns contents [g] into [f g] *)
Definition update (a : ndarray.t) (f : np.Grid → np.Grid) : M () := λ σ,
  Ok ((), ndarray.write a (f (ndarray.read σ a)) σ).
(** [np.rot90(a, k)] and [np.flip(a, axis)] return views *)
Definition rot90 (a : ndarray.t) (k : Z) : ndarray.t :=
  ndarray.mk (ndarray.buf a) (ndarray.view a ++ [ndarray.v_rot90 k]).
Definition flip (a : ndarray.t) (axis : Z) : ndarray.t :=
  ndarray.mk (ndarray.buf a) (ndarray.view a ++ [ndarray.v_flip axis]).
End heap.

(** ** transform_predictor.py *)

Module ConsistentMapping.
(** an entry of [consistent['object_transforms']['mappings']] *)
Record t := mk { input_value : Z; transform : Transform.t }.
End ConsistentMapping.

Module ConsistentObjects.
(** [consistent['object_transforms']]; a key that was never set is [None] *)
Record t := mk {
  object_count_change : option Z;
  mappings : option (list ConsistentMapping.t)
}.
End ConsistentObjects.

Module ConsistentSpatial.
(** [consistent['spatial_transforms']] *)
Record t := mk {
  global_transform : option Transform.t;
  relative_positions : option (list RelChange.t)
}.
End ConsistentSpatial.

Module Consistent.
(** the dictionary [_find_consistent_transforms] returns *)
Record t := mk {
  value_mappings : option (list (Z * ValueMapping.t));
  object_transforms : option ConsistentObjects.t;
  spatial_transforms : option ConsistentSpatial.t
}.

(** [{}] *)
Definition empty_dict : t := mk None None None.
End Consistent.

(** [d[key]] *)
Definition getitem {A} (key : string) (o : option A) : Result A :=
  match o with
  | Some a => Ok a
  | None => Raise (KeyError key)
  end.

Module TransformationPredictor.
Import np.

(** the loop over [first_mappings.items()] *)
Definition consistent_value_mappings (first : Analysis.t)
    (rest : list Analysis.t) : list (Z * ValueMapping.t) :=
  foldl (λ acc (vm : Z * ValueMapping.t),
           if forallb (λ t, bool_decide
                        (dict.get (Analysis.value_mappings t) vm.1 = Some vm.2))
                      rest
           then dict.set acc vm.1 vm.2 else acc)
        [] (Analysis.value_mappings first).

(** [len(m['matches']) == 1 and m['matches'][0]['transform'] == transform] *)
Definition single_match (transform : Transform.t) (m : ObjectMapping.t)
    : bool :=
  match ObjectMapping.matches m with
  | [mt] => bool_decide (Match.transform mt = transform)
  | _ => false
  end.

(** the loop over [first_obj_trans['object_mappings']] *)
Definition consistent_object_mappings (first : Analysis.t)
    (rest : list Analysis.t) : list ConsistentMapping.t :=
  ObjectAnalysis.object_mappings (Analysis.object_transforms first)
  ≫= λ mapping : ObjectMapping.t,
    match ObjectMapping.matches mapping with
    | [mt] =>
      let transform := Match.transform mt in
      if bool_decide (transform ≠ Transform.complex)
         && forallb (λ t, existsb (single_match transform)
                            (ObjectAnalysis.object_mappings
                               (Analysis.object_transforms t)))
                    rest
      then [ConsistentMapping.mk
              (Object.value (ObjectMapping.input_object mapping)) transform]
      else []
    | _ => []
    end.

(** the comparison of two entries of ['relative_positions'] *)
Definition same_change (a b : RelChange.t) : bool :=
  bool_decide (RelChange.objects a = RelChange.objects b)
  && RelPos.eqb (RelChange.from a) (RelChange.from b)
  && RelPos.eqb (RelChange.to a) (RelChange.to b).

(** the loop over [first_spatial['relative_positions']] *)
Definition consistent_relative_positions (first : Analysis.t)
    (rest : list Analysis.t) : list RelChange.t :=
  List.filter
    (λ rel_change,
       forallb (λ t, existsb (same_change rel_change)
                       (SpatialAnalysis.relative_positions
                          (Analysis.spatial_transforms t)))
               rest)
    (SpatialAnalysis.relative_positions (Analysis.spatial_transforms first)).

Definition _find_consistent_transforms (transforms : list Analysis.t)
    : Consistent.t :=
  match transforms with
  | [] => Consistent.empty_dict
  | first :: rest =>
    let first_obj_trans := Analysis.object_transforms first in
    let first_spatial := Analysis.spatial_transforms first in
    {| Consistent.value_mappings :=
         Some (consistent_value_mappings first rest);
       Consistent.object_transforms := Some
         {| ConsistentObjects.object_count_change :=
              if forallb (λ t, bool_decide
                   (ObjectAnalysis.object_count_change
                      (Analysis.object_transforms t)
                    = ObjectAnalysis.object_count_change first_obj_trans))
                   rest
              then Some (ObjectAnalysis.object_count_change first_obj_trans)
              else None;
            ConsistentObjects.mappings :=
              Some (consistent_object_mappings first rest) |};
       Consistent.spatial_transforms := Some
         {| ConsistentSpatial.global_transform :=
              if forallb (λ t, bool_decide
                   (SpatialAnalysis.global_transform
                      (Analysis.spatial_transforms t)
                    = SpatialAnalysis.global_transform first_spatial))
                   rest
              then Some (SpatialAnalysis.global_transform first_spatial)
              else None;
            ConsistentSpatial.relative_positions :=
              Some (consistent_relative_positions first rest) |} |}
  end.

(** *** [_apply_transforms], step by step *)

(** the global transform; [prediction] is rebound to the result *)
Definition apply_global (prediction : ndarray.t) (global_trans : Transform.t)
    : M ndarray.t :=
  match global_trans with
  | Transform.rotation degrees =>
    mret (heap.rot90 prediction (degrees `div` 90))
  | Transform.flip axis =>
    mret (heap.flip prediction
            (if bool_decide (axis = horizontal) then 0 else 1))
  | Transform.scale factor =>
    g ← heap.get prediction;
    scaled ← lift (kron_ones g factor);
    heap.alloc scaled
  | _ => mret prediction
  end.

(** the mask of the cells of the given position category *)
Definition position_mask (shape : Z * Z) (pos_type : PosType) : Mask :=
  map (λ r, map (λ c, bool_decide
         (TransformationAnalyzer._get_position_type (r, c) shape = pos_type))
         (range shape.2))
      (range shape.1).

(** [mask & np.array([[...] ...])] for the mask of a position category.
    The nested list has no entry when the prediction has no cell; numpy
    then builds an array of floats, and [&] refuses it. *)
Definition type_mask (mask : Mask) (shape : Z * Z) (pos_type : PosType)
    : Result Mask :=
  if bool_decide (shape.1 = 0 ∨ shape.2 = 0)
  then Raise (TypeError
                "ufunc 'bitwise_and' not supported for the input types")
  else Ok (and_mask mask (position_mask shape pos_type)).

(** the body of the loop over [transforms['value_mappings'].items()] *)
Definition apply_value_mapping (prediction : ndarray.t) (_ : ())
    (vm : Z * ValueMapping.t) : M () :=
  g ← heap.get prediction;
  let mask := eq_mask g vm.1 in
  match vm.2 with
  | ValueMapping.direct to =>
    heap.update prediction (λ g, set_mask g mask to)
  | ValueMapping.conditional conditions =>
    for_each_M (map_to_list conditions)
      (λ _ (cond : PosType * Z),
         type_mask ← lift (type_mask mask (shape g) cond.1);
         heap.update prediction (λ g, set_mask g type_mask cond.2))
      ()
  | ValueMapping.complex _ => mret ()
  end.

(** the transformed [obj_grid] of one object under one mapping *)
Definition transform_object (obj_grid : Grid) (transform : Transform.t)
    : Result Grid :=
  match transform with
  | Transform.value_change _ to =>
    Ok (set_mask obj_grid (ne_mask obj_grid 0) to)
  | Transform.scale factor => kron_ones obj_grid factor
  | Transform.rotation degrees => Ok (rot90 obj_grid (degrees `div` 90))
  | Transform.flip axis =>
    Ok (flip obj_grid (if bool_decide (axis = horizontal) then 0 else 1))
  | _ => Ok obj_grid
  end.

(** the body of the loop over the objects of the intermediate grid *)
Definition apply_object_mappings (transforms : Consistent.t)
    (prediction : ndarray.t) (_ : ()) (obj : Object.t) : M () :=
  object_transforms ←
    lift (getitem "object_transforms" (Consistent.object_transforms transforms));
  for_each_M (default [] (ConsistentObjects.mappings object_transforms))
    (λ _ (mapping : ConsistentMapping.t),
       if bool_decide (ConsistentMapping.input_value mapping = Object.value obj)
       then
         g ← heap.get prediction;
         obj_grid ← lift (transform_object
                            (GridOperations.get_object_grid g obj)
                            (ConsistentMapping.transform mapping));
         let r1 := Object.min_r obj in
         let r2 := Object.max_r obj + 1 in
         let c1 := Object.min_c obj in
         let c2 := Object.max_c obj + 1 in
         if bool_decide (shape obj_grid = (r2 - r1, c2 - c1))
         then heap.update prediction (λ g, set_slice g r1 r2 c1 c2 obj_grid)
         else mret ()
       else mret ())
    ().

(** [np.mean(np.argwhere(mask), axis=0)] *)
Definition mean_position (m : Mask) : float * float :=
  let cells := argwhere m in
  let n := to_float (Z.of_nat (length cells)) in
  (PrimFloat.div (to_float (foldr Z.add 0 cells.*1)) n,
   PrimFloat.div (to_float (foldr Z.add 0 cells.*2)) n).

(** the body of the loop over the surviving relative-position changes.
    The new positions are float arrays, and numpy refuses them as
    indices. *)
Definition apply_relative_position (prediction : ndarray.t) (_ : ())
    (rel_change : RelChange.t) : M () :=
  let '(obj1_val, obj2_val) := RelChange.objects rel_change in
  g ← heap.get prediction;
  let obj1_mask := eq_mask g obj1_val in
  let obj2_mask := eq_mask g obj2_val in
  if any obj1_mask && any obj2_mask
  then
    let obj1_pos := mean_position obj1_mask in
    let obj2_pos := mean_position obj2_mask in
    let current_dx := PrimFloat.sub obj2_pos.2 obj1_pos.2 in
    let current_dy := PrimFloat.sub obj2_pos.1 obj1_pos.1 in
    let to := RelChange.to rel_change in
    if negb (PrimFloat.eqb current_dx (RelPos.dx to))
       || negb (PrimFloat.eqb current_dy (RelPos.dy to))
    then
      let dx := PrimFloat.sub (RelPos.dx to) current_dx in
      let dy := PrimFloat.sub (RelPos.dy to) current_dy in
      new_prediction ← heap.copy prediction;
      heap.update new_prediction (λ g, set_mask g obj2_mask 0);;
      let new_positions :=
        map (λ p : Cell, (PrimFloat.add (to_float p.1) dy,
                          PrimFloat.add (to_float p.2) dx))
            (argwhere obj2_mask) in
      let valid :=
        map (λ p : float * float,
               (PrimFloat.leb PrimFloat.zero p.1
                && PrimFloat.leb PrimFloat.zero p.2)
               && (PrimFloat.ltb p.1 (to_float (height g))
                   && PrimFloat.ltb p.2 (to_float (width g))))
            new_positions in
      if existsb id valid
      then lift (Raise (IndexError
             "arrays used as indices must be of integer (or boolean) type"))
      else mret ()
    else mret ()
  else mret ().

Definition _apply_transforms (frames : nat) (input_grid : ndarray.t)
    (transforms : Consistent.t) : M ndarray.t :=
  prediction ← heap.copy input_grid;
  (* the global transform first *)
  spatial ←
    lift (getitem "spatial_transforms" (Consistent.spatial_transforms transforms));
  prediction ←
    apply_global prediction
      (default Transform.none (ConsistentSpatial.global_transform spatial));
  (* value mappings *)
  value_mappings ←
    lift (getitem "value_mappings" (Consistent.value_mappings transforms));
  for_each_M value_mappings (apply_value_mapping prediction) ();;
  (* object transformations *)
  g ← heap.get prediction;
  objects ← lift (GridOperations.get_objects frames g);
  for_each_M objects (apply_object_mappings transforms prediction) ();;
  (* relative position changes *)
  for_each_M (default [] (ConsistentSpatial.relative_positions spatial))
    (apply_relative_position prediction) ();;
  mret prediction.

Section predict.
Variable arctan2 : float → float → float.

(** the training grids are only read; the input grid is an array
    object, because the prediction must not share its buffer *)
Definition predict_output (frames : nat) (input_grid : ndarray.t)
    (training_inputs training_outputs : list Grid) : M ndarray.t :=
  transforms ←
    lift (for_each (zip training_inputs training_outputs)
            (λ transforms (p : Grid * Grid),
               let '(train_in, train_out) := p in
               value_mappings ←
                 TransformationAnalyzer.analyze_value_mappings
                   train_in train_out;
               object_transforms ←
                 TransformationAnalyzer.analyze_object_transformations
                   frames train_in train_out;
               spatial_transforms ←
                 TransformationAnalyzer.analyze_spatial_transformations
                   arctan2 frames train_in train_out;
               Ok (transforms ++ [Analysis.mk value_mappings
                                    object_transforms spatial_transforms]))
            []);
  let consistent := _find_consistent_transforms transforms in
  _apply_transforms frames input_grid consistent.
End predict.

End TransformationPredictor.

(** ** pattern_testing.py *)

Module PatternTester.
Import np.

(** [f'row_{i}'] and [f'col_{i}'] *)
Inductive Location := row_ (i : nat) | col_ (i : nat).

(** an entry of ['progression_types'] *)
Inductive Progression :=
  | arithmetic (location : Location) (difference : Z)
  | geometric (location : Location) (ratio : float).

Record Results := mk {
  progression_found : bool;
  progression_types : list Progression
}.

(** [set(values)] on floats: a value joins the set unless it compares
    equal to a member *)
Definition float_set (values : list float) : list float :=
  foldl (λ s x, if existsb (PrimFloat.eqb x) s then s else s ++ [x])
        [] values.

(** [row[1:] / row[:-1]]: one quotient for every adjacent pair *)
Definition ratios (row : list Z) : list float :=
  true_divide (drop 1 row) (take (length row - 1) row).

(** [ratios[~np.isnan(ratios)]] *)
Definition not_nan (values : list float) : list float :=
  List.filter (λ x, negb (PrimFloat.is_nan x)) values.

(** the test that guards the report of a geometric progression *)
Definition is_geometric (row : list Z) : bool :=
  bool_decide (1 < length (List.filter (λ x : Z, negb (bool_decide (x = 0%Z))) row))%nat
  && bool_decide (length (float_set (not_nan (ratios row))) = 1%nat).

(** the body of both loops, for one row or one column *)
Definition test_line (location : Location) (line : list Z)
    (results : Results) : Results :=
  let diffs := diff line in
  let results :=
    if bool_decide (length (remove_dups diffs) = 1%nat)
    then mk true (progression_types results
                    ++ [arithmetic location (default 0 (head diffs))])
    else results in
  if is_geometric line
  then mk true (progression_types results
                  ++ [geometric location
                        (default PrimFloat.nan (head (ratios line)))])
  else results.

Definition test_progression (grid : Grid) : Results :=
  let results := mk false [] in
  let results :=
    foldl (λ results (ir : nat * list Z), test_line (row_ ir.1) ir.2 results)
          results (imap (λ i row, (i, row)) grid) in
  foldl (λ results (ic : nat * list Z), test_line (col_ ic.1) ic.2 results)
        results (imap (λ i col, (i, col)) (transpose grid)).

End PatternTester.

(** ** recipe_testing/data_handlers.py *)

Module data_handlers.

(** [validate_grid], nested in [validate_example].  A grid is typed here
    as a list of lists of integers, so the two [isinstance] checks always
    pass. *)
Definition validate_grid (grid : list (list Z)) (grid_name : string)
    : Result () :=
  if bool_decide (grid = [])
  then Raise (TaskError (grid_name +:+ " must be non-empty"))
  else
    let width := length (default [] (head grid)) in
    if negb (forallb (λ row, bool_decide (length row = width)) grid)
    then Raise (TaskError (grid_name +:+ " must be rectangular"))
    else Ok ().

End data_handlers.

(** ** grid_ops.py, the remaining operations *)

Module GridProperties.
(** the dictionary [get_grid_properties] returns *)
Record t := mk {
  height : Z;
  width : Z;
  values : list (Z * Z);
  center : Z * Z;
  is_square : bool;
  density : float;
  total_cells : Z;
  filled_cells : Z
}.
End GridProperties.

Module grid_ops.
Import np.

Definition rotate_grid (grid : Grid) (k : Z) : Grid := rot90 grid k.

(** [np.flip] accepts the axes 0 and 1 of a two-dimensional array, also
    counted from the end, and rejects every other axis with an
    [AxisError], which is a [ValueError] *)
Definition flip_grid (grid : Grid) (axis : Z) : Result Grid :=
  if bool_decide (axis = 0 ∨ axis = -2) then Ok (flip grid 0)
  else if bool_decide (axis = 1 ∨ axis = -1) then Ok (flip grid 1)
  else Raise (ValueError "axis is out of bounds for array of dimension 2").

(** for a size that is not negative *)
Definition extract_subgrids (grid : Grid) (size : Z * Z) : list Grid :=
  let '(h, w) := size in
  if bool_decide (height grid < h ∨ width grid < w) then []
  else
    i ← range (height grid - h + 1);
    j ← range (width grid - w + 1);
    [slice grid i (i + h) j (j + w)].

Definition find_subgrid (grid subgrid : Grid) : list Cell :=
  let '(h, w) := shape subgrid in
  i ← range (height grid - h + 1);
  j ← range (width grid - w + 1);
  if array_equal (slice grid i (i + h) j (j + w)) subgrid
  then [(i, j)] else [].

Definition get_grid_properties (grid : Grid) : Result GridProperties.t :=
  let '(height, width) := shape grid in
  let values := GridOperations.count_values grid in
  let center := (height `div` 2, width `div` 2) in
  let is_square := bool_decide (height = width) in
  let total_cells := height * width in
  let filled_cells :=
    foldr Z.add 0
      (vc ← values; if bool_decide (vc.1 ≠ 0) then [vc.2] else []) in
  (* [filled_cells / total_cells] on Python integers *)
  if bool_decide (total_cells = 0) then Raise ZeroDivisionError
  else
    Ok {| GridProperties.height := height;
          GridProperties.width := width;
          GridProperties.values := values;
          GridProperties.center := center;
          GridProperties.is_square := is_square;
          GridProperties.density :=
            PrimFloat.div (to_float filled_cells) (to_float total_cells);
          GridProperties.total_cells := total_cells;
          GridProperties.filled_cells := filled_cells |}.

End grid_ops.

(** ** pattern_testing.py, symmetry and repetition *)

Module pattern_testing.
Import np.

(** [range(start, stop)] and [range(start, stop, step)] for a positive
    step *)
Definition range_from (start stop : Z) : list Z := seqZ start (stop - start).
Definition range_step (start stop step : Z) : list Z :=
  map (λ q, start + q * step) (seqZ 0 ((stop - start + step - 1) `div` step)).

(** an entry of ['symmetry_types'] *)
Inductive Symmetry :=
  | horizontal_reflection (position : Z)
  | vertical_reflection (position : Z)
  | rotational (order : Z).

Record SymmetryResults := mk_symmetry {
  symmetry_found : bool;
  symmetry_types : list Symmetry
}.

Definition test_symmetry (grid : Grid) : SymmetryResults :=
  let results := mk_symmetry false [] in
  (* horizontal reflection *)
  let results :=
    foldl (λ results i,
             let top := take (Z.to_nat i) grid in
             let bottom := drop (Z.to_nat i) grid in
             if bool_decide (length top = length bottom)
                && array_equal top (flip bottom 0)
             then mk_symmetry true (symmetry_types results
                                    ++ [horizontal_reflection i])
             else results)
          results (range_from 1 (height grid)) in
  (* vertical reflection *)
  let results :=
    foldl (λ results i,
             let left := map (take (Z.to_nat i)) grid in
             let right := map (drop (Z.to_nat i)) grid in
             if bool_decide (width left = width right)
                && array_equal left (flip right 1)
             then mk_symmetry true (symmetry_types results
                                    ++ [vertical_reflection i])
             else results)
          results (range_from 1 (width grid)) in
  (* rotational symmetry *)
  foldl (λ results k,
           if array_equal grid (rot90 grid k)
           then mk_symmetry true (symmetry_types results ++ [rotational k])
           else results)
        results [2; 4].

(** an entry of ['patterns'] of [test_repetition] *)
Inductive Repetition :=
  | horizontal_repeat (block : Grid) (block_size : Z * Z) (repetitions : Z)
  | vertical_repeat (block : Grid) (block_size : Z * Z) (repetitions : Z).

Record RepetitionResults := mk_repetition {
  repetition_found : bool;
  patterns : list Repetition
}.

(** the body of the two nested loops, for one block size *)
Definition test_block (grid : Grid) (h : Z) (results : RepetitionResults)
    (w : Z) : RepetitionResults :=
  let block := slice grid 0 h 0 w in
  let results :=
    if bool_decide (width grid `mod` w = 0)
    then
      let horizontal_blocks :=
        map (λ i, slice grid 0 h i (i + w)) (range_step 0 (width grid) w) in
      if forallb (array_equal block) horizontal_blocks
      then mk_repetition true
             (patterns results
              ++ [horizontal_repeat block (h, w)
                    (Z.of_nat (length horizontal_blocks))])
      else results
    else results in
  if bool_decide (height grid `mod` h = 0)
  then
    let vertical_blocks :=
      map (λ i, slice grid i (i + h) 0 w) (range_step 0 (height grid) h) in
    if forallb (array_equal block) vertical_blocks
    then mk_repetition true
           (patterns results
            ++ [vertical_repeat block (h, w)
                  (Z.of_nat (length vertical_blocks))])
    else results
  else results.

Definition test_repetition (grid : Grid) : RepetitionResults :=
  foldl (λ results h,
           foldl (test_block grid h) results
                 (range_from 1 (width grid `div` 2 + 1)))
        (mk_repetition false [])
        (range_from 1 (height grid `div` 2 + 1)).

End pattern_testing.

(** ** recipe_testing/data_handlers.py, the validation of a task *)

From stdpp Require Import pretty.
Open Scope Z_scope.

Module py.
#[local] Set Warnings "-register-all".
(** a value as [json.load] returns it; a dictionary lists its items, every
    key once *)
Inductive value :=
  | none
  | bool (b : Datatypes.bool)
  | int (z : Z)
  | float (f : PrimFloat.float)
  | str (s : string)
  | list (l : Datatypes.list value)
  | dict (d : Datatypes.list (string * value)).

(** [isinstance(v, list)], [isinstance(v, dict)] and
    [isinstance(v, (int, float))]; [bool] is a subclass of [int] *)
Definition is_list (v : value) : Datatypes.bool :=
  match v with list _ => true | _ => false end.
Definition is_dict (v : value) : Datatypes.bool :=
  match v with dict _ => true | _ => false end.
Definition is_number (v : value) : Datatypes.bool :=
  match v with bool _ | int _ | float _ => true | _ => false end.

(** the truth value of [v], which [not v] negates *)
Definition truth (v : value) : Datatypes.bool :=
  match v with
  | none => false
  | bool b => b
  | int z => negb (bool_decide (z = 0))
  | float f => negb (PrimFloat.eqb f PrimFloat.zero)
  | str s => negb (bool_decide (String.length s = 0%nat))
  | list l => negb (bool_decide (length l = 0%nat))
  | dict d => negb (bool_decide (length d = 0%nat))
  end.

(** [len(v)] *)
Definition len (v : value) : Result nat :=
  match v with
  | str s => Ok (String.length s)
  | list l => Ok (length l)
  | dict d => Ok (length d)
  | _ => Raise (TypeError "object has no len()")
  end.

(** the values [for x in v] visits: the elements of a list, the keys of
    a dictionary, the characters of a string *)
Definition iter (v : value) : Result (Datatypes.list value) :=
  match v with
  | str s =>
    Ok ((λ c, str (String c EmptyString)) <$> String.list_ascii_of_string s)
  | list l => Ok l
  | dict d => Ok (str <$> d.*1)
  | _ => Raise (TypeError "object is not iterable")
  end.

(** [v[i]] for an index [i] that is not negative; the keys of a dictionary
    are strings, so it never holds the key [i] *)
Definition index (v : value) (i : nat) : Result value :=
  match v with
  | str s =>
    match String.get i s with
    | Some c => Ok (str (String c EmptyString))
    | None => Raise (IndexError "string index out of range")
    end
  | list l =>
    match l !! i with
    | Some x => Ok x
    | None => Raise (IndexError "list index out of range")
    end
  | dict d => Raise (KeyError (pretty i))
  | _ => Raise (TypeError "object is not subscriptable")
  end.

(** [all(test(x) for x in l)]: the elements are tested in order, up to the
    first one that fails *)
Fixpoint all {A} (test : A → Result Datatypes.bool) (l : Datatypes.list A)
    : Result Datatypes.bool :=
  match l with
  | [] => Ok true
  | x :: l' =>
    match test x with
    | Ok true => all test l'
    | Ok false => Ok false
    | Raise e => Raise e
    end
  end.
End py.

Module task_data.
Section validate.
(** the text of a set of strings in an f-string; the order of the elements
    is not specified *)
Variable repr_set : list string → string.

(** [validate_grid], nested in [validate_example].  The argument is any
    value: what the checks leave unguarded raises the exception of the
    interpreter. *)
Definition validate_grid (grid : py.value) (grid_name : string)
    : Result () :=
  if negb (py.truth grid)
  then Raise (TaskError (grid_name +:+ " must be non-empty"))
  else
    rows ← py.iter grid;
    all_lists ← py.all (λ row, Ok (py.is_list row)) rows;
    if negb all_lists
    then Raise (TaskError (grid_name +:+ " must be a 2D grid"))
    else
      first ← py.index grid 0;
      width ← py.len first;
      rows ← py.iter grid;
      rectangular ←
        py.all (λ row, n ← py.len row; Ok (bool_decide (n = width))) rows;
      if negb rectangular
      then Raise (TaskError (grid_name +:+ " must be rectangular"))
      else
        rows ← py.iter grid;
        numbers ←
          py.all (λ row, vals ← py.iter row;
                         py.all (λ val, Ok (py.is_number val)) vals)
                 rows;
        if negb numbers
        then Raise (TaskError (grid_name +:+ " values must be numbers"))
        else Ok ().

(** [example['input']] and [example['output']] are looked up where the
    source first does, and raise [KeyError] when the key is missing *)
Definition validate_example (example : py.value) (name : string)
    : Result () :=
  match example with
  | py.dict d =>
    if negb (bool_decide ("input" ∈ dict.keys d))
       || negb (bool_decide ("output" ∈ dict.keys d))
    then Raise (TaskError (name +:+ " example must have input and output"))
    else
      input ← getitem "input" (dict.get d "input");
      if negb (py.is_list input)
      then Raise (TaskError (name +:+ " input must be a list"))
      else
        output ← getitem "output" (dict.get d "output");
        if negb (py.is_list output)
        then Raise (TaskError (name +:+ " output must be a list"))
        else if negb (py.truth input) || negb (py.truth output)
        then Raise (TaskError (name +:+ " input and output must be non-empty"))
        else
          validate_grid input (name +:+ " input");;
          validate_grid output (name +:+ " output")
  | _ => Raise (TaskError (name +:+ " example must be a dictionary"))
  end.

(** the two loops over the examples, numbered from 1 *)
Definition validate_examples (examples : list py.value) (kind : string)
    : Result () :=
  for_each (imap (λ i example, (i, example)) examples)
    (λ _ (ie : nat * py.value),
       validate_example ie.2 (kind +:+ " example " +:+ pretty (ie.1 + 1)%nat))
    ().

Definition validate_task_data (task_data : py.value) : Result () :=
  match task_data with
  | py.dict d =>
    let missing :=
      List.filter (λ k, negb (bool_decide (k ∈ dict.keys d)))
                  ["task_id"; "train"; "test"] in
    if negb (bool_decide (length missing = 0%nat))
    then Raise (TaskError ("Missing required keys: " +:+ repr_set missing))
    else
      train ← getitem "train" (dict.get d "train");
      if negb (py.is_list train)
      then Raise (TaskError "Train data must be a list")
      else
        test ← getitem "test" (dict.get d "test");
        if negb (py.is_list test)
        then Raise (TaskError "Test data must be a list")
        else if negb (py.truth train) || negb (py.truth test)
        then Raise (TaskError "Train and test data must be non-empty")
        else
          examples ← py.iter train;
          validate_examples examples "Training";;
          examples ← py.iter test;
          validate_examples examples "Test"
  | _ => Raise (TaskError "Task data must be a dictionary")
  end.
End validate.
End task_data.

(** * Specification-side definitions *)

(** ** The two concrete scenarios *)

Module scenario1.
Definition input : np.Grid := [[0; 0; 0]; [0; 1; 0]; [0; 0; 0]].
Definition output : np.Grid := [[1; 1; 1]; [1; 0; 1]; [1; 1; 1]].
End scenario1.

Module scenario2.
Definition train_in : np.Grid := [[1; 0; 0]; [0; 0; 0]; [0; 0; 0]].
Definition train_out : np.Grid := [[0; 0; 1]; [0; 0; 0]; [0; 0; 0]].
Definition test_in : np.Grid := [[0; 1; 0]; [0; 0; 0]; [0; 0; 0]].

(** a consistent hypothesis that holds a global transform and nothing
    else *)
Definition only_global (t : Transform.t) : Consistent.t :=
  {| Consistent.value_mappings := Some [];
     Consistent.object_transforms :=
       Some (ConsistentObjects.mk None (Some []));
     Consistent.spatial_transforms :=
       Some (ConsistentSpatial.mk (Some t) (Some [])) |}.

(** the prediction for the test input, stored alone in the heap *)
Definition predict (frames : nat) (t : Transform.t) : Result np.Grid :=
  match TransformationPredictor._apply_transforms frames
          (ndarray.mk 0 []) (only_global t) [test_in] with
  | Ok (prediction, σ) => Ok (ndarray.read σ prediction)
  | Raise e => Raise e
  end.
End scenario2.


(** ** Grids and their cells *)

(** all rows as long as the first one *)
Definition rectangular (g : np.Grid) : Prop :=
  Forall (λ row, length row = length (default [] (head g))) g.

(** the invariant of the data model: at least one row, all rows of one
    length greater than zero *)
Definition well_formed (g : np.Grid) : Prop :=
  g ≠ [] ∧ rectangular g ∧ 0 < np.width g.

(** the cell lies inside the shape of the grid *)
Definition in_bounds (g : np.Grid) (p : np.Cell) : Prop :=
  0 ≤ p.1 < np.height g ∧ 0 ≤ p.2 < np.width g.

(** the cell exists in the grid and holds a non-zero value *)
Definition nonzero_cell (g : np.Grid) (p : np.Cell) : Prop :=
  0 ≤ p.1 ∧ 0 ≤ p.2 ∧
  ∃ row x, g !! Z.to_nat p.1 = Some row ∧ row !! Z.to_nat p.2 = Some x ∧ x ≠ 0.

(** all cells inside the shape of the grid *)
Definition cells_of (g : np.Grid) : gset np.Cell :=
  list_to_set (np.indices (np.shape g)).

(** what one call of [flood_fill] adds: [res.1] are the new cells, all of
    them unseen before, inside the grid and of the given value, and [res.2]
    is the set of seen cells extended by them *)
Definition fill_ok (g : np.Grid) (v : Z) (seen : gset np.Cell)
    (res : list np.Cell * gset np.Cell) : Prop :=
  res.2 = seen ∪ list_to_set res.1
  ∧ NoDup res.1
  ∧ ∀ p, p ∈ res.1 → (p ∉ seen) ∧ in_bounds g p ∧ np.get g p.1 p.2 = v.

(** the invariant of the scan of [get_objects] *)
Definition scan_ok (g : np.Grid) (st : list Object.t * gset np.Cell) : Prop :=
  st.2 = list_to_set (concat (Object.coords <$> st.1))
  ∧ NoDup (concat (Object.coords <$> st.1))
  ∧ ∀ p, p ∈ st.2 → in_bounds g p ∧ np.get g p.1 p.2 ≠ 0.

(** ** Whole-grid relations of the global-transform analysis *)

(** the second grid is the first one turned by 90, 180 or 270 degrees *)
Definition rotation_equality (g1 g2 : np.Grid) : Prop :=
  ∃ k, k ∈ [1; 2; 3] ∧ np.rot90 g1 k = g2.

(** the second grid is the first one flipped on one axis *)
Definition flip_equality (g1 g2 : np.Grid) : Prop :=
  np.flip g1 0 = g2 ∨ np.flip g1 1 = g2.

(** the second grid is the first one scaled by an integer factor *)
Definition scaling_equality (g1 g2 : np.Grid) : Prop :=
  ∃ k, 0 < k ∧ np.kron_ones g1 k = Ok g2.

(** the dimensions of the second grid are one common integer multiple of
    the dimensions of the first *)
Definition dimensions_scaled (g1 g2 : np.Grid) : Prop :=
  np.height g2 `mod` np.height g1 = 0
  ∧ np.width g2 `mod` np.width g1 = 0
  ∧ np.height g2 `div` np.height g1 = np.width g2 `div` np.width g1.

(** ** Position categories of the value-mapping analysis *)

(** the output values found at the positions of one category, in scan
    order *)
Definition category_values (positions : list np.Cell) (out_vals : list Z)
    (shape : Z * Z) (k : PosType) : list Z :=
  (filter (λ po : np.Cell * Z,
             TransformationAnalyzer._get_position_type po.1 shape = k)
          (zip positions out_vals)).*2.

(** the category occurs and maps to the single output value [x] *)
Definition single_valued (values : list Z) (x : Z) : Prop :=
  values ≠ [] ∧ ∀ y, y ∈ values → y = x.

Module scenario_conditional.
(** the value 1 sits on one corner and on two edge cells; the corner
    becomes 2, the edge cells become 3 and 4 *)
Definition input : np.Grid := [[1; 1; 0]; [1; 0; 0]; [0; 0; 0]].
Definition output : np.Grid := [[2; 3; 0]; [4; 0; 0]; [0; 0; 0]].
End scenario_conditional.

(** ** The parts of the consistent hypothesis *)

Definition kept_value_mappings (transforms : list Analysis.t)
    : list (Z * ValueMapping.t) :=
  default [] (Consistent.value_mappings
                (TransformationPredictor._find_consistent_transforms transforms)).

Definition kept_count_change (transforms : list Analysis.t) : option Z :=
  Consistent.object_transforms
    (TransformationPredictor._find_consistent_transforms transforms)
  ≫= ConsistentObjects.object_count_change.

Definition kept_object_mappings (transforms : list Analysis.t)
    : list ConsistentMapping.t :=
  default [] (Consistent.object_transforms
                (TransformationPredictor._find_consistent_transforms transforms)
              ≫= ConsistentObjects.mappings).

Definition kept_global_transform (transforms : list Analysis.t)
    : option Transform.t :=
  Consistent.spatial_transforms
    (TransformationPredictor._find_consistent_transforms transforms)
  ≫= ConsistentSpatial.global_transform.

Definition kept_relative_positions (transforms : list Analysis.t)
    : list RelChange.t :=
  default [] (Consistent.spatial_transforms
                (TransformationPredictor._find_consistent_transforms transforms)
              ≫= ConsistentSpatial.relative_positions).

(** some object of the analysed pair has exactly one match, and the
    transform of that match is [transform] *)
Definition has_single_match (t : Analysis.t) (transform : Transform.t)
    : Prop :=
  ∃ m mt, m ∈ ObjectAnalysis.object_mappings (Analysis.object_transforms t)
          ∧ ObjectMapping.matches m = [mt]
          ∧ Match.transform mt = transform.

(** the analysed pair has a relative-position change equal to [rc] *)
Definition has_change (t : Analysis.t) (rc : RelChange.t) : Prop :=
  ∃ rc', rc' ∈ SpatialAnalysis.relative_positions
                 (Analysis.spatial_transforms t)
         ∧ TransformationPredictor.same_change rc rc' = true.

(** the dictionaries of the analysed pairs have no repeated key *)
Definition dict_keys_unique (ts : list Analysis.t) : Prop :=
  Forall (λ t, NoDup (dict.keys (Analysis.value_mappings t))) ts.

Module scenario_order.
(** two training pairs with one object each, which doubles in size: of
    value 1 in the first pair and of value 2 in the second *)
Definition in_a : np.Grid := [[1; 0]; [0; 0]].
Definition out_a : np.Grid := [[1; 1]; [1; 1]].
Definition in_b : np.Grid := [[2; 0]; [0; 0]].
Definition out_b : np.Grid := [[2; 2]; [2; 2]].

(** the analysis [predict_output] makes of a pair.  The grids above hold
    no two objects, so [arctan2] is never called. *)
Definition analysis (frames : nat) (input output : np.Grid)
    : Result Analysis.t :=
  value_mappings ←
    TransformationAnalyzer.analyze_value_mappings input output;
  object_transforms ←
    TransformationAnalyzer.analyze_object_transformations frames input output;
  spatial_transforms ←
    TransformationAnalyzer.analyze_spatial_transformations
      (λ _ _, PrimFloat.zero) frames input output;
  Ok (Analysis.mk value_mappings object_transforms spatial_transforms).
End scenario_order.

Module scenario_reduction.
(** an analysis with one direct value mapping and nothing else *)
Definition t0 : Analysis.t :=
  Analysis.mk [(1, ValueMapping.direct 2)]
              (ObjectAnalysis.mk 0 [])
              (SpatialAnalysis.mk Transform.none []).
End scenario_reduction.

(** ** Lines of the progression detector *)

(** the row or the column a location names *)
Definition line_at (grid : np.Grid) (location : PatternTester.Location)
    : option (list Z) :=
  match location with
  | PatternTester.row_ i => grid !! i
  | PatternTester.col_ i => np.transpose grid !! i
  end.

(** ** Storage *)

(** The computation [m] leaves the buffer [a0] alone: started in a heap
    that holds [a0], whenever it returns it returns a value that satisfies
    [Q], in a heap where [a0] has its old contents. *)
Definition keeps {A} (a0 : nat) (m : M A) (Q : A → Prop) : Prop :=
  ∀ σ, (a0 < length σ)%nat →
    match m σ with
    | Ok (a, σ') => (a0 < length σ')%nat ∧ σ' !! a0 = σ !! a0 ∧ Q a
    | Raise e => True
    end.

(** no value mapping, no object transform, no global transform and no
    relative-position change survived *)
Definition empty_hypothesis (transforms : Consistent.t) : Prop :=
  Consistent.value_mappings transforms = Some []
  ∧ (∃ object_transforms,
       Consistent.object_transforms transforms = Some object_transforms
       ∧ default [] (ConsistentObjects.mappings object_transforms) = [])
  ∧ (∃ spatial,
       Consistent.spatial_transforms transforms = Some spatial
       ∧ default Transform.none (ConsistentSpatial.global_transform spatial)
         = Transform.none
       ∧ default [] (ConsistentSpatial.relative_positions spatial) = []).

Module scenario_empty.
(** the hypothesis [_find_consistent_transforms] returns when nothing
    survived *)
Definition transforms : Consistent.t :=
  {| Consistent.value_mappings := Some [];
     Consistent.object_transforms :=
       Some (ConsistentObjects.mk None (Some []));
     Consistent.spatial_transforms :=
       Some (ConsistentSpatial.mk None (Some [])) |}.
End scenario_empty.

(** ** Connected components *)

(** two cells that share a side *)
Definition adjacent (p q : np.Cell) : Prop :=
  (p.1 = q.1 ∧ (p.2 = q.2 + 1 ∨ q.2 = p.2 + 1))
  ∨ (p.2 = q.2 ∧ (p.1 = q.1 + 1 ∨ q.1 = p.1 + 1)).

(** a path of adjacent cells, all of them in [cells], from the first cell
    to the second *)
Inductive connected_in (cells : list np.Cell) : np.Cell → np.Cell → Prop :=
  | connected_here (p : np.Cell) :
      p ∈ cells → connected_in cells p p
  | connected_step (p q r : np.Cell) :
      p ∈ cells → adjacent p q → connected_in cells q r →
      connected_in cells p r.

(** what [flood_fill] adds, seen from its start cell: the start cell comes
    first, every new cell is linked to it through new cells, and around a
    new cell all cells of the value are seen afterwards *)
Definition fill_component (g : np.Grid) (v : Z) (start : np.Cell)
    (res : list np.Cell * gset np.Cell) : Prop :=
  (res.1 ≠ [] → head res.1 = Some start)
  ∧ (∀ p, p ∈ res.1 → connected_in res.1 start p)
  ∧ (∀ p q, p ∈ res.1 → adjacent p q → in_bounds g q →
            np.get g q.1 q.2 = v → q ∈ res.2)
  ∧ (in_bounds g start → np.get g start.1 start.2 = v → start ∈ res.2).

(** an object as [get_objects] builds it: a non-empty list of cells of one
    non-zero value, linked to its first cell, that holds every adjacent
    cell of the same value *)
Definition component (g : np.Grid) (o : Object.t) : Prop :=
  o = GridOperations.make_object (Object.value o) (Object.coords o)
  ∧ Object.coords o ≠ []
  ∧ Object.value o ≠ 0
  ∧ (∀ p, p ∈ Object.coords o →
          in_bounds g p ∧ np.get g p.1 p.2 = Object.value o)
  ∧ (∀ p, p ∈ Object.coords o →
          ∃ start, head (Object.coords o) = Some start
                   ∧ connected_in (Object.coords o) start p)
  ∧ (∀ p q, p ∈ Object.coords o → adjacent p q → in_bounds g q →
            np.get g q.1 q.2 = np.get g p.1 p.2 → q ∈ Object.coords o).

(** a grid with four objects, two of them of value 1 *)
Definition three_values : np.Grid := [[1; 1; 0]; [0; 2; 0]; [3; 0; 1]].

(** ** Counting *)

(** the number of entries of a list that equal [v] *)
Definition occurrences (v : Z) (l : list Z) : Z :=
  Z.of_nat (length (filter (λ x, x = v) l)).

(** a grid of [h] rows that all have [w] entries *)
Definition has_shape (g : np.Grid) (h w : nat) : Prop :=
  length g = h ∧ Forall (λ row, length row = w) g.

(** the entry in row [i] and column [j], if there is one *)
Definition cell (g : np.Grid) (i j : nat) : option Z :=
  row ← g !! i; row !! j.

(** ** Matching objects *)

(** how many of value, size and dimensions two objects share *)
Definition match_score (obj other : Object.t) : Z :=
  (if bool_decide (Object.value obj = Object.value other) then 1 else 0)
  + (if bool_decide (Object.size obj = Object.size other) then 1 else 0)
  + (if bool_decide (Object.dimensions obj = Object.dimensions other)
     then 1 else 0).

(** ** Symmetry and repetition *)

(** the grid agrees with its mirror image across the horizontal middle
    line, across the vertical middle line, and with its half turn *)
Definition mirror_rows (g : np.Grid) : Prop :=
  ∀ r c, in_bounds g (r, c) →
    np.get g r c = np.get g (np.height g - 1 - r) c.
Definition mirror_columns (g : np.Grid) : Prop :=
  ∀ r c, in_bounds g (r, c) →
    np.get g r c = np.get g r (np.width g - 1 - c).
Definition half_turn (g : np.Grid) : Prop :=
  ∀ r c, in_bounds g (r, c) →
    np.get g r c = np.get g (np.height g - 1 - r) (np.width g - 1 - c).

(** the first [h] rows repeat with period [w] along the columns; the
    first [w] columns repeat with period [h] along the rows *)
Definition periodic_columns (g : np.Grid) (h w : Z) : Prop :=
  ∀ r c, 0 ≤ r < h → 0 ≤ c < np.width g →
    np.get g r c = np.get g r (c `mod` w).
Definition periodic_rows (g : np.Grid) (h w : Z) : Prop :=
  ∀ r c, 0 ≤ r < np.height g → 0 ≤ c < w →
    np.get g r c = np.get g (r `mod` h) c.

(** ** Applying a hypothesis *)

(** the computation returns from every heap *)
Definition returns {A} (m : M A) : Prop :=
  ∀ σ, ∃ a σ', m σ = Ok (a, σ').

(** all three keys are present, no scaling factor is negative and no
    relative-position change has survived *)
Definition applicable (transforms : Consistent.t) : Prop :=
  ∃ value_mappings object_transforms spatial,
    Consistent.value_mappings transforms = Some value_mappings
    ∧ Consistent.object_transforms transforms = Some object_transforms
    ∧ Consistent.spatial_transforms transforms = Some spatial
    ∧ (∀ factor, ConsistentSpatial.global_transform spatial
                 = Some (Transform.scale factor) → 0 ≤ factor)
    ∧ (∀ mapping factor,
         mapping ∈ default [] (ConsistentObjects.mappings object_transforms) →
         ConsistentMapping.transform mapping = Transform.scale factor →
         0 ≤ factor)
    ∧ default [] (ConsistentSpatial.relative_positions spatial) = [].

(** the global transform of a hypothesis; a hypothesis without one is
    applied like one of type [none] *)
Definition global_transform_of (transforms : Consistent.t) : Transform.t :=
  default Transform.none
    (Consistent.spatial_transforms transforms
     ≫= ConsistentSpatial.global_transform).

(** a mask of [h] rows that all have [w] entries *)
Definition mask_shape (m : np.Mask) (h w : nat) : Prop :=
  length m = h ∧ Forall (λ row, length row = w) m.


(** the image of a grid under a global transform *)
Definition global_image (t : Transform.t) (g : np.Grid) : Result np.Grid :=
  match t with
  | Transform.rotation degrees => Ok (np.rot90 g (degrees `div` 90))
  | Transform.flip horizontal => Ok (np.flip g 0)
  | Transform.flip vertical => Ok (np.flip g 1)
  | Transform.scale factor => np.kron_ones g factor
  | _ => Ok g
  end.

(** what one value mapping does to one entry when it is applied on its
    own: a direct mapping replaces its value, a complex one changes
    nothing *)
Definition substitute (x : Z) (vm : Z * ValueMapping.t) : Z :=
  match vm.2 with
  | ValueMapping.direct to => if bool_decide (x = vm.1) then to else x
  | _ => x
  end.

Definition not_conditional (vm : Z * ValueMapping.t) : Prop :=
  ∀ conditions, vm.2 ≠ ValueMapping.conditional conditions.

(** ** Matches between objects *)

(** [mt] pairs the input object with an object of the output grid whose
    subgrid is related to the subgrid of the input object by a transform
    other than [none] *)
Definition object_match (input output : np.Grid) (in_obj : Object.t)
    (output_objects : list Object.t) (mt : Match.t) : Prop :=
  Match.output_object mt ∈ output_objects
  ∧ Match.transform mt ≠ Transform.none
  ∧ TransformationAnalyzer._find_object_transform
      (GridOperations.get_object_grid input in_obj)
      (GridOperations.get_object_grid output (Match.output_object mt))
    = Ok (Match.transform mt).

(** ** Well-formed task data *)

(** a row of [w] numbers *)
Definition number_row (w : nat) (row : py.value) : Prop :=
  ∃ vals, row = py.list vals ∧ length vals = w
          ∧ Forall (λ v, py.is_number v = true) vals.

(** a list of at least one row, all rows of the same length *)
Definition valid_grid (grid : py.value) : Prop :=
  ∃ rows w, grid = py.list rows ∧ rows ≠ [] ∧ Forall (number_row w) rows.

Definition valid_example (example : py.value) : Prop :=
  ∃ d input output,
    example = py.dict d
    ∧ dict.get d "input" = Some input ∧ dict.get d "output" = Some output
    ∧ valid_grid input ∧ valid_grid output.

Definition valid_task (task_data : py.value) : Prop :=
  ∃ d train test,
    task_data = py.dict d
    ∧ "task_id" ∈ dict.keys d
    ∧ dict.get d "train" = Some (py.list train)
    ∧ dict.get d "test" = Some (py.list test)
    ∧ train ≠ [] ∧ test ≠ []
    ∧ Forall valid_example train ∧ Forall valid_example test.

(** the elements of a value that is a list *)
Definition elements (v : py.value) : list py.value :=
  match v with py.list l => l | _ => [] end.

(** a grid of integers as a Python value *)
Definition py_grid (g : np.Grid) : py.value :=
  py.list (map (λ row, py.list (map py.int row)) g).

(** * Properties *)

(** ** The two concrete scenarios *)

(** C3, as stated, fails: the analysis of scenario 1 holds no entry for the
    background value 0. *)
Lemma scenario1_background_not_mapped :
  ¬ ∃ m, TransformationAnalyzer.analyze_value_mappings
           scenario1.input scenario1.output = Ok m
         ∧ dict.get m 0 = Some (ValueMapping.direct 1)
         ∧ dict.get m 1 = Some (ValueMapping.direct 0).
Proof.
  intros (m & Hm & H0 & _).
  vm_compute in Hm. injection Hm as <-. discriminate H0.
Qed.

(** C3 (amended): for scenario 1 the value-mapping analysis reports exactly
    one mapping, input value 1 direct to 0; the background value 0 is
    skipped and has no entry. *)
Theorem scenario1_value_mappings :
  TransformationAnalyzer.analyze_value_mappings
    scenario1.input scenario1.output
  = Ok [(1, ValueMapping.direct 0)].
Proof. vm_compute. reflexivity. Qed.

(** C6, as stated, fails: the training pair of scenario 2 is reported as a
    rotation, the rotations being tried before the flips, and the rotated
    test input is not the test input. *)
Lemma scenario2_not_a_flip :
  ¬ (TransformationAnalyzer._find_global_transform
       scenario2.train_in scenario2.train_out
     = Ok (Transform.flip vertical)
     ∧ ∃ frames t, TransformationAnalyzer._find_global_transform
                     scenario2.train_in scenario2.train_out = Ok t
                   ∧ scenario2.predict frames t = Ok scenario2.test_in).
Proof. intros [H _]. vm_compute in H. discriminate H. Qed.

(** C6 (amended): for the training pair of scenario 2 the global-transform
    analysis reports rotation(degrees=270), and applying that transform to
    the test input [[0,1,0],[0,0,0],[0,0,0]] produces
    [[0,0,0],[0,0,1],[0,0,0]].  The one object of the prediction is a
    single cell, so the interpreter has to admit two nested calls of the
    flood fill, one for the cell and one for each of its neighbours. *)
Theorem scenario2_rotation (frames : nat) :
  (2 ≤ frames)%nat →
  TransformationAnalyzer._find_global_transform
    scenario2.train_in scenario2.train_out
  = Ok (Transform.rotation 270)
  ∧ scenario2.predict frames (Transform.rotation 270)
    = Ok [[0; 0; 0]; [0; 0; 1]; [0; 0; 0]].
Proof.
  intros Hframes. do 2 (destruct frames as [|frames]; [lia|]).
  split; vm_compute; reflexivity.
Qed.

Lemma scenario2_rotation_witness :
  TransformationAnalyzer._find_global_transform
    scenario2.train_in scenario2.train_out
  = Ok (Transform.rotation 270)
  ∧ scenario2.predict sys.getrecursionlimit (Transform.rotation 270)
    = Ok [[0; 0; 0]; [0; 0; 1]; [0; 0; 0]].
Proof.
  apply (scenario2_rotation sys.getrecursionlimit).
  unfold sys.getrecursionlimit. lia.
Defined.

(** In the whole prediction for scenario 2 the value mapping of the
    training pair, 1 direct to 0, survives as well, and the rotated 1 is
    then mapped to 0. *)
Example scenario2_whole_prediction (arctan2 : float → float → float)
    (frames : nat) :
  (2 ≤ frames)%nat →
  match TransformationPredictor.predict_output arctan2 frames
          (ndarray.mk 0 [])
          [scenario2.train_in] [scenario2.train_out] [scenario2.test_in] with
  | Ok (prediction, σ) => Ok (ndarray.read σ prediction)
  | Raise e => Raise e
  end
  = Ok [[0; 0; 0]; [0; 0; 0]; [0; 0; 0]].
Proof.
  intros Hframes. do 2 (destruct frames as [|frames]; [lia|]).
  vm_compute. reflexivity.
Qed.

(** ** Prediction without training pairs *)

(** C10: with no training pair the consistent-transform set is the empty
    dictionary, and [_apply_transforms] raises the [KeyError] of the
    missing ['spatial_transforms'] key. *)
Theorem predict_output_no_training_pairs
    (arctan2 : float → float → float) (frames : nat) (input_grid : ndarray.t)
    (training_inputs training_outputs : list np.Grid) (σ : ndarray.Heap) :
  zip training_inputs training_outputs = [] →
  TransformationPredictor._find_consistent_transforms [] = Consistent.empty_dict
  ∧ TransformationPredictor.predict_output arctan2 frames input_grid
      training_inputs training_outputs σ
    = Raise (KeyError "spatial_transforms").
Proof.
  intros Hzip. split; [reflexivity|].
  unfold TransformationPredictor.predict_output. rewrite Hzip.
  reflexivity.
Qed.

Lemma predict_output_no_training_pairs_witness :
  TransformationPredictor._find_consistent_transforms [] = Consistent.empty_dict
  ∧ TransformationPredictor.predict_output (λ _ _, PrimFloat.zero)
      sys.getrecursionlimit (ndarray.mk 0 []) [] [] [scenario2.test_in]
    = Raise (KeyError "spatial_transforms").
Proof.
  apply (predict_output_no_training_pairs (λ _ _, PrimFloat.zero)
           sys.getrecursionlimit (ndarray.mk 0 []) [] [] [scenario2.test_in]).
  reflexivity.
Defined.

(** ** Loops *)

Lemma for_each_app {A S} (l1 l2 : list A) (body : S → A → Result S) s :
  for_each (l1 ++ l2) body s = s' ← for_each l1 body s; for_each l2 body s'.
Proof.
  revert s. induction l1 as [|x l1 IH]; intros s; simpl; [done|].
  destruct (body s x) as [s'|e]; simpl; [apply IH|done].
Qed.

(** nested loops run as one loop over the pairs *)
Lemma for_each_bind {A B S} (l : list A) (k : A → list B)
    (body : S → B → Result S) s :
  for_each (l ≫= k) body s = for_each l (λ s x, for_each (k x) body s) s.
Proof.
  revert s. induction l as [|x l IH]; intros s; [done|].
  change ((x :: l) ≫= k) with (k x ++ (l ≫= k)).
  rewrite for_each_app. simpl.
  destruct (for_each (k x) body s) as [s'|e]; simpl; [apply IH|done].
Qed.

(** a loop whose body never raises and maintains [I] on the elements
    already visited *)
Lemma for_each_invariant {A S} (I : list A → S → Prop)
    (body : S → A → Result S) (l : list A) (s : S) :
  I [] s →
  (∀ visited x s, I visited s → x ∈ l →
     ∃ s', body s x = Ok s' ∧ I (visited ++ [x]) s') →
  ∃ s', for_each l body s = Ok s' ∧ I l s'.
Proof.
  intros Hinit Hstep.
  cut (∀ rest visited s, visited ++ rest = l → I visited s →
         ∃ s', for_each rest body s = Ok s' ∧ I l s').
  { intros H. apply (H l [] s); done. }
  induction rest as [|x rest IH]; intros visited s0 Hl HI.
  - rewrite app_nil_r in Hl. subst. by exists s0.
  - destruct (Hstep visited x s0 HI) as (s1 & Hb & HI1).
    { subst l. set_solver. }
    simpl. rewrite Hb. simpl.
    apply (IH (visited ++ [x])); [by rewrite <- app_assoc|done].
Qed.

(** ** The cells of a grid *)

Lemma elem_of_range (n x : Z) : x ∈ np.range n ↔ 0 ≤ x < n.
Proof. unfold np.range. rewrite elem_of_seqZ. lia. Qed.

Lemma elem_of_indices (h w : Z) (p : np.Cell) :
  p ∈ np.indices (h, w) ↔ 0 ≤ p.1 < h ∧ 0 ≤ p.2 < w.
Proof.
  unfold np.indices. simpl. rewrite list_elem_of_bind. split.
  - intros (r & Hp & Hr). apply list_elem_of_bind in Hp as (c & Hp & Hc).
    apply list_elem_of_singleton in Hp as ->. simpl.
    by rewrite <- !elem_of_range.
  - intros [Hr Hc]. exists p.1. rewrite elem_of_range. split; [|done].
    apply list_elem_of_bind. exists p.2. rewrite elem_of_range.
    split; [|done]. destruct p. by apply list_elem_of_singleton.
Qed.

Lemma length_bind_const {A B} (f : A → list B) (n : nat) (l : list A) :
  (∀ x, length (f x) = n) → length (l ≫= f) = (length l * n)%nat.
Proof.
  intros Hf. induction l as [|x l IH]; [done|].
  rewrite bind_cons, length_app, IH, Hf. simpl. lia.
Qed.

Lemma length_indices (h w : Z) :
  length (np.indices (h, w)) = (Z.to_nat h * Z.to_nat w)%nat.
Proof.
  unfold np.indices, np.range. simpl.
  rewrite (length_bind_const _ (Z.to_nat w)).
  - by rewrite length_seqZ.
  - intros r. rewrite (length_bind_const _ 1%nat); [|done].
    rewrite length_seqZ. lia.
Qed.

Lemma elem_of_cells_of (g : np.Grid) (p : np.Cell) :
  p ∈ cells_of g ↔ in_bounds g p.
Proof.
  unfold cells_of, np.shape, in_bounds.
  by rewrite elem_of_list_to_set, elem_of_indices.
Qed.

Lemma size_list_to_set_le (l : list np.Cell) :
  (size (list_to_set l : gset np.Cell) ≤ length l)%nat.
Proof.
  induction l as [|x l IH].
  - change (list_to_set [] : gset np.Cell) with (∅ : gset np.Cell).
    by rewrite size_empty.
  - change (list_to_set (x :: l) : gset np.Cell)
      with ({[x]} ∪ list_to_set l : gset np.Cell).
    rewrite size_union_alt, size_singleton. simpl.
    assert (size (list_to_set l ∖ {[x]} : gset np.Cell)
            ≤ size (list_to_set l : gset np.Cell))%nat
      by (apply subseteq_size; set_solver).
    lia.
Qed.

Lemma size_cells_of (g : np.Grid) :
  (size (cells_of g) ≤ Z.to_nat (np.height g * np.width g))%nat.
Proof.
  unfold cells_of, np.shape.
  etrans; [apply size_list_to_set_le|]. rewrite length_indices. lia.
Qed.

(** ** [flood_fill] *)

Lemma fill_ok_app (g : np.Grid) (v : Z) seen st res :
  fill_ok g v seen st → fill_ok g v st.2 res →
  fill_ok g v seen (st.1 ++ res.1, res.2).
Proof.
  intros (Hs & Hnd & Hp) (Hs' & Hnd' & Hp'). unfold fill_ok. simpl.
  split_and!.
  - rewrite Hs', Hs, list_to_set_app_L. set_solver.
  - apply NoDup_app. split_and!; [done| |done].
    intros p Hin Hin'. destruct (Hp' p Hin') as (Hn & _).
    apply Hn. rewrite Hs. set_solver.
  - intros p [Hin|Hin]%elem_of_app; [by apply Hp|].
    destruct (Hp' p Hin) as (Hn & Hb & Hv). split_and!; [|done..].
    rewrite Hs in Hn. set_solver.
Qed.

Lemma fill_ok_size (g : np.Grid) (v : Z) seen res :
  fill_ok g v seen res →
  (size (cells_of g ∖ res.2) ≤ size (cells_of g ∖ seen))%nat.
Proof. intros (Hs & _). apply subseteq_size. rewrite Hs. set_solver. Qed.

(** the loop over the four neighbours, for any filling function that
    behaves on sets of seen cells with fewer than [n] cells left *)
Lemma fill_neighbours_ok (g : np.Grid) (v : Z) (n : nat)
    (F : Z → Z → gset np.Cell → Result (list np.Cell * gset np.Cell)) :
  (∀ r c seen, (size (cells_of g ∖ seen) < n)%nat →
     ∃ res, F r c seen = Ok res ∧ fill_ok g v seen res) →
  ∀ (ns : list np.Cell) seen st,
    fill_ok g v seen st → (size (cells_of g ∖ st.2) < n)%nat →
    ∃ st', for_each ns
             (λ (st : list np.Cell * gset np.Cell) (nb : np.Cell),
                res ← F nb.1 nb.2 st.2; Ok (st.1 ++ res.1, res.2)) st
           = Ok st'
         ∧ fill_ok g v seen st' ∧ ∀ p, p ∈ st.1 → p ∈ st'.1.
Proof.
  intros HF. induction ns as [|nb ns IH]; intros seen st Hok Hsz.
  - exists st. by split_and!.
  - destruct (HF nb.1 nb.2 st.2 Hsz) as (res & HFr & Hres).
    simpl. rewrite HFr. simpl.
    destruct (IH seen (st.1 ++ res.1, res.2)) as (st' & Hst' & Hok' & Hsub).
    + by apply fill_ok_app.
    + simpl. pose proof (fill_ok_size _ _ _ _ Hres). lia.
    + exists st'. split_and!; [done..|].
      intros p Hp. apply Hsub. simpl. set_solver.
Qed.

Lemma flood_fill_guard (g : np.Grid) (r c v : Z) (seen : gset np.Cell) :
  bool_decide (r < 0) || bool_decide (np.height g ≤ r)
  || bool_decide (c < 0) || bool_decide (np.width g ≤ c)
  || bool_decide (np.get g r c ≠ v) || bool_decide ((r, c) ∈ seen) = false
  ↔ in_bounds g (r, c) ∧ np.get g r c = v ∧ (r, c) ∉ seen.
Proof.
  rewrite !orb_false_iff, !bool_decide_eq_false. unfold in_bounds. simpl.
  split.
  - intros (((((? & ?) & ?) & ?) & Hv) & ?).
    assert (np.get g r c = v) by (by destruct (decide (np.get g r c = v))).
    split_and!; done || lia.
  - intros ((? & ?) & Hv & ?).
    assert (¬ np.get g r c ≠ v) by (by intros []).
    split_and!; done || lia.
Qed.

(** When the interpreter admits more nested calls than there are unseen
    cells, [flood_fill] returns: the cells it collects are new, distinct,
    inside the grid and of the requested value, and its start cell is among
    them when it qualifies. *)
Lemma flood_fill_ok (g : np.Grid) (v : Z) (frames : nat) :
  ∀ r c seen, (size (cells_of g ∖ seen) < frames)%nat →
  ∃ res, GridOperations.flood_fill frames g r c v seen = Ok res
       ∧ fill_ok g v seen res
       ∧ (in_bounds g (r, c) → np.get g r c = v → (r, c) ∉ seen →
          (r, c) ∈ res.1).
Proof.
  induction frames as [|fuel IH]; intros r c seen Hsz; [lia|].
  simpl.
  match goal with
  | |- context [if ?b then _ else _] => destruct b eqn:Hguard
  end.
  - exists ([], seen). split_and!; [done| |].
    + unfold fill_ok. simpl. split_and!; [set_solver|constructor|].
      intros p Hp. by apply elem_of_nil in Hp.
    + intros Hb Hv Hs.
      assert (bool_decide (r < 0) || bool_decide (np.height g ≤ r)
              || bool_decide (c < 0) || bool_decide (np.width g ≤ c)
              || bool_decide (np.get g r c ≠ v)
              || bool_decide ((r, c) ∈ seen) = false) as Hf
        by by apply flood_fill_guard.
      congruence.
  - apply flood_fill_guard in Hguard as (Hb & Hv & Hs).
    assert (size (cells_of g ∖ ({[(r, c)]} ∪ seen))
            < size (cells_of g ∖ seen))%nat as Hlt.
    { apply subset_size. apply elem_of_cells_of in Hb. set_solver. }
    destruct (fill_neighbours_ok g v fuel
                (λ r c seen, GridOperations.flood_fill fuel g r c v seen))
      with (ns := [(r + 1, c); (r - 1, c); (r, c + 1); (r, c - 1)])
           (seen := seen) (st := ([(r, c)], {[(r, c)]} ∪ seen))
      as (st' & Hst' & Hok' & Hsub).
    + intros r' c' seen' Hsz'.
      destruct (IH r' c' seen' Hsz') as (res & ? & ? & _). by exists res.
    + unfold fill_ok. simpl. split_and!.
      * set_solver.
      * apply NoDup_singleton.
      * intros p ->%list_elem_of_singleton. by split_and!.
    + simpl. lia.
    + exists st'. split_and!; [done..|].
      intros _ _ _. apply Hsub. simpl. set_solver.
Qed.

(** ** [get_objects] *)

Lemma for_each_ext {A S} (body1 body2 : S → A → Result S) (l : list A) s :
  (∀ s x, body1 s x = body2 s x) →
  for_each l body1 s = for_each l body2 s.
Proof.
  intros Hext. revert s. induction l as [|x l IH]; intros s; [done|].
  simpl. rewrite Hext. destruct (body2 s x); simpl; [apply IH|done].
Qed.

Lemma result_bind_ret {A} (m : Result A) : (x ← m; Ok x) = m.
Proof. by destruct m. Qed.

(** the two scanning loops visit the cells in row-major order *)
Lemma scan_loops_flat (frames : nat) (g : np.Grid) st :
  for_each (np.range (np.height g))
    (λ st r, for_each (np.range (np.width g))
               (λ st c, GridOperations.scan_cell frames g st (r, c)) st) st
  = for_each (np.indices (np.shape g)) (GridOperations.scan_cell frames g) st.
Proof.
  unfold np.indices, np.shape. simpl. rewrite for_each_bind.
  apply for_each_ext. intros s r. rewrite for_each_bind.
  apply for_each_ext. intros s' c. simpl. apply eq_sym, result_bind_ret.
Qed.

Lemma scan_cell_ok (frames : nat) (g : np.Grid) st (p : np.Cell) :
  np.height g * np.width g < Z.of_nat frames →
  scan_ok g st → in_bounds g p →
  ∃ st', GridOperations.scan_cell frames g st p = Ok st'
       ∧ scan_ok g st'
       ∧ st.2 ⊆ st'.2
       ∧ (np.get g p.1 p.2 ≠ 0 → p ∈ st'.2).
Proof.
  intros Hframes (Hseen & Hnd & Hcells) Hb. destruct p as [r c].
  unfold GridOperations.scan_cell.
  match goal with
  | |- context [if ?b then _ else _] => destruct b eqn:Hguard
  end.
  - apply andb_true_iff in Hguard as [Hs%bool_decide_eq_true
                                       Hv%bool_decide_eq_true].
    destruct (flood_fill_ok g (np.get g r c) frames r c st.2)
      as (res & -> & (Hres & Hnd' & Hp) & Hin).
    { pose proof (size_cells_of g).
      assert (size (cells_of g ∖ st.2) ≤ size (cells_of g))%nat
        by (apply subseteq_size; set_solver).
      assert (0 ≤ np.height g * np.width g)
        by (unfold np.height, np.width; lia).
      remember (np.height g * np.width g) as cells. lia. }
    specialize (Hin Hb eq_refl Hs). cbn [mbind result_bind].
    rewrite bool_decide_eq_true_2 by (intros E; rewrite E in Hin; set_solver).
    eexists. split; [done|]. simpl. split_and!.
    + unfold scan_ok. simpl.
      rewrite fmap_app, concat_app. simpl. rewrite app_nil_r.
      split_and!.
      * rewrite Hres, Hseen, list_to_set_app_L. done.
      * apply NoDup_app. split_and!; [done| |done].
        intros q Hq Hq'. destruct (Hp q Hq') as (Hn & _). apply Hn.
        rewrite Hseen. set_solver.
      * intros q. rewrite Hres. intros [Hq|Hq]%elem_of_union.
        -- by apply Hcells.
        -- apply elem_of_list_to_set in Hq.
           destruct (Hp q Hq) as (_ & ? & ->). done.
    + rewrite Hres. set_solver.
    + intros _. rewrite Hres. set_solver.
  - exists st. split_and!; [done|done|done|].
    intros Hv. apply andb_false_iff in Hguard as [Hg|Hg].
    + apply bool_decide_eq_false in Hg.
      by destruct (decide ((r, c) ∈ st.2)).
    + by apply bool_decide_eq_false in Hg.
Qed.

(** [get_objects] returns for a grid with fewer cells than the
    interpreter admits nested calls of [flood_fill]; the cells of the
    objects are pairwise distinct, and they are the cells inside the grid
    that hold a non-zero value. *)
Lemma get_objects_ok (frames : nat) (g : np.Grid) :
  np.height g * np.width g < Z.of_nat frames →
  ∃ objs, GridOperations.get_objects frames g = Ok objs
        ∧ NoDup (concat (Object.coords <$> objs))
        ∧ ∀ p, p ∈ concat (Object.coords <$> objs)
               ↔ in_bounds g p ∧ np.get g p.1 p.2 ≠ 0.
Proof.
  intros Hframes.
  unfold GridOperations.get_objects. rewrite scan_loops_flat.
  destruct (for_each_invariant
    (λ visited st, scan_ok g st
       ∧ ∀ p, p ∈ visited → np.get g p.1 p.2 ≠ 0 → p ∈ st.2)
    (GridOperations.scan_cell frames g) (np.indices (np.shape g)) ([], ∅))
    as (st & -> & (Hseen & Hnd & Hcells) & Hall).
  - split.
    + unfold scan_ok. simpl. split_and!; [done|constructor|set_solver].
    + intros p Hp. by apply elem_of_nil in Hp.
  - intros visited p st [Hok Hvis] Hp.
    apply elem_of_indices in Hp.
    destruct (scan_cell_ok frames g st p Hframes Hok Hp)
      as (st' & Hst' & Hok' & Hsub & Hin).
    exists st'. split_and!; [done..|].
    intros q [Hq| ->%list_elem_of_singleton]%elem_of_app Hv.
    + apply Hsub. by apply Hvis.
    + by apply Hin.
  - simpl. exists st.1. split_and!; [done..|].
    intros p. rewrite <- (elem_of_list_to_set (C := gset np.Cell)), <- Hseen.
    split; [apply Hcells|].
    intros [Hb Hv]. apply Hall; [|done].
    by apply elem_of_indices.
Qed.

Lemma nonzero_cell_iff (g : np.Grid) (p : np.Cell) :
  rectangular g →
  nonzero_cell g p ↔ in_bounds g p ∧ np.get g p.1 p.2 ≠ 0.
Proof.
  intros Hrect. unfold nonzero_cell, in_bounds, np.get, np.height, np.width.
  split.
  - intros (Hr & Hc & row & x & Hrow & Hx & Hnz).
    rewrite Hrow. simpl. rewrite Hx. simpl. split_and!; [done| |done| |done].
    + apply lookup_lt_Some in Hrow. lia.
    + apply lookup_lt_Some in Hx.
      unfold rectangular in Hrect. rewrite Forall_forall in Hrect.
      rewrite <- (Hrect row) by (by eapply list_elem_of_lookup_2). lia.
  - intros (((Hr & _) & (Hc & _)) & Hnz). split_and!; [done..|].
    destruct (g !! Z.to_nat p.1) as [row|]; [|done]. simpl in Hnz.
    destruct (row !! Z.to_nat p.2) as [x|] eqn:Hx; [|done].
    by exists row, x.
Qed.

Lemma elem_of_concat {A} (x : A) (ls : list (list A)) :
  x ∈ concat ls ↔ ∃ l, x ∈ l ∧ l ∈ ls.
Proof.
  induction ls as [|l ls IH]; simpl.
  - split; [by intros ?%elem_of_nil|]. by intros (l & _ & ?%elem_of_nil).
  - rewrite elem_of_app, IH. split.
    + intros [Hx|(l' & Hx & Hl')]; [exists l|exists l']; set_solver.
    + intros (l' & Hx & [->|Hl']%elem_of_cons); [by left|right; by exists l'].
Qed.

Lemma NoDup_concat_disjoint {A} (ls : list (list A)) (i j : nat) l1 l2 :
  NoDup (concat ls) → i ≠ j → ls !! i = Some l1 → ls !! j = Some l2 →
  ∀ x, x ∈ l1 → x ∉ l2.
Proof.
  revert i j. induction ls as [|l ls IH]; intros i j Hnd Hij Hi Hj x H1 H2;
    [done|].
  simpl in Hnd. apply NoDup_app in Hnd as (_ & Hdisj & Hnd).
  destruct i as [|i], j as [|j]; simpl in *; simplify_eq.
  - apply (Hdisj x H1). apply elem_of_concat.
    exists l2. split; [done|]. by eapply list_elem_of_lookup_2.
  - apply (Hdisj x H2). apply elem_of_concat.
    exists l1. split; [done|]. by eapply list_elem_of_lookup_2.
  - eapply (IH i j); eauto.
Qed.

(** ** The recursion limit *)

Lemma for_each_mono {A S} (body1 body2 : S → A → Result S) (l : list A)
    (s s' : S) :
  (∀ s x s', body1 s x = Ok s' → body2 s x = Ok s') →
  for_each l body1 s = Ok s' → for_each l body2 s = Ok s'.
Proof.
  intros Hbody. revert s. induction l as [|x l IH]; intros s; [done|].
  simpl. destruct (body1 s x) as [s1|e] eqn:Hb; [|done].
  rewrite (Hbody _ _ _ Hb). simpl. apply IH.
Qed.

Lemma for_each_raises_only {A S} (P : Exn → Prop)
    (body : S → A → Result S) (l : list A) (s : S) (e : Exn) :
  (∀ s x e, body s x = Raise e → P e) →
  for_each l body s = Raise e → P e.
Proof.
  intros Hbody. revert s. induction l as [|x l IH]; intros s; [done|].
  simpl. destruct (body s x) as [s1|e1] eqn:Hb; simpl.
  - apply IH.
  - intros [= <-]. by eapply Hbody.
Qed.

Lemma flood_fill_unfold (g : np.Grid) (v : Z) (n : nat) r c seen :
  GridOperations.flood_fill (S n) g r c v seen
  = if bool_decide (r < 0) || bool_decide (np.height g ≤ r)
       || bool_decide (c < 0) || bool_decide (np.width g ≤ c)
       || bool_decide (np.get g r c ≠ v) || bool_decide ((r, c) ∈ seen)
    then Ok ([], seen)
    else for_each [(r + 1, c); (r - 1, c); (r, c + 1); (r, c - 1)]
           (λ (st : list np.Cell * gset np.Cell) (nb : np.Cell),
              res ← GridOperations.flood_fill n g nb.1 nb.2 v st.2;
              Ok (st.1 ++ res.1, res.2))
           ([(r, c)], {[ (r, c) ]} ∪ seen).
Proof. reflexivity. Qed.

(** a call of [flood_fill] that returns also returns, with the same
    result, when the interpreter admits more nested calls *)
Lemma flood_fill_mono (g : np.Grid) (v : Z) (n m : nat) :
  (n ≤ m)%nat → ∀ r c seen res,
  GridOperations.flood_fill n g r c v seen = Ok res →
  GridOperations.flood_fill m g r c v seen = Ok res.
Proof.
  revert m. induction n as [|n IH]; intros m Hnm r c seen res; [done|].
  destruct m as [|m]; [lia|]. rewrite !flood_fill_unfold.
  destruct (_ || _); [done|].
  apply for_each_mono. intros st nb st'.
  destruct (GridOperations.flood_fill n g nb.1 nb.2 v st.2) as [res'|e]
    eqn:Hfill; [|done].
  rewrite (IH m ltac:(lia) _ _ _ _ Hfill). done.
Qed.

(** the only exception of [flood_fill] is that of the recursion limit *)
Lemma flood_fill_raises (g : np.Grid) (v : Z) (n : nat) :
  ∀ r c seen e,
  GridOperations.flood_fill n g r c v seen = Raise e → e = RecursionError.
Proof.
  induction n as [|n IH]; intros r c seen e; [by intros [= <-]|].
  rewrite flood_fill_unfold.
  destruct (_ || _); [done|].
  apply (for_each_raises_only (λ e, e = RecursionError)). intros st nb e'.
  destruct (GridOperations.flood_fill n g nb.1 nb.2 v st.2) as [res'|e1]
    eqn:Hfill; [done|].
  simpl. intros [= <-]. by eapply IH.
Qed.

Lemma scan_cell_mono (g : np.Grid) (n m : nat) st p st' :
  (n ≤ m)%nat →
  GridOperations.scan_cell n g st p = Ok st' →
  GridOperations.scan_cell m g st p = Ok st'.
Proof.
  intros Hnm. destruct p as [r c]. unfold GridOperations.scan_cell.
  destruct (_ && _); [|done].
  destruct (GridOperations.flood_fill n g r c _ st.2) as [res|e] eqn:Hfill;
    [|done].
  by rewrite (flood_fill_mono g _ n m Hnm _ _ _ _ Hfill).
Qed.

Lemma scan_cell_raises (g : np.Grid) (n : nat) st p e :
  GridOperations.scan_cell n g st p = Raise e → e = RecursionError.
Proof.
  destruct p as [r c]. unfold GridOperations.scan_cell.
  destruct (_ && _); [|done].
  destruct (GridOperations.flood_fill n g r c _ st.2) as [res|e1] eqn:Hfill.
  - simpl. by destruct (bool_decide _).
  - simpl. intros [= <-]. by eapply flood_fill_raises.
Qed.

(** a call of [get_objects] that returns also returns, with the same
    objects, when the interpreter admits more nested calls *)
Lemma get_objects_mono (g : np.Grid) (n m : nat) objs :
  (n ≤ m)%nat →
  GridOperations.get_objects n g = Ok objs →
  GridOperations.get_objects m g = Ok objs.
Proof.
  intros Hnm. unfold GridOperations.get_objects.
  rewrite !scan_loops_flat.
  destruct (for_each _ (GridOperations.scan_cell n g) _) as [st|e] eqn:Hscan;
    [|done].
  rewrite (for_each_mono _ (GridOperations.scan_cell m g) _ _ _
             (λ s x s', scan_cell_mono g n m s x s' Hnm) Hscan).
  done.
Qed.

(** the only exception of [get_objects] is that of the recursion limit *)
Lemma get_objects_raises (g : np.Grid) (n : nat) e :
  GridOperations.get_objects n g = Raise e → e = RecursionError.
Proof.
  unfold GridOperations.get_objects. rewrite scan_loops_flat.
  destruct (for_each _ (GridOperations.scan_cell n g) _) as [st|e1] eqn:Hscan;
    [done|].
  simpl. intros [= <-].
  eapply (for_each_raises_only (λ e, e = RecursionError)); [|exact Hscan].
  intros s x e'. apply scan_cell_raises.
Qed.

(** whenever [get_objects] returns, the cells of the objects are pairwise
    distinct, and they are the cells inside the grid that hold a non-zero
    value *)
Lemma get_objects_sound (frames : nat) (g : np.Grid) objs :
  GridOperations.get_objects frames g = Ok objs →
  NoDup (concat (Object.coords <$> objs))
  ∧ ∀ p, p ∈ concat (Object.coords <$> objs)
         ↔ in_bounds g p ∧ np.get g p.1 p.2 ≠ 0.
Proof.
  intros Hrun.
  remember (np.height g * np.width g) as cells eqn:Hcells.
  destruct (get_objects_ok (Nat.max frames (S (Z.to_nat cells))) g)
    as (objs' & Hrun' & Hsound); [rewrite <- Hcells; lia|].
  rewrite (get_objects_mono g frames (Nat.max frames (S (Z.to_nat cells)))
             objs ltac:(lia) Hrun) in Hrun'.
  by injection Hrun' as <-.
Qed.

(** without enough frames [get_objects] raises [RecursionError], and with
    fewer frames it raises all the more *)
Lemma get_objects_raises_below (g : np.Grid) (n m : nat) :
  (n ≤ m)%nat →
  GridOperations.get_objects m g = Raise RecursionError →
  GridOperations.get_objects n g = Raise RecursionError.
Proof.
  intros Hnm Hm.
  destruct (GridOperations.get_objects n g) as [objs|e] eqn:Hn.
  - by rewrite (get_objects_mono g n m objs Hnm Hn) in Hm.
  - by rewrite (get_objects_raises g n e Hn).
Qed.

(** C1, as stated, fails: a single row of 1000 cells of value 1 is a
    well-formed grid, and on it [get_objects] raises [RecursionError] at
    every depth of the stack, the recursion limit being the interpreter's
    default.  The flood fill nests one call for every cell of the row and
    one more for the neighbours of the last. *)
Lemma get_objects_recursion_limit :
  well_formed [replicate 1000 1]
  ∧ ∀ frames, (frames ≤ sys.getrecursionlimit)%nat →
      GridOperations.get_objects frames [replicate 1000 1]
      = Raise RecursionError.
Proof.
  split.
  - split_and!; [done|by repeat constructor|reflexivity].
  - intros frames Hframes.
    apply (get_objects_raises_below _ frames sys.getrecursionlimit Hframes).
    vm_compute. reflexivity.
Qed.

(** C1 (amended): for every well-formed grid with fewer cells than the
    interpreter admits nested calls of the flood fill, [get_objects]
    returns; and whenever it returns, the cell sets of the objects are
    pairwise disjoint and their union is exactly the set of the cells that
    hold a non-zero value.  The only exception it raises is
    [RecursionError], and only on a grid with at least as many cells as
    calls admitted. *)
Theorem get_objects_partition (frames : nat) (g : np.Grid) :
  well_formed g →
  (np.height g * np.width g < Z.of_nat frames →
   ∃ objs, GridOperations.get_objects frames g = Ok objs)
  ∧ (∀ objs, GridOperations.get_objects frames g = Ok objs →
       (∀ i j o1 o2, i ≠ j → objs !! i = Some o1 → objs !! j = Some o2 →
          ∀ p, p ∈ Object.coords o1 → p ∉ Object.coords o2)
       ∧ (∀ p, (∃ o, o ∈ objs ∧ p ∈ Object.coords o) ↔ nonzero_cell g p))
  ∧ (∀ e, GridOperations.get_objects frames g = Raise e →
       e = RecursionError ∧ Z.of_nat frames ≤ np.height g * np.width g).
Proof.
  intros (_ & Hrect & _). split_and!.
  - intros Hframes.
    destruct (get_objects_ok frames g Hframes) as (objs & Hobjs & _).
    by exists objs.
  - intros objs Hobjs.
    destruct (get_objects_sound frames g objs Hobjs) as [Hnd Hcells].
    split.
    + intros i j o1 o2 Hij Hi Hj.
      apply (NoDup_concat_disjoint (Object.coords <$> objs) i j); [done..| |].
      * by rewrite list_lookup_fmap, Hi.
      * by rewrite list_lookup_fmap, Hj.
    + intros p. rewrite nonzero_cell_iff by done. rewrite <- Hcells.
      rewrite elem_of_concat. split.
      * intros (o & Ho & Hp). exists (Object.coords o). split; [done|].
        by apply list_elem_of_fmap_2.
      * intros (l & Hp & (o & -> & Ho)%list_elem_of_fmap). by exists o.
  - intros e He. split; [by eapply get_objects_raises|].
    destruct (Z_lt_le_dec (np.height g * np.width g) (Z.of_nat frames))
      as [Hlt|Hle]; [|done].
    destruct (get_objects_ok frames g Hlt) as (objs & Hobjs & _).
    by rewrite Hobjs in He.
Qed.

Lemma get_objects_partition_witness :
  well_formed [[1; 1; 0]; [0; 2; 0]; [3; 0; 1]]
  ∧ ∃ objs, GridOperations.get_objects 10 [[1; 1; 0]; [0; 2; 0]; [3; 0; 1]]
            = Ok objs
    ∧ (∀ i j o1 o2, i ≠ j → objs !! i = Some o1 → objs !! j = Some o2 →
         ∀ p, p ∈ Object.coords o1 → p ∉ Object.coords o2)
    ∧ (∀ p, (∃ o, o ∈ objs ∧ p ∈ Object.coords o)
            ↔ nonzero_cell [[1; 1; 0]; [0; 2; 0]; [3; 0; 1]] p).
Proof.
  assert (well_formed [[1; 1; 0]; [0; 2; 0]; [3; 0; 1]]) as Hwf.
  { split_and!; [done|by repeat constructor|reflexivity]. }
  split; [exact Hwf|].
  destruct (get_objects_partition 10 [[1; 1; 0]; [0; 2; 0]; [3; 0; 1]] Hwf)
    as (Hreturns & Hsound & _).
  destruct Hreturns as [objs Hobjs]; [reflexivity|].
  exists objs. split; [exact Hobjs|]. exact (Hsound objs Hobjs).
Defined.

(** ** Validation of grids *)

(** C7, as stated, fails: the Grid/Object Model validates nothing.  Given a
    grid with no row, [get_objects] returns the empty list of objects.  No
    cell is scanned, so this holds at every depth of the stack, even where
    the interpreter admits no further call. *)
Lemma get_objects_empty_grid :
  GridOperations.get_objects 0 [] = Ok [].
Proof. reflexivity. Qed.

(** C7 (amended): grids are validated by [validate_grid] of the task-data
    loader, not by the Grid/Object Model.  [validate_grid] raises a
    [TaskError] exactly for a grid that is empty or whose rows are not all
    of equal length, and it raises nothing for a well-formed grid. *)
Theorem validate_grid_raises_iff (grid : np.Grid) (grid_name : string) :
  ((∃ msg, data_handlers.validate_grid grid grid_name = Raise (TaskError msg))
   ↔ grid = [] ∨ ¬ rectangular grid)
  ∧ (well_formed grid → data_handlers.validate_grid grid grid_name = Ok ()).
Proof.
  assert (forallb (λ row, bool_decide
            (length row = length (default [] (head grid)))) grid = true
          ↔ rectangular grid) as Hrect.
  { unfold rectangular. rewrite forallb_forall, Forall_forall.
    split; intros H row Hrow.
    - apply list_elem_of_In in Hrow.
      specialize (H row Hrow). by apply bool_decide_eq_true in H.
    - apply list_elem_of_In in Hrow. apply bool_decide_eq_true. by apply H. }
  unfold data_handlers.validate_grid. split.
  - case_bool_decide as Hnil.
    + split; [by left|]. intros _. by eexists.
    + destruct (forallb _ grid) eqn:Hall; simpl.
      * split; [by intros (? & ?)|].
        intros [?|Hn]; [done|]. destruct Hn. by apply Hrect.
      * split; [|intros _; by eexists].
        intros _. right. intros Hr%Hrect. congruence.
  - intros (Hne & Hr%Hrect & _).
    rewrite bool_decide_eq_false_2 by done. by rewrite Hr.
Qed.

(** ** The global transform *)

Lemma first_rotation_Some (test : Z → bool) (t : Transform.t) :
  TransformationAnalyzer.first_rotation test [1; 2; 3] = Some t →
  ∃ k, k ∈ [1; 2; 3] ∧ test k = true ∧ t = Transform.rotation (k * 90).
Proof.
  unfold TransformationAnalyzer.first_rotation. simpl.
  destruct (test 1) eqn:H1; [|destruct (test 2) eqn:H2;
                               [|destruct (test 3) eqn:H3]];
    simpl; intros [= <-]; eexists; (split; [|done]); set_solver.
Qed.

Lemma first_rotation_None (test : Z → bool) :
  TransformationAnalyzer.first_rotation test [1; 2; 3] = None →
  ∀ k, k ∈ [1; 2; 3] → test k = false.
Proof.
  unfold TransformationAnalyzer.first_rotation. simpl.
  destruct (test 1) eqn:H1; [done|]. destruct (test 2) eqn:H2; [done|].
  destruct (test 3) eqn:H3; [done|]. intros _ k Hk.
  repeat (apply elem_of_cons in Hk as [->|Hk]; [done|]).
  by apply elem_of_nil in Hk.
Qed.

(** C5, as stated, fails: the grids [[1]] and [[2]] are related by no
    rotation, no flip and no scaling, they have the same size and different
    contents, and the analysis reports a scaling of factor 1. *)
Lemma global_transform_scale_of_unrelated_grids :
  ¬ rotation_equality [[1]] [[2]]
  ∧ ¬ flip_equality [[1]] [[2]]
  ∧ ¬ scaling_equality [[1]] [[2]]
  ∧ np.shape [[1]] = np.shape [[2]]
  ∧ TransformationAnalyzer._find_global_transform [[1]] [[2]]
    = Ok (Transform.scale 1).
Proof.
  split_and!; [| | |done|done].
  - intros (k & Hk & H).
    repeat (apply elem_of_cons in Hk as [->|Hk]; [by vm_compute in H|]).
    by apply elem_of_nil in Hk.
  - by intros [H|H]; vm_compute in H.
  - intros (k & Hk & H). unfold np.kron_ones in H.
    rewrite bool_decide_eq_false_2 in H by lia.
    injection H as H. simpl in H.
    destruct (Z.to_nat k) as [|n]; simpl in H; congruence.
Qed.

(** C5 (amended): on grids with at least one row and one column,
    [_find_global_transform] returns [none] exactly when the grids are not
    equally sized grids related by a rotation or a flip and the dimensions
    of the second are not one common integer multiple of the dimensions of
    the first; the scaling test compares the dimensions only.  So for two
    equally sized grids related by no rotation and no flip it reports
    scale(factor=1), whatever their contents. *)
Theorem find_global_transform_none_iff (g1 g2 : np.Grid) :
  0 < np.height g1 → 0 < np.width g1 →
  ∃ t, TransformationAnalyzer._find_global_transform g1 g2 = Ok t
    ∧ (t = Transform.none
       ↔ ¬ (np.shape g1 = np.shape g2
            ∧ (rotation_equality g1 g2 ∨ flip_equality g1 g2))
         ∧ ¬ dimensions_scaled g1 g2)
    ∧ (np.shape g1 = np.shape g2 →
       ¬ rotation_equality g1 g2 → ¬ flip_equality g1 g2 →
       t = Transform.scale 1).
Proof.
  intros Hh Hw.
  unfold TransformationAnalyzer._find_global_transform, np.shape,
    rotation_equality, flip_equality, dimensions_scaled, np.array_equal,
    py_mod, py_floordiv.
  set (h1 := np.height g1) in *. set (w1 := np.width g1) in *.
  set (h2 := np.height g2). set (w2 := np.width g2).
  assert (bool_decide (h1 = h2) && bool_decide (w1 = w2) = true
          ↔ (h1, w1) = (h2, w2)) as Hshape.
  { rewrite andb_true_iff, !bool_decide_eq_true.
    split; [by intros [-> ->]|by intros [= -> ->]]. }
  rewrite !(bool_decide_eq_false_2 (_ = 0)) by lia.
  destruct (bool_decide (h1 = h2) && bool_decide (w1 = w2)) eqn:Hsh.
  - (* equally sized grids *)
    assert ((h1, w1) = (h2, w2)) as Heq by by apply Hshape.
    injection Heq as <- <-.
    destruct (TransformationAnalyzer.first_rotation _ _) as [t|] eqn:Hrot.
    { apply first_rotation_Some in Hrot as (k & Hk & Htest & ->).
      apply bool_decide_eq_true in Htest.
      eexists. split; [done|]. split; [|intros _ []; eauto].
      split; [done|]. intros [[] _]. eauto. }
    pose proof (first_rotation_None _ Hrot) as Hnone.
    assert (¬ ∃ k, k ∈ [1; 2; 3] ∧ np.rot90 g1 k = g2) as Hnrot.
    { intros (k & Hk & Hr). specialize (Hnone k Hk). simpl in Hnone.
      by apply bool_decide_eq_false in Hnone. }
    clear Hsh Hshape.
    destruct (bool_decide (np.flip g1 0 = g2)) eqn:Hf0;
      [apply bool_decide_eq_true in Hf0|apply bool_decide_eq_false in Hf0].
    { eexists. split; [done|]. split; [|intros _ _ []; eauto].
      split; [done|]. intros [[] _]. eauto. }
    destruct (bool_decide (np.flip g1 1 = g2)) eqn:Hf1;
      [apply bool_decide_eq_true in Hf1|apply bool_decide_eq_false in Hf1].
    { eexists. split; [done|]. split; [|intros _ _ []; eauto].
      split; [done|]. intros [[] _]. eauto. }
    cbn [mbind result_bind].
    rewrite !Z_mod_same_full, !Z_div_same_full by lia.
    rewrite !bool_decide_eq_true_2 by done. cbn [mbind result_bind].
    eexists. split; [done|]. split; [|done].
    split; [done|]. intros [_ []]. done.
  - (* grids of different sizes *)
    assert ((h1, w1) ≠ (h2, w2)) as Hne.
    { intros ?%Hshape. congruence. }
    clear Hsh Hshape. cbn [mbind result_bind].
    destruct (bool_decide (h2 `mod` h1 = 0)) eqn:Hmh;
      [apply bool_decide_eq_true in Hmh|apply bool_decide_eq_false in Hmh];
      cbn [mbind result_bind].
    + destruct (bool_decide (w2 `mod` w1 = 0)) eqn:Hmw;
        [apply bool_decide_eq_true in Hmw|apply bool_decide_eq_false in Hmw];
        cbn [mbind result_bind].
      * destruct (bool_decide (h2 `div` h1 = w2 `div` w1)) eqn:Hsc;
          [apply bool_decide_eq_true in Hsc|apply bool_decide_eq_false in Hsc].
        -- eexists. split; [done|]. split; [|done].
           split; [done|]. intros [_ []]. done.
        -- eexists. split; [done|]. split; [|done].
           split; [|done]. intros _. split; [by intros [? _]|].
           by intros (_ & _ & ?).
      * eexists. split; [done|]. split; [|done].
        split; [|done]. intros _. split; [by intros [? _]|].
        by intros (_ & ? & _).
    + eexists. split; [done|]. split; [|done].
      split; [|done]. intros _. split; [by intros [? _]|].
      by intros (? & _).
Qed.

Lemma find_global_transform_none_iff_witness :
  0 < np.height [[1; 2]] ∧ 0 < np.width [[1; 2]]
  ∧ ∃ t, TransformationAnalyzer._find_global_transform [[1; 2]] [[3; 4; 5]]
         = Ok t
    ∧ (t = Transform.none
       ↔ ¬ (np.shape [[1; 2]] = np.shape [[3; 4; 5]]
            ∧ (rotation_equality [[1; 2]] [[3; 4; 5]]
               ∨ flip_equality [[1; 2]] [[3; 4; 5]]))
         ∧ ¬ dimensions_scaled [[1; 2]] [[3; 4; 5]])
    ∧ (np.shape [[1; 2]] = np.shape [[3; 4; 5]] →
       ¬ rotation_equality [[1; 2]] [[3; 4; 5]] →
       ¬ flip_equality [[1; 2]] [[3; 4; 5]] →
       t = Transform.scale 1).
Proof.
  split; [reflexivity|]. split; [reflexivity|].
  apply (find_global_transform_none_iff [[1; 2]] [[3; 4; 5]]); reflexivity.
Defined.

(** ** Dictionaries in insertion order *)

Section dict_facts.
Context {K V : Type} `{EqDecision K}.
Implicit Types (d : list (K * V)) (k : K) (v : V).

Lemma dict_get_set_eq d k v : dict.get (dict.set d k v) k = Some v.
Proof.
  induction d as [|[k' v'] d IH]; simpl.
  - by rewrite decide_True.
  - destruct (decide (k' = k)) as [->|Hne]; simpl.
    + by rewrite decide_True.
    + by rewrite decide_False.
Qed.

Lemma dict_get_set_ne d k k' v :
  k ≠ k' → dict.get (dict.set d k v) k' = dict.get d k'.
Proof.
  intros Hne. induction d as [|[k0 v0] d IH]; simpl.
  - by rewrite decide_False.
  - destruct (decide (k0 = k)) as [->|Hne0]; simpl.
    + by rewrite !decide_False.
    + destruct (decide (k0 = k')); [done|apply IH].
Qed.

Lemma dict_get_Some_elem d k v : dict.get d k = Some v → (k, v) ∈ d.
Proof.
  induction d as [|[k0 v0] d IH]; simpl; [done|].
  destruct (decide (k0 = k)) as [->|Hne].
  - intros [= ->]. set_solver.
  - intros ?%IH. set_solver.
Qed.

Lemma dict_get_NoDup d k v :
  NoDup (dict.keys d) → (k, v) ∈ d → dict.get d k = Some v.
Proof.
  unfold dict.keys. induction d as [|[k0 v0] d IH]; simpl.
  - by intros _ ?%elem_of_nil.
  - intros [Hnin Hnd]%NoDup_cons [[= -> ->]|Hin]%elem_of_cons.
    + by rewrite decide_True.
    + rewrite decide_False; [by apply IH|].
      intros ->. apply Hnin. apply list_elem_of_fmap. by exists (k, v).
Qed.

Lemma dict_keys_set d k v :
  ∀ k', k' ∈ dict.keys (dict.set d k v) ↔ k' = k ∨ k' ∈ dict.keys d.
Proof.
  unfold dict.keys. intros k'. induction d as [|[k0 v0] d IH]; simpl.
  - set_solver.
  - destruct (decide (k0 = k)) as [->|Hne]; simpl; set_solver.
Qed.

Lemma dict_keys_set_NoDup d k v :
  NoDup (dict.keys d) → NoDup (dict.keys (dict.set d k v)).
Proof.
  induction d as [|[k0 v0] d IH]; simpl.
  - intros _. apply NoDup_singleton.
  - intros [Hnin Hnd]%NoDup_cons.
    destruct (decide (k0 = k)) as [->|Hne]; simpl.
    + by apply NoDup_cons.
    + apply NoDup_cons. split; [|by apply IH].
      intros [?|?]%dict_keys_set; [congruence|done].
Qed.
End dict_facts.

(** ** Loops that may raise *)

Lemma for_each_app_Ok {A S} (l1 l2 : list A) (body : S → A → Result S) s s' :
  for_each (l1 ++ l2) body s = Ok s' →
  ∃ s1, for_each l1 body s = Ok s1 ∧ for_each l2 body s1 = Ok s'.
Proof.
  rewrite for_each_app. destruct (for_each l1 body s) as [s1|e]; [|done].
  simpl. intros H. by exists s1.
Qed.

(** what every step of a loop that returned preserves, the loop
    preserves *)
Lemma for_each_preserves {A S} (P : S → Prop) (body : S → A → Result S)
    (l : list A) s s' :
  (∀ s x s', x ∈ l → body s x = Ok s' → P s → P s') →
  for_each l body s = Ok s' → P s → P s'.
Proof.
  revert s. induction l as [|x l IH]; intros s Hstep Hrun HP.
  - by injection Hrun as <-.
  - simpl in Hrun. destruct (body s x) as [s1|e] eqn:Hb; [|done].
    simpl in Hrun. apply (IH s1); [|done|].
    + intros s0 y s0' Hy. apply Hstep. set_solver.
    + apply (Hstep s x); [set_solver|done..].
Qed.

(** ** [np.unique] *)

Lemma elem_of_unique (l : list Z) (x : Z) : x ∈ np.unique l ↔ x ∈ l.
Proof.
  unfold np.unique. rewrite merge_sort_Permutation. apply elem_of_remove_dups.
Qed.

Lemma NoDup_unique (l : list Z) : NoDup (np.unique l).
Proof.
  unfold np.unique. rewrite merge_sort_Permutation. apply NoDup_remove_dups.
Qed.

Lemma length_unique (l : list Z) :
  length (np.unique l) = length (remove_dups l).
Proof. unfold np.unique. by rewrite merge_sort_Permutation. Qed.

Lemma NoDup_two_elems {A} (l : list A) (x y : A) :
  x ∈ l → y ∈ l → x ≠ y → (1 < length l)%nat.
Proof.
  destruct l as [|a [|b l]]; simpl; [set_solver|set_solver|lia].
Qed.

Lemma NoDup_all_equal {A} (l : list A) (x : A) :
  NoDup l → (∀ y, y ∈ l → y = x) → (length l ≤ 1)%nat.
Proof.
  destruct l as [|a [|b l]]; simpl; [lia|lia|].
  intros [Hnin _]%NoDup_cons Hall. destruct Hnin.
  rewrite (Hall a), (Hall b); set_solver.
Qed.

(** several distinct values, in terms of [np.unique] *)
Lemma unique_several (l : list Z) :
  (1 < length (np.unique l))%nat ↔ ∃ x y, x ∈ l ∧ y ∈ l ∧ x ≠ y.
Proof.
  split.
  - intros Hlen.
    destruct (np.unique l) as [|a [|b u]] eqn:Hu; simpl in Hlen; [lia|lia|].
    exists a, b. split_and!.
    + apply elem_of_unique. rewrite Hu. set_solver.
    + apply elem_of_unique. rewrite Hu. set_solver.
    + pose proof (NoDup_unique l) as Hnd. rewrite Hu in Hnd.
      apply NoDup_cons in Hnd as [Hnin _]. set_solver.
  - intros (x & y & Hx & Hy & Hne).
    apply (NoDup_two_elems _ x y); [by apply elem_of_unique..|done].
Qed.

(** one distinct value, as [len(set(values)) == 1] tests it *)
Lemma remove_dups_single (values : list Z) (x : Z) :
  length (remove_dups values) = 1%nat ∧ head values = Some x
  ↔ single_valued values x.
Proof.
  unfold single_valued. split.
  - intros [Hlen Hhead].
    destruct (remove_dups values) as [|a [|b u]] eqn:Hu; simpl in Hlen;
      [lia| |lia].
    assert (∀ y, y ∈ values → y = a) as Ha.
    { intros y Hy. apply elem_of_remove_dups in Hy. rewrite Hu in Hy.
      set_solver. }
    destruct values as [|z values]; [done|]. injection Hhead as ->.
    split; [done|]. intros y Hy. rewrite (Ha y Hy). symmetry. apply Ha.
    set_solver.
  - intros [Hne Hall]. destruct values as [|z values]; [done|]. split.
    + assert (length (remove_dups (z :: values)) ≤ 1)%nat.
      { apply (NoDup_all_equal _ x); [apply NoDup_remove_dups|].
        intros y Hy. by apply Hall, elem_of_remove_dups. }
      assert (z ∈ remove_dups (z :: values))
        by (apply elem_of_remove_dups; set_solver).
      destruct (remove_dups (z :: values)); simpl in *; [set_solver|lia].
    + simpl. f_equal. apply Hall. set_solver.
Qed.

(** ** The value-mapping analysis *)

Lemma position_based_fold (shape : Z * Z) (l : list (np.Cell * Z))
    (acc : gmap PosType (list Z)) (k : PosType) :
  foldl (λ (pb : gmap PosType (list Z)) (po : np.Cell * Z),
           let key := TransformationAnalyzer._get_position_type po.1 shape in
           <[key := default [] (pb !! key) ++ [po.2]]> pb) acc l !! k
  = let extra :=
      (filter (λ po : np.Cell * Z,
                 TransformationAnalyzer._get_position_type po.1 shape = k)
              l).*2 in
    if decide (extra = []) then acc !! k
    else Some (default [] (acc !! k) ++ extra).
Proof.
  revert acc. induction l as [|po l IH]; intros acc; simpl; [done|].
  rewrite IH. clear IH. cbv zeta.
  destruct (decide (TransformationAnalyzer._get_position_type po.1 shape = k))
    as [Hk|Hk].
  - rewrite filter_cons_True by done. rewrite Hk, lookup_insert_eq.
    rewrite fmap_cons. simpl.
    destruct (decide (_ = [])) as [->|_]; [done|].
    by rewrite <- app_assoc.
  - rewrite filter_cons_False by done. by rewrite lookup_insert_ne.
Qed.

(** the dictionary [position_based] holds, for every category that occurs,
    the output values at the positions of that category *)
Lemma position_based_lookup (positions : list np.Cell) (out_vals : list Z)
    (shape : Z * Z) (k : PosType) (values : list Z) :
  TransformationAnalyzer.position_based positions out_vals shape !! k
  = Some values
  ↔ values = category_values positions out_vals shape k ∧ values ≠ [].
Proof.
  unfold TransformationAnalyzer.position_based, category_values.
  rewrite position_based_fold. cbv zeta. rewrite lookup_empty. simpl.
  destruct (decide (_ = [])) as [E|E].
  - split; [done|]. intros [-> ?]. by rewrite E in *.
  - split; [by intros [= <-]|]. by intros [-> _].
Qed.

(** the dictionary [conditional] holds the categories that map to a single
    output value *)
Lemma conditional_of_lookup (positions : list np.Cell) (out_vals : list Z)
    (shape : Z * Z) (k : PosType) (x : Z) :
  TransformationAnalyzer.conditional_of
    (TransformationAnalyzer.position_based positions out_vals shape) !! k
  = Some x
  ↔ single_valued (category_values positions out_vals shape k) x.
Proof.
  unfold TransformationAnalyzer.conditional_of. rewrite lookup_omap.
  destruct (TransformationAnalyzer.position_based _ _ _ !! k)
    as [values|] eqn:Hpb; simpl.
  - apply position_based_lookup in Hpb as [<- Hne].
    rewrite <- remove_dups_single. case_bool_decide; naive_solver.
  - split; [done|]. intros [Hne _].
    assert (TransformationAnalyzer.position_based positions out_vals shape
              !! k = Some (category_values positions out_vals shape k))
      by by apply position_based_lookup.
    congruence.
Qed.

Lemma analyze_value_other (input output : np.Grid)
    (m m' : list (Z * ValueMapping.t)) (v k : Z) :
  TransformationAnalyzer.analyze_value input output m v = Ok m' →
  k ≠ v → dict.get m' k = dict.get m k.
Proof.
  unfold TransformationAnalyzer.analyze_value. intros H Hk.
  destruct (bool_decide (v = 0)); [by injection H as <-|].
  destruct (np.select _ _) as [out_vals|]; [|done].
  cbn [mbind result_bind] in H.
  repeat match type of H with
         | (if ?b then _ else _) = _ => destruct b
         end;
    injection H as <-; by rewrite ?dict_get_set_ne.
Qed.

Lemma analyze_value_several (input output : np.Grid)
    (m m' : list (Z * ValueMapping.t)) (v : Z) (out_vals : list Z) :
  TransformationAnalyzer.analyze_value input output m v = Ok m' →
  v ≠ 0 →
  np.select output (np.eq_mask input v) = Ok out_vals →
  (1 < length (np.unique out_vals))%nat →
  let pb := TransformationAnalyzer.position_based
              (np.argwhere (np.eq_mask input v)) out_vals (np.shape input) in
  dict.get m' v
  = Some (if decide (TransformationAnalyzer.conditional_of pb = ∅)
          then ValueMapping.complex pb
          else ValueMapping.conditional
                 (TransformationAnalyzer.conditional_of pb)).
Proof.
  intros H Hv Hsel Hlen pb. unfold TransformationAnalyzer.analyze_value in H.
  rewrite bool_decide_eq_false_2 in H by done.
  rewrite Hsel in H. cbn [mbind result_bind] in H.
  rewrite bool_decide_eq_false_2 in H by lia.
  rewrite bool_decide_eq_true_2 in H by done.
  fold pb in H. destruct (decide (_ = ∅)) as [E|E].
  - rewrite bool_decide_eq_false_2 in H by (by intros []).
    injection H as <-. apply dict_get_set_eq.
  - rewrite bool_decide_eq_true_2 in H by done.
    injection H as <-. apply dict_get_set_eq.
Qed.

Lemma keys_count_values (g : np.Grid) :
  dict.keys (GridOperations.count_values g) = np.unique (concat g).
Proof.
  unfold dict.keys, GridOperations.count_values.
  change (map ?f ?l) with (f <$> l). rewrite <- list_fmap_compose.
  apply list_fmap_id.
Qed.

(** the background value 0 never gets a mapping *)
Lemma analyze_value_mappings_skips_background (input output : np.Grid)
    (m : list (Z * ValueMapping.t)) :
  TransformationAnalyzer.analyze_value_mappings input output = Ok m →
  dict.get m 0 = None.
Proof.
  unfold TransformationAnalyzer.analyze_value_mappings.
  intros Hrun.
  apply (for_each_preserves (λ s, dict.get s 0 = None)
           (TransformationAnalyzer.analyze_value input output)
           (dict.keys (GridOperations.count_values input)) [] m);
    [|done|done].
  intros s v s' _ Hbody Hs. destruct (decide (v = 0)) as [->|Hv].
  - unfold TransformationAnalyzer.analyze_value in Hbody.
    rewrite bool_decide_eq_true_2 in Hbody by done. by injection Hbody as <-.
  - rewrite <- Hs. eapply analyze_value_other; [done|congruence].
Qed.

(** C4, as stated, fails: in this pair the value 1 maps to several output
    values, its edge cells map to the two values 3 and 4, and the analysis
    still classifies it as [conditional], with the corner alone in the
    table. *)
Lemma conditional_with_ambiguous_category :
  TransformationAnalyzer.analyze_value_mappings
    scenario_conditional.input scenario_conditional.output
  = Ok [(1, ValueMapping.conditional {[corner := 2]})]
  ∧ np.select scenario_conditional.output
      (np.eq_mask scenario_conditional.input 1) = Ok [2; 3; 4]
  ∧ category_values (np.argwhere (np.eq_mask scenario_conditional.input 1))
      [2; 3; 4] (np.shape scenario_conditional.input) edge = [3; 4].
Proof. split_and!; vm_compute; reflexivity. Qed.

(** C4 (amended): for every distinct non-zero input value whose cell
    positions receive more than one distinct output value, the analysis
    classifies it as [conditional] exactly when at least one position
    category that occurs for the value maps to a single output value, and
    the table then holds exactly those categories; it classifies it as
    [complex], with the per-category values retained, exactly when no
    category does. *)
Theorem value_mapping_classification (input output : np.Grid)
    (m : list (Z * ValueMapping.t)) (v : Z) (out_vals : list Z) :
  TransformationAnalyzer.analyze_value_mappings input output = Ok m →
  v ≠ 0 → v ∈ concat input →
  np.select output (np.eq_mask input v) = Ok out_vals →
  (∃ x y, x ∈ out_vals ∧ y ∈ out_vals ∧ x ≠ y) →
  let values := category_values (np.argwhere (np.eq_mask input v)) out_vals
                  (np.shape input) in
  ((∃ k x, single_valued (values k) x) →
   ∃ conditions, dict.get m v = Some (ValueMapping.conditional conditions)
     ∧ ∀ k x, conditions !! k = Some x ↔ single_valued (values k) x)
  ∧ ((¬ ∃ k x, single_valued (values k) x) →
     ∃ position_values,
       dict.get m v = Some (ValueMapping.complex position_values)
       ∧ ∀ k vs, position_values !! k = Some vs
                 ↔ vs = values k ∧ vs ≠ []).
Proof.
  intros Hrun Hv Hin Hsel Hseveral%unique_several values.
  unfold TransformationAnalyzer.analyze_value_mappings in Hrun.
  rewrite keys_count_values in Hrun.
  apply elem_of_unique, list_elem_of_split in Hin as (l1 & l2 & Hl).
  pose proof (NoDup_unique (concat input)) as Hnd.
  rewrite Hl in Hrun, Hnd.
  apply for_each_app_Ok in Hrun as (m1 & _ & Hrun).
  simpl in Hrun.
  destruct (TransformationAnalyzer.analyze_value input output m1 v)
    as [m2|] eqn:Hstep; [|done].
  simpl in Hrun.
  assert (dict.get m v = dict.get m2 v) as ->.
  { apply (for_each_preserves (λ s, dict.get s v = dict.get m2 v)
             (TransformationAnalyzer.analyze_value input output) l2 m2 m);
      [|done|done].
    intros s k s' Hk Hbody <-. eapply analyze_value_other; [done|].
    intros ->. apply NoDup_app in Hnd as (_ & _ & Hnd).
    by apply NoDup_cons in Hnd as [? _]. }
  rewrite (analyze_value_several _ _ _ _ _ _ Hstep Hv Hsel Hseveral).
  split.
  - intros (k & x & Hsingle).
    rewrite decide_False.
    + eexists. split; [done|]. intros k' x'. apply conditional_of_lookup.
    + intros E. apply conditional_of_lookup in Hsingle.
      by rewrite E, lookup_empty in Hsingle.
  - intros Hnone. rewrite decide_True.
    + eexists. split; [done|]. intros k vs. apply position_based_lookup.
    + apply map_empty. intros k.
      destruct (_ !! k) as [x|] eqn:E; [|done].
      destruct Hnone. exists k, x. by apply conditional_of_lookup.
Qed.

Lemma value_mapping_classification_witness :
  ∃ conditions,
    dict.get [(1, ValueMapping.conditional {[corner := 2]})] 1
    = Some (ValueMapping.conditional conditions)
    ∧ ∀ k x, conditions !! k = Some x
        ↔ single_valued
            (category_values
               (np.argwhere (np.eq_mask scenario_conditional.input 1))
               [2; 3; 4] (np.shape scenario_conditional.input) k) x.
Proof.
  apply (value_mapping_classification
           scenario_conditional.input scenario_conditional.output
           [(1, ValueMapping.conditional {[corner := 2]})] 1 [2; 3; 4]).
  - vm_compute. reflexivity.
  - done.
  - vm_compute. set_solver.
  - vm_compute. reflexivity.
  - exists 2, 3. split_and!; [set_solver|set_solver|done].
  - exists corner, 2. vm_compute. split; [done|].
    intros y ->%list_elem_of_singleton. done.
Defined.

(** ** The consistency reduction *)

Section dict_fold.
Context {K V : Type} `{EqDecision K}.
Implicit Types (d acc : list (K * V)) (k : K) (v : V).

Lemma dict_get_None d k : k ∉ dict.keys d → dict.get d k = None.
Proof.
  unfold dict.keys. induction d as [|[k0 v0] d IH]; simpl; [done|].
  intros Hnin. rewrite decide_False by set_solver. apply IH. set_solver.
Qed.

Lemma dict_set_fresh d k v : dict.get d k = None → dict.set d k v = d ++ [(k, v)].
Proof.
  induction d as [|[k0 v0] d IH]; simpl; [done|].
  destruct (decide (k0 = k)); [done|]. intros ?%IH. by f_equal.
Qed.

(** a loop that stores the selected entries of a dictionary in an
    accumulator that holds none of its keys *)
Lemma dict_fold_get (P : K * V → bool) (l acc : list (K * V)) k v :
  NoDup (dict.keys l) →
  (∀ k', k' ∈ dict.keys l → dict.get acc k' = None) →
  dict.get (foldl (λ acc kv, if P kv then dict.set acc kv.1 kv.2 else acc)
                  acc l) k = Some v
  ↔ dict.get acc k = Some v ∨ ((k, v) ∈ l ∧ P (k, v) = true).
Proof.
  unfold dict.keys. revert acc.
  induction l as [|[k0 v0] l IH]; intros acc Hnd Hacc; simpl.
  - set_solver.
  - simpl in Hnd. apply NoDup_cons in Hnd as [Hnin Hnd].
    assert (dict.get acc k0 = None) as Hk0 by (apply Hacc; set_solver).
    rewrite IH; [|done|].
    + destruct (P (k0, v0)) eqn:HP.
      * destruct (decide (k0 = k)) as [->|Hne].
        -- rewrite dict_get_set_eq. split.
           ++ intros [[= ->]|[Hin _]]; [right; set_solver|].
              destruct Hnin. apply list_elem_of_fmap. by exists (k, v).
           ++ intros [?|[[[= ->]|Hin]%elem_of_cons _]]; [congruence|by left|].
              destruct Hnin. apply list_elem_of_fmap. by exists (k, v).
        -- rewrite dict_get_set_ne by done. split.
           ++ intros [?|[? ?]]; [by left|right; set_solver].
           ++ intros [?|[[[= -> ->]|Hin]%elem_of_cons HP']];
                [by left|done|by right].
      * split.
        -- intros [?|[? ?]]; [by left|right; set_solver].
        -- intros [?|[[[= -> ->]|Hin]%elem_of_cons HP']];
             [by left|congruence|by right].
    + intros k' Hk'. destruct (P (k0, v0)); [|apply Hacc; set_solver].
      simpl. rewrite dict_get_set_ne; [apply Hacc; set_solver|].
      intros ->. done.
Qed.

(** storing every entry of a dictionary rebuilds it *)
Lemma dict_fold_all (l acc : list (K * V)) :
  NoDup (dict.keys l) →
  (∀ k', k' ∈ dict.keys l → dict.get acc k' = None) →
  foldl (λ acc kv, dict.set acc kv.1 kv.2) acc l = acc ++ l.
Proof.
  unfold dict.keys. revert acc.
  induction l as [|[k0 v0] l IH]; intros acc Hnd Hacc; simpl.
  - by rewrite app_nil_r.
  - simpl in Hnd. apply NoDup_cons in Hnd as [Hnin Hnd].
    rewrite dict_set_fresh by (apply Hacc; set_solver).
    rewrite IH; [by rewrite <- app_assoc|done|].
    intros k' Hk'. rewrite <- dict_set_fresh by (apply Hacc; set_solver).
    rewrite dict_get_set_ne; [apply Hacc; set_solver|]. by intros ->.
Qed.
End dict_fold.

Lemma forallb_bool_decide {A} (P : A → Prop) `{∀ x, Decision (P x)}
    (l : list A) :
  forallb (λ x, bool_decide (P x)) l = true ↔ ∀ x, x ∈ l → P x.
Proof.
  rewrite forallb_forall. split; intros Hall x Hx.
  - apply list_elem_of_In in Hx.
    specialize (Hall x Hx). by apply bool_decide_eq_true in Hall.
  - apply list_elem_of_In in Hx. apply bool_decide_eq_true. by apply Hall.
Qed.

Lemma option_ext {A} (o1 o2 : option A) :
  (∀ x, o1 = Some x ↔ o2 = Some x) → o1 = o2.
Proof.
  intros H. destruct o1 as [x|], o2 as [y|]; [| | |done].
  - symmetry. by apply H.
  - assert (None = Some x) by by apply H. done.
  - assert (None = Some y) by by apply H. done.
Qed.

(** a value mapping survives exactly when every pair holds it *)
Lemma kept_value_mappings_get (first : Analysis.t) (rest : list Analysis.t)
    (val : Z) (mapping : ValueMapping.t) :
  NoDup (dict.keys (Analysis.value_mappings first)) →
  dict.get (kept_value_mappings (first :: rest)) val = Some mapping
  ↔ ∀ t, t ∈ first :: rest →
         dict.get (Analysis.value_mappings t) val = Some mapping.
Proof.
  intros Hnd. unfold kept_value_mappings. simpl.
  unfold TransformationPredictor.consistent_value_mappings.
  rewrite (dict_fold_get
    (λ vm, forallb (λ t, bool_decide
             (dict.get (Analysis.value_mappings t) vm.1 = Some vm.2)) rest));
    [|done|done].
  simpl. rewrite forallb_bool_decide. split.
  - intros [?|[Hin Hrest]]; [done|].
    intros t [->|Ht]%elem_of_cons; [by apply dict_get_NoDup|by apply Hrest].
  - intros Hall. right. split.
    + apply dict_get_Some_elem, Hall. set_solver.
    + intros t Ht. apply Hall. set_solver.
Qed.

(** a hypothesis kept by comparison with the first pair survives exactly
    when all pairs agree on it *)
Lemma kept_if_all_equal {A} `{EqDecision A} (f : Analysis.t → A)
    (first : Analysis.t) (rest : list Analysis.t) (x : A) :
  (if forallb (λ t, bool_decide (f t = f first)) rest
   then Some (f first) else None) = Some x
  ↔ ∀ t, t ∈ first :: rest → f t = x.
Proof.
  destruct (forallb _ rest) eqn:Hall.
  - rewrite forallb_bool_decide in Hall. split.
    + intros [= <-] t [->|Ht]%elem_of_cons; [done|by apply Hall].
    + intros Hx. f_equal. apply Hx. set_solver.
  - split; [done|]. intros Hx.
    assert (forallb (λ t, bool_decide (f t = f first)) rest = true);
      [|congruence].
    apply forallb_bool_decide. intros t Ht.
    rewrite (Hx t), (Hx first); set_solver.
Qed.

Lemma single_match_true (transform : Transform.t) (m : ObjectMapping.t) :
  TransformationPredictor.single_match transform m = true
  ↔ ∃ mt, ObjectMapping.matches m = [mt] ∧ Match.transform mt = transform.
Proof.
  unfold TransformationPredictor.single_match.
  destruct (ObjectMapping.matches m) as [|mt [|mt' l]].
  - split; [done|]. by intros (? & ? & _).
  - rewrite bool_decide_eq_true. split; [by exists mt|].
    by intros (? & [= <-] & ?).
  - split; [done|]. by intros (? & ? & _).
Qed.

(** the surviving object mappings: the single, non-complex matches of the
    first pair that every other pair has as a single match too *)
Lemma kept_object_mappings_elem (first : Analysis.t) (rest : list Analysis.t)
    (cm : ConsistentMapping.t) :
  cm ∈ kept_object_mappings (first :: rest)
  ↔ ∃ m mt,
      m ∈ ObjectAnalysis.object_mappings (Analysis.object_transforms first)
      ∧ ObjectMapping.matches m = [mt]
      ∧ Match.transform mt ≠ Transform.complex
      ∧ cm = ConsistentMapping.mk (Object.value (ObjectMapping.input_object m))
                                  (Match.transform mt)
      ∧ ∀ t, t ∈ rest → has_single_match t (Match.transform mt).
Proof.
  unfold kept_object_mappings. simpl.
  unfold TransformationPredictor.consistent_object_mappings.
  rewrite list_elem_of_bind.
  assert (∀ transform,
    forallb (λ t, existsb (TransformationPredictor.single_match transform)
               (ObjectAnalysis.object_mappings (Analysis.object_transforms t)))
            rest = true
    ↔ ∀ t, t ∈ rest → has_single_match t transform) as Hrest.
  { intros transform. rewrite forallb_forall. unfold has_single_match.
    split; intros Hall t Ht.
    - apply list_elem_of_In, Hall, existsb_exists in Ht as (m & Hm & Hs).
      apply single_match_true in Hs as (mt & ? & ?).
      exists m, mt. by rewrite list_elem_of_In.
    - apply list_elem_of_In, Hall in Ht as (m & mt & Hm & ? & ?).
      apply existsb_exists. exists m. rewrite <- list_elem_of_In.
      split; [done|]. apply single_match_true. by exists mt. }
  split.
  - intros (m & Hcm & Hm).
    destruct (ObjectMapping.matches m) as [|mt [|mt' l]] eqn:Hmt;
      [by apply elem_of_nil in Hcm| |by apply elem_of_nil in Hcm].
    destruct (bool_decide _ && _) eqn:Hcond;
      [|by apply elem_of_nil in Hcm].
    apply list_elem_of_singleton in Hcm as ->.
    apply andb_true_iff in Hcond as [Hc%bool_decide_eq_true Hr].
    exists m, mt. split_and!; [done..|]. by apply (Hrest (Match.transform mt)).
  - intros (m & mt & Hm & Hmt & Hc & -> & Hr).
    apply (Hrest (Match.transform mt)) in Hr.
    exists m. split; [|done]. rewrite Hmt, Hr.
    rewrite bool_decide_eq_true_2 by done. simpl. set_solver.
Qed.

(** the surviving relative-position changes: those of the first pair that
    every other pair has too *)
Lemma kept_relative_positions_elem (first : Analysis.t)
    (rest : list Analysis.t) (rc : RelChange.t) :
  rc ∈ kept_relative_positions (first :: rest)
  ↔ rc ∈ SpatialAnalysis.relative_positions (Analysis.spatial_transforms first)
    ∧ ∀ t, t ∈ rest → has_change t rc.
Proof.
  unfold kept_relative_positions. simpl.
  unfold TransformationPredictor.consistent_relative_positions.
  rewrite list_elem_of_In, filter_In, <- list_elem_of_In, forallb_forall.
  unfold has_change. split; intros [Hin Hall]; (split; [done|]); intros t Ht.
  - apply list_elem_of_In, Hall, existsb_exists in Ht as (rc' & ? & ?).
    exists rc'. by rewrite list_elem_of_In.
  - apply list_elem_of_In, Hall in Ht as (rc' & ? & ?).
    apply existsb_exists. exists rc'. by rewrite <- list_elem_of_In.
Qed.

Lemma kept_count_change_iff (first : Analysis.t) (rest : list Analysis.t)
    (c : Z) :
  kept_count_change (first :: rest) = Some c
  ↔ ∀ t, t ∈ first :: rest →
         ObjectAnalysis.object_count_change (Analysis.object_transforms t) = c.
Proof.
  apply (kept_if_all_equal
    (λ t, ObjectAnalysis.object_count_change (Analysis.object_transforms t))).
Qed.

Lemma kept_global_transform_iff (first : Analysis.t) (rest : list Analysis.t)
    (g : Transform.t) :
  kept_global_transform (first :: rest) = Some g
  ↔ ∀ t, t ∈ first :: rest →
         SpatialAnalysis.global_transform (Analysis.spatial_transforms t) = g.
Proof.
  apply (kept_if_all_equal
    (λ t, SpatialAnalysis.global_transform (Analysis.spatial_transforms t))).
Qed.

(** C2, as stated, fails: the two analyses below are those of two training
    pairs, and the reduction of the list in its two orders differs.  The
    surviving object mapping carries the object value of whichever pair
    comes first. *)
Lemma consistency_depends_on_order :
  ∃ a b,
    (∀ frames, (5 ≤ frames)%nat →
       scenario_order.analysis frames scenario_order.in_a scenario_order.out_a
       = Ok a)
    ∧ (∀ frames, (5 ≤ frames)%nat →
         scenario_order.analysis frames scenario_order.in_b
           scenario_order.out_b
         = Ok b)
    ∧ [a; b] ≡ₚ [b; a]
    ∧ TransformationPredictor._find_consistent_transforms [a; b]
      ≠ TransformationPredictor._find_consistent_transforms [b; a].
Proof.
  eexists
    (Analysis.mk [(1, ValueMapping.direct 1)]
       (ObjectAnalysis.mk 0 _) (SpatialAnalysis.mk _ [])).
  eexists
    (Analysis.mk [(2, ValueMapping.direct 2)]
       (ObjectAnalysis.mk 0 _) (SpatialAnalysis.mk _ [])).
  split.
  { intros frames Hframes. do 5 (destruct frames as [|frames]; [lia|]).
    vm_compute. reflexivity. }
  split.
  { intros frames Hframes. do 5 (destruct frames as [|frames]; [lia|]).
    vm_compute. reflexivity. }
  split; [apply Permutation_swap|].
  intros H.
  apply (f_equal (λ c, default [] (Consistent.object_transforms c
                                   ≫= ConsistentObjects.mappings))) in H.
  vm_compute in H. discriminate H.
Qed.

(** C2 (amended): for a non-empty list of analyses, a value mapping, the
    object-count change and the global transform survive exactly when they
    are identical in every pair; an object transform survives exactly when
    it is the single, non-complex match of an object of the first pair and
    every other pair has an object whose single match is the same
    transform, and it carries the object value of the first pair; a
    relative-position change of the first pair survives exactly when every
    other pair has an equal one.  For a single pair all its value mappings,
    its count change, its global transform and its relative-position
    changes survive.  Permuting the list leaves the surviving value
    mappings (as a dictionary), the count change and the global transform
    unchanged. *)
Theorem consistency_reduction (first : Analysis.t) (rest : list Analysis.t) :
  dict_keys_unique (first :: rest) →
  (∀ val mapping,
     dict.get (kept_value_mappings (first :: rest)) val = Some mapping
     ↔ ∀ t, t ∈ first :: rest →
            dict.get (Analysis.value_mappings t) val = Some mapping)
  ∧ (∀ c, kept_count_change (first :: rest) = Some c
          ↔ ∀ t, t ∈ first :: rest →
                 ObjectAnalysis.object_count_change
                   (Analysis.object_transforms t) = c)
  ∧ (∀ g, kept_global_transform (first :: rest) = Some g
          ↔ ∀ t, t ∈ first :: rest →
                 SpatialAnalysis.global_transform
                   (Analysis.spatial_transforms t) = g)
  ∧ (∀ cm, cm ∈ kept_object_mappings (first :: rest)
           ↔ ∃ m mt,
               m ∈ ObjectAnalysis.object_mappings
                     (Analysis.object_transforms first)
               ∧ ObjectMapping.matches m = [mt]
               ∧ Match.transform mt ≠ Transform.complex
               ∧ cm = ConsistentMapping.mk
                        (Object.value (ObjectMapping.input_object m))
                        (Match.transform mt)
               ∧ ∀ t, t ∈ rest → has_single_match t (Match.transform mt))
  ∧ (∀ rc, rc ∈ kept_relative_positions (first :: rest)
           ↔ rc ∈ SpatialAnalysis.relative_positions
                    (Analysis.spatial_transforms first)
             ∧ ∀ t, t ∈ rest → has_change t rc)
  ∧ (rest = [] →
     kept_value_mappings [first] = Analysis.value_mappings first
     ∧ kept_count_change [first]
       = Some (ObjectAnalysis.object_count_change
                 (Analysis.object_transforms first))
     ∧ kept_global_transform [first]
       = Some (SpatialAnalysis.global_transform
                 (Analysis.spatial_transforms first))
     ∧ kept_relative_positions [first]
       = SpatialAnalysis.relative_positions
           (Analysis.spatial_transforms first))
  ∧ (∀ ts', ts' ≡ₚ first :: rest →
     (∀ val, dict.get (kept_value_mappings ts') val
             = dict.get (kept_value_mappings (first :: rest)) val)
     ∧ kept_count_change ts' = kept_count_change (first :: rest)
     ∧ kept_global_transform ts' = kept_global_transform (first :: rest)).
Proof.
  intros Hkeys.
  assert (∀ f r, dict_keys_unique (f :: r) →
            NoDup (dict.keys (Analysis.value_mappings f))) as Hfirst.
  { intros f r Hu. by apply Forall_cons in Hu as [? _]. }
  split_and!.
  - intros val mapping. apply kept_value_mappings_get. eauto.
  - apply kept_count_change_iff.
  - apply kept_global_transform_iff.
  - apply kept_object_mappings_elem.
  - apply kept_relative_positions_elem.
  - intros _. split_and!; [|done|done|].
    + unfold kept_value_mappings. simpl.
      unfold TransformationPredictor.consistent_value_mappings. simpl.
      rewrite dict_fold_all; [done|eauto|done].
    + unfold kept_relative_positions. simpl.
      unfold TransformationPredictor.consistent_relative_positions. simpl.
      generalize (SpatialAnalysis.relative_positions
                    (Analysis.spatial_transforms first)).
      intros l. induction l as [|x l IH]; simpl; [done|by f_equal].
  - intros ts' Hperm.
    destruct ts' as [|first' rest'];
      [by apply Permutation_nil_cons in Hperm|].
    assert (dict_keys_unique (first' :: rest')) as Hkeys'.
    { unfold dict_keys_unique. by rewrite Hperm. }
    split_and!.
    + intros val. apply option_ext. intros mapping.
      rewrite !kept_value_mappings_get by eauto.
      by setoid_rewrite Hperm.
    + apply option_ext. intros c.
      rewrite !kept_count_change_iff. by setoid_rewrite Hperm.
    + apply option_ext. intros g.
      rewrite !kept_global_transform_iff. by setoid_rewrite Hperm.
Qed.

Lemma consistency_reduction_witness :
  dict_keys_unique [scenario_reduction.t0; scenario_reduction.t0]
  ∧ ∀ g, kept_global_transform [scenario_reduction.t0; scenario_reduction.t0]
         = Some g
         ↔ ∀ t, t ∈ [scenario_reduction.t0; scenario_reduction.t0] →
                SpatialAnalysis.global_transform
                  (Analysis.spatial_transforms t) = g.
Proof.
  assert (dict_keys_unique [scenario_reduction.t0; scenario_reduction.t0])
    as Hkeys.
  { repeat constructor; set_solver. }
  split; [exact Hkeys|].
  destruct (consistency_reduction scenario_reduction.t0
              [scenario_reduction.t0] Hkeys) as (_ & _ & Hglobal & _).
  exact Hglobal.
Defined.

(** ** The progression detector *)

(** C9, as stated, fails: the quotients are taken over every adjacent
    pair.  For the line [0, 5] the only divisor is the cell value 0, and
    the division is made; numpy returns an infinity for it. *)
Lemma ratios_divide_by_zero :
  take 1 [0; 5] = [0]
  ∧ PatternTester.ratios [0; 5]
    = [PrimFloat.div (np.to_float 5) (np.to_float 0)]
  ∧ PatternTester.ratios [0; 5] = [PrimFloat.infinity].
Proof. split_and!; vm_compute; reflexivity. Qed.

Lemma length_ratios (line : list Z) :
  length (PatternTester.ratios line) = (length line - 1)%nat.
Proof.
  unfold PatternTester.ratios, np.true_divide.
  rewrite length_zip_with, length_drop, length_take. lia.
Qed.

Lemma filter_nonzero (line : list Z) :
  List.filter (λ x : Z, negb (bool_decide (x = 0))) line
  = filter (λ x, x ≠ 0) line.
Proof.
  induction line as [|x line IH]; [done|]. simpl.
  destruct (decide (x = 0)) as [->|Hx].
  - by rewrite filter_cons_False by (by intros []).
  - rewrite bool_decide_eq_false_2, filter_cons_True by done. simpl.
    by f_equal.
Qed.

Lemma float_set_grows (s values : list float) :
  (length s ≤ length (foldl (λ s x, if existsb (PrimFloat.eqb x) s
                                    then s else s ++ [x]) s values))%nat.
Proof.
  revert s. induction values as [|x values IH]; intros s; simpl; [lia|].
  etrans; [|apply IH]. destruct (existsb _ s); [lia|].
  rewrite length_app. simpl. lia.
Qed.

(** a set of floats with one member: every value equals the first one *)
Lemma float_set_single (values : list float) :
  length (PatternTester.float_set values) = 1%nat →
  ∃ q rest, values = q :: rest
            ∧ ∀ x, x ∈ rest → PrimFloat.eqb x q = true.
Proof.
  unfold PatternTester.float_set.
  destruct values as [|q rest]; simpl; [done|].
  intros Hlen. exists q, rest. split; [done|].
  induction rest as [|y rest IH]; [by intros x ?%elem_of_nil|].
  simpl in Hlen. rewrite orb_false_r in Hlen.
  destruct (PrimFloat.eqb y q) eqn:Hy.
  - intros x [->|Hx]%elem_of_cons; [done|by apply IH].
  - pose proof (float_set_grows ([q] ++ [y]) rest) as Hgrow.
    simpl in Hgrow. simpl in Hlen. lia.
Qed.

Lemma test_line_elem (location : PatternTester.Location) (line : list Z)
    (results : PatternTester.Results) (loc : PatternTester.Location)
    (ratio : float) :
  PatternTester.geometric loc ratio
    ∈ PatternTester.progression_types
        (PatternTester.test_line location line results) →
  PatternTester.geometric loc ratio
    ∈ PatternTester.progression_types results
  ∨ (loc = location ∧ PatternTester.is_geometric line = true).
Proof.
  unfold PatternTester.test_line. intros H.
  destruct (PatternTester.is_geometric line) eqn:Hg.
  - simpl in H. apply elem_of_app in H as [H|H].
    + left. destruct (bool_decide _); simpl in H; [|done].
      apply elem_of_app in H as [H|H]; [done|].
      by apply list_elem_of_singleton in H.
    + right. apply list_elem_of_singleton in H. by injection H as -> _.
  - left. destruct (bool_decide _); simpl in H; [|done].
    apply elem_of_app in H as [H|H]; [done|].
    by apply list_elem_of_singleton in H.
Qed.

Lemma test_lines_elem (mk : nat → PatternTester.Location)
    (lines : list (nat * list Z)) (results : PatternTester.Results)
    (loc : PatternTester.Location) (ratio : float) :
  PatternTester.geometric loc ratio
    ∈ PatternTester.progression_types
        (foldl (λ results (il : nat * list Z),
                  PatternTester.test_line (mk il.1) il.2 results)
               results lines) →
  PatternTester.geometric loc ratio
    ∈ PatternTester.progression_types results
  ∨ ∃ i line, (i, line) ∈ lines ∧ loc = mk i
              ∧ PatternTester.is_geometric line = true.
Proof.
  revert results. induction lines as [|[i line] lines IH]; intros results;
    simpl; [by left|].
  intros [H|(i' & line' & Hin & ? & ?)]%IH.
  - apply test_line_elem in H as [H|[-> Hg]]; [by left|].
    right. exists i, line. split_and!; [set_solver|done..].
  - right. exists i', line'. split_and!; [set_solver|done..].
Qed.

Lemma elem_of_enumerate {A} (l : list A) (i : nat) (x : A) :
  (i, x) ∈ imap (λ i x, (i, x)) l ↔ l !! i = Some x.
Proof.
  rewrite elem_of_lookup_imap. split.
  - by intros (? & ? & [= -> ->] & ?).
  - intros ?. by exists i, x.
Qed.

(** C9 (amended): the detector divides every adjacent pair of a line, zero
    divisors included (numpy returns an infinity or a NaN and raises
    nothing), and discards the NaN quotients only.  It reports a geometric
    progression for a line only when the line has more than one non-zero
    entry and all the quotients that are not NaN are equal. *)
Theorem geometric_progression_guard (grid : np.Grid)
    (location : PatternTester.Location) (ratio : float) :
  PatternTester.geometric location ratio
    ∈ PatternTester.progression_types (PatternTester.test_progression grid) →
  ∃ line, line_at grid location = Some line
    ∧ length (PatternTester.ratios line) = (length line - 1)%nat
    ∧ (1 < length (filter (λ x : Z, x ≠ 0%Z) line))%nat
    ∧ ∃ q rest,
        PatternTester.not_nan (PatternTester.ratios line) = q :: rest
        ∧ ∀ x, x ∈ rest → PrimFloat.eqb x q = true.
Proof.
  unfold PatternTester.test_progression.
  intros H.
  assert (∃ line, line_at grid location = Some line
                  ∧ PatternTester.is_geometric line = true)
    as (line & Hline & Hgeo).
  { apply test_lines_elem in H as [H|(i & line & Hin & -> & Hg)].
    - apply test_lines_elem in H as [H|(i & line & Hin & -> & Hg)].
      + by apply elem_of_nil in H.
      + exists line. split; [|done]. by apply elem_of_enumerate in Hin.
    - exists line. split; [|done]. by apply elem_of_enumerate in Hin. }
  exists line. split; [done|]. split; [apply length_ratios|].
  unfold PatternTester.is_geometric in Hgeo.
  apply andb_true_iff in Hgeo as [Hnz%bool_decide_eq_true
                                    Hset%bool_decide_eq_true].
  rewrite filter_nonzero in Hnz. split; [done|].
  by apply float_set_single.
Qed.

Lemma geometric_progression_guard_witness :
  ∃ line, line_at [[1; 2; 4]] (PatternTester.row_ 0) = Some line
    ∧ length (PatternTester.ratios line) = (length line - 1)%nat
    ∧ (1 < length (filter (λ x : Z, x ≠ 0%Z) line))%nat
    ∧ ∃ q rest,
        PatternTester.not_nan (PatternTester.ratios line) = q :: rest
        ∧ ∀ x, x ∈ rest → PrimFloat.eqb x q = true.
Proof.
  apply (geometric_progression_guard [[1; 2; 4]] (PatternTester.row_ 0)
           (PrimFloat.div (np.to_float 2) (np.to_float 1))).
  vm_compute. apply list_elem_of_here.
Defined.

(** ** Storage of the prediction *)

(** A write through a view lands in the buffer the view belongs to: the
    array below is [np.rot90(base, 3)], and setting its cells that equal 5
    to 7 changes the one cell of the base that holds 5. *)
Example write_through_rotated_view :
  let base : np.Grid := [[1; 2; 3]; [4; 5; 6]] in
  let a := heap.rot90 (ndarray.mk 0 []) 3 in
  ndarray.read [base] a = [[4; 1]; [5; 2]; [6; 3]]
  ∧ heap.update a (λ g, np.set_mask g (np.eq_mask g 5) 7) [base]
    = Ok ((), [[[1; 2; 3]; [4; 7; 6]]]).
Proof. split; vm_compute; reflexivity. Qed.

Section keeps.
Variable a0 : nat.

Lemma keeps_ret {A} (a : A) (Q : A → Prop) : Q a → keeps a0 (mret a) Q.
Proof. intros HQ σ Hσ. by split_and!. Qed.

Lemma keeps_bind {A B} (m : M A) (f : A → M B) (Q : A → Prop)
    (R : B → Prop) :
  keeps a0 m Q → (∀ a, Q a → keeps a0 (f a) R) → keeps a0 (m ≫= f) R.
Proof.
  intros Hm Hf σ Hσ. specialize (Hm σ Hσ).
  unfold mbind, M_bind. destruct (m σ) as [[a σ1]|e]; [|done].
  destruct Hm as (Hσ1 & Hframe & HQ).
  specialize (Hf a HQ σ1 Hσ1).
  destruct (f a σ1) as [[b σ2]|e]; [|done].
  destruct Hf as (? & Hframe' & ?). split_and!; [done| |done].
  by rewrite Hframe'.
Qed.

Lemma keeps_weaken {A} (m : M A) (Q R : A → Prop) :
  keeps a0 m Q → (∀ a, Q a → R a) → keeps a0 m R.
Proof.
  intros Hm HQR σ Hσ. specialize (Hm σ Hσ).
  destruct (m σ) as [[a σ1]|e]; [|done]. naive_solver.
Qed.

Lemma keeps_lift {A} (r : Result A) : keeps a0 (lift r) (λ _, True).
Proof. intros σ Hσ. unfold lift. destruct r; [by split_and!|done]. Qed.

Lemma keeps_get (p : ndarray.t) : keeps a0 (heap.get p) (λ _, True).
Proof. intros σ Hσ. by split_and!. Qed.

Lemma keeps_alloc (g : np.Grid) :
  keeps a0 (heap.alloc g) (λ p, ndarray.buf p ≠ a0).
Proof.
  intros σ Hσ. unfold heap.alloc. cbv beta iota.
  split_and!; [rewrite length_app; lia| |simpl; lia].
  by apply lookup_app_l.
Qed.

Lemma keeps_copy (p : ndarray.t) :
  keeps a0 (heap.copy p) (λ p', ndarray.buf p' ≠ a0).
Proof.
  unfold heap.copy. eapply keeps_bind; [apply keeps_get|].
  intros g _. apply keeps_alloc.
Qed.

Lemma keeps_update (p : ndarray.t) (f : np.Grid → np.Grid) :
  ndarray.buf p ≠ a0 → keeps a0 (heap.update p f) (λ _, True).
Proof.
  intros Hp σ Hσ. unfold heap.update, ndarray.write. cbv beta iota.
  split_and!; [by rewrite length_insert| |done].
  by apply list_lookup_insert_ne.
Qed.

Lemma keeps_for_each_M {A S} (l : list A) (body : S → A → M S) (s : S) :
  (∀ s x, keeps a0 (body s x) (λ _, True)) →
  keeps a0 (for_each_M l body s) (λ _, True).
Proof.
  intros Hbody. revert s. induction l as [|x l IH]; intros s; simpl.
  - by apply keeps_ret.
  - eapply keeps_bind; [apply Hbody|]. intros s' _. apply IH.
Qed.

Lemma keeps_apply_global (p : ndarray.t) (t : Transform.t) :
  ndarray.buf p ≠ a0 →
  keeps a0 (TransformationPredictor.apply_global p t)
        (λ p', ndarray.buf p' ≠ a0).
Proof.
  intros Hp. destruct t; simpl; try by apply keeps_ret.
  eapply keeps_bind; [apply keeps_get|]. intros g _.
  eapply keeps_bind; [apply keeps_lift|].
  intros g' _. apply keeps_alloc.
Qed.

Lemma keeps_apply_value_mapping (p : ndarray.t) (u : ())
    (vm : Z * ValueMapping.t) :
  ndarray.buf p ≠ a0 →
  keeps a0 (TransformationPredictor.apply_value_mapping p u vm) (λ _, True).
Proof.
  intros Hp. unfold TransformationPredictor.apply_value_mapping.
  eapply keeps_bind; [apply keeps_get|]. intros g _.
  destruct vm.2.
  - by apply keeps_update.
  - apply keeps_for_each_M. intros _ cond.
    eapply keeps_bind; [apply keeps_lift|]. intros type_mask _.
    by apply keeps_update.
  - by apply keeps_ret.
Qed.

Lemma keeps_apply_object_mappings (transforms : Consistent.t)
    (p : ndarray.t) (u : ()) (obj : Object.t) :
  ndarray.buf p ≠ a0 →
  keeps a0 (TransformationPredictor.apply_object_mappings transforms p u obj)
        (λ _, True).
Proof.
  intros Hp. unfold TransformationPredictor.apply_object_mappings.
  eapply keeps_bind; [apply keeps_lift|].
  intros ot _. apply keeps_for_each_M. intros _ mapping.
  case_bool_decide; [|by apply keeps_ret].
  eapply keeps_bind; [apply keeps_get|]. intros g _.
  eapply keeps_bind; [apply keeps_lift|].
  intros obj_grid _. cbv zeta.
  case_bool_decide; [by apply keeps_update|by apply keeps_ret].
Qed.

Lemma keeps_apply_relative_position (p : ndarray.t) (u : ())
    (rel_change : RelChange.t) :
  ndarray.buf p ≠ a0 →
  keeps a0 (TransformationPredictor.apply_relative_position p u rel_change)
        (λ _, True).
Proof.
  intros Hp. unfold TransformationPredictor.apply_relative_position.
  destruct (RelChange.objects rel_change) as [obj1_val obj2_val].
  eapply keeps_bind; [apply keeps_get|]. intros g _. cbv zeta.
  destruct (np.any _ && np.any _); [|by apply keeps_ret].
  destruct (negb _ || negb _); [|by apply keeps_ret].
  eapply keeps_bind; [apply keeps_copy|]. intros new_prediction Hnew.
  eapply keeps_bind; [by apply keeps_update|]. intros _ _.
  destruct (existsb id _); [|by apply keeps_ret].
  eapply keeps_weaken; [apply keeps_lift|done].
Qed.

(** whenever [_apply_transforms] returns, it has left the buffer of its
    argument alone and returns an array that lives in another buffer *)
Lemma keeps_apply_transforms (frames : nat) (input_grid : ndarray.t)
    (transforms : Consistent.t) :
  a0 = ndarray.buf input_grid →
  keeps a0 (TransformationPredictor._apply_transforms frames input_grid
              transforms)
        (λ prediction, ndarray.buf prediction ≠ a0).
Proof.
  intros _. unfold TransformationPredictor._apply_transforms.
  eapply keeps_bind; [apply keeps_copy|]. intros p0 Hp0.
  eapply keeps_bind; [apply keeps_lift|].
  intros spatial _.
  eapply keeps_bind; [by apply keeps_apply_global|]. intros p Hp.
  eapply keeps_bind; [apply keeps_lift|].
  intros value_mappings _.
  eapply keeps_bind.
  { apply keeps_for_each_M. intros u vm. by apply keeps_apply_value_mapping. }
  intros _ _.
  eapply keeps_bind; [apply keeps_get|]. intros g _.
  eapply keeps_bind; [apply keeps_lift|].
  intros objects _.
  eapply keeps_bind.
  { apply keeps_for_each_M. intros u obj.
    by apply keeps_apply_object_mappings. }
  intros _ _.
  eapply keeps_bind.
  { apply keeps_for_each_M. intros u rc.
    by apply keeps_apply_relative_position. }
  intros _ _. by apply keeps_ret.
Qed.
End keeps.

Lemma read_alloc (σ : ndarray.Heap) (g : np.Grid) :
  ndarray.read (σ ++ [g]) (ndarray.mk (length σ) []) = g.
Proof.
  unfold ndarray.read. simpl.
  rewrite lookup_app_r by done. by rewrite Nat.sub_diag.
Qed.

(** without object mappings the loop over the objects changes nothing *)
Lemma apply_object_mappings_empty (transforms : Consistent.t)
    (object_transforms : ConsistentObjects.t) (prediction : ndarray.t)
    (objects : list Object.t) (σ : ndarray.Heap) :
  Consistent.object_transforms transforms = Some object_transforms →
  default [] (ConsistentObjects.mappings object_transforms) = [] →
  for_each_M objects
    (TransformationPredictor.apply_object_mappings transforms prediction)
    () σ
  = Ok ((), σ).
Proof.
  intros Hot Hmappings. induction objects as [|obj objects IH]; [done|].
  simpl. unfold mbind, M_bind.
  unfold TransformationPredictor.apply_object_mappings at 1.
  rewrite Hot. unfold mbind, M_bind. simpl. rewrite Hmappings. simpl.
  apply IH.
Qed.

(** the identity fallback: under an empty hypothesis all that is left of
    [_apply_transforms] is the copy of the input and the search for the
    objects of the copy *)
Lemma apply_transforms_empty (frames : nat) (input_grid : ndarray.t)
    (transforms : Consistent.t) (σ : ndarray.Heap) :
  empty_hypothesis transforms →
  TransformationPredictor._apply_transforms frames input_grid transforms σ
  = match GridOperations.get_objects frames (ndarray.read σ input_grid) with
    | Ok _ =>
      Ok (ndarray.mk (length σ) [], σ ++ [ndarray.read σ input_grid])
    | Raise e => Raise e
    end.
Proof.
  intros (Hvm & (ot & Hot & Hmappings) & (st & Hst & Hglobal & Hrel)).
  unfold TransformationPredictor._apply_transforms.
  unfold mbind, M_bind, heap.copy, heap.get, heap.alloc.
  unfold mbind, M_bind. rewrite Hst, Hvm. simpl.
  rewrite Hglobal, Hrel. simpl. rewrite read_alloc.
  destruct (GridOperations.get_objects frames (ndarray.read σ input_grid))
    as [objects|e]; [|done].
  simpl. by rewrite (apply_object_mappings_empty _ ot).
Qed.

(** C8, as stated, fails: the prediction looks for the objects of the
    intermediate grid whatever the hypothesis holds.  For a single row of
    1000 cells of value 1 and the empty hypothesis [_apply_transforms]
    returns no grid: the flood fill raises [RecursionError] at every depth
    of the stack, the recursion limit being the interpreter's default. *)
Lemma apply_transforms_recursion_limit :
  empty_hypothesis scenario_empty.transforms
  ∧ ∀ frames, (frames ≤ sys.getrecursionlimit)%nat →
      TransformationPredictor._apply_transforms frames (ndarray.mk 0 [])
        scenario_empty.transforms [[replicate 1000 1]]
      = Raise RecursionError.
Proof.
  assert (empty_hypothesis scenario_empty.transforms) as Hempty.
  { split_and!; [done|by eexists|by eexists]. }
  split; [exact Hempty|]. intros frames Hframes.
  rewrite apply_transforms_empty by done.
  change (ndarray.read [[replicate 1000 1]] (ndarray.mk 0 []))
    with [replicate 1000 1].
  rewrite (get_objects_raises_below _ frames sys.getrecursionlimit Hframes);
    [done|].
  vm_compute. reflexivity.
Qed.

(** C8 (amended): whenever [_apply_transforms] returns, its result is a new
    grid that shares no storage with the input grid, whose buffer it leaves
    as it was.  Under an empty hypothesis (no value mapping, no object
    transform, no global transform, no relative-position change) it returns
    a grid equal to the input grid when the input grid has fewer cells
    than the interpreter admits nested calls of the flood fill; the only
    exception it then raises is [RecursionError], and only on a grid with
    at least as many cells as calls admitted. *)
Theorem apply_transforms_new_grid (frames : nat) (input_grid : ndarray.t)
    (transforms : Consistent.t) (σ : ndarray.Heap) :
  (ndarray.buf input_grid < length σ)%nat →
  (∀ prediction σ',
     TransformationPredictor._apply_transforms frames input_grid transforms σ
     = Ok (prediction, σ') →
     ndarray.buf prediction ≠ ndarray.buf input_grid
     ∧ σ' !! ndarray.buf input_grid = σ !! ndarray.buf input_grid
     ∧ ndarray.read σ' input_grid = ndarray.read σ input_grid)
  ∧ (empty_hypothesis transforms →
     (np.height (ndarray.read σ input_grid)
      * np.width (ndarray.read σ input_grid) < Z.of_nat frames →
      ∃ prediction σ',
        TransformationPredictor._apply_transforms frames input_grid
          transforms σ
        = Ok (prediction, σ')
        ∧ ndarray.read σ' prediction = ndarray.read σ input_grid)
     ∧ (∀ e,
          TransformationPredictor._apply_transforms frames input_grid
            transforms σ
          = Raise e →
          e = RecursionError
          ∧ Z.of_nat frames ≤ np.height (ndarray.read σ input_grid)
                              * np.width (ndarray.read σ input_grid))).
Proof.
  intros Hσ. split.
  - intros prediction σ' Hrun.
    pose proof (keeps_apply_transforms (ndarray.buf input_grid) frames
                  input_grid transforms eq_refl σ Hσ) as H.
    rewrite Hrun in H. destruct H as (_ & Hframe & Hfresh).
    split; [done|]. split; [done|].
    apply (f_equal (λ o, foldl ndarray.apply_op (default [] o)
                           (ndarray.view input_grid))) in Hframe.
    exact Hframe.
  - intros Hempty. rewrite apply_transforms_empty by done. split.
    + intros Hframes.
      destruct (get_objects_ok frames _ Hframes) as (objects & -> & _).
      eexists _, _. split; [done|]. apply read_alloc.
    + intros e.
      destruct (GridOperations.get_objects frames _) as [objects|e']
        eqn:Hobjects; [done|].
      intros [= <-]. split; [by eapply get_objects_raises|].
      destruct (Z_lt_le_dec
                  (np.height (ndarray.read σ input_grid)
                   * np.width (ndarray.read σ input_grid))
                  (Z.of_nat frames)) as [Hlt|Hle]; [|done].
      destruct (get_objects_ok frames _ Hlt) as (objs & Hobjs & _).
      by rewrite Hobjs in Hobjects.
Qed.

Lemma apply_transforms_new_grid_witness :
  (ndarray.buf (ndarray.mk 0 []) < length [scenario2.test_in])%nat
  ∧ ∃ prediction σ',
      TransformationPredictor._apply_transforms 10 (ndarray.mk 0 [])
        scenario_empty.transforms [scenario2.test_in]
      = Ok (prediction, σ')
      ∧ ndarray.buf prediction ≠ ndarray.buf (ndarray.mk 0 [])
      ∧ ndarray.read σ' prediction
        = ndarray.read [scenario2.test_in] (ndarray.mk 0 []).
Proof.
  assert (ndarray.buf (ndarray.mk 0 []) < length [scenario2.test_in])%nat
    as Hσ by (simpl; lia).
  split; [exact Hσ|].
  destruct (apply_transforms_new_grid 10 (ndarray.mk 0 [])
              scenario_empty.transforms [scenario2.test_in] Hσ)
    as [Hnew [Hreturns _]].
  { split_and!; [done|by eexists|by eexists]. }
  destruct Hreturns as (prediction & σ' & Hrun & Hread); [reflexivity|].
  exists prediction, σ'. split; [exact Hrun|]. split; [|exact Hread].
  exact (proj1 (Hnew prediction σ' Hrun)).
Defined.

(** ** Objects are connected components *)

(** a loop that returned has kept what every returning step keeps *)
Lemma for_each_invariant_Ok {A S} (I : list A → S → Prop)
    (body : S → A → Result S) (l : list A) (s s' : S) :
  for_each l body s = Ok s' →
  I [] s →
  (∀ visited x s s1, I visited s → x ∈ l → body s x = Ok s1 →
     I (visited ++ [x]) s1) →
  I l s'.
Proof.
  intros Hrun Hinit Hstep.
  cut (∀ rest visited s, visited ++ rest = l → I visited s →
         for_each rest body s = Ok s' → I l s').
  { intros H. by apply (H l [] s). }
  induction rest as [|x rest IH]; intros visited s0 Hl HI Hr.
  - rewrite app_nil_r in Hl. subst. by injection Hr as <-.
  - simpl in Hr. destruct (body s0 x) as [s1|e] eqn:Hb; [|done].
    simpl in Hr. apply (IH (visited ++ [x]) s1); [by rewrite <- app_assoc| |done].
    apply (Hstep visited x s0 s1); [done| |done]. subst l. set_solver.
Qed.

Lemma adjacent_sym (p q : np.Cell) : adjacent p q → adjacent q p.
Proof. unfold adjacent. intros [[? [?|?]]|[? [?|?]]]; lia. Qed.

(** the cells adjacent to a cell are the four neighbours [flood_fill]
    visits *)
Lemma adjacent_neighbours (r c : Z) (q : np.Cell) :
  adjacent (r, c) q ↔ q ∈ [(r + 1, c); (r - 1, c); (r, c + 1); (r, c - 1)].
Proof.
  destruct q as [r' c']. unfold adjacent. simpl.
  rewrite !elem_of_cons, elem_of_nil. split.
  - intros [[? [?|?]]|[? [?|?]]]; subst.
    + right. right. right. left. f_equal; lia.
    + right. right. left. f_equal; lia.
    + right. left. f_equal; lia.
    + left. f_equal; lia.
  - intros [H|[H|[H|[H|[]]]]]; injection H as -> ->; lia.
Qed.

Lemma connected_in_mono (cells cells' : list np.Cell) (p q : np.Cell) :
  (∀ x, x ∈ cells → x ∈ cells') →
  connected_in cells p q → connected_in cells' p q.
Proof.
  intros Hsub Hpath. induction Hpath as [p Hp|p q r Hp Hadj _ IH].
  - apply connected_here. by apply Hsub.
  - eapply connected_step; [by apply Hsub|done|done].
Qed.

Lemma connected_in_end (cells : list np.Cell) (p q : np.Cell) :
  connected_in cells p q → q ∈ cells.
Proof. induction 1; done. Qed.

(** the loop over the neighbours, for a filling function that behaves as
    [fill_component] says *)
Lemma fill_neighbours_component (g : np.Grid) (v : Z)
    (F : Z → Z → gset np.Cell → Result (list np.Cell * gset np.Cell))
    (start : np.Cell) (ns : list np.Cell) (seen : gset np.Cell)
    (st' : list np.Cell * gset np.Cell) :
  (∀ r c seen res, F r c seen = Ok res →
     res.2 = seen ∪ list_to_set res.1 ∧ fill_component g v (r, c) res) →
  (∀ nb, nb ∈ ns → adjacent start nb) →
  for_each ns
    (λ (st : list np.Cell * gset np.Cell) (nb : np.Cell),
       res ← F nb.1 nb.2 st.2; Ok (st.1 ++ res.1, res.2))
    ([start], {[start]} ∪ seen)
  = Ok st' →
  st'.2 = {[start]} ∪ seen ∪ list_to_set st'.1
  ∧ head st'.1 = Some start
  ∧ (∀ p, p ∈ st'.1 → connected_in st'.1 start p)
  ∧ (∀ p q, p ∈ st'.1 → p ≠ start → adjacent p q → in_bounds g q →
            np.get g q.1 q.2 = v → q ∈ st'.2)
  ∧ (∀ nb, nb ∈ ns → in_bounds g nb → np.get g nb.1 nb.2 = v → nb ∈ st'.2).
Proof.
  intros HF Hadj Hrun.
  apply (for_each_invariant_Ok
    (λ visited (st : list np.Cell * gset np.Cell),
       st.2 = {[start]} ∪ seen ∪ list_to_set st.1
       ∧ head st.1 = Some start
       ∧ (∀ p, p ∈ st.1 → connected_in st.1 start p)
       ∧ (∀ p q, p ∈ st.1 → p ≠ start → adjacent p q → in_bounds g q →
                 np.get g q.1 q.2 = v → q ∈ st.2)
       ∧ (∀ nb, nb ∈ visited → in_bounds g nb → np.get g nb.1 nb.2 = v →
                nb ∈ st.2)) _ _ _ _ Hrun).
  - simpl. split_and!.
    + set_solver.
    + done.
    + intros p ->%list_elem_of_singleton. apply connected_here. set_solver.
    + intros p q ->%list_elem_of_singleton. done.
    + intros nb ?%elem_of_nil. done.
  - intros visited nb st st1 (Hseen & Hhead & Hconn & Hclosed & Hvis) Hnb Hbody.
    destruct (F nb.1 nb.2 st.2) as [res|e] eqn:Hres; [|done].
    simpl in Hbody. injection Hbody as <-.
    destruct (HF _ _ _ _ Hres) as (Hres2 & Hrhead & Hrconn & Hrclosed & Hrstart).
    assert (nb = (nb.1, nb.2)) as Enb by by destruct nb.
    rewrite <- Enb in *. simpl.
    assert (start ∈ st.1) as Hstart.
    { destruct st.1; [done|]. injection Hhead as ->. set_solver. }
    split_and!.
    + rewrite Hres2, Hseen, list_to_set_app_L. set_solver.
    + destruct st.1; [done|]. done.
    + intros p [Hp|Hp]%elem_of_app.
      * eapply connected_in_mono; [|by apply Hconn]. set_solver.
      * apply (connected_step _ start nb); [set_solver|by apply Hadj|].
        eapply connected_in_mono; [|by apply Hrconn]. set_solver.
    + intros p q [Hp|Hp]%elem_of_app Hne Hpq Hq Hv.
      * rewrite Hres2. apply elem_of_union_l. by eapply Hclosed.
      * by eapply Hrclosed.
    + intros nb' [Hnb'| ->%list_elem_of_singleton]%elem_of_app Hb Hv.
      * rewrite Hres2. apply elem_of_union_l. by apply Hvis.
      * by apply Hrstart.
Qed.

(** what a call of [flood_fill] that returns has added *)
Lemma flood_fill_component (g : np.Grid) (v : Z) (frames : nat) :
  ∀ r c seen res,
    GridOperations.flood_fill frames g r c v seen = Ok res →
    res.2 = seen ∪ list_to_set res.1 ∧ fill_component g v (r, c) res.
Proof.
  induction frames as [|fuel IH]; intros r c seen res Hrun; [done|].
  rewrite flood_fill_unfold in Hrun.
  match type of Hrun with
  | (if ?b then _ else _) = _ => destruct b eqn:Hguard
  end.
  - injection Hrun as <-. simpl. split; [set_solver|].
    unfold fill_component. simpl. split_and!; [done| | |].
    + by intros p ?%elem_of_nil.
    + by intros p q ?%elem_of_nil.
    + intros Hb Hv. destruct (decide ((r, c) ∈ seen)) as [|Hs]; [done|].
      assert (in_bounds g (r, c) ∧ np.get g r c = v ∧ (r, c) ∉ seen) as H
        by done.
      apply flood_fill_guard in H. congruence.
  - apply flood_fill_guard in Hguard as (Hb & Hv & Hs).
    apply (fill_neighbours_component g v
             (λ r c seen, GridOperations.flood_fill fuel g r c v seen)
             (r, c)) in Hrun as (Hseen & Hhead & Hconn & Hclosed & Hnbs).
    + split; [rewrite Hseen; destruct res.1; [done|];
              injection Hhead as ->; set_solver|].
      unfold fill_component. split_and!; [done|done| |].
      * intros p q Hp Hpq Hq Hvq.
        destruct (decide (p = (r, c))) as [->|Hne]; [|by eapply Hclosed].
        apply Hnbs; [by apply adjacent_neighbours|done..].
      * intros _ _. rewrite Hseen. set_solver.
    + intros r' c' seen' res' Hres'. by apply IH.
    + intros nb Hnb. by apply adjacent_neighbours.
Qed.

Lemma scan_cell_components (frames : nat) (g : np.Grid) st (p : np.Cell)
    st' :
  np.height g * np.width g < Z.of_nat frames →
  scan_ok g st → (∀ o, o ∈ st.1 → component g o) → in_bounds g p →
  GridOperations.scan_cell frames g st p = Ok st' →
  ∀ o, o ∈ st'.1 → component g o.
Proof.
  intros Hframes (Hseen & Hnd & Hcells) Hcomp Hb. destruct p as [r c].
  unfold GridOperations.scan_cell.
  match goal with
  | |- context [if ?b then _ else _] => destruct b eqn:Hguard
  end; [|by intros [= <-]].
  apply andb_true_iff in Hguard as [Hs%bool_decide_eq_true
                                     Hv%bool_decide_eq_true].
  destruct (flood_fill_ok g (np.get g r c) frames r c st.2)
    as (res & Hrun & (Hres & Hnd' & Hp) & Hin).
  { pose proof (size_cells_of g).
    assert (size (cells_of g ∖ st.2) ≤ size (cells_of g))%nat
      by (apply subseteq_size; set_solver).
    assert (0 ≤ np.height g * np.width g)
      by (unfold np.height, np.width; lia).
    remember (np.height g * np.width g) as cells. lia. }
  specialize (Hin Hb eq_refl Hs).
  destruct (flood_fill_component _ _ _ _ _ _ _ Hrun)
    as (_ & Hhead & Hconn & Hclosed & _).
  rewrite Hrun. cbn [mbind result_bind].
  rewrite bool_decide_eq_true_2 by (intros E; rewrite E in Hin; set_solver).
  intros [= <-]. simpl.
  intros o [Ho| ->%list_elem_of_singleton]%elem_of_app; [by apply Hcomp|].
  unfold component. simpl. split_and!.
  - done.
  - intros E. rewrite E in Hin. set_solver.
  - done.
  - intros q Hq. by destruct (Hp q Hq) as (_ & ? & ?).
  - intros q Hq. exists (r, c). split; [|by apply Hconn].
    apply Hhead. intros E. rewrite E in Hin. set_solver.
  - intros q q' Hq Hadj Hb' Hv'.
    destruct (Hp q Hq) as (Hnew & _ & Hvq).
    assert (q' ∈ res.2) as Hq' by (eapply Hclosed; [done..|congruence]).
    rewrite Hres in Hq'. apply elem_of_union in Hq' as [Hold|Hq'];
      [|by apply elem_of_list_to_set in Hq'].
    destruct Hnew. rewrite Hseen in Hold |- *.
    apply elem_of_list_to_set, elem_of_concat in Hold as (l & Hl & Hls).
    apply list_elem_of_fmap in Hls as (o' & -> & Ho').
    apply elem_of_list_to_set, elem_of_concat.
    exists (Object.coords o'). split; [|by apply list_elem_of_fmap_2].
    destruct (Hcomp o' Ho') as (_ & _ & _ & _ & _ & Hclosed').
    apply (Hclosed' q' q); [done|by apply adjacent_sym| |done].
    by destruct (Hp q Hq) as (_ & ? & _).
Qed.

(** [get_objects] returns for a grid with fewer cells than the
    interpreter admits nested calls of [flood_fill], and every object it
    returns is a [component] *)
Lemma get_objects_components (frames : nat) (g : np.Grid) :
  np.height g * np.width g < Z.of_nat frames →
  ∃ objs, GridOperations.get_objects frames g = Ok objs
          ∧ ∀ o, o ∈ objs → component g o.
Proof.
  intros Hframes.
  unfold GridOperations.get_objects. rewrite scan_loops_flat.
  destruct (for_each_invariant
    (λ _ st, scan_ok g st ∧ ∀ o, o ∈ st.1 → component g o)
    (GridOperations.scan_cell frames g) (np.indices (np.shape g)) ([], ∅))
    as (st & -> & _ & Hcomp).
  - split.
    + unfold scan_ok. simpl. split_and!; [done|constructor|set_solver].
    + by intros o ?%elem_of_nil.
  - intros _ p st [Hok Hcomp] Hp. apply elem_of_indices in Hp.
    destruct (scan_cell_ok frames g st p Hframes Hok Hp)
      as (st' & Hst' & Hok' & _).
    exists st'. split; [done|]. split; [done|].
    exact (scan_cell_components frames g st p st' Hframes Hok Hcomp Hp Hst').
  - by exists st.1.
Qed.

(** whenever [get_objects] returns, every object it returns is a
    [component] *)
Lemma get_objects_components_sound (frames : nat) (g : np.Grid) objs :
  GridOperations.get_objects frames g = Ok objs →
  ∀ o, o ∈ objs → component g o.
Proof.
  intros Hrun.
  remember (np.height g * np.width g) as cells eqn:Hcells.
  destruct (get_objects_components (Nat.max frames (S (Z.to_nat cells))) g)
    as (objs' & Hrun' & Hcomp); [rewrite <- Hcells; lia|].
  rewrite (get_objects_mono g frames (Nat.max frames (S (Z.to_nat cells)))
             objs ltac:(lia) Hrun) in Hrun'.
  by injection Hrun' as <-.
Qed.

(** X1: [get_objects] returns on a grid with fewer cells than the
    interpreter admits nested calls of the flood fill.  Whenever it
    returns, two cells that share a side and hold the same value are never
    split between objects: an object holds every cell of the grid that is
    adjacent to one of its cells and has that cell's value. *)
Theorem get_objects_maximal (frames : nat) (g : np.Grid) :
  (np.height g * np.width g < Z.of_nat frames →
   ∃ objs, GridOperations.get_objects frames g = Ok objs)
  ∧ ∀ objs, GridOperations.get_objects frames g = Ok objs →
      ∀ o p q, o ∈ objs → p ∈ Object.coords o → adjacent p q →
               in_bounds g q → np.get g q.1 q.2 = np.get g p.1 p.2 →
               q ∈ Object.coords o.
Proof.
  split.
  - intros Hframes.
    destruct (get_objects_ok frames g Hframes) as (objs & Hobjs & _).
    by exists objs.
  - intros objs Hobjs o p q Ho.
    destruct (get_objects_components_sound frames g objs Hobjs o Ho)
      as (_ & _ & _ & _ & _ & Hclosed).
    apply Hclosed.
Qed.

Lemma get_objects_maximal_witness :
  ∃ objs, GridOperations.get_objects 10 three_values = Ok objs
    ∧ ∀ o p q, o ∈ objs → p ∈ Object.coords o → adjacent p q →
               in_bounds three_values q →
               np.get three_values q.1 q.2 = np.get three_values p.1 p.2 →
               q ∈ Object.coords o.
Proof.
  destruct (get_objects_maximal 10 three_values) as [Hreturns Hsound].
  destruct Hreturns as [objs Hobjs]; [reflexivity|].
  exists objs. split; [exact Hobjs|]. exact (Hsound objs Hobjs).
Defined.

(** X2: [get_objects] returns on a grid with fewer cells than the
    interpreter admits nested calls of the flood fill.  Whenever it
    returns, every object is 4-connected: each of its cells is linked to
    the first cell of its list, the cell the scan found, by a path of
    adjacent cells of the object. *)
Theorem get_objects_connected (frames : nat) (g : np.Grid) :
  (np.height g * np.width g < Z.of_nat frames →
   ∃ objs, GridOperations.get_objects frames g = Ok objs)
  ∧ ∀ objs, GridOperations.get_objects frames g = Ok objs →
      ∀ o p, o ∈ objs → p ∈ Object.coords o →
             ∃ start, head (Object.coords o) = Some start
                      ∧ connected_in (Object.coords o) start p.
Proof.
  split.
  - intros Hframes.
    destruct (get_objects_ok frames g Hframes) as (objs & Hobjs & _).
    by exists objs.
  - intros objs Hobjs o p Ho.
    destruct (get_objects_components_sound frames g objs Hobjs o Ho)
      as (_ & _ & _ & _ & Hconn & _).
    apply Hconn.
Qed.

Lemma get_objects_connected_witness :
  ∃ objs, GridOperations.get_objects 10 three_values = Ok objs
    ∧ ∀ o p, o ∈ objs → p ∈ Object.coords o →
             ∃ start, head (Object.coords o) = Some start
                      ∧ connected_in (Object.coords o) start p.
Proof.
  destruct (get_objects_connected 10 three_values) as [Hreturns Hsound].
  destruct Hreturns as [objs Hobjs]; [reflexivity|].
  exists objs. split; [exact Hobjs|]. exact (Hsound objs Hobjs).
Defined.

(** X3: [get_objects] returns on a grid with fewer cells than the
    interpreter admits nested calls of the flood fill.  Whenever it
    returns, every object has at least one cell, its value is not the
    background value 0, and all its cells lie inside the grid and hold its
    value. *)
Theorem get_objects_uniform_value (frames : nat) (g : np.Grid) :
  (np.height g * np.width g < Z.of_nat frames →
   ∃ objs, GridOperations.get_objects frames g = Ok objs)
  ∧ ∀ objs, GridOperations.get_objects frames g = Ok objs →
      ∀ o, o ∈ objs →
        Object.coords o ≠ [] ∧ Object.value o ≠ 0
        ∧ ∀ p, p ∈ Object.coords o →
               in_bounds g p ∧ np.get g p.1 p.2 = Object.value o.
Proof.
  split.
  - intros Hframes.
    destruct (get_objects_ok frames g Hframes) as (objs & Hobjs & _).
    by exists objs.
  - intros objs Hobjs o Ho.
    by destruct (get_objects_components_sound frames g objs Hobjs o Ho)
      as (_ & ? & ? & ? & _).
Qed.

Lemma get_objects_uniform_value_witness :
  ∃ objs, GridOperations.get_objects 10 three_values = Ok objs
    ∧ ∀ o, o ∈ objs →
        Object.coords o ≠ [] ∧ Object.value o ≠ 0
        ∧ ∀ p, p ∈ Object.coords o →
               in_bounds three_values p
               ∧ np.get three_values p.1 p.2 = Object.value o.
Proof.
  destruct (get_objects_uniform_value 10 three_values)
    as [Hreturns Hsound].
  destruct Hreturns as [objs Hobjs]; [reflexivity|].
  exists objs. split; [exact Hobjs|]. exact (Hsound objs Hobjs).
Defined.

(** ** The bounding box of an object *)

Lemma foldl_min_spec (l : list Z) (a : Z) :
  (foldl Z.min a l = a ∨ foldl Z.min a l ∈ l)
  ∧ foldl Z.min a l ≤ a
  ∧ ∀ x, x ∈ l → foldl Z.min a l ≤ x.
Proof.
  revert a. induction l as [|y l IH]; intros a; simpl.
  - split_and!; [by left|lia|by intros x ?%elem_of_nil].
  - destruct (IH (Z.min a y)) as (Hin & Hle & Hall). split_and!.
    + destruct Hin as [->|Hin]; [|right; set_solver].
      destruct (Z.min_spec a y) as [[? ->]|[? ->]]; [by left|right; set_solver].
    + lia.
    + intros x [->|Hx]%elem_of_cons; [lia|by apply Hall].
Qed.

Lemma foldl_max_spec (l : list Z) (a : Z) :
  (foldl Z.max a l = a ∨ foldl Z.max a l ∈ l)
  ∧ a ≤ foldl Z.max a l
  ∧ ∀ x, x ∈ l → x ≤ foldl Z.max a l.
Proof.
  revert a. induction l as [|y l IH]; intros a; simpl.
  - split_and!; [by left|lia|by intros x ?%elem_of_nil].
  - destruct (IH (Z.max a y)) as (Hin & Hle & Hall). split_and!.
    + destruct Hin as [->|Hin]; [|right; set_solver].
      destruct (Z.max_spec a y) as [[? ->]|[? ->]]; [right; set_solver|by left].
    + lia.
    + intros x [->|Hx]%elem_of_cons; [lia|by apply Hall].
Qed.

Lemma np_min_spec (l : list Z) :
  l ≠ [] → np.min l ∈ l ∧ ∀ x, x ∈ l → np.min l ≤ x.
Proof.
  destruct l as [|a l]; [done|]. intros _. simpl.
  destruct (foldl_min_spec l a) as (Hin & Hle & Hall). split.
  - destruct Hin as [->|Hin]; set_solver.
  - intros x [->|Hx]%elem_of_cons; [done|by apply Hall].
Qed.

Lemma np_max_spec (l : list Z) :
  l ≠ [] → np.max l ∈ l ∧ ∀ x, x ∈ l → x ≤ np.max l.
Proof.
  destruct l as [|a l]; [done|]. intros _. simpl.
  destruct (foldl_max_spec l a) as (Hin & Hle & Hall). split.
  - destruct Hin as [->|Hin]; set_solver.
  - intros x [->|Hx]%elem_of_cons; [done|by apply Hall].
Qed.

Lemma component_bounding_box (g : np.Grid) (o : Object.t) :
  component g o →
  (∀ p, p ∈ Object.coords o →
        Object.min_r o ≤ p.1 ≤ Object.max_r o
        ∧ Object.min_c o ≤ p.2 ≤ Object.max_c o)
  ∧ (∃ p, p ∈ Object.coords o ∧ p.1 = Object.min_r o)
  ∧ (∃ p, p ∈ Object.coords o ∧ p.1 = Object.max_r o)
  ∧ (∃ p, p ∈ Object.coords o ∧ p.2 = Object.min_c o)
  ∧ (∃ p, p ∈ Object.coords o ∧ p.2 = Object.max_c o)
  ∧ 0 ≤ Object.min_r o ∧ Object.max_r o < np.height g
  ∧ 0 ≤ Object.min_c o ∧ Object.max_c o < np.width g
  ∧ Object.size o = Z.of_nat (length (Object.coords o))
  ∧ Object.dimensions o
    = (Object.max_r o - Object.min_r o + 1,
       Object.max_c o - Object.min_c o + 1).
Proof.
  intros (Hmk & Hne & _ & Hcells & _).
  assert ((Object.coords o).*1 ≠ []) as Hne1 by (by destruct (Object.coords o)).
  assert ((Object.coords o).*2 ≠ []) as Hne2 by (by destruct (Object.coords o)).
  destruct (np_min_spec _ Hne1) as (Hminr & Hminr').
  destruct (np_max_spec _ Hne1) as (Hmaxr & Hmaxr').
  destruct (np_min_spec _ Hne2) as (Hminc & Hminc').
  destruct (np_max_spec _ Hne2) as (Hmaxc & Hmaxc').
  assert (∀ x, x ∈ (Object.coords o).*1 →
            ∃ p, p ∈ Object.coords o ∧ p.1 = x) as Hrow.
  { intros x (p & -> & Hp)%list_elem_of_fmap. by exists p. }
  assert (∀ x, x ∈ (Object.coords o).*2 →
            ∃ p, p ∈ Object.coords o ∧ p.2 = x) as Hcol.
  { intros x (p & -> & Hp)%list_elem_of_fmap. by exists p. }
  rewrite Hmk. unfold GridOperations.make_object. simpl.
  destruct (Hrow _ Hminr) as (p1 & Hp1 & E1).
  destruct (Hrow _ Hmaxr) as (p2 & Hp2 & E2).
  destruct (Hcol _ Hminc) as (p3 & Hp3 & E3).
  destruct (Hcol _ Hmaxc) as (p4 & Hp4 & E4).
  destruct (Hcells p1 Hp1) as ((? & ?) & _).
  destruct (Hcells p2 Hp2) as ((? & ?) & _).
  destruct (Hcells p3 Hp3) as ((? & ?) & _).
  destruct (Hcells p4 Hp4) as ((? & ?) & _).
  split_and!; try done; try lia; eauto.
  intros p Hp. split.
  - split; [apply Hminr'|apply Hmaxr']; by apply list_elem_of_fmap_2.
  - split; [apply Hminc'|apply Hmaxc']; by apply list_elem_of_fmap_2.
Qed.

(** X4: [get_objects] returns on a grid with fewer cells than the
    interpreter admits nested calls of the flood fill.  Whenever it
    returns, the bounding box of an object is tight and lies inside the
    grid: every cell of the object is inside the box, each of the four
    sides of the box is touched by a cell of the object, ['size'] is the
    number of cells and ['dimensions'] are the height and width of the
    box. *)
Theorem get_objects_bounding_box (frames : nat) (g : np.Grid) :
  (np.height g * np.width g < Z.of_nat frames →
   ∃ objs, GridOperations.get_objects frames g = Ok objs)
  ∧ ∀ objs, GridOperations.get_objects frames g = Ok objs →
      ∀ o, o ∈ objs →
        (∀ p, p ∈ Object.coords o →
              Object.min_r o ≤ p.1 ≤ Object.max_r o
              ∧ Object.min_c o ≤ p.2 ≤ Object.max_c o)
        ∧ (∃ p, p ∈ Object.coords o ∧ p.1 = Object.min_r o)
        ∧ (∃ p, p ∈ Object.coords o ∧ p.1 = Object.max_r o)
        ∧ (∃ p, p ∈ Object.coords o ∧ p.2 = Object.min_c o)
        ∧ (∃ p, p ∈ Object.coords o ∧ p.2 = Object.max_c o)
        ∧ 0 ≤ Object.min_r o ∧ Object.max_r o < np.height g
        ∧ 0 ≤ Object.min_c o ∧ Object.max_c o < np.width g
        ∧ Object.size o = Z.of_nat (length (Object.coords o))
        ∧ Object.dimensions o
          = (Object.max_r o - Object.min_r o + 1,
             Object.max_c o - Object.min_c o + 1).
Proof.
  split.
  - intros Hframes.
    destruct (get_objects_ok frames g Hframes) as (objs & Hobjs & _).
    by exists objs.
  - intros objs Hobjs o Ho.
    apply component_bounding_box.
    by apply (get_objects_components_sound frames g objs Hobjs).
Qed.

Lemma get_objects_bounding_box_witness :
  ∃ objs, GridOperations.get_objects 10 three_values = Ok objs
    ∧ ∀ o, o ∈ objs →
        (∀ p, p ∈ Object.coords o →
              Object.min_r o ≤ p.1 ≤ Object.max_r o
              ∧ Object.min_c o ≤ p.2 ≤ Object.max_c o)
        ∧ (∃ p, p ∈ Object.coords o ∧ p.1 = Object.min_r o)
        ∧ (∃ p, p ∈ Object.coords o ∧ p.1 = Object.max_r o)
        ∧ (∃ p, p ∈ Object.coords o ∧ p.2 = Object.min_c o)
        ∧ (∃ p, p ∈ Object.coords o ∧ p.2 = Object.max_c o)
        ∧ 0 ≤ Object.min_r o ∧ Object.max_r o < np.height three_values
        ∧ 0 ≤ Object.min_c o ∧ Object.max_c o < np.width three_values
        ∧ Object.size o = Z.of_nat (length (Object.coords o))
        ∧ Object.dimensions o
          = (Object.max_r o - Object.min_r o + 1,
             Object.max_c o - Object.min_c o + 1).
Proof.
  destruct (get_objects_bounding_box 10 three_values)
    as [Hreturns Hsound].
  destruct Hreturns as [objs Hobjs]; [reflexivity|].
  exists objs. split; [exact Hobjs|]. exact (Hsound objs Hobjs).
Defined.

(** ** The subgrid of an object *)

Lemma get_imap (f : nat → nat → Z → Z) (g : list (list Z)) (i j : Z) :
  np.get (imap (λ i row, imap (f i) row) g) i j
  = default 0 (f (Z.to_nat i) (Z.to_nat j)
               <$> (row ← g !! Z.to_nat i; row !! Z.to_nat j)).
Proof.
  unfold np.get, np.Grid. rewrite list_lookup_imap.
  destruct (g !! Z.to_nat i) as [row|]; simpl; [|done].
  rewrite list_lookup_imap. by destruct (row !! Z.to_nat j).
Qed.

Lemma lookup_slice (g : list (list Z)) (r1 r2 c1 c2 : Z) (i j : nat) :
  0 ≤ r1 → 0 ≤ c1 →
  (row ← np.slice g r1 r2 c1 c2 !! i; row !! j)
  = if bool_decide (Z.of_nat i < r2 - r1 ∧ Z.of_nat j < c2 - c1)
    then row ← g !! (Z.to_nat r1 + i)%nat; row !! (Z.to_nat c1 + j)%nat
    else None.
Proof.
  intros Hr1 Hc1. unfold np.slice, np.Grid.
  change (map ?f ?l) with (f <$> l). rewrite list_lookup_fmap.
  destruct (decide (Z.of_nat i < r2 - r1)) as [Hi|Hi].
  - rewrite lookup_take_lt by lia. rewrite lookup_drop.
    destruct (g !! (Z.to_nat r1 + i)%nat) as [row|]; simpl;
      [|by case_bool_decide].
    destruct (decide (Z.of_nat j < c2 - c1)) as [Hj|Hj].
    + rewrite lookup_take_lt by lia. rewrite lookup_drop.
      by rewrite bool_decide_eq_true_2.
    + rewrite lookup_take_ge by lia.
      rewrite bool_decide_eq_false_2; [done|]. by intros [_ ?].
  - rewrite lookup_take_ge by lia. simpl.
    rewrite bool_decide_eq_false_2; [done|]. by intros [? _].
Qed.

Lemma shape_imap {A B} (f : nat → nat → A → B) (g : list (list A)) :
  np.shape (imap (λ i row, imap (f i) row) g) = np.shape g.
Proof.
  unfold np.shape, np.height, np.width. rewrite length_imap.
  destruct g as [|row g]; [done|]. simpl. by rewrite length_imap.
Qed.

Lemma shape_slice (g : np.Grid) (r1 r2 c1 c2 : Z) :
  rectangular g →
  0 ≤ r1 → r1 < r2 → r2 ≤ np.height g →
  0 ≤ c1 → c1 ≤ c2 → c2 ≤ np.width g →
  np.shape (np.slice g r1 r2 c1 c2) = (r2 - r1, c2 - c1).
Proof.
  intros Hrect ? ? ? ? ? ?.
  unfold np.shape, np.height, np.width, np.slice, np.Grid in *.
  change (map ?f ?l) with (f <$> l). rewrite length_fmap, length_take, length_drop.
  f_equal; [lia|].
  destruct (take _ (drop (Z.to_nat r1) g)) as [|row rows] eqn:E.
  { apply (f_equal length) in E. rewrite length_take, length_drop in E.
    simpl in E. lia. }
  simpl. rewrite length_take, length_drop.
  assert (row ∈ g) as Hrow.
  { assert (row ∈ take (Z.to_nat (r2 - r1)) (drop (Z.to_nat r1) g)) as Hin
      by (rewrite E; set_solver).
    apply list_elem_of_lookup in Hin as (i & Hi).
    apply lookup_take_Some in Hi as [Hi _]. rewrite lookup_drop in Hi.
    by eapply list_elem_of_lookup_2. }
  unfold rectangular in Hrect. rewrite Forall_forall in Hrect.
  rewrite (Hrect row Hrow). lia.
Qed.

Lemma component_object_grid (g : np.Grid) (o : Object.t) :
  rectangular g → component g o →
  np.shape (GridOperations.get_object_grid g o) = Object.dimensions o
  ∧ ∀ i j, 0 ≤ i → 0 ≤ j →
      np.get (GridOperations.get_object_grid g o) i j
      = if decide ((i + Object.min_r o, j + Object.min_c o)
                   ∈ Object.coords o)
        then Object.value o else 0.
Proof.
  intros Hrect Hcomp.
  destruct (component_bounding_box g o Hcomp)
    as (Hin & (p1 & Hp1 & E1) & (p2 & Hp2 & E2)
    & (p3 & Hp3 & E3) & (p4 & Hp4 & E4) & ? & ? & ? & ? & _ & Hdim).
  destruct Hcomp as (_ & _ & Hnz & Hcells & _).
  destruct (Hin p1 Hp1) as [? _]. destruct (Hin p3 Hp3) as [_ ?].
  unfold GridOperations.get_object_grid. split.
  - rewrite shape_imap, shape_slice by (done || lia). rewrite Hdim.
    f_equal; lia.
  - intros i j Hi Hj. rewrite get_imap.
    rewrite lookup_slice by done. rewrite !Z2Nat.id by lia.
    destruct (decide (_ ∈ Object.coords o)) as [Hmem|Hmem].
    + destruct (Hin _ Hmem) as [? ?]. destruct (Hcells _ Hmem) as [_ Hv].
      simpl in *. rewrite (bool_decide_eq_true_2 (_ ∧ _)) by lia.
      unfold np.get, np.Grid in Hv. rewrite !Z2Nat.inj_add in Hv by lia.
      rewrite (Nat.add_comm (Z.to_nat i)), (Nat.add_comm (Z.to_nat j)) in Hv.
      match goal with
      | |- default 0 (_ <$> ?cell) = _ =>
        change (default 0 cell = Object.value o) in Hv;
        destruct cell as [x|]; simpl in *; [|done]
      end.
      by rewrite bool_decide_eq_true_2.
    + destruct (if bool_decide _ then _ else _) as [x|]; simpl; [|done].
      by rewrite bool_decide_eq_false_2.
Qed.

(** X5: on a rectangular grid with fewer cells than the interpreter
    admits nested calls of the flood fill [get_objects] returns.  Whenever
    it returns on a rectangular grid, the subgrid of an object has the
    dimensions of its bounding box, holds the value of the object at the
    cells of the object and 0 everywhere else, also where the grid holds
    another object. *)
Theorem get_object_grid_masks (frames : nat) (g : np.Grid) :
  rectangular g →
  (np.height g * np.width g < Z.of_nat frames →
   ∃ objs, GridOperations.get_objects frames g = Ok objs)
  ∧ ∀ objs, GridOperations.get_objects frames g = Ok objs →
      ∀ o, o ∈ objs →
        np.shape (GridOperations.get_object_grid g o) = Object.dimensions o
        ∧ ∀ i j, 0 ≤ i → 0 ≤ j →
            np.get (GridOperations.get_object_grid g o) i j
            = if decide ((i + Object.min_r o, j + Object.min_c o)
                         ∈ Object.coords o)
              then Object.value o else 0.
Proof.
  intros Hrect. split.
  - intros Hframes.
    destruct (get_objects_ok frames g Hframes) as (objs & Hobjs & _).
    by exists objs.
  - intros objs Hobjs o Ho.
    apply component_object_grid; [done|].
    by apply (get_objects_components_sound frames g objs Hobjs).
Qed.

Lemma get_object_grid_masks_witness :
  rectangular [[1; 2]; [1; 1]]
  ∧ ∃ objs, GridOperations.get_objects 5 [[1; 2]; [1; 1]] = Ok objs
    ∧ ∀ o, o ∈ objs →
        np.shape (GridOperations.get_object_grid [[1; 2]; [1; 1]] o)
        = Object.dimensions o
        ∧ ∀ i j, 0 ≤ i → 0 ≤ j →
            np.get (GridOperations.get_object_grid [[1; 2]; [1; 1]] o) i j
            = if decide ((i + Object.min_r o, j + Object.min_c o)
                         ∈ Object.coords o)
              then Object.value o else 0.
Proof.
  assert (rectangular [[1; 2]; [1; 1]]) as Hrect by (by repeat constructor).
  split; [exact Hrect|].
  destruct (get_object_grid_masks 5 [[1; 2]; [1; 1]] Hrect)
    as [Hreturns Hsound].
  destruct Hreturns as [objs Hobjs]; [reflexivity|].
  exists objs. split; [exact Hobjs|]. exact (Hsound objs Hobjs).
Defined.

(** ** [count_values] and [get_grid_properties] *)

Lemma length_filter_in_cons (a : Z) (u l : list Z) :
  a ∉ u →
  length (filter (λ x, x ∈ a :: u) l)
  = (length (filter (λ x, x = a) l) + length (filter (λ x, x ∈ u) l))%nat.
Proof.
  intros Ha. induction l as [|x l IH]; [done|].
  rewrite !filter_cons.
  destruct (decide (x = a)) as [->|Hne].
  - rewrite decide_True by set_solver. rewrite (decide_False (P := a ∈ u)) by done.
    simpl. by rewrite IH.
  - destruct (decide (x ∈ u)).
    + rewrite decide_True by set_solver. simpl. rewrite IH. lia.
    + rewrite decide_False by set_solver. done.
Qed.

(** the counts of distinct values add up to the number of entries that
    have one of these values *)
Lemma sum_occurrences (u l : list Z) :
  NoDup u →
  foldr Z.add 0 ((λ v, occurrences v l) <$> u)
  = Z.of_nat (length (filter (λ x, x ∈ u) l)).
Proof.
  unfold occurrences. induction u as [|a u IH]; intros Hnd.
  - simpl. induction l as [|x l IHl]; [done|].
    rewrite filter_cons_False by set_solver. done.
  - apply NoDup_cons in Hnd as [Ha Hnd]. rewrite fmap_cons. cbn [foldr].
    rewrite IH, length_filter_in_cons by done. lia.
Qed.

Lemma filter_all {A} (P : A → Prop) `{∀ x, Decision (P x)} (l : list A) :
  (∀ x, x ∈ l → P x) → filter P l = l.
Proof.
  induction l as [|x l IH]; [done|]. intros Hall.
  rewrite filter_cons_True by (apply Hall; set_solver).
  f_equal. apply IH. intros y Hy. apply Hall. set_solver.
Qed.

Lemma filter_ext_elem {A} (P Q : A → Prop) `{∀ x, Decision (P x)}
    `{∀ x, Decision (Q x)} (l : list A) :
  (∀ x, x ∈ l → P x ↔ Q x) → filter P l = filter Q l.
Proof.
  induction l as [|x l IH]; [done|]. intros Hall.
  rewrite !filter_cons.
  rewrite IH by (intros y Hy; apply Hall; set_solver).
  destruct (decide (P x)) as [HP|HP].
  - rewrite decide_True; [done|]. apply Hall; [set_solver|done].
  - rewrite decide_False; [done|]. intros HQ. apply HP, Hall; [set_solver|done].
Qed.

Lemma count_values_eq (g : np.Grid) :
  GridOperations.count_values g
  = (λ v, (v, occurrences v (concat g))) <$> np.unique (concat g).
Proof. reflexivity. Qed.

Lemma unique_sorted (l : list Z) (i j : nat) (a b : Z) :
  (i < j)%nat → np.unique l !! i = Some a → np.unique l !! j = Some b →
  a < b.
Proof.
  intros Hij Ha Hb.
  pose proof (NoDup_unique l) as Hnd.
  assert (StronglySorted Z.le (np.unique l)) as Hs
    by apply (StronglySorted_merge_sort Z.le).
  apply (lookup_lt_Some) in Hb as Hlen.
  rewrite <- (take_drop_middle _ _ _ Ha) in Hs, Hb, Hnd.
  apply StronglySorted_app_1_r in Hs.
  apply StronglySorted_cons in Hs as [Hle _].
  apply NoDup_app in Hnd as (_ & _ & Hnd). apply NoDup_cons in Hnd as [Hnin _].
  assert (length (take i (np.unique l)) = i) as Htake.
  { rewrite length_take. apply lookup_lt_Some in Ha. lia. }
  rewrite lookup_app_r in Hb by lia. rewrite Htake in Hb.
  destruct (j - i)%nat as [|k] eqn:E; [lia|]. simpl in Hb.
  apply list_elem_of_lookup_2 in Hb.
  rewrite Forall_forall in Hle. specialize (Hle b Hb).
  assert (a ≠ b) by (intros ->; done). lia.
Qed.

(** X6: the dictionary of [count_values] lists every value of the grid
    once, in strictly increasing order, with the number of its
    occurrences, which is at least 1; the counts add up to the number of
    cells. *)
Theorem count_values_counts (g : np.Grid) :
  (∀ v n, dict.get (GridOperations.count_values g) v = Some n
          ↔ v ∈ concat g ∧ n = occurrences v (concat g))
  ∧ (∀ v n, (v, n) ∈ GridOperations.count_values g → 1 ≤ n)
  ∧ (∀ i j a b, (i < j)%nat →
       dict.keys (GridOperations.count_values g) !! i = Some a →
       dict.keys (GridOperations.count_values g) !! j = Some b → a < b)
  ∧ foldr Z.add 0 (GridOperations.count_values g).*2
    = Z.of_nat (length (concat g)).
Proof.
  assert (∀ v n, (v, n) ∈ GridOperations.count_values g
                 ↔ v ∈ concat g ∧ n = occurrences v (concat g)) as Helem.
  { intros v n. rewrite count_values_eq, list_elem_of_fmap. split.
    - intros (v' & [= -> ->] & Hv).
      by apply (proj1 (elem_of_unique _ _)) in Hv.
    - intros [Hv ->]. exists v. split; [done|].
      by apply (proj2 (elem_of_unique _ _)). }
  split_and!.
  - intros v n. rewrite <- Helem. split; [apply dict_get_Some_elem|].
    apply dict_get_NoDup. rewrite keys_count_values. apply NoDup_unique.
  - intros v n [Hv ->]%Helem. unfold occurrences.
    apply list_elem_of_split in Hv as (l1 & l2 & ->).
    rewrite filter_app, filter_cons_True, length_app by done. simpl. lia.
  - intros i j a b. rewrite keys_count_values. apply unique_sorted.
  - rewrite count_values_eq, <- list_fmap_compose.
    change (snd ∘ _) with (λ v, occurrences v (concat g)).
    rewrite sum_occurrences by apply NoDup_unique.
    rewrite filter_all; [done|]. intros x Hx.
    by apply (proj2 (elem_of_unique _ _)).
Qed.

Lemma length_concat_rectangular (g : np.Grid) :
  rectangular g →
  Z.of_nat (length (concat g)) = np.height g * np.width g.
Proof.
  unfold rectangular, np.height, np.width.
  generalize (length (default [] (head g))). intros w Hrect.
  induction Hrect as [|row g Hrow _ IH]; [done|].
  simpl. rewrite length_app, Hrow. lia.
Qed.

Lemma filled_cells_eq (g : np.Grid) :
  foldr Z.add 0
    (GridOperations.count_values g
     ≫= λ vc : Z * Z, if bool_decide (vc.1 ≠ 0) then [vc.2] else [])
  = Z.of_nat (length (filter (λ x, x ≠ 0) (concat g))).
Proof.
  rewrite count_values_eq.
  assert (∀ u : list Z,
    ((λ v, (v, occurrences v (concat g))) <$> u)
    ≫= (λ vc : Z * Z, if bool_decide (vc.1 ≠ 0) then [vc.2] else [])
    = (λ v, occurrences v (concat g)) <$> filter (λ v, v ≠ 0) u) as ->.
  { induction u as [|v u IH]; [done|].
    rewrite fmap_cons, bind_cons, IH. simpl.
    destruct (decide (v ≠ 0)).
    - rewrite bool_decide_eq_true_2, filter_cons_True by done. done.
    - rewrite bool_decide_eq_false_2, filter_cons_False by done. done. }
  rewrite sum_occurrences by (apply NoDup_filter, NoDup_unique).
  f_equal. f_equal. apply filter_ext_elem. intros x Hx.
  rewrite list_elem_of_filter. split; [by intros [? _]|].
  intros ?. split; [done|]. by apply (proj2 (elem_of_unique _ _)).
Qed.

(** X7: on a rectangular grid [get_grid_properties] raises
    [ZeroDivisionError] exactly when the grid has no cell; otherwise
    ['total_cells'] is the number of cells, ['filled_cells'] the number of
    cells that are not zero, at most the total, and ['is_square'] tells
    whether height and width agree. *)
Theorem get_grid_properties_cells (g : np.Grid) :
  rectangular g →
  (concat g = [] → grid_ops.get_grid_properties g = Raise ZeroDivisionError)
  ∧ (concat g ≠ [] →
     ∃ p, grid_ops.get_grid_properties g = Ok p
       ∧ GridProperties.total_cells p = Z.of_nat (length (concat g))
       ∧ GridProperties.filled_cells p
         = Z.of_nat (length (filter (λ x, x ≠ 0) (concat g)))
       ∧ 0 ≤ GridProperties.filled_cells p ≤ GridProperties.total_cells p
       ∧ (GridProperties.is_square p = true ↔ np.height g = np.width g)).
Proof.
  intros Hrect. unfold grid_ops.get_grid_properties, np.shape.
  rewrite filled_cells_eq, <- length_concat_rectangular by done.
  split.
  - intros ->. by rewrite bool_decide_eq_true_2.
  - intros Hne. rewrite bool_decide_eq_false_2 by (destruct (concat g); done).
    eexists. split; [done|]. simpl. split_and!; [done|done|lia| |].
    + pose proof (length_filter (λ x, x ≠ 0) (concat g)). lia.
    + apply bool_decide_eq_true.
Qed.

Lemma get_grid_properties_cells_witness :
  rectangular [[1; 0; 3]; [0; 5; 6]]
  ∧ ∃ p, grid_ops.get_grid_properties [[1; 0; 3]; [0; 5; 6]] = Ok p
      ∧ GridProperties.total_cells p
        = Z.of_nat (length (concat [[1; 0; 3]; [0; 5; 6]]))
      ∧ GridProperties.filled_cells p
        = Z.of_nat (length (filter (λ x, x ≠ 0)
                              (concat [[1; 0; 3]; [0; 5; 6]])))
      ∧ 0 ≤ GridProperties.filled_cells p ≤ GridProperties.total_cells p
      ∧ (GridProperties.is_square p = true
         ↔ np.height [[1; 0; 3]; [0; 5; 6]] = np.width [[1; 0; 3]; [0; 5; 6]]).
Proof.
  assert (rectangular [[1; 0; 3]; [0; 5; 6]]) as Hrect
    by (by repeat constructor).
  split; [exact Hrect|].
  destruct (get_grid_properties_cells [[1; 0; 3]; [0; 5; 6]] Hrect)
    as [_ H].
  apply H. done.
Defined.

(** ** [flip_grid] *)

Lemma rectangular_rows (g : np.Grid) :
  rectangular g → Forall (λ row, Z.of_nat (length row) = np.width g) g.
Proof.
  unfold rectangular, np.width. intros H.
  eapply Forall_impl; [exact H|]. simpl. intros row ->. done.
Qed.

Lemma rows_rectangular (g : np.Grid) (w : Z) :
  g ≠ [] → Forall (λ row, Z.of_nat (length row) = w) g →
  rectangular g ∧ np.width g = w.
Proof.
  intros Hne Hall. unfold rectangular, np.width.
  destruct g as [|row0 g]; [done|]. simpl.
  apply Forall_cons in Hall as Hall'. destruct Hall' as [H0 _].
  split; [|done]. eapply Forall_impl; [exact Hall|]. simpl. intros row ?. lia.
Qed.

(** X8: [flip_grid] accepts the axes 0, 1, -1 and -2 and raises for every
    other axis; flipping twice on the same axis gives the grid back, and a
    flip keeps the number of rows and the length of every row. *)
Theorem flip_grid_involutive (g : np.Grid) (axis : Z) :
  (axis ∈ [0; 1; -1; -2] →
   ∃ g', grid_ops.flip_grid g axis = Ok g'
         ∧ grid_ops.flip_grid g' axis = Ok g
         ∧ length g' = length g
         ∧ (rectangular g → rectangular g' ∧ np.shape g' = np.shape g))
  ∧ (axis ∉ [0; 1; -1; -2] → ∃ msg, grid_ops.flip_grid g axis
                                     = Raise (ValueError msg)).
Proof.
  unfold grid_ops.flip_grid, np.flip. split.
  - intros Haxis.
    destruct (decide (axis = 0 ∨ axis = -2)) as [H0|H0].
    + rewrite !(bool_decide_eq_true_2 (axis = 0 ∨ _)) by done.
      rewrite bool_decide_eq_true_2 by done.
      eexists. split; [done|]. rewrite reverse_involutive, length_reverse.
      split_and!; [done..|]. intros Hrect.
      destruct g as [|row0 g0] eqn:Eg; [done|]. rewrite <- Eg in *.
      destruct (rows_rectangular (reverse g) (np.width g)) as [Hr Hw].
      { intros E. apply (f_equal length) in E. rewrite length_reverse in E.
        by subst g. }
      { apply Forall_reverse. by apply rectangular_rows. }
      split; [done|]. unfold np.shape, np.height. rewrite Hw, length_reverse.
      done.
    + assert (axis = 1 ∨ axis = -1) as H1 by set_solver.
      rewrite !(bool_decide_eq_false_2 (axis = 0 ∨ _)) by done.
      rewrite !(bool_decide_eq_true_2 (axis = 1 ∨ _)) by done.
      rewrite bool_decide_eq_false_2 by lia.
      change (map ?f ?l) with (f <$> l).
      eexists. split; [done|].
      rewrite <- list_fmap_compose, length_fmap.
      split_and!; [|done|].
      * f_equal. rewrite <- (list_fmap_id g) at 2.
        apply list_fmap_ext. intros _ row _. apply reverse_involutive.
      * intros Hrect.
        destruct g as [|row0 g0] eqn:Eg; [done|]. rewrite <- Eg in *.
        destruct (rows_rectangular (reverse <$> g) (np.width g)) as [Hr Hw].
        { by subst g. }
        { apply Forall_fmap. eapply Forall_impl; [by apply rectangular_rows|].
          simpl. intros row Hrow. by rewrite length_reverse. }
        split; [done|]. unfold np.shape, np.height. rewrite Hw, length_fmap.
        done.
  - intros Haxis.
    rewrite !bool_decide_eq_false_2 by set_solver. by eexists.
Qed.

Lemma flip_grid_involutive_witness :
  ∃ g', grid_ops.flip_grid [[1; 2]; [3; 4]] 1 = Ok g'
        ∧ grid_ops.flip_grid g' 1 = Ok [[1; 2]; [3; 4]]
        ∧ length g' = length [[1; 2]; [3; 4]]
        ∧ (rectangular [[1; 2]; [3; 4]] →
           rectangular g' ∧ np.shape g' = np.shape [[1; 2]; [3; 4]]).
Proof.
  destruct (flip_grid_involutive [[1; 2]; [3; 4]] 1) as [H _].
  apply H. set_solver.
Defined.

(** * Subgrids: [extract_subgrids] and [find_subgrid] *)

Lemma slice_rows (g : np.Grid) (r1 r2 c1 c2 : Z) :
  rectangular g →
  0 ≤ r1 → r2 ≤ np.height g → 0 ≤ c1 → c2 ≤ np.width g →
  length (np.slice g r1 r2 c1 c2) = Z.to_nat (r2 - r1)
  ∧ Forall (λ row, length row = Z.to_nat (c2 - c1)) (np.slice g r1 r2 c1 c2).
Proof.
  intros Hrect ? ? ? ?. apply rectangular_rows in Hrect.
  unfold np.slice, np.height, np.Grid in *.
  change (map ?f ?l) with (f <$> l). split.
  - rewrite length_fmap, length_take, length_drop. lia.
  - apply Forall_fmap, Forall_forall. intros row Hrow. simpl.
    rewrite length_take, length_drop.
    apply list_elem_of_lookup in Hrow as (i & Hi).
    apply lookup_take_Some in Hi as [Hi _]. rewrite lookup_drop in Hi.
    apply list_elem_of_lookup_2 in Hi.
    rewrite Forall_forall in Hrect. specialize (Hrect row Hi). lia.
Qed.

Lemma grid_ext (a b : list (list Z)) (w : nat) :
  length a = length b →
  Forall (λ row, length row = w) a → Forall (λ row, length row = w) b →
  (∀ i j : nat, (i < length a)%nat → (j < w)%nat →
     (row ← a !! i; row !! j) = (row ← b !! i; row !! j)) →
  a = b.
Proof.
  intros Hlen Ha Hb Hcells.
  apply (list_eq_same_length a b (length a)); [done..|].
  intros i x y Hi Hx Hy.
  rewrite Forall_forall in Ha, Hb.
  apply (list_eq_same_length x y w).
  - apply Hb. by eapply list_elem_of_lookup_2.
  - apply Ha. by eapply list_elem_of_lookup_2.
  - intros j u v Hj Hu Hv. specialize (Hcells i j Hi Hj).
    rewrite Hx, Hy in Hcells. simpl in Hcells. congruence.
Qed.

Lemma get_slice (g : np.Grid) (r1 r2 c1 c2 r c : Z) :
  0 ≤ r1 → 0 ≤ c1 → 0 ≤ r < r2 - r1 → 0 ≤ c < c2 - c1 →
  np.get (np.slice g r1 r2 c1 c2) r c = np.get g (r1 + r) (c1 + c).
Proof.
  intros ? ? ? ?. unfold np.get. rewrite lookup_slice by done.
  rewrite bool_decide_eq_true_2 by lia.
  by rewrite !Z2Nat.inj_add by lia.
Qed.

Lemma lookup_cell_get (g : np.Grid) (w : nat) (i j : nat) :
  Forall (λ row, length row = w) g →
  (i < length g)%nat → (j < w)%nat →
  (row ← g !! i; row !! j) = Some (np.get g (Z.of_nat i) (Z.of_nat j)).
Proof.
  intros Hrows Hi Hj. unfold np.get, np.Grid in *. rewrite !Nat2Z.id.
  destruct (lookup_lt_is_Some_2 g i Hi) as [row Hrow]. rewrite Hrow. simpl.
  rewrite Forall_forall in Hrows.
  assert (length row = w) as Hlen
    by (apply Hrows; by eapply list_elem_of_lookup_2).
  destruct (lookup_lt_is_Some_2 row j) as [x Hx]; [lia|]. by rewrite Hx.
Qed.

Lemma find_subgrid_elem (g s : np.Grid) (i j : Z) :
  (i, j) ∈ grid_ops.find_subgrid g s
  ↔ 0 ≤ i < np.height g - np.height s + 1
    ∧ 0 ≤ j < np.width g - np.width s + 1
    ∧ np.slice g i (i + np.height s) j (j + np.width s) = s.
Proof.
  unfold grid_ops.find_subgrid, np.shape, np.array_equal.
  rewrite list_elem_of_bind. split.
  - intros (i0 & Hin & Hi0). apply list_elem_of_bind in Hin as (j0 & Hin & Hj0).
    apply elem_of_range in Hi0, Hj0.
    destruct (bool_decide _) eqn:E in Hin; [|by apply elem_of_nil in Hin].
    apply list_elem_of_singleton in Hin. injection Hin as -> ->.
    by apply bool_decide_eq_true in E.
  - intros (Hi & Hj & Heq). exists i. split; [|by apply elem_of_range].
    apply list_elem_of_bind. exists j. split; [|by apply elem_of_range].
    rewrite bool_decide_eq_true_2 by done. by apply list_elem_of_singleton.
Qed.

(** X9: on a rectangular grid, for a subgrid that has a row and whose rows
    all have the same length, [find_subgrid] returns exactly the offsets
    at which the subgrid fits into the grid and agrees with it cell by
    cell. *)
Theorem find_subgrid_cells (g s : np.Grid) (i j : Z) :
  rectangular g → well_formed s →
  (i, j) ∈ grid_ops.find_subgrid g s
  ↔ (0 ≤ i ∧ i + np.height s ≤ np.height g)
    ∧ (0 ≤ j ∧ j + np.width s ≤ np.width g)
    ∧ ∀ r c, 0 ≤ r < np.height s → 0 ≤ c < np.width s →
        np.get g (i + r) (j + c) = np.get s r c.
Proof.
  intros Hg (Hne & Hs & Hw). rewrite find_subgrid_elem. split.
  - intros (Hi & Hj & Heq). split_and!; [lia..|].
    intros r c Hr Hc.
    rewrite <- (get_slice g i (i + np.height s) j (j + np.width s)) by lia.
    by rewrite Heq.
  - intros ((Hi1 & Hi2) & (Hj1 & Hj2) & Hcells). split_and!; [lia..|].
    destruct (slice_rows g i (i + np.height s) j (j + np.width s))
      as [Hlen Hrows]; [done|lia..|].
    replace (i + np.height s - i) with (np.height s) in Hlen by lia.
    replace (j + np.width s - j) with (np.width s) in Hrows by lia.
    apply rectangular_rows in Hs.
    apply (grid_ext _ _ (Z.to_nat (np.width s))).
    + rewrite Hlen. unfold np.height. lia.
    + done.
    + eapply Forall_impl; [exact Hs|]. simpl. intros row Hrow. lia.
    + intros r c Hr Hc. rewrite Hlen in Hr.
      rewrite (lookup_cell_get _ (Z.to_nat (np.width s))); [|done|lia|done].
      rewrite (lookup_cell_get s (Z.to_nat (np.width s))); cycle 1.
      { eapply Forall_impl; [exact Hs|]. simpl. intros row Hrow. lia. }
      { unfold np.height in Hr. lia. }
      { done. }
      f_equal. rewrite get_slice by lia. apply Hcells; lia.
Qed.

Lemma find_subgrid_cells_witness :
  (1, 1) ∈ grid_ops.find_subgrid [[1; 2; 3]; [4; 5; 6]; [7; 8; 9]]
                                 [[5; 6]; [8; 9]].
Proof.
  apply find_subgrid_cells.
  - unfold rectangular. by repeat constructor.
  - split_and!; [done| |done]. unfold rectangular. by repeat constructor.
  - split_and!; [done..|]. intros r c Hr Hc.
    change (np.height [[5; 6]; [8; 9]]) with 2 in Hr.
    change (np.width [[5; 6]; [8; 9]]) with 2 in Hc.
    assert (r = 0 ∨ r = 1) as [-> | ->] by lia;
      (assert (c = 0 ∨ c = 1) as [-> | ->] by lia); reflexivity.
Defined.

(** X10: for a positive size that fits into a rectangular grid,
    [extract_subgrids] returns one subgrid for each offset, each of the
    requested shape, and [find_subgrid] finds every one of them in the
    grid; for a size that does not fit the list is empty. *)
Theorem extract_subgrids_found (g : np.Grid) (h w : Z) :
  rectangular g → 0 < h → 0 < w →
  (np.height g < h ∨ np.width g < w → grid_ops.extract_subgrids g (h, w) = [])
  ∧ (h ≤ np.height g → w ≤ np.width g →
     Z.of_nat (length (grid_ops.extract_subgrids g (h, w)))
     = (np.height g - h + 1) * (np.width g - w + 1)
     ∧ (∀ i j, 0 ≤ i ≤ np.height g - h → 0 ≤ j ≤ np.width g - w →
          np.slice g i (i + h) j (j + w) ∈ grid_ops.extract_subgrids g (h, w))
     ∧ ∀ s, s ∈ grid_ops.extract_subgrids g (h, w) →
          np.shape s = (h, w) ∧ grid_ops.find_subgrid g s ≠ []).
Proof.
  intros Hg Hh Hw. unfold grid_ops.extract_subgrids. split.
  - intros Hfit. by rewrite bool_decide_eq_true_2.
  - intros Hh' Hw'. rewrite bool_decide_eq_false_2 by lia. split_and!.
    + rewrite (length_bind_const _ (Z.to_nat (np.width g - w + 1))).
      * unfold np.range. rewrite length_seqZ. lia.
      * intros i. rewrite (length_bind_const _ 1%nat); [|done].
        unfold np.range. rewrite length_seqZ. lia.
    + intros i j Hi Hj. apply list_elem_of_bind. exists i.
      split; [|apply elem_of_range; lia].
      apply list_elem_of_bind. exists j.
      split; [|apply elem_of_range; lia]. by apply list_elem_of_singleton.
    + intros s Hin. apply list_elem_of_bind in Hin as (i & Hin & Hi).
      apply list_elem_of_bind in Hin as (j & Hin & Hj).
      apply list_elem_of_singleton in Hin.
      apply elem_of_range in Hi, Hj.
      assert (np.shape s = (h, w)) as Hshape.
      { rewrite Hin, shape_slice by (done || lia). f_equal; lia. }
      split; [done|]. injection Hshape as Hsh Hsw.
      assert ((i, j) ∈ grid_ops.find_subgrid g s) as Hfound.
      { apply find_subgrid_elem. rewrite Hsh, Hsw. split_and!; [lia..|done]. }
      intros E. rewrite E in Hfound. by apply elem_of_nil in Hfound.
Qed.

Lemma extract_subgrids_found_witness :
  Z.of_nat (length (grid_ops.extract_subgrids
                      [[1; 2; 3]; [4; 5; 6]; [7; 8; 9]] (2, 2)))
  = (3 - 2 + 1) * (3 - 2 + 1).
Proof.
  destruct (extract_subgrids_found [[1; 2; 3]; [4; 5; 6]; [7; 8; 9]] 2 2)
    as [_ H].
  - unfold rectangular. by repeat constructor.
  - lia.
  - lia.
  - destruct H as [H _]; [done..|]. exact H.
Defined.

(** * Quarter turns: [rotate_grid] *)

Lemma has_shape_well_formed (g : np.Grid) :
  well_formed g
  ↔ ∃ h w, (0 < h)%nat ∧ (0 < w)%nat ∧ has_shape g h w.
Proof.
  unfold well_formed, has_shape. split.
  - intros (Hne & Hrect & Hw). apply rectangular_rows in Hrect.
    exists (length g), (Z.to_nat (np.width g)). split_and!; [|lia|done|].
    + destruct g; [done|]. simpl. lia.
    + eapply Forall_impl; [exact Hrect|]. simpl. intros row Hrow. lia.
  - intros (h & w & Hh & Hw & Hlen & Hrows).
    destruct (rows_rectangular g (Z.of_nat w)) as [Hrect Hwidth].
    + intros ->. simpl in Hlen. lia.
    + eapply Forall_impl; [exact Hrows|]. simpl. intros row Hrow. lia.
    + split_and!; [|done|lia]. intros ->. simpl in Hlen. lia.
Qed.

Lemma get_cell (g : np.Grid) (i j : Z) :
  np.get g i j = default 0 (cell g (Z.to_nat i) (Z.to_nat j)).
Proof. done. Qed.

Lemma has_shape_shape (g : np.Grid) (h w : nat) :
  (0 < h)%nat → has_shape g h w → np.shape g = (Z.of_nat h, Z.of_nat w).
Proof.
  intros Hh [Hlen Hrows]. unfold np.shape, np.height, np.width.
  destruct g as [|row g]; [simpl in Hlen; lia|].
  apply Forall_cons in Hrows as [Hrow _]. simpl in *. by rewrite Hlen, Hrow.
Qed.

Lemma cell_Some (g : np.Grid) (h w i j : nat) :
  has_shape g h w → (i < h)%nat → (j < w)%nat → is_Some (cell g i j).
Proof.
  intros [Hlen Hrows] Hi Hj. unfold cell, np.Grid in *.
  destruct (lookup_lt_is_Some_2 g i) as [row Hrow]; [lia|]. rewrite Hrow.
  simpl. apply lookup_lt_is_Some_2.
  rewrite Forall_forall in Hrows.
  rewrite (Hrows row); [done|]. by eapply list_elem_of_lookup_2.
Qed.

Lemma has_shape_ext (a b : np.Grid) (h w : nat) :
  has_shape a h w → has_shape b h w →
  (∀ i j, (i < h)%nat → (j < w)%nat → cell a i j = cell b i j) →
  a = b.
Proof.
  intros [Ha1 Ha2] [Hb1 Hb2] Hcells.
  apply (grid_ext a b w); [congruence|done..|].
  intros i j Hi Hj. apply Hcells; [lia|done].
Qed.

Lemma transpose_aux_drop (w n : nat) (g : np.Grid) :
  np.transpose_aux w (map (drop n) g)
  = (λ k, map (λ row, default 0 (row !! (n + k)%nat)) g) <$> seq 0 w.
Proof.
  revert n. induction w as [|w IH]; intros n; [done|].
  cbn [np.transpose_aux seq fmap list_fmap]. f_equal.
  - rewrite map_map. apply map_ext. intros row.
    by rewrite head_lookup, lookup_drop.
  - rewrite map_map.
    rewrite (map_ext _ (drop (S n))) by (intros row; by rewrite drop_drop, Nat.add_1_r).
    rewrite IH, <- fmap_S_seq, <- list_fmap_compose.
    apply list_fmap_ext. intros _ k _. simpl.
    apply map_ext. intros row. by rewrite Nat.add_succ_r.
Qed.

Lemma transpose_eq (g : np.Grid) :
  np.transpose g
  = (λ k, map (λ row, default 0 (row !! k)) g)
    <$> seq 0 (Z.to_nat (np.width g)).
Proof.
  unfold np.transpose.
  rewrite <- (map_id g) at 2.
  rewrite (map_ext id (drop 0)) by done.
  by rewrite transpose_aux_drop.
Qed.

Lemma has_shape_transpose (g : np.Grid) (h w : nat) :
  (0 < h)%nat → has_shape g h w →
  has_shape (np.transpose g) w h
  ∧ ∀ i j, (i < w)%nat → (j < h)%nat →
      cell (np.transpose g) i j = cell g j i.
Proof.
  intros Hh Hg. pose proof (has_shape_shape g h w Hh Hg) as Hshape.
  injection Hshape as _ Hwidth.
  rewrite transpose_eq, Hwidth, Nat2Z.id. destruct Hg as [Hlen Hrows].
  split; [split|].
  - by rewrite length_fmap, length_seq.
  - apply Forall_fmap, Forall_forall. intros k _. simpl.
    by rewrite length_map.
  - intros i j Hi Hj. unfold cell, np.Grid in *.
    rewrite list_lookup_fmap, lookup_seq_lt by done. simpl.
    change (map ?f ?l) with (f <$> l). rewrite list_lookup_fmap.
    destruct (lookup_lt_is_Some_2 g j) as [row Hrow]; [lia|].
    rewrite Hrow. simpl.
    rewrite Forall_forall in Hrows.
    destruct (lookup_lt_is_Some_2 row i) as [x Hx].
    { rewrite (Hrows row); [done|]. by eapply list_elem_of_lookup_2. }
    by rewrite Hx.
Qed.

Lemma has_shape_rot90_once (g : np.Grid) (h w : nat) :
  (0 < h)%nat → has_shape g h w →
  has_shape (np.rot90_once g) w h
  ∧ ∀ i j, (i < w)%nat → (j < h)%nat →
      cell (np.rot90_once g) i j = cell g j (w - 1 - i).
Proof.
  intros Hh Hg.
  destruct (has_shape_transpose g h w Hh Hg) as [[Hlen Hrows] Hcells].
  unfold np.rot90_once. split; [split|].
  - by rewrite length_reverse.
  - by apply Forall_reverse.
  - intros i j Hi Hj. unfold cell, np.Grid in *.
    rewrite reverse_lookup by lia. rewrite Hlen.
    replace (w - S i)%nat with (w - 1 - i)%nat by lia.
    apply Hcells; lia.
Qed.

Lemma has_shape_flip (g : np.Grid) (h w : nat) (axis : Z) :
  has_shape g h w →
  has_shape (np.flip g axis) h w
  ∧ ∀ i j, (i < h)%nat → (j < w)%nat →
      cell (np.flip g axis) i j
      = if bool_decide (axis = 0) then cell g (h - 1 - i) j
        else cell g i (w - 1 - j).
Proof.
  intros [Hlen Hrows]. unfold np.flip, cell, np.Grid in *.
  case_bool_decide.
  - split; [split|].
    + by rewrite length_reverse.
    + by apply Forall_reverse.
    + intros i j Hi Hj. rewrite reverse_lookup by lia.
      by replace (length g - S i)%nat with (h - 1 - i)%nat by lia.
  - change (map ?f ?l) with (f <$> l). split; [split|].
    + by rewrite length_fmap.
    + apply Forall_fmap. eapply Forall_impl; [exact Hrows|]. simpl.
      intros row Hrow. by rewrite length_reverse.
    + intros i j Hi Hj. rewrite list_lookup_fmap.
      destruct (lookup_lt_is_Some_2 g i) as [row Hrow]; [lia|].
      rewrite Hrow. simpl.
      rewrite Forall_forall in Hrows.
      assert (length row = w) as Hw
        by (apply Hrows; by eapply list_elem_of_lookup_2).
      rewrite reverse_lookup by lia.
      by replace (length row - S j)%nat with (w - 1 - j)%nat by lia.
Qed.

Lemma rot90_once_four (g : np.Grid) (h w : nat) :
  (0 < h)%nat → (0 < w)%nat → has_shape g h w →
  Nat.iter 4 np.rot90_once g = g.
Proof.
  intros Hh Hw Hg. simpl.
  destruct (has_shape_rot90_once g h w Hh Hg) as [H1 C1].
  destruct (has_shape_rot90_once _ w h Hw H1) as [H2 C2].
  destruct (has_shape_rot90_once _ h w Hh H2) as [H3 C3].
  destruct (has_shape_rot90_once _ w h Hw H3) as [H4 C4].
  apply (has_shape_ext _ _ h w); [done..|].
  intros i j Hi Hj.
  rewrite C4, C3, C2, C1 by lia. f_equal; lia.
Qed.

Lemma has_shape_iter_rot90 (n : nat) (g : np.Grid) (h w : nat) :
  (0 < h)%nat → (0 < w)%nat → has_shape g h w →
  has_shape (Nat.iter n np.rot90_once g)
            (if Nat.even n then h else w) (if Nat.even n then w else h).
Proof.
  intros Hh Hw Hg. induction n as [|n IH]; [done|].
  rewrite Nat.even_succ, <- Nat.negb_even. simpl.
  destruct (Nat.even n); simpl.
  - by apply (has_shape_rot90_once _ h w).
  - by apply (has_shape_rot90_once _ w h).
Qed.

Lemma well_formed_rot90 (g : np.Grid) (k : Z) :
  well_formed g → well_formed (np.rot90 g k).
Proof.
  intros (h & w & Hh & Hw & Hg)%has_shape_well_formed.
  apply has_shape_well_formed. unfold np.rot90.
  pose proof (has_shape_iter_rot90 (Z.to_nat (k `mod` 4)) g h w Hh Hw Hg).
  destruct (Nat.even _); eauto 6.
Qed.

Lemma iter_rot90_mod (n : nat) (g : np.Grid) :
  well_formed g →
  Nat.iter n np.rot90_once g = Nat.iter (n `mod` 4) np.rot90_once g.
Proof.
  intros (h & w & Hh & Hw & Hg)%has_shape_well_formed.
  assert (∀ q r, Nat.iter (4 * q + r) np.rot90_once g
                 = Nat.iter r np.rot90_once g) as Haux.
  { intros q r. induction q as [|q IH]; [done|].
    replace (4 * S q + r)%nat with ((4 * q + r) + 4)%nat by lia.
    rewrite Nat.iter_add, (rot90_once_four g h w); done. }
  rewrite <- (Haux (n `div` 4)%nat (n `mod` 4)%nat). f_equal.
  apply Nat.div_mod_eq.
Qed.

Lemma rot90_rot90 (g : np.Grid) (a b : Z) :
  well_formed g → np.rot90 (np.rot90 g a) b = np.rot90 g (a + b).
Proof.
  intros Hg. unfold np.rot90. rewrite <- Nat.iter_add.
  rewrite iter_rot90_mod by done. f_equal.
  apply Nat2Z.inj. rewrite Nat2Z.inj_mod, Nat2Z.inj_add.
  rewrite !Z2Nat.id by (apply Z.mod_pos_bound; lia).
  change (Z.of_nat 4) with 4.
  rewrite Z.add_comm, <- Zplus_mod. done.
Qed.

(** X11: on a grid with at least one row and one column, [rotate_grid]
    takes the number of quarter turns modulo 4: no turn gives the grid
    back, one turn sends the last column to the first row, two turns
    reverse both directions, three turns send the first column to the
    first row; an odd number of turns swaps height and width. *)
Theorem rotate_grid_cells (g : np.Grid) (k : Z) :
  well_formed g →
  let H := np.height g in
  let W := np.width g in
  let g' := grid_ops.rotate_grid g k in
  well_formed g'
  ∧ (k `mod` 4 = 0 → g' = g)
  ∧ (k `mod` 4 = 1 →
     np.shape g' = (W, H)
     ∧ ∀ i j, 0 ≤ i < W → 0 ≤ j < H →
         np.get g' i j = np.get g j (W - 1 - i))
  ∧ (k `mod` 4 = 2 →
     np.shape g' = (H, W)
     ∧ ∀ i j, 0 ≤ i < H → 0 ≤ j < W →
         np.get g' i j = np.get g (H - 1 - i) (W - 1 - j))
  ∧ (k `mod` 4 = 3 →
     np.shape g' = (W, H)
     ∧ ∀ i j, 0 ≤ i < W → 0 ≤ j < H →
         np.get g' i j = np.get g (H - 1 - j) i).
Proof.
  intros Hwf H W g'. split; [by apply well_formed_rot90|].
  apply has_shape_well_formed in Hwf as (h & w & Hh & Hw & Hg).
  pose proof (has_shape_shape g h w Hh Hg) as Hshape.
  injection Hshape as HH HW. fold H in HH. fold W in HW.
  destruct (has_shape_rot90_once g h w Hh Hg) as [H1 C1].
  destruct (has_shape_rot90_once _ w h Hw H1) as [H2 C2].
  destruct (has_shape_rot90_once _ h w Hh H2) as [H3 C3].
  subst g'. unfold grid_ops.rotate_grid, np.rot90.
  split_and!; intros ->; [done|..]; simpl.
  - split; [rewrite HH, HW; by apply has_shape_shape|].
    intros i j Hi Hj. rewrite !get_cell, C1 by lia. do 2 f_equal. lia.
  - split; [rewrite HH, HW; by apply has_shape_shape|].
    intros i j Hi Hj. rewrite !get_cell, C2, C1 by lia. do 2 f_equal; lia.
  - split; [rewrite HH, HW; by apply has_shape_shape|].
    intros i j Hi Hj. rewrite !get_cell, C3, C2, C1 by lia.
    do 2 f_equal; lia.
Qed.

Lemma rotate_grid_cells_witness :
  grid_ops.rotate_grid [[1; 2; 3]; [4; 5; 6]] 5 = [[3; 6]; [2; 5]; [1; 4]]
  ∧ np.get (grid_ops.rotate_grid [[1; 2; 3]; [4; 5; 6]] 5) 2 1
    = np.get [[1; 2; 3]; [4; 5; 6]] 1 (3 - 1 - 2).
Proof.
  split; [reflexivity|].
  destruct (rotate_grid_cells [[1; 2; 3]; [4; 5; 6]] 5) as (_ & _ & H & _).
  - split_and!; [done| |done]. unfold rectangular. by repeat constructor.
  - destruct H as [_ H]; [reflexivity|]. apply H; by compute.
Defined.

(** X12: on a grid with at least one row and one column, turning by [a]
    and then by [b] quarter turns is turning by [a + b]; four quarter
    turns, and a turn followed by the opposite turn, give the grid
    back. *)
Theorem rotate_grid_compose (g : np.Grid) (a b : Z) :
  well_formed g →
  grid_ops.rotate_grid (grid_ops.rotate_grid g a) b
  = grid_ops.rotate_grid g (a + b)
  ∧ grid_ops.rotate_grid g (a + 4) = grid_ops.rotate_grid g a
  ∧ grid_ops.rotate_grid (grid_ops.rotate_grid g a) (- a) = g.
Proof.
  intros Hg. unfold grid_ops.rotate_grid. split_and!.
  - by apply rot90_rot90.
  - unfold np.rot90. do 2 f_equal.
    replace (a + 4) with (a + 1 * 4) by lia. rewrite Z.mod_add; [done|lia].
  - rewrite rot90_rot90 by done. by rewrite Z.add_opp_diag_r.
Qed.

Lemma rotate_grid_compose_witness :
  grid_ops.rotate_grid (grid_ops.rotate_grid [[1; 2]; [3; 4]; [5; 6]] 3) 2
  = grid_ops.rotate_grid [[1; 2]; [3; 4]; [5; 6]] (3 + 2).
Proof.
  apply rotate_grid_compose.
  split_and!; [done| |done]. unfold rectangular. by repeat constructor.
Defined.

(** * Object transforms and object matching *)

Lemma shape_map_map {A B} (f : A → B) (g : list (list A)) :
  np.shape (map (map f) g) = np.shape g.
Proof.
  unfold np.shape, np.height, np.width. rewrite length_map.
  destruct g as [|row g]; [done|]. simpl. by rewrite length_map.
Qed.

Lemma select_ne_mask_Ok (g : np.Grid) (v : Z) :
  ∃ vals, np.select g (np.ne_mask g v) = Ok vals.
Proof.
  unfold np.select, np.ne_mask.
  rewrite bool_decide_eq_true_2 by (by rewrite shape_map_map). by eexists.
Qed.

Lemma ne_mask_shape (a b : np.Grid) (v : Z) :
  np.ne_mask a v = np.ne_mask b v → np.shape a = np.shape b.
Proof.
  intros E. apply (f_equal np.shape) in E. unfold np.ne_mask in E.
  by rewrite !shape_map_map in E.
Qed.

Lemma shape_flip (g : np.Grid) (axis : Z) :
  well_formed g → np.shape (np.flip g axis) = np.shape g.
Proof.
  intros (h & w & Hh & Hw & Hg)%has_shape_well_formed.
  destruct (has_shape_flip g h w axis Hg) as [Hf _].
  by rewrite (has_shape_shape _ h w Hh Hf), (has_shape_shape _ h w Hh Hg).
Qed.

Lemma shape_rot90 (g : np.Grid) (k : Z) :
  well_formed g → k ∈ [1; 2; 3] →
  np.shape (np.rot90 g k)
  = if bool_decide (k = 2) then np.shape g else (np.width g, np.height g).
Proof.
  intros (h & w & Hh & Hw & Hg)%has_shape_well_formed Hk.
  rewrite (has_shape_shape _ h w Hh Hg).
  pose proof (has_shape_shape _ h w Hh Hg) as [= -> ->].
  unfold np.rot90.
  pose proof (has_shape_iter_rot90 (Z.to_nat (k `mod` 4)) g h w Hh Hw Hg)
    as Hr.
  repeat (apply elem_of_cons in Hk as [->|Hk]);
    [| | |by apply elem_of_nil in Hk]; simpl in Hr |- *;
    by erewrite has_shape_shape.
Qed.

Lemma find_object_transform_same_shape (obj1 obj2 : np.Grid) :
  well_formed obj1 → np.shape obj1 = np.shape obj2 →
  ∃ t, TransformationAnalyzer._find_object_transform obj1 obj2 = Ok t
       ∧ ((obj1 = obj2 ∧ t = Transform.none)
          ∨ (obj1 ≠ obj2
             ∧ ((∃ a b, t = Transform.value_change a b)
                ∨ t = Transform.scale 1))).
Proof.
  intros (Hne & _ & Hw) Hshape.
  assert (0 < np.height obj1) as Hh.
  { unfold np.height. destruct obj1; [done|]. simpl. lia. }
  unfold TransformationAnalyzer._find_object_transform.
  rewrite <- Hshape. unfold np.shape at 1 2.
  rewrite (bool_decide_eq_true_2 (np.height obj1 = np.height obj1)) by done.
  rewrite (bool_decide_eq_true_2 (np.width obj1 = np.width obj1)) by done.
  simpl. unfold np.array_equal.
  destruct (bool_decide (obj1 = obj2)) eqn:Heq.
  { apply bool_decide_eq_true in Heq. simpl. eexists. split; [done|].
    by left. }
  apply bool_decide_eq_false in Heq.
  destruct (select_ne_mask_Ok obj1 0) as [v1 ->].
  destruct (select_ne_mask_Ok obj2 0) as [v2 ->]. simpl.
  destruct (_ && _); simpl.
  { eexists. split; [done|]. right. split; [done|]. left. eauto. }
  unfold py_mod, py_floordiv.
  rewrite !(bool_decide_eq_false_2 (_ = 0)) by lia. simpl.
  rewrite !Z_mod_same_full. simpl.
  rewrite !Z_div_same_full by lia. simpl.
  eexists. split; [done|]. right. split; [done|]. by right.
Qed.

Lemma find_object_transform_other_shape (obj1 obj2 : np.Grid) :
  well_formed obj1 → np.shape obj1 ≠ np.shape obj2 →
  ∃ t, TransformationAnalyzer._find_object_transform obj1 obj2 = Ok t
       ∧ ((∃ s, t = Transform.scale s)
          ∨ (∃ k, (k = 1 ∨ k = 3) ∧ t = Transform.rotation (k * 90)
                  ∧ np.shape obj2 = (np.width obj1, np.height obj1)
                  ∧ np.ne_mask (np.rot90 obj1 k) 0 = np.ne_mask obj2 0)
          ∨ t = Transform.complex).
Proof.
  intros Hwf Hshape. pose proof Hwf as (Hne & _ & Hw).
  assert (0 < np.height obj1) as Hh.
  { unfold np.height. destruct obj1; [done|]. simpl. lia. }
  unfold TransformationAnalyzer._find_object_transform.
  unfold np.shape at 1 2.
  assert (bool_decide (np.height obj1 = np.height obj2)
          && bool_decide (np.width obj1 = np.width obj2) = false) as ->.
  { apply andb_false_iff. rewrite !bool_decide_eq_false.
    destruct (decide (np.height obj1 = np.height obj2)) as [E1|]; [|by left].
    right. intros E2. apply Hshape. unfold np.shape. by rewrite E1, E2. }
  simpl. unfold py_mod, py_floordiv.
  rewrite !(bool_decide_eq_false_2 (_ = 0)) by lia. simpl.
  assert (∃ t, (match TransformationAnalyzer.first_rotation
              (λ k, bool_decide (np.shape (np.rot90 obj1 k) = np.shape obj2)
                    && bool_decide (np.ne_mask (np.rot90 obj1 k) 0
                                    = np.ne_mask obj2 0))
              [1; 2; 3] with
      | Some t => Ok t
      | None =>
        if bool_decide (np.ne_mask (np.flip obj1 0) 0 = np.ne_mask obj2 0)
        then Ok (Transform.flip horizontal)
        else if bool_decide (np.ne_mask (np.flip obj1 1) 0 = np.ne_mask obj2 0)
        then Ok (Transform.flip vertical)
        else Ok Transform.complex
      end) = Ok t
      ∧ ((∃ k, (k = 1 ∨ k = 3) ∧ t = Transform.rotation (k * 90)
                  ∧ np.shape obj2 = (np.width obj1, np.height obj1)
                  ∧ np.ne_mask (np.rot90 obj1 k) 0 = np.ne_mask obj2 0)
          ∨ t = Transform.complex)) as (t & Ht & Hcases).
  { destruct (TransformationAnalyzer.first_rotation _ _) as [t|] eqn:Hrot.
    - apply first_rotation_Some in Hrot as (k & Hk & Htest & ->).
      apply andb_true_iff in Htest as [Hs Hm].
      apply bool_decide_eq_true in Hs, Hm.
      rewrite shape_rot90 in Hs by done.
      eexists. split; [done|]. left. exists k.
      case_bool_decide as Hk2; [by destruct Hshape|].
      split_and!; [|done..].
      repeat (apply elem_of_cons in Hk as [->|Hk]); [by left|done|by right|].
      by apply elem_of_nil in Hk.
    - rewrite !bool_decide_eq_false_2.
      + eexists. split; [done|]. by right.
      + intros E%ne_mask_shape. by rewrite shape_flip in E.
      + intros E%ne_mask_shape. by rewrite shape_flip in E. }
  destruct (bool_decide (np.height obj2 `mod` np.height obj1 = 0));
    simpl; [|exists t; split; [done|]; destruct Hcases; eauto].
  destruct (bool_decide (np.width obj2 `mod` np.width obj1 = 0));
    simpl; [|exists t; split; [done|]; destruct Hcases; eauto].
  destruct (bool_decide (np.height obj2 `div` np.height obj1 = _)); simpl;
    [|exists t; split; [done|]; destruct Hcases; eauto].
  eexists. split; [done|]. left. eauto.
Qed.

(** X13: on two grids with at least one row and one column
    [_find_object_transform] always returns.  It answers [none] exactly
    for equal grids, it never answers with a flip, and it answers with a
    rotation only by 90 or 270 degrees and only when the first grid is not
    square and the second has its transposed shape.  For grids of the same
    shape the answer is [none], a value change or a scaling by 1. *)
Theorem find_object_transform_outcomes (obj1 obj2 : np.Grid) :
  well_formed obj1 → well_formed obj2 →
  ∃ t, TransformationAnalyzer._find_object_transform obj1 obj2 = Ok t
       ∧ (t = Transform.none ↔ obj1 = obj2)
       ∧ (∀ axis, t ≠ Transform.flip axis)
       ∧ (∀ d, t = Transform.rotation d →
            (d = 90 ∨ d = 270)
            ∧ np.shape obj2 = (np.width obj1, np.height obj1)
            ∧ np.height obj1 ≠ np.width obj1)
       ∧ (np.shape obj1 = np.shape obj2 →
            t = Transform.none
            ∨ (∃ a b, t = Transform.value_change a b)
            ∨ t = Transform.scale 1).
Proof.
  intros Hwf1 Hwf2.
  destruct (decide (np.shape obj1 = np.shape obj2)) as [Hshape|Hshape].
  - destruct (find_object_transform_same_shape obj1 obj2 Hwf1 Hshape)
      as (t & Ht & Hcases).
    exists t. split; [done|].
    destruct Hcases as [[Heq ->]|[Hneq [(a & b & ->)| ->]]];
      (split_and!; [split; done|done|done|eauto]).
  - destruct (find_object_transform_other_shape obj1 obj2 Hwf1 Hshape)
      as (t & Ht & Hcases).
    exists t. split; [done|].
    assert (obj1 ≠ obj2) as Hneq by (intros ->; done).
    destruct Hcases as [(s & ->)|[(k & Hk & -> & Hs & Hm)| ->]];
      (split_and!; [split; done|done| |done]).
    + done.
    + intros d [= <-]. split_and!; [lia|done|].
      intros E. apply Hshape. unfold np.shape at 1. by rewrite Hs, E.
    + done.
Qed.

Lemma find_object_transform_outcomes_witness :
  ∃ t, TransformationAnalyzer._find_object_transform
         [[1; 1; 1]; [1; 0; 0]] [[1; 0]; [1; 0]; [1; 1]] = Ok t
       ∧ (t = Transform.none ↔ [[1; 1; 1]; [1; 0; 0]]
                                = [[1; 0]; [1; 0]; [1; 1]])
       ∧ (∀ axis, t ≠ Transform.flip axis)
       ∧ (∀ d, t = Transform.rotation d →
            (d = 90 ∨ d = 270)
            ∧ np.shape [[1; 0]; [1; 0]; [1; 1]]
              = (np.width [[1; 1; 1]; [1; 0; 0]],
                 np.height [[1; 1; 1]; [1; 0; 0]])
            ∧ np.height [[1; 1; 1]; [1; 0; 0]]
              ≠ np.width [[1; 1; 1]; [1; 0; 0]])
       ∧ (np.shape [[1; 1; 1]; [1; 0; 0]]
          = np.shape [[1; 0]; [1; 0]; [1; 1]] →
            t = Transform.none
            ∨ (∃ a b, t = Transform.value_change a b)
            ∨ t = Transform.scale 1).
Proof.
  apply find_object_transform_outcomes.
  - split_and!; [done| |done]. unfold rectangular. by repeat constructor.
  - split_and!; [done| |done]. unfold rectangular. by repeat constructor.
Defined.

(** * The value-mapping analysis on whole grids *)

Lemma cell_get_iff (g : np.Grid) (i j : nat) (y : Z) :
  rectangular g →
  cell g i j = Some y
  ↔ in_bounds g (Z.of_nat i, Z.of_nat j)
    ∧ np.get g (Z.of_nat i) (Z.of_nat j) = y.
Proof.
  intros Hrect%rectangular_rows. unfold in_bounds, np.height. simpl. split.
  - intros Hc.
    assert (np.get g (Z.of_nat i) (Z.of_nat j) = y) as Hget
      by (by rewrite get_cell, !Nat2Z.id, Hc).
    unfold cell, np.Grid in *.
    destruct (g !! i) as [row|] eqn:Hrow; [|done]. simpl in Hc.
    rewrite Forall_forall in Hrect.
    pose proof (Hrect row (list_elem_of_lookup_2 _ _ _ Hrow)) as Hlen.
    apply lookup_lt_Some in Hrow, Hc.
    split; [lia|done].
  - intros [[Hi Hj] <-].
    apply (lookup_cell_get g (Z.to_nat (np.width g))); [|lia..].
    eapply Forall_impl; [exact Hrect|]. simpl. intros row Hrow. lia.
Qed.

Lemma elem_of_select_row (row : list Z) (mrow : list bool) (x : Z) :
  x ∈ np.select_row row mrow
  ↔ ∃ j, row !! j = Some x ∧ mrow !! j = Some true.
Proof.
  unfold np.select_row. rewrite list_elem_of_bind. split.
  - intros ([y b] & Hin & Hp). simpl in Hin.
    destruct b; [|by apply elem_of_nil in Hin].
    apply list_elem_of_singleton in Hin as ->.
    apply list_elem_of_lookup in Hp as (j & Hj).
    apply lookup_zip_with_Some in Hj as (a & b & [= <- <-] & Ha & Hb).
    eauto.
  - intros (j & Hr & Hm). exists (x, true).
    split; [by apply list_elem_of_singleton|].
    apply list_elem_of_lookup. exists j. apply lookup_zip_with_Some. eauto.
Qed.

Lemma elem_of_select (g : np.Grid) (m : np.Mask) (vals : list Z) (x : Z) :
  np.select g m = Ok vals →
  x ∈ vals
  ↔ ∃ i j, cell g i j = Some x ∧ (mrow ← m !! i; mrow !! j) = Some true.
Proof.
  unfold np.select, cell. destruct (bool_decide _); [|done]. intros [= <-].
  rewrite elem_of_concat. split.
  - intros (l & Hx & Hl). apply list_elem_of_lookup in Hl as (i & Hi).
    apply lookup_zip_with_Some in Hi as (row & mrow & -> & Hrow & Hmrow).
    apply elem_of_select_row in Hx as (j & Hj & Hmj).
    exists i, j. unfold np.Grid, np.Mask in *. by rewrite Hrow, Hmrow.
  - intros (i & j & Hc & Hm). unfold np.Grid, np.Mask in *.
    destruct (g !! i) as [row|] eqn:Hrow; [|done].
    destruct (m !! i) as [mrow|] eqn:Hmrow; [|done]. simpl in *.
    exists (np.select_row row mrow). split.
    + apply elem_of_select_row. eauto.
    + apply list_elem_of_lookup. exists i. apply lookup_zip_with_Some. eauto.
Qed.

Lemma eq_mask_lookup (input : np.Grid) (v : Z) (i j : nat) :
  (mrow ← np.eq_mask input v !! i; mrow !! j) = Some true
  ↔ cell input i j = Some v.
Proof.
  unfold np.eq_mask, cell, np.Grid, np.Mask in *.
  change (map ?f ?l) with (f <$> l).
  rewrite list_lookup_fmap. destruct (input !! i) as [row|]; simpl; [|done].
  change (map ?f ?l) with (f <$> l).
  rewrite list_lookup_fmap. destruct (row !! j) as [y|]; simpl; [|done].
  split.
  - intros [= Hy]. by apply bool_decide_eq_true in Hy as ->.
  - intros [= ->]. by rewrite bool_decide_eq_true_2.
Qed.

Lemma elem_of_concat_cell (g : np.Grid) (v : Z) :
  v ∈ concat g ↔ ∃ i j, cell g i j = Some v.
Proof.
  rewrite elem_of_concat. unfold cell, np.Grid in *. split.
  - intros (row & Hv & Hrow).
    apply list_elem_of_lookup in Hrow as (i & Hi).
    apply list_elem_of_lookup in Hv as (j & Hj).
    exists i, j. by rewrite Hi.
  - intros (i & j & Hc). destruct (g !! i) as [row|] eqn:Hrow; [|done].
    exists row. split; by eapply list_elem_of_lookup_2.
Qed.

(** the output values under the cells of one input value *)
Lemma select_eq_mask (input output : np.Grid) (v : Z) :
  rectangular input → rectangular output →
  np.shape input = np.shape output →
  ∃ vals, np.select output (np.eq_mask input v) = Ok vals
    ∧ (∀ x, x ∈ vals
         ↔ ∃ r c, in_bounds input (r, c)
                  ∧ np.get input r c = v ∧ np.get output r c = x)
    ∧ (v ∈ concat input → vals ≠ []).
Proof.
  intros Hin Hout Hshape.
  destruct (np.select output (np.eq_mask input v)) as [vals|e] eqn:Hsel;
    cycle 1.
  { unfold np.select, np.eq_mask in Hsel.
    rewrite shape_map_map, bool_decide_eq_true_2 in Hsel; done. }
  exists vals. split; [done|].
  assert (∀ x, x ∈ vals
            ↔ ∃ i j, cell output i j = Some x ∧ cell input i j = Some v)
    as Hvals.
  { intros x. rewrite elem_of_select by done.
    by setoid_rewrite eq_mask_lookup. }
  assert (∀ r c, in_bounds input (r, c) ↔ in_bounds output (r, c)) as Hb.
  { intros r c. unfold in_bounds. injection Hshape as -> ->. done. }
  split.
  - intros x. rewrite Hvals. split.
    + intros (i & j & Ho & Hi).
      apply cell_get_iff in Ho as [_ Ho], Hi as [Hi1 Hi2]; [|done..].
      eauto 6.
    + intros (r & c & Hrc & Hi & Ho). exists (Z.to_nat r), (Z.to_nat c).
      destruct Hrc as [? ?]. simpl in *.
      rewrite !cell_get_iff, !Z2Nat.id by (done || lia).
      rewrite <- Hb. done.
  - intros (i & j & Hc)%elem_of_concat_cell.
    pose proof Hc as [Hrc Hget]%cell_get_iff; [|done].
    assert (np.get output (Z.of_nat i) (Z.of_nat j) ∈ vals) as Hx.
    { apply Hvals. exists i, j. split; [|done].
      apply cell_get_iff; [done|]. by rewrite <- Hb. }
    intros ->. by apply elem_of_nil in Hx.
Qed.

(** one round of the loop, for a value that occurs in the input *)
Lemma analyze_value_nonzero (input output : np.Grid)
    (m : list (Z * ValueMapping.t)) (v : Z) (vals : list Z) :
  v ≠ 0 → np.select output (np.eq_mask input v) = Ok vals → vals ≠ [] →
  ∃ mp, TransformationAnalyzer.analyze_value input output m v
        = Ok (dict.set m v mp)
    ∧ ∀ to, mp = ValueMapping.direct to ↔ ∀ x, x ∈ vals → x = to.
Proof.
  intros Hv Hsel Hne. unfold TransformationAnalyzer.analyze_value.
  rewrite bool_decide_eq_false_2 by done. rewrite Hsel.
  cbn [mbind result_bind].
  destruct (np.unique vals) as [|a [|b u]] eqn:Hu.
  - destruct vals as [|x vals]; [done|].
    assert (x ∈ np.unique (x :: vals)) as Hx
      by (apply elem_of_unique; set_solver).
    rewrite Hu in Hx. by apply elem_of_nil in Hx.
  - simpl. eexists. split; [done|]. intros to.
    assert (∀ x, x ∈ vals ↔ x = a) as Ha.
    { intros x. rewrite <- elem_of_unique, Hu. set_solver. }
    split.
    + intros [= <-] x. apply Ha.
    + intros Hall. f_equal. apply Hall. by apply Ha.
  - assert (∃ x y, x ∈ vals ∧ y ∈ vals ∧ x ≠ y) as (x & y & Hx & Hy & Hxy).
    { apply unique_several. rewrite Hu. simpl. lia. }
    rewrite bool_decide_eq_false_2 by (simpl; lia).
    rewrite bool_decide_eq_true_2 by (simpl; lia).
    destruct (bool_decide _); (eexists; split; [done|]); intros to;
      (split; [done|]); intros Hall; destruct Hxy;
      by rewrite (Hall x Hx), (Hall y Hy).
Qed.

Lemma analyze_value_zero (input output : np.Grid)
    (m : list (Z * ValueMapping.t)) :
  TransformationAnalyzer.analyze_value input output m 0 = Ok m.
Proof. done. Qed.

Lemma analyze_loop_keys (input output : np.Grid) (l : list Z)
    (m : list (Z * ValueMapping.t)) :
  rectangular input → rectangular output →
  np.shape input = np.shape output →
  (∀ v, v ∈ l → v ∈ concat input) →
  NoDup l → (∀ v, v ∈ l → v ∉ dict.keys m) →
  ∃ m', for_each l (TransformationAnalyzer.analyze_value input output) m
        = Ok m'
    ∧ dict.keys m' = dict.keys m ++ filter (λ v, v ≠ 0) l.
Proof.
  intros Hin Hout Hshape. revert m.
  induction l as [|v l IH]; intros m Hocc Hnd Hfresh.
  { exists m. by rewrite filter_nil, app_nil_r. }
  apply NoDup_cons in Hnd as [Hv Hnd]. simpl.
  destruct (decide (v = 0)) as [->|Hv0].
  - rewrite analyze_value_zero. simpl.
    destruct (IH m) as (m' & Hrun & Hkeys); [set_solver..|].
    exists m'. split; [done|].
    by rewrite filter_cons_False by (intros ?; done).
  - destruct (select_eq_mask input output v Hin Hout Hshape)
      as (vals & Hsel & _ & Hne).
    destruct (analyze_value_nonzero input output m v vals)
      as (mp & -> & _); [done|done|apply Hne, Hocc; set_solver|].
    simpl. rewrite dict_set_fresh
      by (apply dict_get_None, Hfresh; set_solver).
    destruct (IH (m ++ [(v, mp)])) as (m' & Hrun & Hkeys); [set_solver|done| |].
    { intros k Hk. unfold dict.keys. rewrite fmap_app. simpl.
      intros [?| ->%list_elem_of_singleton]%elem_of_app; [|done].
      by apply (Hfresh k); [set_solver|]. }
    exists m'. split; [done|]. rewrite Hkeys, filter_cons_True by done.
    unfold dict.keys. rewrite fmap_app, <- app_assoc. done.
Qed.

Lemma analyze_loop_raises (input output : np.Grid) (l : list Z)
    (m : list (Z * ValueMapping.t)) :
  np.shape input ≠ np.shape output →
  (∃ v, v ∈ l ∧ v ≠ 0) →
  ∃ msg, for_each l (TransformationAnalyzer.analyze_value input output) m
         = Raise (IndexError msg).
Proof.
  intros Hshape. induction l as [|v l IH]; intros (k & Hk & Hk0).
  { by apply elem_of_nil in Hk. }
  simpl. destruct (decide (v = 0)) as [->|Hv0].
  - rewrite analyze_value_zero. simpl. apply IH. exists k.
    split; [|done]. set_solver.
  - unfold TransformationAnalyzer.analyze_value, np.select, np.eq_mask.
    rewrite bool_decide_eq_false_2 by done.
    rewrite shape_map_map, bool_decide_eq_false_2 by done.
    simpl. by eexists.
Qed.

(** X14: for two rectangular grids of the same shape
    [analyze_value_mappings] returns, and the keys of its result are the
    distinct non-zero values of the input grid, in increasing order.  For
    grids of different shapes it raises [IndexError] as soon as the input
    grid holds a non-zero value. *)
Theorem analyze_value_mappings_keys (input output : np.Grid) :
  rectangular input → rectangular output →
  (np.shape input = np.shape output →
   ∃ m, TransformationAnalyzer.analyze_value_mappings input output = Ok m
        ∧ dict.keys m = filter (λ v, v ≠ 0) (np.unique (concat input)))
  ∧ (np.shape input ≠ np.shape output →
     (∃ v, v ∈ concat input ∧ v ≠ 0) →
     ∃ msg, TransformationAnalyzer.analyze_value_mappings input output
            = Raise (IndexError msg)).
Proof.
  intros Hin Hout. unfold TransformationAnalyzer.analyze_value_mappings.
  rewrite keys_count_values. split.
  - intros Hshape.
    destruct (analyze_loop_keys input output (np.unique (concat input)) [])
      as (m & Hrun & Hkeys); [done..| | | |by exists m].
    + intros v. apply elem_of_unique.
    + apply NoDup_unique.
    + intros v _. apply not_elem_of_nil.
  - intros Hshape (v & Hv & Hv0). apply analyze_loop_raises; [done|].
    exists v. split; [by apply elem_of_unique|done].
Qed.

Lemma analyze_value_mappings_keys_witness :
  ∃ m, TransformationAnalyzer.analyze_value_mappings
         [[3; 0]; [1; 3]] [[5; 5]; [2; 7]] = Ok m
       ∧ dict.keys m
         = filter (λ v, v ≠ 0) (np.unique (concat [[3; 0]; [1; 3]])).
Proof.
  destruct (analyze_value_mappings_keys [[3; 0]; [1; 3]] [[5; 5]; [2; 7]])
    as [H _].
  - unfold rectangular. by repeat constructor.
  - unfold rectangular. by repeat constructor.
  - by apply H.
Defined.

Lemma analyze_value_mappings_entry (input output : np.Grid)
    (m : list (Z * ValueMapping.t)) (v : Z) :
  rectangular input → rectangular output →
  np.shape input = np.shape output →
  TransformationAnalyzer.analyze_value_mappings input output = Ok m →
  (dict.get m v = None ↔ v = 0 ∨ v ∉ concat input)
  ∧ (v ≠ 0 → v ∈ concat input →
     ∃ mp, dict.get m v = Some mp
       ∧ ∀ to, mp = ValueMapping.direct to
           ↔ ∀ r c, in_bounds input (r, c) → np.get input r c = v →
               np.get output r c = to).
Proof.
  intros Hin Hout Hshape Hrun.
  assert (v ≠ 0 → v ∈ concat input →
     ∃ mp, dict.get m v = Some mp
       ∧ ∀ to, mp = ValueMapping.direct to
           ↔ ∀ r c, in_bounds input (r, c) → np.get input r c = v →
               np.get output r c = to) as Hsome.
  { intros Hv0 Hocc.
    unfold TransformationAnalyzer.analyze_value_mappings in Hrun.
    rewrite keys_count_values in Hrun.
    pose proof (NoDup_unique (concat input)) as Hnd.
    assert (v ∈ np.unique (concat input)) as Hv by by apply elem_of_unique.
    apply list_elem_of_split in Hv as (l1 & l2 & Hl). rewrite Hl in Hrun, Hnd.
    apply for_each_app_Ok in Hrun as (m1 & _ & Hrun). simpl in Hrun.
    destruct (select_eq_mask input output v Hin Hout Hshape)
      as (vals & Hsel & Hvals & Hne).
    destruct (analyze_value_nonzero input output m1 v vals)
      as (mp & Hstep & Hdirect); [done|done|by apply Hne|].
    rewrite Hstep in Hrun. simpl in Hrun.
    exists mp. split.
    - apply (for_each_preserves (λ s, dict.get s v = Some mp)
               (TransformationAnalyzer.analyze_value input output)
               l2 (dict.set m1 v mp) m); [|done|apply dict_get_set_eq].
      intros s k s' Hk Hbody <-. eapply analyze_value_other; [done|].
      intros ->. apply NoDup_app in Hnd as (_ & _ & Hnd).
      by apply NoDup_cons in Hnd as [? _].
    - intros to. rewrite Hdirect. split.
      + intros Hall r c Hrc Hr. apply Hall, Hvals. eauto.
      + intros Hall x (r & c & Hrc & Hr & <-)%Hvals. by apply Hall. }
  split; [|done]. split.
  - intros Hget. destruct (decide (v = 0)) as [|Hv0]; [by left|].
    right. intros Hocc. destruct (Hsome Hv0 Hocc) as (mp & Hmp & _).
    congruence.
  - intros [->|Hocc].
    + by eapply analyze_value_mappings_skips_background.
    + unfold TransformationAnalyzer.analyze_value_mappings in Hrun.
      rewrite keys_count_values in Hrun.
      apply (for_each_preserves (λ s, dict.get s v = None)
               (TransformationAnalyzer.analyze_value input output)
               (np.unique (concat input)) [] m); [|done|done].
      intros s k s' Hk Hbody <-. eapply analyze_value_other; [done|].
      intros ->. apply (proj1 (elem_of_unique _ _)) in Hk. done.
Qed.

(** X15: for two rectangular grids of the same shape the analysis maps a
    value directly to [to] exactly when the value is not the background,
    occurs in the input grid, and every cell that holds it in the input
    grid holds [to] in the output grid; the values that get no entry at
    all are the background and the values that do not occur. *)
Theorem analyze_value_mappings_direct (input output : np.Grid)
    (m : list (Z * ValueMapping.t)) (v : Z) :
  rectangular input → rectangular output →
  np.shape input = np.shape output →
  TransformationAnalyzer.analyze_value_mappings input output = Ok m →
  (∀ to, dict.get m v = Some (ValueMapping.direct to)
     ↔ v ≠ 0 ∧ v ∈ concat input
       ∧ ∀ r c, in_bounds input (r, c) → np.get input r c = v →
           np.get output r c = to)
  ∧ (dict.get m v = None ↔ v = 0 ∨ v ∉ concat input).
Proof.
  intros Hin Hout Hshape Hrun.
  destruct (analyze_value_mappings_entry input output m v
              Hin Hout Hshape Hrun) as [Hnone Hsome].
  split; [|done]. intros to. split.
  - intros Hget.
    destruct (decide (v = 0)) as [Hv0|Hv0].
    { assert (dict.get m v = None) by (apply Hnone; by left). congruence. }
    destruct (decide (v ∈ concat input)) as [Hocc|Hocc]; cycle 1.
    { assert (dict.get m v = None) by (apply Hnone; by right). congruence. }
    destruct (Hsome Hv0 Hocc) as (mp & Hmp & Hdirect).
    split_and!; [done..|]. rewrite Hmp in Hget. injection Hget as ->.
    by apply Hdirect.
  - intros (Hv0 & Hocc & Hall).
    destruct (Hsome Hv0 Hocc) as (mp & Hmp & Hdirect).
    rewrite Hmp. f_equal. by apply Hdirect.
Qed.

Lemma analyze_value_mappings_direct_witness :
  dict.get [(1, ValueMapping.direct 2); (3, ValueMapping.direct 5)] 3
  = Some (ValueMapping.direct 5)
  ↔ 3 ≠ 0 ∧ 3 ∈ concat [[3; 0]; [1; 3]]
    ∧ ∀ r c, in_bounds [[3; 0]; [1; 3]] (r, c) →
        np.get [[3; 0]; [1; 3]] r c = 3 → np.get [[5; 5]; [2; 5]] r c = 5.
Proof.
  apply (analyze_value_mappings_direct [[3; 0]; [1; 3]] [[5; 5]; [2; 5]]).
  - unfold rectangular. by repeat constructor.
  - unfold rectangular. by repeat constructor.
  - reflexivity.
  - reflexivity.
Defined.

(** * Matching objects, and prediction from pairs that change the shape *)

Lemma match_score_bounds (obj other : Object.t) :
  0 ≤ match_score obj other ≤ 3.
Proof. unfold match_score. repeat case_bool_decide; lia. Qed.

Lemma find_matching_fold (obj : Object.t) (objects : list Object.t) :
  let best :=
    foldl (λ (best : option Object.t * Z) other,
             if bool_decide (best.2 < match_score obj other)
             then (Some other, match_score obj other) else best)
          (None, 0) objects in
  (best.1 = None ∧ best.2 = 0
   ∧ ∀ o, o ∈ objects → match_score obj o = 0)
  ∨ (∃ i o, best.1 = Some o ∧ best.2 = match_score obj o
       ∧ 0 < match_score obj o ∧ objects !! i = Some o
       ∧ (∀ o', o' ∈ objects → match_score obj o' ≤ match_score obj o)
       ∧ ∀ j o', (j < i)%nat → objects !! j = Some o' →
           match_score obj o' < match_score obj o).
Proof.
  induction objects as [|x l IH] using rev_ind.
  { left. split_and!; [done..|]. by intros o ?%elem_of_nil. }
  simpl in *. rewrite foldl_app. simpl.
  destruct IH as [(H1 & H2 & Hall)|(i & o & H1 & H2 & Hpos & Hi & Hmax & Hfirst)].
  - rewrite H2. case_bool_decide as Hx.
    + right. exists (length l), x. simpl. split_and!; [done..| | |].
      * by rewrite lookup_app_r, Nat.sub_diag.
      * intros o' [Ho'| ->%list_elem_of_singleton]%elem_of_app; [|done].
        rewrite (Hall o' Ho'). lia.
      * intros j o' Hj Ho'. rewrite lookup_app_l in Ho' by done.
        rewrite (Hall o'); [done|]. by eapply list_elem_of_lookup_2.
    + left. split_and!; [done..|].
      intros o' [Ho'| ->%list_elem_of_singleton]%elem_of_app; [by apply Hall|].
      pose proof (match_score_bounds obj x). lia.
  - rewrite H2. case_bool_decide as Hx.
    + right. exists (length l), x. simpl. split_and!; [done|done|lia| | |].
      * by rewrite lookup_app_r, Nat.sub_diag.
      * intros o' [Ho'| ->%list_elem_of_singleton]%elem_of_app; [|done].
        specialize (Hmax o' Ho'). lia.
      * intros j o' Hj Ho'. rewrite lookup_app_l in Ho' by done.
        assert (match_score obj o' ≤ match_score obj o); [|lia].
        apply Hmax. by eapply list_elem_of_lookup_2.
    + right. exists i, o. split_and!; [done..| | |].
      * apply lookup_app_l_Some. done.
      * intros o' [Ho'| ->%list_elem_of_singleton]%elem_of_app;
          [by apply Hmax|lia].
      * intros j o' Hj Ho'. apply (Hfirst j); [done|].
        apply lookup_lt_Some in Hi.
        by rewrite lookup_app_l in Ho' by lia.
Qed.

(** X16: [_find_matching_object] returns the first of the objects that
    shares the most of value, size and dimensions with the given object,
    provided that it shares at least one of them; it returns [None]
    exactly when no object shares any. *)
Theorem find_matching_object_best (obj : Object.t)
    (objects : list Object.t) :
  match TransformationAnalyzer._find_matching_object obj objects with
  | Some o =>
    ∃ i, objects !! i = Some o ∧ 0 < match_score obj o
      ∧ (∀ o', o' ∈ objects → match_score obj o' ≤ match_score obj o)
      ∧ ∀ j o', (j < i)%nat → objects !! j = Some o' →
          match_score obj o' < match_score obj o
  | None => ∀ o', o' ∈ objects → match_score obj o' = 0
  end.
Proof.
  unfold TransformationAnalyzer._find_matching_object.
  destruct (find_matching_fold obj objects)
    as [(H1 & H2 & Hall)|(i & o & H1 & H2 & Hpos & Hi & Hmax & Hfirst)];
    unfold match_score in *; simpl in *; rewrite H2.
  - by rewrite bool_decide_eq_false_2 by lia.
  - rewrite bool_decide_eq_true_2 by lia. rewrite H1. eauto.
Qed.

Lemma for_each_raises {A S} (body : S → A → Result S) (l : list A)
    (x : A) (s : S) :
  x ∈ l → (∀ s, ∃ e, body s x = Raise e) →
  ∃ e, for_each l body s = Raise e.
Proof.
  intros Hx Hbody. revert s.
  induction l as [|y l IH]; intros s; [by apply elem_of_nil in Hx|].
  simpl. apply elem_of_cons in Hx as [<-|Hx].
  - destruct (Hbody s) as [e ->]. by exists e.
  - destruct (body s y) as [s'|e]; simpl; [by apply IH|by exists e].
Qed.

(** X17: [predict_output] returns no prediction when a training pair
    changes the shape of the grid and its input holds a non-zero value:
    the analysis of that pair raises.  When it is the first pair, the
    exception is the [IndexError] of the mask that does not fit. *)
Theorem predict_output_shape_change (arctan2 : float → float → float)
    (frames : nat) (input_grid : ndarray.t)
    (training_inputs training_outputs : list np.Grid)
    (σ : ndarray.Heap) (i : nat) (train_in train_out : np.Grid) :
  training_inputs !! i = Some train_in →
  training_outputs !! i = Some train_out →
  np.shape train_in ≠ np.shape train_out →
  (∃ v, v ∈ concat train_in ∧ v ≠ 0) →
  (∃ e, TransformationPredictor.predict_output arctan2 frames input_grid
          training_inputs training_outputs σ = Raise e)
  ∧ (i = 0%nat →
     ∃ msg, TransformationPredictor.predict_output arctan2 frames input_grid
              training_inputs training_outputs σ = Raise (IndexError msg)).
Proof.
  intros Hin Hout Hshape Hval.
  assert (∃ msg, TransformationAnalyzer.analyze_value_mappings
                   train_in train_out = Raise (IndexError msg))
    as [msg Hraise].
  { unfold TransformationAnalyzer.analyze_value_mappings.
    rewrite keys_count_values. apply analyze_loop_raises; [done|].
    destruct Hval as (v & Hv & Hv0). exists v.
    split; [by apply elem_of_unique|done]. }
  unfold TransformationPredictor.predict_output. split.
  - match goal with
    | |- context [for_each ?l ?body ?s] =>
      destruct (for_each_raises body l (train_in, train_out) s) as [e He]
    end.
    + apply list_elem_of_lookup. exists i. apply lookup_zip_with_Some. eauto.
    + intros s. simpl. rewrite Hraise. by eexists.
    + match type of He with ?r = _ => set (run := r) in * end.
      unfold mbind, M_bind, lift. rewrite He. by eexists.
  - intros ->.
    destruct training_inputs as [|? tis]; [done|].
    destruct training_outputs as [|? tos]; [done|].
    injection Hin as ->. injection Hout as ->.
    unfold mbind at 1. unfold M_bind, lift. simpl.
    rewrite Hraise. simpl. by eexists.
Qed.

Lemma predict_output_shape_change_witness :
  ∃ e, TransformationPredictor.predict_output (λ _ _, PrimFloat.zero)
         sys.getrecursionlimit (ndarray.mk 0 []) [[[1]]] [[[1; 1]; [1; 1]]]
         [[[1]]]
       = Raise e.
Proof.
  destruct (predict_output_shape_change (λ _ _, PrimFloat.zero)
              sys.getrecursionlimit
              (ndarray.mk 0 []) [[[1]]] [[[1; 1]; [1; 1]]] [[[1]]]
              0 [[1]] [[1; 1]; [1; 1]]) as [H _].
  - reflexivity.
  - reflexivity.
  - by compute.
  - exists 1. split; [|done]. simpl. set_solver.
  - exact H.
Defined.

(** * Symmetry tests *)

Lemma symmetry_loop (test : Z → bool) (entry : Z → pattern_testing.Symmetry)
    (l : list Z) (res : pattern_testing.SymmetryResults) :
  let res' :=
    foldl (λ results i,
             if test i
             then pattern_testing.mk_symmetry true
                    (pattern_testing.symmetry_types results ++ [entry i])
             else results) res l in
  pattern_testing.symmetry_types res'
  = pattern_testing.symmetry_types res
    ++ (entry <$> filter (λ i, test i = true) l)
  ∧ pattern_testing.symmetry_found res'
    = pattern_testing.symmetry_found res
      || bool_decide (filter (λ i, test i = true) l ≠ []).
Proof.
  revert res. induction l as [|i l IH]; intros res; simpl.
  { rewrite app_nil_r. by destruct (pattern_testing.symmetry_found res). }
  destruct (test i) eqn:Hi.
  - rewrite filter_cons_True by done.
    destruct (IH (pattern_testing.mk_symmetry true
                    (pattern_testing.symmetry_types res ++ [entry i])))
      as [-> ->]. simpl.
    rewrite <- app_assoc. split; [done|].
    by destruct (pattern_testing.symmetry_found res).
  - rewrite filter_cons_False by (by rewrite Hi). apply IH.
Qed.

Lemma has_shape_take (g : np.Grid) (h w n : nat) :
  has_shape g h w → (n ≤ h)%nat →
  has_shape (take n g) n w
  ∧ ∀ r c, (r < n)%nat → cell (take n g) r c = cell g r c.
Proof.
  intros [Hlen Hrows] Hn. unfold has_shape, cell, np.Grid in *.
  split_and!.
  - rewrite length_take. lia.
  - by apply Forall_take.
  - intros r c Hr. by rewrite lookup_take_lt.
Qed.

Lemma has_shape_drop (g : np.Grid) (h w n : nat) :
  has_shape g h w →
  has_shape (drop n g) (h - n) w
  ∧ ∀ r c, cell (drop n g) r c = cell g (n + r) c.
Proof.
  intros [Hlen Hrows]. unfold has_shape, cell, np.Grid in *.
  split_and!.
  - rewrite length_drop. lia.
  - by apply Forall_drop.
  - intros r c. by rewrite lookup_drop.
Qed.

Lemma has_shape_map_take (g : np.Grid) (h w n : nat) :
  has_shape g h w → (n ≤ w)%nat →
  has_shape (map (take n) g) h n
  ∧ ∀ r c, (c < n)%nat → cell (map (take n) g) r c = cell g r c.
Proof.
  intros [Hlen Hrows] Hn. unfold has_shape, cell, np.Grid in *.
  change (map ?f ?l) with (f <$> l). split_and!.
  - by rewrite length_fmap.
  - apply Forall_fmap. eapply Forall_impl; [exact Hrows|]. simpl.
    intros row Hrow. rewrite length_take. lia.
  - intros r c Hc. rewrite list_lookup_fmap.
    destruct (g !! r) as [row|]; simpl; [|done]. by rewrite lookup_take_lt.
Qed.

Lemma has_shape_map_drop (g : np.Grid) (h w n : nat) :
  has_shape g h w →
  has_shape (map (drop n) g) h (w - n)
  ∧ ∀ r c, cell (map (drop n) g) r c = cell g r (n + c).
Proof.
  intros [Hlen Hrows]. unfold has_shape, cell, np.Grid in *.
  change (map ?f ?l) with (f <$> l). split_and!.
  - by rewrite length_fmap.
  - apply Forall_fmap. eapply Forall_impl; [exact Hrows|]. simpl.
    intros row Hrow. rewrite length_drop. lia.
  - intros r c. rewrite list_lookup_fmap.
    destruct (g !! r) as [row|]; simpl; [|done]. by rewrite lookup_drop.
Qed.

Lemma cell_get (g : np.Grid) (h w r c : nat) :
  has_shape g h w → (r < h)%nat → (c < w)%nat →
  cell g r c = Some (np.get g (Z.of_nat r) (Z.of_nat c)).
Proof.
  intros [Hlen Hrows] Hr Hc. apply (lookup_cell_get g w); [done|lia|done].
Qed.

Lemma has_shape_width (g : np.Grid) (h w : nat) :
  (0 < h)%nat → has_shape g h w →
  np.height g = Z.of_nat h ∧ np.width g = Z.of_nat w.
Proof.
  intros Hh Hg. pose proof (has_shape_shape g h w Hh Hg) as [= ? ?]. done.
Qed.

(** the test for a horizontal reflection at row [i] *)
Lemma horizontal_test (g : np.Grid) (h w : nat) (i : Z) :
  (0 < h)%nat → has_shape g h w → 1 ≤ i < Z.of_nat h →
  bool_decide (length (take (Z.to_nat i) g) = length (drop (Z.to_nat i) g))
  && np.array_equal (take (Z.to_nat i) g) (np.flip (drop (Z.to_nat i) g) 0)
  = true
  ↔ 2 * i = Z.of_nat h ∧ mirror_rows g.
Proof.
  intros Hh Hg Hi. pose proof (has_shape_width g h w Hh Hg) as [HH HW].
  destruct (has_shape_take g h w (Z.to_nat i) Hg) as [Ht Ct]; [lia|].
  destruct (has_shape_drop g h w (Z.to_nat i) Hg) as [Hd Cd].
  destruct (has_shape_flip _ _ _ 0 Hd) as [Hf Cf].
  rewrite andb_true_iff, bool_decide_eq_true. unfold np.array_equal.
  rewrite bool_decide_eq_true.
  destruct Ht as [Htl _]. destruct Hd as [Hdl Hdr].
  rewrite Htl, Hdl. split.
  - intros [Hlen Heq]. split; [lia|].
    assert (∀ r c, (r < Z.to_nat i)%nat → (c < w)%nat →
              cell g r c = cell g (h - 1 - r) c) as Hhalf.
    { intros r c Hr Hc. rewrite <- Ct by done. rewrite Heq.
      rewrite Cf by lia. rewrite bool_decide_eq_true_2 by done.
      rewrite Cd. f_equal. lia. }
    intros r c [Hr Hc]. simpl in *. rewrite HH, HW in *.
    rewrite !get_cell. f_equal.
    destruct (decide (Z.to_nat r < Z.to_nat i)%nat) as [Hlt|Hge].
    + rewrite Hhalf by lia. f_equal. lia.
    + replace (Z.to_nat r) with (h - 1 - Z.to_nat (Z.of_nat h - 1 - r))%nat
        at 1 by lia.
      rewrite <- Hhalf by lia. done.
  - intros [Hlen Hmirror]. split; [lia|].
    apply (has_shape_ext _ _ (Z.to_nat i) w).
    + split; [done|]. by apply Forall_take, Hg.
    + by replace (h - Z.to_nat i)%nat with (Z.to_nat i) in Hf by lia.
    + intros r c Hr Hc. rewrite Ct by done.
      rewrite Cf by lia. rewrite bool_decide_eq_true_2 by done.
      rewrite Cd. rewrite !(cell_get g h w) by (done || lia).
      f_equal. rewrite (Hmirror (Z.of_nat r) (Z.of_nat c)).
      * rewrite HH. f_equal. lia.
      * unfold in_bounds. simpl. lia.
Qed.

(** the test for a vertical reflection at column [i] *)
Lemma vertical_test (g : np.Grid) (h w : nat) (i : Z) :
  (0 < h)%nat → has_shape g h w → 1 ≤ i < Z.of_nat w →
  bool_decide (np.width (map (take (Z.to_nat i)) g)
               = np.width (map (drop (Z.to_nat i)) g))
  && np.array_equal (map (take (Z.to_nat i)) g)
                    (np.flip (map (drop (Z.to_nat i)) g) 1)
  = true
  ↔ 2 * i = Z.of_nat w ∧ mirror_columns g.
Proof.
  intros Hh Hg Hi. pose proof (has_shape_width g h w Hh Hg) as [HH HW].
  destruct (has_shape_map_take g h w (Z.to_nat i) Hg) as [Ht Ct]; [lia|].
  destruct (has_shape_map_drop g h w (Z.to_nat i) Hg) as [Hd Cd].
  destruct (has_shape_flip _ _ _ 1 Hd) as [Hf Cf].
  pose proof (has_shape_width _ _ _ Hh Ht) as [_ HWt].
  pose proof (has_shape_width _ _ _ Hh Hd) as [_ HWd].
  rewrite andb_true_iff, bool_decide_eq_true. unfold np.array_equal.
  rewrite bool_decide_eq_true. rewrite HWt, HWd. split.
  - intros [Hlen Heq]. split; [lia|].
    assert (∀ r c, (r < h)%nat → (c < Z.to_nat i)%nat →
              cell g r c = cell g r (w - 1 - c)) as Hhalf.
    { intros r c Hr Hc. rewrite <- Ct by done. rewrite Heq.
      rewrite Cf by lia. rewrite bool_decide_eq_false_2 by done.
      rewrite Cd. f_equal. lia. }
    intros r c [Hr Hc]. simpl in *. rewrite HH, HW in *.
    rewrite !get_cell. f_equal.
    destruct (decide (Z.to_nat c < Z.to_nat i)%nat) as [Hlt|Hge].
    + rewrite Hhalf by lia. f_equal. lia.
    + replace (Z.to_nat c) with (w - 1 - Z.to_nat (Z.of_nat w - 1 - c))%nat
        at 1 by lia.
      rewrite <- Hhalf by lia. done.
  - intros [Hlen Hmirror]. split; [lia|].
    apply (has_shape_ext _ _ h (Z.to_nat i)).
    + done.
    + by replace (w - Z.to_nat i)%nat with (Z.to_nat i) in Hf by lia.
    + intros r c Hr Hc. rewrite Ct by done.
      rewrite Cf by lia. rewrite bool_decide_eq_false_2 by done.
      rewrite Cd. rewrite !(cell_get g h w) by (done || lia).
      f_equal. rewrite (Hmirror (Z.of_nat r) (Z.of_nat c)).
      * rewrite HW. f_equal. lia.
      * unfold in_bounds. simpl. lia.
Qed.

(** the test for the half turn *)
Lemma half_turn_test (g : np.Grid) (h w : nat) :
  (0 < h)%nat → (0 < w)%nat → has_shape g h w →
  np.array_equal g (np.rot90 g 2) = true ↔ half_turn g.
Proof.
  intros Hh Hw Hg. pose proof (has_shape_width g h w Hh Hg) as [HH HW].
  destruct (has_shape_rot90_once g h w Hh Hg) as [H1 C1].
  destruct (has_shape_rot90_once _ w h Hw H1) as [H2 C2].
  unfold np.array_equal. rewrite bool_decide_eq_true.
  change (np.rot90 g 2) with (np.rot90_once (np.rot90_once g)). split.
  - intros Heq r c [Hr Hc]. simpl in *. rewrite HH, HW in *.
    rewrite Heq at 1. rewrite !get_cell, C2, C1 by lia. do 2 f_equal; lia.
  - intros Hturn. apply (has_shape_ext _ _ h w); [done..|].
    intros r c Hr Hc. rewrite C2, C1 by lia.
    rewrite !(cell_get g h w) by (done || lia).
    f_equal. rewrite (Hturn (Z.of_nat r) (Z.of_nat c)).
    + rewrite HH, HW. f_equal; lia.
    + unfold in_bounds. simpl. lia.
Qed.

(** X18: on a grid with at least one row and one column [test_symmetry]
    always finds a symmetry, because it always reports the rotation of
    order 4.  It reports a horizontal reflection only at the middle row of
    a grid of even height that equals its mirror image, a vertical
    reflection only at the middle column of a grid of even width that
    equals its mirror image, and the rotation of order 2 exactly for a
    grid that equals its half turn. *)
Theorem test_symmetry_reports (g : np.Grid) :
  well_formed g →
  let res := pattern_testing.test_symmetry g in
  pattern_testing.symmetry_found res = true
  ∧ (∀ i, pattern_testing.horizontal_reflection i
            ∈ pattern_testing.symmetry_types res
          ↔ 2 * i = np.height g ∧ mirror_rows g)
  ∧ (∀ i, pattern_testing.vertical_reflection i
            ∈ pattern_testing.symmetry_types res
          ↔ 2 * i = np.width g ∧ mirror_columns g)
  ∧ (∀ k, pattern_testing.rotational k ∈ pattern_testing.symmetry_types res
          ↔ k = 4 ∨ (k = 2 ∧ half_turn g)).
Proof.
  intros (h & w & Hh & Hw & Hg)%has_shape_well_formed res.
  pose proof (has_shape_width g h w Hh Hg) as [HH HW].
  subst res. unfold pattern_testing.test_symmetry.
  match goal with
  | |- context [foldl ?f3 (foldl ?f2 (foldl ?f1 ?r0 ?l1) ?l2) ?l3] =>
    set (r1 := foldl f1 r0 l1);
    set (r2 := foldl f2 r1 l2);
    set (r3 := foldl f3 r2 l3);
    destruct (symmetry_loop
      (λ i, bool_decide (length (take (Z.to_nat i) g)
                         = length (drop (Z.to_nat i) g))
            && np.array_equal (take (Z.to_nat i) g)
                              (np.flip (drop (Z.to_nat i) g) 0))
      pattern_testing.horizontal_reflection l1 r0) as [T1 F1];
    destruct (symmetry_loop
      (λ i, bool_decide (np.width (map (take (Z.to_nat i)) g)
                         = np.width (map (drop (Z.to_nat i)) g))
            && np.array_equal (map (take (Z.to_nat i)) g)
                              (np.flip (map (drop (Z.to_nat i)) g) 1))
      pattern_testing.vertical_reflection l2 r1) as [T2 F2];
    destruct (symmetry_loop (λ k, np.array_equal g (np.rot90 g k))
      pattern_testing.rotational l3 r2) as [T3 F3]
  end.
  fold r1 in T1, F1, T2, F2. fold r2 in T2, F2, T3, F3. fold r3 in T3, F3.
  simpl in T1. rewrite T1 in T2. rewrite T2 in T3.
  assert (np.array_equal g (np.rot90 g 4) = true) as H4.
  { unfold np.array_equal. by apply bool_decide_eq_true. }
  split_and!.
  - rewrite F3. apply orb_true_iff. right. apply bool_decide_eq_true.
    intros E. assert (4 ∈ filter (λ k, np.array_equal g (np.rot90 g k) = true)
                            [2; 4]) as Hin
      by (apply list_elem_of_filter; split; [done|set_solver]).
    rewrite E in Hin. by apply elem_of_nil in Hin.
  - intros i. rewrite T3, !elem_of_app, !list_elem_of_fmap. split.
    + intros [[(j & [= <-] & Hj)|(j & [=] & _)]|(j & [=] & _)].
      apply list_elem_of_filter in Hj as [Htest Hj].
      apply elem_of_seqZ in Hj. rewrite HH in *.
      apply (horizontal_test g h w); [done..|lia|done].
    + intros [Hi Hm]. left. left. exists i. split; [done|].
      rewrite HH in *. assert (1 ≤ i < Z.of_nat h) as Hrange by lia.
      apply list_elem_of_filter. split.
      * apply (horizontal_test g h w); [done..|]. split; [lia|done].
      * apply elem_of_seqZ. lia.
  - intros i. rewrite T3, !elem_of_app, !list_elem_of_fmap. split.
    + intros [[(j & [=] & _)|(j & [= <-] & Hj)]|(j & [=] & _)].
      apply list_elem_of_filter in Hj as [Htest Hj].
      apply elem_of_seqZ in Hj. rewrite HW in *.
      apply (vertical_test g h w); [done..|lia|done].
    + intros [Hi Hm]. left. right. exists i. split; [done|].
      rewrite HW in *. assert (1 ≤ i < Z.of_nat w) as Hrange by lia.
      apply list_elem_of_filter. split.
      * apply (vertical_test g h w); [done..|]. split; [lia|done].
      * apply elem_of_seqZ. lia.
  - intros k. rewrite T3, !elem_of_app, !list_elem_of_fmap. split.
    + intros [[(j & [=] & _)|(j & [=] & _)]|(j & [= <-] & Hj)].
      apply list_elem_of_filter in Hj as [Htest Hj].
      apply elem_of_cons in Hj as [->|Hj].
      * right. split; [done|]. by apply (half_turn_test g h w).
      * left. apply list_elem_of_singleton in Hj. done.
    + intros Hk. right. exists k. split; [done|].
      apply list_elem_of_filter.
      destruct Hk as [->|[-> Hturn]]; (split; [|set_solver]); [done|].
      by apply (half_turn_test g h w).
Qed.

Lemma test_symmetry_reports_witness :
  pattern_testing.symmetry_found
    (pattern_testing.test_symmetry [[1; 2]; [2; 1]]) = true
  ∧ pattern_testing.symmetry_types
      (pattern_testing.test_symmetry [[1; 2]; [2; 1]])
    = [pattern_testing.rotational 2; pattern_testing.rotational 4].
Proof.
  split; [|reflexivity].
  apply (test_symmetry_reports [[1; 2]; [2; 1]]).
  split_and!; [done| |done]. unfold rectangular. by repeat constructor.
Defined.

(** * Repeating blocks *)

Lemma foldl_elem {A S B} (step : S → A → S) (proj : S → list B)
    (Q : A → B → Prop) (l : list A) (s : S) (x : B) :
  (∀ s a, x ∈ proj (step s a) ↔ x ∈ proj s ∨ Q a x) →
  x ∈ proj (foldl step s l) ↔ x ∈ proj s ∨ ∃ a, a ∈ l ∧ Q a x.
Proof.
  intros Hstep. revert s. induction l as [|a l IH]; intros s; simpl.
  - split; [by left|]. intros [?|(a & Ha & _)]; [done|].
    by apply elem_of_nil in Ha.
  - rewrite IH, Hstep. split.
    + intros [[?|?]|(b & Hb & ?)]; [by left|right..].
      * exists a. split; [set_solver|done].
      * exists b. split; [set_solver|done].
    + intros [?|(b & [->|Hb]%elem_of_cons & ?)]; [by left; left|by left; right|].
      right. by exists b.
Qed.

Lemma foldl_preserves {A S} (P : S → Prop) (step : S → A → S)
    (l : list A) (s : S) :
  (∀ s a, P s → P (step s a)) → P s → P (foldl step s l).
Proof.
  intros Hstep. revert s. induction l as [|a l IH]; intros s Hs; [done|].
  simpl. by apply IH, Hstep.
Qed.

Lemma has_shape_rectangular (g : np.Grid) :
  rectangular g → has_shape g (length g) (Z.to_nat (np.width g)).
Proof.
  intros Hrect%rectangular_rows. split; [done|].
  eapply Forall_impl; [exact Hrect|]. simpl. intros row Hrow. lia.
Qed.

Lemma has_shape_slice (g : np.Grid) (H W : nat) (r1 r2 c1 c2 : Z) :
  has_shape g H W →
  0 ≤ r1 ≤ r2 → r2 ≤ Z.of_nat H → 0 ≤ c1 ≤ c2 → c2 ≤ Z.of_nat W →
  has_shape (np.slice g r1 r2 c1 c2) (Z.to_nat (r2 - r1)) (Z.to_nat (c2 - c1))
  ∧ ∀ r c, (r < Z.to_nat (r2 - r1))%nat → (c < Z.to_nat (c2 - c1))%nat →
      cell (np.slice g r1 r2 c1 c2) r c
      = cell g (Z.to_nat r1 + r) (Z.to_nat c1 + c).
Proof.
  intros [Hlen Hrows] Hr1 Hr2 Hc1 Hc2. split; [split|].
  - unfold np.slice, np.Grid in *.
    rewrite length_map, length_take, length_drop. lia.
  - unfold np.slice, np.Grid in *. change (map ?f ?l) with (f <$> l).
    apply Forall_fmap, Forall_take, Forall_drop.
    eapply Forall_impl; [exact Hrows|]. simpl. intros row Hrow.
    rewrite length_take, length_drop. lia.
  - intros r c Hr Hc. unfold cell. rewrite lookup_slice by lia.
    by rewrite bool_decide_eq_true_2 by lia.
Qed.

Lemma range_step_exact (W w : Z) :
  0 < w → 0 ≤ W → W `mod` w = 0 →
  pattern_testing.range_step 0 W w = (λ q, q * w) <$> seqZ 0 (W `div` w).
Proof.
  intros Hw HW Hmod. unfold pattern_testing.range_step.
  change (map ?f ?l) with (f <$> l).
  replace ((W - 0 + w - 1) `div` w) with (W `div` w); [done|].
  apply (Z.div_unique_pos _ _ _ (w - 1)); [lia|].
  pose proof (Z.div_mod W w). lia.
Qed.

(** the horizontal test of one block size *)
Lemma horizontal_blocks_test (g : np.Grid) (H W : nat) (h w : Z) :
  has_shape g H W → 1 ≤ h ≤ Z.of_nat H → 1 ≤ w → Z.of_nat W `mod` w = 0 →
  let blocks :=
    map (λ i, np.slice g 0 h i (i + w))
        (pattern_testing.range_step 0 (Z.of_nat W) w) in
  Z.of_nat (length blocks) = Z.of_nat W `div` w
  ∧ (forallb (np.array_equal (np.slice g 0 h 0 w)) blocks = true
     ↔ ∀ r c, 0 ≤ r < h → 0 ≤ c < Z.of_nat W →
         np.get g r c = np.get g r (c `mod` w)).
Proof.
  intros Hg Hh Hw Hmod blocks. subst blocks.
  rewrite range_step_exact by lia.
  change (map ?f ?l) with (f <$> l).
  pose proof (Z.div_mod (Z.of_nat W) w) as HWw.
  set (n := Z.of_nat W `div` w) in *.
  assert (0 ≤ n) as Hn by (apply Z.div_pos; lia).
  assert (Z.of_nat W = w * n) as HW by lia.
  split.
  { rewrite !length_fmap, length_seqZ. lia. }
  assert (∀ q, 0 ≤ q < n → 0 ≤ q * w ∧ q * w + w ≤ Z.of_nat W) as Hq.
  { intros q Hq. nia. }
  assert (∀ q, 0 ≤ q < n →
            np.slice g 0 h 0 w = np.slice g 0 h (q * w) (q * w + w)
            ↔ ∀ r c, 0 ≤ r < h → 0 ≤ c < w →
                np.get g r c = np.get g r (q * w + c)) as Hblock.
  { intros q Hqn. destruct (Hq q Hqn) as [Hq1 Hq2].
    destruct (has_shape_slice g H W 0 h 0 w Hg) as [S0 C0]; [lia..|].
    destruct (has_shape_slice g H W 0 h (q * w) (q * w + w) Hg)
      as [S1 C1]; [lia..|].
    replace (q * w + w - q * w) with (w - 0) in * by lia.
    split.
    - intros Heq r c Hr Hc.
      pose proof (C0 (Z.to_nat r) (Z.to_nat c)) as E0.
      pose proof (C1 (Z.to_nat r) (Z.to_nat c)) as E1.
      rewrite Heq in E0. rewrite E0 in E1 by lia.
      rewrite !get_cell. simpl in E1. rewrite E1 by lia.
      do 2 f_equal. lia.
    - intros Hcells. apply (has_shape_ext _ _ _ _ S0 S1).
      intros r c Hr Hc. rewrite C0, C1 by done. simpl.
      rewrite !(cell_get g H W) by (done || lia). f_equal.
      rewrite (Hcells (Z.of_nat r) (Z.of_nat c)) by lia. f_equal. lia. }
  rewrite forallb_forall. split.
  - intros Hall r c Hr Hc.
    pose proof (Z.div_mod c w) as Hcw.
    pose proof (Z.mod_pos_bound c w) as Hcm.
    assert (0 ≤ c `div` w < n) as Hqn.
    { split; [apply Z.div_pos; lia|]. apply Z.div_lt_upper_bound; lia. }
    assert (np.slice g 0 h 0 w
            = np.slice g 0 h (c `div` w * w) (c `div` w * w + w)) as Heq.
    { specialize (Hall (np.slice g 0 h (c `div` w * w) (c `div` w * w + w))).
      unfold np.array_equal in Hall.
      apply (proj1 (bool_decide_eq_true _)). apply Hall.
      apply list_elem_of_In, list_elem_of_fmap. eexists. split; [done|].
      apply list_elem_of_fmap. exists (c `div` w). split; [done|].
      apply elem_of_seqZ. lia. }
    apply (Hblock _ Hqn) with (r := r) (c := c `mod` w) in Heq; [|lia..].
    rewrite Heq. f_equal. lia.
  - intros Hper b Hb. apply list_elem_of_In, list_elem_of_fmap in Hb
      as (i & -> & Hi).
    apply list_elem_of_fmap in Hi as (q & -> & Hqn).
    apply elem_of_seqZ in Hqn.
    unfold np.array_equal. apply bool_decide_eq_true.
    apply Hblock; [lia|]. intros r c Hr Hc.
    destruct (Hq q) as [Hq1 Hq2]; [lia|].
    rewrite (Hper r (q * w + c)) by lia. f_equal.
    rewrite Z.add_comm, Z.mod_add by lia. by rewrite Z.mod_small by lia.
Qed.

(** the vertical test of one block size *)
Lemma vertical_blocks_test (g : np.Grid) (H W : nat) (h w : Z) :
  has_shape g H W → 1 ≤ w ≤ Z.of_nat W → 1 ≤ h → Z.of_nat H `mod` h = 0 →
  let blocks :=
    map (λ i, np.slice g i (i + h) 0 w)
        (pattern_testing.range_step 0 (Z.of_nat H) h) in
  Z.of_nat (length blocks) = Z.of_nat H `div` h
  ∧ (forallb (np.array_equal (np.slice g 0 h 0 w)) blocks = true
     ↔ ∀ r c, 0 ≤ r < Z.of_nat H → 0 ≤ c < w →
         np.get g r c = np.get g (r `mod` h) c).
Proof.
  intros Hg Hw Hh Hmod blocks. subst blocks.
  rewrite range_step_exact by lia.
  change (map ?f ?l) with (f <$> l).
  pose proof (Z.div_mod (Z.of_nat H) h) as HHh.
  set (n := Z.of_nat H `div` h) in *.
  assert (0 ≤ n) as Hn by (apply Z.div_pos; lia).
  assert (Z.of_nat H = h * n) as HH by lia.
  split.
  { rewrite !length_fmap, length_seqZ. lia. }
  assert (∀ q, 0 ≤ q < n → 0 ≤ q * h ∧ q * h + h ≤ Z.of_nat H) as Hq.
  { intros q Hq. nia. }
  assert (∀ q, 0 ≤ q < n →
            np.slice g 0 h 0 w = np.slice g (q * h) (q * h + h) 0 w
            ↔ ∀ r c, 0 ≤ r < h → 0 ≤ c < w →
                np.get g r c = np.get g (q * h + r) c) as Hblock.
  { intros q Hqn. destruct (Hq q Hqn) as [Hq1 Hq2].
    destruct (has_shape_slice g H W 0 h 0 w Hg) as [S0 C0]; [lia..|].
    destruct (has_shape_slice g H W (q * h) (q * h + h) 0 w Hg)
      as [S1 C1]; [lia..|].
    replace (q * h + h - q * h) with (h - 0) in * by lia.
    split.
    - intros Heq r c Hr Hc.
      pose proof (C0 (Z.to_nat r) (Z.to_nat c)) as E0.
      pose proof (C1 (Z.to_nat r) (Z.to_nat c)) as E1.
      rewrite Heq in E0. rewrite E0 in E1 by lia.
      rewrite !get_cell. simpl in E1. rewrite E1 by lia.
      do 2 f_equal. lia.
    - intros Hcells. apply (has_shape_ext _ _ _ _ S0 S1).
      intros r c Hr Hc. rewrite C0, C1 by done. simpl.
      rewrite !(cell_get g H W) by (done || lia). f_equal.
      rewrite (Hcells (Z.of_nat r) (Z.of_nat c)) by lia. f_equal. lia. }
  rewrite forallb_forall. split.
  - intros Hall r c Hr Hc.
    pose proof (Z.div_mod r h) as Hrh.
    pose proof (Z.mod_pos_bound r h) as Hrm.
    assert (0 ≤ r `div` h < n) as Hqn.
    { split; [apply Z.div_pos; lia|]. apply Z.div_lt_upper_bound; lia. }
    assert (np.slice g 0 h 0 w
            = np.slice g (r `div` h * h) (r `div` h * h + h) 0 w) as Heq.
    { specialize (Hall (np.slice g (r `div` h * h) (r `div` h * h + h) 0 w)).
      unfold np.array_equal in Hall.
      apply (proj1 (bool_decide_eq_true _)). apply Hall.
      apply list_elem_of_In, list_elem_of_fmap. eexists. split; [done|].
      apply list_elem_of_fmap. exists (r `div` h). split; [done|].
      apply elem_of_seqZ. lia. }
    apply (Hblock _ Hqn) with (r := r `mod` h) (c := c) in Heq; [|lia..].
    rewrite Heq. f_equal. lia.
  - intros Hper b Hb. apply list_elem_of_In, list_elem_of_fmap in Hb
      as (i & -> & Hi).
    apply list_elem_of_fmap in Hi as (q & -> & Hqn).
    apply elem_of_seqZ in Hqn.
    unfold np.array_equal. apply bool_decide_eq_true.
    apply Hblock; [lia|]. intros r c Hr Hc.
    destruct (Hq q) as [Hq1 Hq2]; [lia|].
    rewrite (Hper (q * h + r) c) by lia. f_equal.
    rewrite Z.add_comm, Z.mod_add by lia. by rewrite Z.mod_small by lia.
Qed.

Lemma test_block_patterns (g : np.Grid) (h w : Z)
    (res : pattern_testing.RepetitionResults)
    (x : pattern_testing.Repetition) :
  let hblocks :=
    map (λ i, np.slice g 0 h i (i + w))
        (pattern_testing.range_step 0 (np.width g) w) in
  let vblocks :=
    map (λ i, np.slice g i (i + h) 0 w)
        (pattern_testing.range_step 0 (np.height g) h) in
  x ∈ pattern_testing.patterns (pattern_testing.test_block g h res w)
  ↔ x ∈ pattern_testing.patterns res
    ∨ (np.width g `mod` w = 0
       ∧ forallb (np.array_equal (np.slice g 0 h 0 w)) hblocks = true
       ∧ x = pattern_testing.horizontal_repeat (np.slice g 0 h 0 w) (h, w)
               (Z.of_nat (length hblocks)))
    ∨ (np.height g `mod` h = 0
       ∧ forallb (np.array_equal (np.slice g 0 h 0 w)) vblocks = true
       ∧ x = pattern_testing.vertical_repeat (np.slice g 0 h 0 w) (h, w)
               (Z.of_nat (length vblocks))).
Proof.
  intros hblocks vblocks. unfold pattern_testing.test_block.
  fold hblocks vblocks.
  destruct (bool_decide (np.width g `mod` w = 0)) eqn:E1;
    [apply bool_decide_eq_true in E1|apply bool_decide_eq_false in E1];
    (destruct (bool_decide (np.height g `mod` h = 0)) eqn:E2;
      [apply bool_decide_eq_true in E2|apply bool_decide_eq_false in E2]);
    repeat match goal with
           | |- context [forallb ?f ?l] => destruct (forallb f l) eqn:?
           end;
    simpl; rewrite ?elem_of_app, ?list_elem_of_singleton; naive_solver.
Qed.

Lemma test_block_found (g : np.Grid) (h w : Z)
    (res : pattern_testing.RepetitionResults) :
  pattern_testing.repetition_found res
  = bool_decide (pattern_testing.patterns res ≠ []) →
  pattern_testing.repetition_found (pattern_testing.test_block g h res w)
  = bool_decide (pattern_testing.patterns
                   (pattern_testing.test_block g h res w) ≠ []).
Proof.
  intros Hres. unfold pattern_testing.test_block.
  repeat match goal with
         | |- context [if ?b then _ else _] => destruct b
         end; simpl; try done;
    symmetry; apply bool_decide_eq_true_2; by intros [_ ?]%app_eq_nil.
Qed.

(** X19: on a rectangular grid [test_repetition] reports a horizontal
    repeat of the block of size [h] by [w] in the top left corner exactly
    when the block fits at least twice in each direction, [w] divides the
    width, and the first [h] rows repeat with period [w]; the rest of the
    grid is not compared.  The number of repetitions is then the width
    divided by [w].  Vertical repeats are reported in the same way from the
    first [w] columns.  A repetition is found exactly when an entry is
    reported. *)
Theorem test_repetition_reports (g : np.Grid) :
  rectangular g →
  let res := pattern_testing.test_repetition g in
  (∀ b h w n,
     pattern_testing.horizontal_repeat b (h, w) n
       ∈ pattern_testing.patterns res
     ↔ (1 ≤ h ∧ 2 * h ≤ np.height g) ∧ (1 ≤ w ∧ 2 * w ≤ np.width g)
       ∧ np.width g `mod` w = 0 ∧ n = np.width g `div` w
       ∧ b = np.slice g 0 h 0 w ∧ periodic_columns g h w)
  ∧ (∀ b h w n,
       pattern_testing.vertical_repeat b (h, w) n
         ∈ pattern_testing.patterns res
       ↔ (1 ≤ h ∧ 2 * h ≤ np.height g) ∧ (1 ≤ w ∧ 2 * w ≤ np.width g)
         ∧ np.height g `mod` h = 0 ∧ n = np.height g `div` h
         ∧ b = np.slice g 0 h 0 w ∧ periodic_rows g h w)
  ∧ pattern_testing.repetition_found res
    = bool_decide (pattern_testing.patterns res ≠ []).
Proof.
  intros Hg%has_shape_rectangular res.
  set (H := length g) in *. set (W := Z.to_nat (np.width g)) in *.
  assert (np.height g = Z.of_nat H) as HH by done.
  assert (np.width g = Z.of_nat W) as HW by (unfold W, np.width; lia).
  assert (∀ x, x ∈ pattern_testing.patterns res
            ↔ ∃ h, h ∈ pattern_testing.range_from 1 (np.height g `div` 2 + 1)
              ∧ ∃ w, w ∈ pattern_testing.range_from 1 (np.width g `div` 2 + 1)
              ∧ (x ∈ pattern_testing.patterns
                       (pattern_testing.test_block g h
                          (pattern_testing.mk_repetition false []) w)))
    as Hpat.
  { intros x. subst res. unfold pattern_testing.test_repetition.
    rewrite (foldl_elem _ pattern_testing.patterns
               (λ h x, ∃ w, w ∈ pattern_testing.range_from 1
                                  (np.width g `div` 2 + 1)
                  ∧ x ∈ pattern_testing.patterns
                          (pattern_testing.test_block g h
                             (pattern_testing.mk_repetition false []) w))).
    - simpl. split; [intros [?%elem_of_nil|?]; done|by right].
    - intros s h.
      rewrite (foldl_elem _ pattern_testing.patterns
                 (λ w x, x ∈ pattern_testing.patterns
                            (pattern_testing.test_block g h
                               (pattern_testing.mk_repetition false []) w)));
        [done|].
      intros s' w. rewrite !test_block_patterns. simpl.
      rewrite elem_of_nil. tauto. }
  assert (∀ h, h ∈ pattern_testing.range_from 1 (np.height g `div` 2 + 1)
            ↔ 1 ≤ h ∧ 2 * h ≤ np.height g) as Hhs.
  { intros h. unfold pattern_testing.range_from. rewrite elem_of_seqZ.
    pose proof (Z.div_mod (np.height g) 2).
    pose proof (Z.mod_pos_bound (np.height g) 2). lia. }
  assert (∀ w, w ∈ pattern_testing.range_from 1 (np.width g `div` 2 + 1)
            ↔ 1 ≤ w ∧ 2 * w ≤ np.width g) as Hws.
  { intros w. unfold pattern_testing.range_from. rewrite elem_of_seqZ.
    pose proof (Z.div_mod (np.width g) 2).
    pose proof (Z.mod_pos_bound (np.width g) 2). lia. }
  split_and!.
  - intros b h w n. rewrite Hpat. split.
    + intros (h' & Hh & w' & Hw & Hx).
      apply test_block_patterns in Hx as [Hx|[(Hmod & Htest & [= -> <- <- ->])
                                             |(_ & _ & [=])]];
        [by apply elem_of_nil in Hx|].
      apply Hhs in Hh. apply Hws in Hw. rewrite HH, HW in *.
      destruct (horizontal_blocks_test g H W h w Hg) as [Hlen Hiff];
        [lia..|done|].
      split_and!; [lia..|done|done|done|]. unfold periodic_columns.
      rewrite HW. by apply Hiff.
    + intros (Hh & Hw & Hmod & -> & -> & Hper).
      exists h. split; [by apply Hhs|]. exists w. split; [by apply Hws|].
      apply test_block_patterns. right. left.
      rewrite HH, HW in *.
      destruct (horizontal_blocks_test g H W h w Hg) as [Hlen Hiff];
        [lia..|done|].
      split_and!; [done| |by rewrite Hlen]. apply Hiff.
      intros r c Hr Hc. apply Hper; [done|]. by rewrite HW.
  - intros b h w n. rewrite Hpat. split.
    + intros (h' & Hh & w' & Hw & Hx).
      apply test_block_patterns in Hx as [Hx|[(_ & _ & [=])
                                             |(Hmod & Htest & [= -> <- <- ->])]];
        [by apply elem_of_nil in Hx|].
      apply Hhs in Hh. apply Hws in Hw. rewrite HH, HW in *.
      destruct (vertical_blocks_test g H W h w Hg) as [Hlen Hiff];
        [lia..|done|].
      split_and!; [lia..|done|done|done|]. unfold periodic_rows.
      rewrite HH. by apply Hiff.
    + intros (Hh & Hw & Hmod & -> & -> & Hper).
      exists h. split; [by apply Hhs|]. exists w. split; [by apply Hws|].
      apply test_block_patterns. right. right.
      rewrite HH, HW in *.
      destruct (vertical_blocks_test g H W h w Hg) as [Hlen Hiff];
        [lia..|done|].
      split_and!; [done| |by rewrite Hlen]. apply Hiff.
      intros r c Hr Hc. apply Hper; [|done]. by rewrite HH.
  - subst res. unfold pattern_testing.test_repetition.
    pose (P := λ s : pattern_testing.RepetitionResults,
                 pattern_testing.repetition_found s
                 = bool_decide (pattern_testing.patterns s ≠ [])).
    apply (foldl_preserves P); [|done].
    intros s h Hs. apply (foldl_preserves P); [|done].
    intros s' w. apply test_block_found.
Qed.

Lemma test_repetition_reports_witness :
  pattern_testing.horizontal_repeat [[1; 2]] (1, 2) 2
    ∈ pattern_testing.patterns
        (pattern_testing.test_repetition [[1; 2; 1; 2]; [3; 4; 5; 6]])
  ↔ (1 ≤ 1 ∧ 2 * 1 ≤ np.height [[1; 2; 1; 2]; [3; 4; 5; 6]])
    ∧ (1 ≤ 2 ∧ 2 * 2 ≤ np.width [[1; 2; 1; 2]; [3; 4; 5; 6]])
    ∧ np.width [[1; 2; 1; 2]; [3; 4; 5; 6]] `mod` 2 = 0
    ∧ 2 = np.width [[1; 2; 1; 2]; [3; 4; 5; 6]] `div` 2
    ∧ [[1; 2]] = np.slice [[1; 2; 1; 2]; [3; 4; 5; 6]] 0 1 0 2
    ∧ periodic_columns [[1; 2; 1; 2]; [3; 4; 5; 6]] 1 2.
Proof.
  apply (test_repetition_reports [[1; 2; 1; 2]; [3; 4; 5; 6]]).
  unfold rectangular. by repeat constructor.
Defined.

(** * Arithmetic progressions *)

Lemma wrap64_exact (z : Z) : np.int64 z → np.wrap64 z = z.
Proof.
  unfold np.int64, np.wrap64. intros Hz. rewrite Z.mod_small; lia.
Qed.

Lemma single_valued_diff (line : list Z) (d : Z) :
  single_valued (np.diff line) d
  ↔ (2 ≤ length line)%nat
    ∧ ∀ j a b, line !! j = Some a → line !! S j = Some b →
               np.wrap64 (b - a) = d.
Proof.
  unfold single_valued, np.diff. split.
  - intros [Hne Hall]. split.
    + destruct line as [|a [|b line]]; simpl in *; [done|done|lia].
    + intros j a b Ha Hb. apply Hall, list_elem_of_lookup. exists j.
      apply lookup_zip_with_Some. exists b, a.
      split_and!; [done| |done]. by rewrite lookup_drop.
  - intros [Hlen Hall]. split.
    + destruct line as [|a [|b line]]; simpl in *; [lia|lia|done].
    + intros y (j & Hj)%list_elem_of_lookup.
      apply lookup_zip_with_Some in Hj as (b & a & -> & Hb & Ha).
      rewrite lookup_drop in Hb. by apply (Hall j).
Qed.

Lemma test_line_arithmetic (location : PatternTester.Location)
    (line : list Z) (results : PatternTester.Results)
    (loc : PatternTester.Location) (d : Z) :
  PatternTester.arithmetic loc d
    ∈ PatternTester.progression_types
        (PatternTester.test_line location line results)
  ↔ PatternTester.arithmetic loc d ∈ PatternTester.progression_types results
    ∨ (loc = location ∧ single_valued (np.diff line) d).
Proof.
  rewrite <- remove_dups_single. unfold PatternTester.test_line.
  destruct (bool_decide (length (remove_dups (np.diff line)) = 1%nat))
    eqn:Hlen;
    [apply bool_decide_eq_true in Hlen|apply bool_decide_eq_false in Hlen];
    destruct (PatternTester.is_geometric line); simpl;
    rewrite ?elem_of_app, ?list_elem_of_singleton.
  - split.
    + intros [[?|[= -> Hd]]|[=]]; [by left|right].
      split_and!; [done..|].
      destruct (np.diff line); simpl in *; [done|by subst].
    + intros [?|(-> & _ & Hd)]; [by left; left|left; right].
      by rewrite Hd.
  - split.
    + intros [?|[= -> Hd]]; [by left|right].
      split_and!; [done..|].
      destruct (np.diff line); simpl in *; [done|by subst].
    + intros [?|(-> & _ & Hd)]; [by left|right]. by rewrite Hd.
  - split.
    + intros [?|[=]]. by left.
    + intros [?|(_ & ? & _)]; [by left|done].
  - split; [by left|]. intros [?|(_ & ? & _)]; done.
Qed.

Lemma test_line_found (location : PatternTester.Location) (line : list Z)
    (results : PatternTester.Results) :
  PatternTester.progression_found results
  = bool_decide (PatternTester.progression_types results ≠ []) →
  PatternTester.progression_found
    (PatternTester.test_line location line results)
  = bool_decide (PatternTester.progression_types
                   (PatternTester.test_line location line results) ≠ []).
Proof.
  intros Hres. unfold PatternTester.test_line.
  repeat match goal with
         | |- context [if ?b then _ else _] => destruct b
         end; simpl; try done;
    symmetry; apply bool_decide_eq_true_2; by intros [_ ?]%app_eq_nil.
Qed.

Lemma column_line (grid : np.Grid) (h w i : nat) (line : list Z) :
  (0 < h)%nat → has_shape grid h w →
  np.transpose grid !! i = Some line →
  (i < w)%nat
  ∧ line = map (λ r, np.get grid r (Z.of_nat i)) (np.range (Z.of_nat h)).
Proof.
  intros Hh Hg Hline.
  destruct (has_shape_transpose grid h w Hh Hg) as [[Htl Htr] Ct].
  pose proof (lookup_lt_Some _ _ _ Hline) as Hi.
  unfold np.Grid in *. rewrite Htl in Hi. split; [done|].
  rewrite Forall_forall in Htr.
  assert (length line = h) as Hlen
    by (apply Htr; by eapply list_elem_of_lookup_2).
  apply (list_eq_same_length _ _ h); [|done|].
  { unfold np.range. by rewrite length_map, length_seqZ, Nat2Z.id. }
  intros r x y Hr Hx Hy.
  change (map ?f ?l) with (f <$> l) in Hy.
  rewrite list_lookup_fmap in Hy. unfold np.range in Hy.
  rewrite lookup_seqZ_lt in Hy by lia. simpl in Hy.
  injection Hy as <-.
  pose proof (Ct i r Hi Hr) as Hc. unfold cell at 1 in Hc.
  unfold np.Grid in *. rewrite Hline in Hc. simpl in Hc.
  rewrite Hx in Hc. rewrite (cell_get grid h w) in Hc by done.
  by injection Hc.
Qed.

(** X20: [test_progression] reports an arithmetic progression with
    difference [d] for a row or a column exactly when the line has at
    least two entries and the difference of every entry and its
    predecessor, taken in 64-bit arithmetic where it wraps around, is [d];
    a constant line counts, with difference 0.  For a line whose entries
    lie between -2^62 and 2^62 no difference wraps, and the progression is
    reported exactly when every entry exceeds its predecessor by [d].  For
    a grid with at least one row and one column the columns are those of
    the grid, and a progression is found exactly when an entry is
    reported. *)
Theorem arithmetic_progression_reports (grid : np.Grid) :
  let res := PatternTester.test_progression grid in
  (∀ location d,
     PatternTester.arithmetic location d
       ∈ PatternTester.progression_types res
     ↔ ∃ line, line_at grid location = Some line
         ∧ (2 ≤ length line)%nat
         ∧ ∀ j a b, line !! j = Some a → line !! S j = Some b →
                    np.wrap64 (b - a) = d)
  ∧ (∀ location line d,
       line_at grid location = Some line →
       Forall (λ x, - 2 ^ 62 ≤ x < 2 ^ 62) line →
       PatternTester.arithmetic location d
         ∈ PatternTester.progression_types res
       ↔ (2 ≤ length line)%nat
         ∧ ∀ j a b, line !! j = Some a → line !! S j = Some b → b - a = d)
  ∧ (well_formed grid →
     ∀ i line, line_at grid (PatternTester.col_ i) = Some line
       ↔ Z.of_nat i < np.width grid
         ∧ line = map (λ r, np.get grid r (Z.of_nat i))
                      (np.range (np.height grid)))
  ∧ PatternTester.progression_found res
    = bool_decide (PatternTester.progression_types res ≠ []).
Proof.
  intros res.
  assert (∀ location d,
     PatternTester.arithmetic location d
       ∈ PatternTester.progression_types res
     ↔ ∃ line, line_at grid location = Some line
         ∧ (2 ≤ length line)%nat
         ∧ ∀ j a b, line !! j = Some a → line !! S j = Some b →
                    np.wrap64 (b - a) = d) as Hreport; cycle 1.
  { split; [exact Hreport|]. split.
    - intros location line d Hline Hsmall. rewrite Hreport.
      rewrite Forall_lookup in Hsmall.
      assert (∀ j a b, line !! j = Some a → line !! S j = Some b →
                np.wrap64 (b - a) = b - a) as Hexact.
      { intros j a b Ha Hb. apply wrap64_exact.
        pose proof (Hsmall _ _ Ha). pose proof (Hsmall _ _ Hb).
        unfold np.int64. lia. }
      split.
      + intros (line' & Hline' & Hlen & Hd).
        rewrite Hline in Hline'. injection Hline' as <-.
        split; [done|]. intros j a b Ha Hb.
        rewrite <- (Hexact j a b Ha Hb). by eapply Hd.
      + intros [Hlen Hd]. exists line. split_and!; [done..|].
        intros j a b Ha Hb. rewrite (Hexact j a b Ha Hb). by eapply Hd.
    - revert Hreport. clear. intros _. subst res.
      unfold PatternTester.test_progression. split.
      + intros (h & w & Hh & Hw & Hg)%has_shape_well_formed i line. simpl.
        pose proof (has_shape_width grid h w Hh Hg) as [HH HW].
        rewrite HH, HW. split.
        * intros Hline.
          destruct (column_line grid h w i line Hh Hg Hline) as [Hi ->].
          split; [lia|done].
        * intros [Hi ->].
          destruct (has_shape_transpose grid h w Hh Hg) as [[Htl _] _].
          destruct (lookup_lt_is_Some_2 (np.transpose grid) i)
            as [line Hline].
          { unfold np.Grid in *. lia. }
          destruct (column_line grid h w i line Hh Hg Hline) as [_ E].
          rewrite <- E. exact Hline.
      + pose (P := λ s : PatternTester.Results,
                     PatternTester.progression_found s
                     = bool_decide (PatternTester.progression_types s ≠ [])).
        apply (foldl_preserves P);
          [intros s [i line]; apply test_line_found|].
        apply (foldl_preserves P);
          [intros s [i line]; apply test_line_found|].
        done. }
  subst res. unfold PatternTester.test_progression.
  - intros location d.
    rewrite (foldl_elem _ PatternTester.progression_types
               (λ (ic : nat * list Z) x,
                  ∃ d, x = PatternTester.arithmetic (PatternTester.col_ ic.1) d
                       ∧ single_valued (np.diff ic.2) d)); cycle 1.
    { intros s [i line]. rewrite test_line_arithmetic. simpl.
      split; (intros [?|?]; [by left|right]); naive_solver. }
    rewrite (foldl_elem _ PatternTester.progression_types
               (λ (ir : nat * list Z) x,
                  ∃ d, x = PatternTester.arithmetic (PatternTester.row_ ir.1) d
                       ∧ single_valued (np.diff ir.2) d)); cycle 1.
    { intros s [i line]. rewrite test_line_arithmetic. simpl.
      split; (intros [?|?]; [by left|right]); naive_solver. }
    simpl. setoid_rewrite <- single_valued_diff. split.
    + intros [[?%elem_of_nil|([i line] & Hin & d' & [= -> ->] & Hs)]
             |([i line] & Hin & d' & [= -> ->] & Hs)]; [done|..];
        apply elem_of_enumerate in Hin; by exists line.
    + intros (line & Hline & Hs). destruct location as [i|i]; simpl in Hline.
      * left. right. exists (i, line).
        split; [by apply elem_of_enumerate|]. by exists d.
      * right. exists (i, line).
        split; [by apply elem_of_enumerate|]. by exists d.
Qed.

Lemma arithmetic_progression_reports_witness :
  PatternTester.arithmetic (PatternTester.col_ 1) 3
    ∈ PatternTester.progression_types
        (PatternTester.test_progression [[1; 2]; [3; 5]])
  ↔ (2 ≤ length [2; 5])%nat
    ∧ ∀ j a b, [2; 5] !! j = Some a → [2; 5] !! S j = Some b → b - a = 3.
Proof.
  destruct (arithmetic_progression_reports [[1; 2]; [3; 5]])
    as (_ & Hexact & _).
  apply (Hexact (PatternTester.col_ 1) [2; 5] 3).
  - reflexivity.
  - repeat constructor; lia.
Defined.

(** * The steps of [_apply_transforms] *)

Lemma read_app (σ fresh : ndarray.Heap) (a : ndarray.t) :
  (ndarray.buf a < length σ)%nat →
  ndarray.read (σ ++ fresh) a = ndarray.read σ a.
Proof. intros Ha. unfold ndarray.read. by rewrite lookup_app_l. Qed.

Lemma apply_relative_position_step (prediction : ndarray.t)
    (rel_change : RelChange.t) (σ : ndarray.Heap) :
  match TransformationPredictor.apply_relative_position prediction ()
          rel_change σ with
  | Ok (_, σ') => ∃ fresh, σ' = σ ++ fresh
  | Raise e => ∃ msg, e = IndexError msg
  end.
Proof.
  unfold TransformationPredictor.apply_relative_position.
  destruct (RelChange.objects rel_change) as [obj1_val obj2_val].
  unfold mbind at 1. unfold M_bind at 1. unfold heap.get at 1. cbv zeta.
  destruct (np.any _ && np.any _); [|exists []; by rewrite app_nil_r].
  destruct (negb _ || negb _); [|exists []; by rewrite app_nil_r].
  unfold mbind, M_bind, heap.copy, heap.get, heap.alloc, heap.update, lift,
    mret, M_ret, ndarray.write. simpl.
  destruct (existsb id _); [by eexists|].
  rewrite insert_app_r_alt by done. rewrite Nat.sub_diag. simpl.
  by eexists.
Qed.

(** X21: the loop over the relative-position changes never moves an
    object.  It either raises [IndexError], from the assignment through
    float positions, or returns with every array that existed before
    unchanged; all it may leave behind are fresh copies. *)
Theorem relative_positions_never_move (prediction : ndarray.t)
    (changes : list RelChange.t) (σ : ndarray.Heap) :
  match for_each_M changes
          (TransformationPredictor.apply_relative_position prediction)
          () σ with
  | Ok (_, σ') =>
    (∃ fresh, σ' = σ ++ fresh)
    ∧ ∀ a, (ndarray.buf a < length σ)%nat →
           ndarray.read σ' a = ndarray.read σ a
  | Raise e => ∃ msg, e = IndexError msg
  end.
Proof.
  assert (match for_each_M changes
          (TransformationPredictor.apply_relative_position prediction)
          () σ with
          | Ok (_, σ') => ∃ fresh, σ' = σ ++ fresh
          | Raise e => ∃ msg, e = IndexError msg
          end) as H.
  { revert σ. induction changes as [|rc changes IH]; intros σ.
    { exists []. by rewrite app_nil_r. }
    cbn [for_each_M]. unfold mbind at 1. unfold M_bind at 1.
    pose proof (apply_relative_position_step prediction rc σ) as Hstep.
    destruct (TransformationPredictor.apply_relative_position _ _ _ _)
      as [[[] σ1]|e]; [|done].
    destruct Hstep as [fresh1 ->].
    specialize (IH (σ ++ fresh1)).
    destruct (for_each_M _ _ _ _) as [[[] σ2]|e]; [|done].
    destruct IH as [fresh2 ->]. exists (fresh1 ++ fresh2).
    by rewrite app_assoc. }
  destruct (for_each_M _ _ _ _) as [[[] σ']|e]; [|done].
  split; [done|]. destruct H as [fresh ->]. intros a Ha. by apply read_app.
Qed.

(** ** Steps that always return *)

Lemma returns_ret {A} (a : A) : returns (mret a).
Proof. intros σ. by exists a, σ. Qed.

Lemma returns_bind {A B} (m : M A) (f : A → M B) :
  returns m → (∀ a, returns (f a)) → returns (m ≫= f).
Proof.
  intros Hm Hf σ. destruct (Hm σ) as (a & σ1 & Hrun).
  destruct (Hf a σ1) as (b & σ2 & Hrun').
  exists b, σ2. unfold mbind, M_bind. by rewrite Hrun.
Qed.

Lemma returns_lift {A} (r : Result A) (a : A) :
  r = Ok a → returns (lift r).
Proof. intros -> σ. by exists a, σ. Qed.

Lemma returns_get (p : ndarray.t) : returns (heap.get p).
Proof. intros σ. by eexists _, _. Qed.

Lemma returns_update (p : ndarray.t) (f : np.Grid → np.Grid) :
  returns (heap.update p f).
Proof. intros σ. by eexists _, _. Qed.

Lemma returns_for_each_M {A S} (l : list A) (body : S → A → M S) (s : S) :
  (∀ s x, x ∈ l → returns (body s x)) → returns (for_each_M l body s).
Proof.
  revert s. induction l as [|x l IH]; intros s Hbody; simpl.
  - apply returns_ret.
  - apply returns_bind; [apply Hbody; set_solver|].
    intros s'. apply IH. intros s0 y Hy. apply Hbody. set_solver.
Qed.

Lemma kron_ones_Ok (g : np.Grid) (k : Z) :
  0 ≤ k → ∃ scaled, np.kron_ones g k = Ok scaled.
Proof.
  intros Hk. unfold np.kron_ones.
  rewrite bool_decide_eq_false_2 by lia. by eexists.
Qed.

Lemma transform_object_Ok (g : np.Grid) (t : Transform.t) :
  (∀ factor, t = Transform.scale factor → 0 ≤ factor) →
  ∃ g', TransformationPredictor.transform_object g t = Ok g'.
Proof.
  intros Hscale. destruct t as [| | factor | | |]; simpl; try by eexists.
  by apply kron_ones_Ok, Hscale.
Qed.

Lemma returns_apply_object_mappings (transforms : Consistent.t)
    (object_transforms : ConsistentObjects.t) (p : ndarray.t) (u : ())
    (obj : Object.t) :
  Consistent.object_transforms transforms = Some object_transforms →
  (∀ mapping factor,
     mapping ∈ default [] (ConsistentObjects.mappings object_transforms) →
     ConsistentMapping.transform mapping = Transform.scale factor →
     0 ≤ factor) →
  returns (TransformationPredictor.apply_object_mappings transforms p u obj).
Proof.
  intros Hot Hscale σ.
  unfold TransformationPredictor.apply_object_mappings.
  unfold mbind at 1. unfold M_bind at 1. rewrite Hot. simpl.
  apply returns_for_each_M. intros _ mapping Hmapping.
  destruct (bool_decide _); [|apply returns_ret].
  apply returns_bind; [apply returns_get|]. intros g.
  destruct (transform_object_Ok (GridOperations.get_object_grid g obj)
              (ConsistentMapping.transform mapping)) as [obj_grid Ht].
  { intros factor. by apply Hscale. }
  apply returns_bind; [by eapply returns_lift|]. intros obj_grid'.
  cbv zeta. destruct (bool_decide _); [apply returns_update|apply returns_ret].
Qed.

(** ** A hypothesis that holds a global transform only *)

Lemma read_view (σ : ndarray.Heap) (g : np.Grid) (op : ndarray.ViewOp) :
  ndarray.read (σ ++ [g]) (ndarray.mk (length σ) [op])
  = ndarray.apply_op g op.
Proof.
  unfold ndarray.read. simpl.
  rewrite lookup_app_r by done. by rewrite Nat.sub_diag.
Qed.




(** * The validation of task data *)

Lemma for_each_unit_Ok {A} (l : list A) (body : () → A → Result ()) :
  for_each l body () = Ok () ↔ Forall (λ x, body () x = Ok ()) l.
Proof.
  induction l as [|x l IH]; simpl; [by split|].
  rewrite Forall_cons, <- IH.
  destruct (body () x) as [[]|e]; simpl; [|by split; [|intros []]].
  split; [by split|by intros []].
Qed.

Lemma for_each_raise_from {A S} (l : list A) (body : S → A → Result S)
    (s : S) (e : Exn) :
  for_each l body s = Raise e → ∃ s' x, x ∈ l ∧ body s' x = Raise e.
Proof.
  revert s. induction l as [|x l IH]; intros s; simpl; [done|].
  destruct (body s x) as [s1|e1] eqn:Hb; simpl.
  - intros (s' & y & Hy & Hraise)%IH. exists s', y. split; [set_solver|done].
  - intros [= <-]. exists s, x. split; [set_solver|done].
Qed.

Lemma is_list_items (v : py.value) :
  py.is_list v = true ↔ v = py.list (elements v).
Proof. destruct v; simpl; split; (done || by intros [=]). Qed.

(** *** The checks of [validate_grid] on a list *)

Lemma all_pure {A} (f : A → bool) (l : list A) :
  py.all (λ x, Ok (f x)) l = Ok (forallb f l).
Proof.
  induction l as [|x l IH]; simpl; [done|]. by destruct (f x).
Qed.

(** [len(row)] never raises on rows that are lists *)
Lemma all_len (f : nat → bool) (rows : list py.value) :
  forallb py.is_list rows = true →
  py.all (λ row, n ← py.len row; Ok (f n)) rows
  = Ok (forallb (λ row, f (length (elements row))) rows).
Proof.
  induction rows as [|row rows IH]; simpl; [done|].
  intros [Hrow Hrows]%andb_true_iff.
  destruct row; try done. simpl. destruct (f _); [by apply IH|done].
Qed.

(** rows that are lists can be iterated over *)
Lemma all_numbers (rows : list py.value) :
  forallb py.is_list rows = true →
  py.all (λ row, vals ← py.iter row;
                 py.all (λ val, Ok (py.is_number val)) vals) rows
  = Ok (forallb py.is_number (row ← rows; elements row)).
Proof.
  induction rows as [|row rows IH]; simpl; [done|].
  intros [Hrow Hrows]%andb_true_iff.
  destruct row as [| | | | |vals|]; try done. simpl.
  rewrite all_pure, forallb_app.
  destruct (forallb py.is_number vals); [by apply IH|done].
Qed.

(** on a list [validate_grid] makes four checks, and the operations it
    leaves unguarded do not raise: the first row exists once the list is
    not empty, and the rows have a length and can be iterated over once
    they are lists *)
Lemma validate_grid_list (rows : list py.value) (name : string) :
  task_data.validate_grid (py.list rows) name
  = if bool_decide (length rows = 0%nat)
    then Raise (TaskError (name +:+ " must be non-empty"))
    else if negb (forallb py.is_list rows)
    then Raise (TaskError (name +:+ " must be a 2D grid"))
    else
      let width := length (elements (default py.none (head rows))) in
      if negb (forallb (λ row, bool_decide (length (elements row) = width))
                       rows)
      then Raise (TaskError (name +:+ " must be rectangular"))
      else if negb (forallb py.is_number (row ← rows; elements row))
      then Raise (TaskError (name +:+ " values must be numbers"))
      else Ok ().
Proof.
  unfold task_data.validate_grid. cbn [py.truth py.iter].
  destruct (bool_decide (length rows = 0%nat)) eqn:Hlen; [done|].
  cbn [negb mbind result_bind]. rewrite all_pure.
  destruct (forallb py.is_list rows) eqn:Hlists; [|done].
  cbn [negb]. destruct rows as [|row0 rows]; [done|].
  cbn [py.index lookup list_lookup mbind result_bind head default].
  destruct row0 as [| | | | |vals0|]; try done.
  cbn [py.len mbind result_bind elements].
  rewrite (all_len (λ n, bool_decide (n = length vals0))) by done.
  cbv zeta.
  destruct (forallb (λ row, bool_decide (_ = _)) _); [|done].
  cbn [negb]. by rewrite all_numbers by done.
Qed.

Lemma validate_grid_Ok (rows : list py.value) (name : string) :
  task_data.validate_grid (py.list rows) name = Ok ()
  ↔ rows ≠ [] ∧ ∃ w, Forall (number_row w) rows.
Proof.
  rewrite validate_grid_list. split.
  - case_bool_decide as Hlen; [done|].
    destruct (forallb py.is_list rows) eqn:Hlist; [|done]. simpl.
    destruct (forallb (λ row, bool_decide (_ = _)) rows) eqn:Hwidth;
      [|done]. simpl.
    destruct (forallb py.is_number _) eqn:Hnum; [|done]. intros _.
    split; [by intros ->|].
    exists (length (elements (default py.none (head rows)))).
    apply Forall_forall. intros row Hrow.
    rewrite forallb_forall in Hlist, Hwidth, Hnum.
    exists (elements row). split_and!.
    + apply is_list_items, Hlist. by apply list_elem_of_In.
    + apply (proj1 (bool_decide_eq_true _)). apply (Hwidth row).
      by apply list_elem_of_In.
    + apply Forall_forall. intros v Hv. apply Hnum, list_elem_of_In.
      apply list_elem_of_bind. by exists row.
  - intros [Hne (w & Hrows)]. rewrite Forall_forall in Hrows.
    rewrite bool_decide_eq_false_2 by (by destruct rows).
    assert (forallb py.is_list rows = true) as ->.
    { apply forallb_forall. intros row Hrow%list_elem_of_In.
      by destruct (Hrows row Hrow) as (vals & -> & _). }
    simpl.
    assert (length (elements (default py.none (head rows))) = w) as ->.
    { destruct rows as [|row rows]; [done|]. simpl.
      destruct (Hrows row) as (vals & -> & Hlen & _); [set_solver|done]. }
    assert (forallb (λ row, bool_decide (length (elements row) = w)) rows
            = true) as ->.
    { apply forallb_forall. intros row Hrow%list_elem_of_In.
      destruct (Hrows row Hrow) as (vals & -> & Hlen & _).
      by apply bool_decide_eq_true. }
    simpl.
    assert (forallb py.is_number (row ← rows; elements row) = true) as ->.
    { apply forallb_forall. intros v Hv%list_elem_of_In.
      apply list_elem_of_bind in Hv as (row & Hv & Hrow).
      destruct (Hrows row Hrow) as (vals & -> & _ & Hnum).
      rewrite Forall_forall in Hnum. by apply Hnum. }
    done.
Qed.

Lemma validate_grid_valid (grid : py.value) (name : string) :
  py.is_list grid = true →
  task_data.validate_grid grid name = Ok () ↔ valid_grid grid.
Proof.
  intros Hlist%is_list_items. rewrite Hlist at 1.
  rewrite validate_grid_Ok. unfold valid_grid.
  split.
  - intros [Hne (w & Hrows)]. by exists (elements grid), w.
  - intros (rows & w & -> & Hne & Hrows). simpl. split; [done|by exists w].
Qed.

Lemma truth_list (v : py.value) :
  py.is_list v = true →
  py.truth v = negb (bool_decide (length (elements v) = 0%nat)).
Proof. by destruct v. Qed.

Lemma valid_grid_list (grid : py.value) :
  valid_grid grid → py.is_list grid = true ∧ py.truth grid = true.
Proof.
  intros (rows & w & -> & Hne & _). split; [done|]. simpl.
  rewrite bool_decide_eq_false_2; [done|]. by destruct rows.
Qed.

Lemma dict_get_is_Some {V} (d : list (string * V)) (k : string) :
  k ∈ dict.keys d ↔ is_Some (dict.get d k).
Proof.
  split.
  - intros Hk. destruct (dict.get d k) eqn:E; [done|].
    unfold dict.keys in Hk. induction d as [|[k0 v0] d IH]; simpl in *.
    + by apply elem_of_nil in Hk.
    + destruct (decide (k0 = k)); [done|].
      apply IH; [|done]. set_solver.
  - intros [v Hv]. apply dict_get_Some_elem in Hv.
    unfold dict.keys. apply list_elem_of_fmap. by exists (k, v).
Qed.

Lemma validate_example_Ok (example : py.value) (name : string) :
  task_data.validate_example example name = Ok () ↔ valid_example example.
Proof.
  unfold task_data.validate_example, valid_example. split.
  - destruct example as [| | | | | |d]; try done.
    destruct (bool_decide ("input" ∈ dict.keys d)) eqn:Hki; [|done].
    destruct (bool_decide ("output" ∈ dict.keys d)) eqn:Hko; [|done].
    apply bool_decide_eq_true, dict_get_is_Some in Hki as [input Ei].
    apply bool_decide_eq_true, dict_get_is_Some in Hko as [output Eo].
    rewrite Ei, Eo. cbn [negb orb getitem mbind result_bind].
    destruct (py.is_list input) eqn:Hin; [|done].
    destruct (py.is_list output) eqn:Hout; [|done]. cbn [negb].
    destruct (negb (py.truth input) || negb (py.truth output)); [done|].
    destruct (task_data.validate_grid input _) as [[]|e] eqn:Hgi; [|done].
    simpl. intros Hgo. exists d, input, output.
    split_and!; [done..| |].
    + by eapply validate_grid_valid.
    + by eapply validate_grid_valid.
  - intros (d & input & output & -> & Ei & Eo & Hgi & Hgo).
    rewrite !bool_decide_eq_true_2
      by (apply dict_get_is_Some; by eexists).
    rewrite Ei, Eo. cbn [negb orb getitem mbind result_bind].
    destruct (valid_grid_list input Hgi) as [Hli Hti].
    destruct (valid_grid_list output Hgo) as [Hlo Hto].
    rewrite Hli, Hlo, Hti, Hto. cbn [negb orb].
    rewrite (proj2 (validate_grid_valid input _ Hli) Hgi). simpl.
    by apply validate_grid_valid.
Qed.

Lemma validate_examples_Ok (examples : list py.value) (kind : string) :
  task_data.validate_examples examples kind = Ok ()
  ↔ Forall valid_example examples.
Proof.
  unfold task_data.validate_examples.
  rewrite for_each_unit_Ok, !Forall_lookup. split.
  - intros Hall i example Hi.
    eapply (proj1 (validate_example_Ok example _)).
    apply (Hall i (i, example)). rewrite list_lookup_imap, Hi. done.
  - intros Hall i [j example] Hi. rewrite list_lookup_imap in Hi.
    destruct (examples !! i) as [ex|] eqn:Hex; [|done].
    injection Hi as <- <-. simpl.
    apply (proj2 (validate_example_Ok _ _)). by apply (Hall i).
Qed.

Lemma missing_keys (d : list (string * py.value)) :
  length (List.filter (λ k, negb (bool_decide (k ∈ dict.keys d)))
                      ["task_id"; "train"; "test"]) = 0%nat
  ↔ "task_id" ∈ dict.keys d ∧ "train" ∈ dict.keys d ∧ "test" ∈ dict.keys d.
Proof.
  simpl. repeat case_bool_decide; simpl; split; (done || tauto).
Qed.

(** *** What the checks raise *)

(** on a list [validate_grid] raises nothing but [TaskError] *)
Lemma validate_grid_raises (grid : py.value) (name : string) (e : Exn) :
  py.is_list grid = true →
  task_data.validate_grid grid name = Raise e → ∃ msg, e = TaskError msg.
Proof.
  intros Hlist%is_list_items. rewrite Hlist, validate_grid_list. cbv zeta.
  repeat match goal with
         | |- context [if ?b then _ else _] => destruct b
         end; simpl; intros [= <-]; by eexists.
Qed.

(** on a value that is no list it may raise the [TypeError] of the
    interpreter: the check that the value is a list is left to the
    caller *)
Example validate_grid_of_a_number :
  task_data.validate_grid (py.int 5) "grid"
  = Raise (TypeError "object is not iterable").
Proof. reflexivity. Qed.

Lemma validate_example_raises (example : py.value) (name : string)
    (e : Exn) :
  task_data.validate_example example name = Raise e →
  ∃ msg, e = TaskError msg.
Proof.
  unfold task_data.validate_example.
  destruct example as [| | | | | |d]; try (intros [= <-]; by eexists).
  destruct (bool_decide ("input" ∈ dict.keys d)) eqn:Hki;
    [|intros [= <-]; by eexists].
  destruct (bool_decide ("output" ∈ dict.keys d)) eqn:Hko;
    [|intros [= <-]; by eexists].
  apply bool_decide_eq_true, dict_get_is_Some in Hki as [input Ei].
  apply bool_decide_eq_true, dict_get_is_Some in Hko as [output Eo].
  rewrite Ei, Eo. cbn [negb orb getitem mbind result_bind].
  destruct (py.is_list input) eqn:Hin; [|intros [= <-]; by eexists].
  destruct (py.is_list output) eqn:Hout; [|intros [= <-]; by eexists].
  cbn [negb].
  destruct (negb (py.truth input) || negb (py.truth output));
    [intros [= <-]; by eexists|].
  destruct (task_data.validate_grid input _) as [[]|e1] eqn:Hgi;
    cbn [mbind result_bind].
  - by apply validate_grid_raises.
  - intros [= ->]. eapply validate_grid_raises; [exact Hin|exact Hgi].
Qed.

Lemma validate_examples_raises (examples : list py.value) (kind : string)
    (e : Exn) :
  task_data.validate_examples examples kind = Raise e →
  ∃ msg, e = TaskError msg.
Proof.
  intros (s & ie & _ & Hraise)%for_each_raise_from.
  by eapply validate_example_raises.
Qed.

Section task.
Variable repr_set : list string → string.

(** X23: [validate_task_data] accepts exactly the dictionaries that hold
    the keys task_id, train and test, where train and test are lists with
    at least one example, and every example is a dictionary whose input
    and output are lists of at least one row, all rows lists of numbers of
    one length.  Booleans count as numbers, and rows without entries are
    accepted. *)
Theorem validate_task_data_accepts (task : py.value) :
  task_data.validate_task_data repr_set task = Ok () ↔ valid_task task.
Proof.
  unfold task_data.validate_task_data, valid_task. split.
  - destruct task as [| | | | | |d]; try done. cbv zeta.
    destruct (bool_decide (length _ = 0%nat)) eqn:Hmissing; [|done].
    apply bool_decide_eq_true, missing_keys in Hmissing
      as (Hid & Htrain & Htest).
    apply dict_get_is_Some in Htrain as [train Htrain].
    apply dict_get_is_Some in Htest as [test Htest].
    rewrite Htrain, Htest. cbn [negb getitem mbind result_bind].
    destruct (py.is_list train) eqn:Hlt; [|done].
    destruct (py.is_list test) eqn:Hle; [|done]. cbn [negb].
    rewrite (truth_list train Hlt), (truth_list test Hle).
    apply is_list_items in Hlt, Hle.
    destruct (bool_decide (length (elements train) = 0%nat)) eqn:Hnt;
      [done|].
    destruct (bool_decide (length (elements test) = 0%nat)) eqn:Hne;
      [done|].
    apply bool_decide_eq_false in Hnt, Hne. cbn [negb orb].
    rewrite Hlt, Hle. cbn [py.iter mbind result_bind].
    destruct (task_data.validate_examples (elements train) _) as [[]|e]
      eqn:Hvt; [|done].
    simpl. intros Hve. exists d, (elements train), (elements test).
    rewrite <- Hlt, <- Hle. split_and!; [done..| | | |].
    + by intros E; rewrite E in Hnt.
    + by intros E; rewrite E in Hne.
    + by eapply validate_examples_Ok.
    + by eapply validate_examples_Ok.
  - intros (d & train & test & -> & Hid & Htrain & Htest & Hnt & Hne
            & Hvt & Hve).
    cbv zeta. rewrite (bool_decide_eq_true_2 (length _ = 0%nat)).
    + rewrite Htrain, Htest. cbn [negb getitem mbind result_bind py.is_list].
      cbn [py.truth].
      rewrite !bool_decide_eq_false_2 by (by destruct train, test).
      cbn [negb orb py.iter mbind result_bind].
      rewrite (proj2 (validate_examples_Ok train _) Hvt). simpl.
      by apply validate_examples_Ok.
    + apply missing_keys. split_and!; [done|..]; by apply dict_get_is_Some.
Qed.

(** X24: [validate_task_data] raises nothing but [TaskError].  The
    lookups of keys, the first row of a grid, the lengths of the rows and
    the loops over their values could raise [KeyError], [IndexError] or
    [TypeError]; each of them comes after the check that rules its
    exception out. *)
Theorem validate_task_data_raises (task : py.value) (e : Exn) :
  task_data.validate_task_data repr_set task = Raise e →
  ∃ msg, e = TaskError msg.
Proof.
  unfold task_data.validate_task_data.
  destruct task as [| | | | | |d]; try (intros [= <-]; by eexists).
  cbv zeta.
  destruct (bool_decide (length _ = 0%nat)) eqn:Hmissing;
    [|intros [= <-]; by eexists].
  apply bool_decide_eq_true, missing_keys in Hmissing
    as (Hid & Htrain & Htest).
  apply dict_get_is_Some in Htrain as [train Htrain].
  apply dict_get_is_Some in Htest as [test Htest].
  rewrite Htrain, Htest. cbn [negb getitem mbind result_bind].
  destruct (py.is_list train) eqn:Hlt; [|intros [= <-]; by eexists].
  destruct (py.is_list test) eqn:Hle; [|intros [= <-]; by eexists].
  cbn [negb].
  destruct (negb (py.truth train) || negb (py.truth test));
    [intros [= <-]; by eexists|].
  apply is_list_items in Hlt, Hle. rewrite Hlt, Hle.
  cbn [py.iter mbind result_bind].
  destruct (task_data.validate_examples (elements train) _) as [[]|e1]
    eqn:Hvt; cbn [mbind result_bind].
  - apply validate_examples_raises.
  - intros [= ->]. by eapply validate_examples_raises.
Qed.

End task.

Lemma validate_task_data_raises_witness :
  ∃ msg, TaskError "Training example 2 input must be rectangular"
         = TaskError msg.
Proof.
  apply (validate_task_data_raises (λ _, "{}")
    (py.dict [("task_id", py.str "t");
              ("train", py.list
                 [py.dict [("input", py.list [py.list [py.int 1]]);
                           ("output", py.list [py.list [py.int 2]])];
                  py.dict [("input", py.list [py.list [py.int 1];
                                              py.list []]);
                           ("output", py.list [py.list [py.int 2]])]]);
              ("test", py.list [py.none])])).
  vm_compute. reflexivity.
Defined.

Lemma py_grid_lists (g : np.Grid) :
  forallb py.is_list (map (λ row, py.list (map py.int row)) g) = true.
Proof. induction g as [|row g IH]; simpl; done. Qed.

Lemma py_grid_numbers (g : np.Grid) :
  forallb py.is_number
    (row ← map (λ row, py.list (map py.int row)) g; elements row) = true.
Proof.
  induction g as [|row g IH]; [done|].
  cbn [map]. rewrite bind_cons, forallb_app, IH.
  rewrite andb_true_r. cbn [elements].
  induction row as [|z row IHrow]; simpl; done.
Qed.

Lemma py_grid_lengths (g : np.Grid) (w : nat) :
  forallb (λ row, bool_decide (length (elements row) = w))
          (map (λ row, py.list (map py.int row)) g)
  = forallb (λ row, bool_decide (length row = w)) g.
Proof.
  induction g as [|row g IH]; simpl; [done|]. by rewrite length_map, IH.
Qed.

(** X25: on a grid of integers the validation of a grid in
    [validate_example] makes the two checks of the emptiness and of the
    row lengths, in this order, and no other check can fail. *)
Theorem validate_grid_of_integers (g : np.Grid) (name : string) :
  task_data.validate_grid (py_grid g) name
  = data_handlers.validate_grid g name.
Proof.
  unfold py_grid. rewrite validate_grid_list.
  unfold data_handlers.validate_grid.
  rewrite py_grid_lists, py_grid_numbers. cbv zeta.
  rewrite py_grid_lengths.
  destruct g as [|row0 g]; [done|].
  rewrite bool_decide_eq_false_2 by done.
  rewrite (bool_decide_eq_false_2 (_ = [])) by done.
  simpl. rewrite length_map.
  by destruct (bool_decide (length row0 = length row0) && forallb _ g).
Qed.

(** * Applying value mappings *)

Lemma flip_flip (g : np.Grid) (axis : Z) :
  np.flip (np.flip g axis) axis = g.
Proof.
  unfold np.flip. case_bool_decide.
  - apply reverse_involutive.
  - rewrite map_map. rewrite <- (map_id g) at 2. apply map_ext.
    intros row. apply reverse_involutive.
Qed.

Lemma well_formed_flip (g : np.Grid) (axis : Z) :
  well_formed g → well_formed (np.flip g axis).
Proof.
  intros (h & w & Hh & Hw & Hg)%has_shape_well_formed.
  apply has_shape_well_formed. exists h, w. split_and!; [done..|].
  by apply has_shape_flip.
Qed.

Lemma well_formed_unapply_op (op : ndarray.ViewOp) (g : np.Grid) :
  well_formed g → well_formed (ndarray.unapply_op op g).
Proof.
  destruct op; simpl; [apply well_formed_rot90|apply well_formed_flip].
Qed.

Lemma apply_unapply_op (op : ndarray.ViewOp) (g : np.Grid) :
  well_formed g → ndarray.apply_op (ndarray.unapply_op op g) op = g.
Proof.
  intros Hg. destruct op as [k|axis]; simpl.
  - rewrite rot90_rot90 by done. by rewrite Z.add_opp_diag_l.
  - apply flip_flip.
Qed.

(** writing through a chain of views and reading back *)
Lemma view_round_trip (view : list ndarray.ViewOp) (g : np.Grid) :
  well_formed g →
  foldl ndarray.apply_op (foldr ndarray.unapply_op g view) view = g.
Proof.
  revert g. induction view as [|op view IH] using rev_ind; intros g Hg;
    [done|].
  rewrite foldr_app, foldl_app. simpl.
  rewrite IH by (by apply well_formed_unapply_op).
  by apply apply_unapply_op.
Qed.

Lemma read_update (p : ndarray.t) (f : np.Grid → np.Grid)
    (σ : ndarray.Heap) :
  (ndarray.buf p < length σ)%nat →
  well_formed (f (ndarray.read σ p)) →
  ∃ σ', heap.update p f σ = Ok ((), σ')
        ∧ length σ' = length σ
        ∧ ndarray.read σ' p = f (ndarray.read σ p).
Proof.
  intros Hp Hwf. eexists. split; [done|].
  unfold ndarray.write. rewrite length_insert. split; [done|].
  unfold ndarray.read at 1.
  rewrite list_lookup_insert_eq by done. simpl.
  by apply view_round_trip.
Qed.

Lemma set_mask_eq_mask (g : np.Grid) (v to : Z) :
  np.set_mask g (np.eq_mask g v) to
  = map (map (λ x, if bool_decide (x = v) then to else x)) g.
Proof.
  unfold np.set_mask, np.eq_mask.
  induction g as [|row g IH]; simpl; [done|]. rewrite IH. f_equal.
  clear IH. induction row as [|x row IH]; simpl; [done|]. by rewrite IH.
Qed.

Lemma well_formed_map_map (f : Z → Z) (g : np.Grid) :
  well_formed g → well_formed (map (map f) g).
Proof.
  intros (h & w & Hh & Hw & Hlen & Hrows)%has_shape_well_formed.
  apply has_shape_well_formed. exists h, w. split_and!; [done..|].
  unfold has_shape, np.Grid in *. change (map ?f ?l) with (f <$> l).
  split.
  - by rewrite length_fmap.
  - apply Forall_fmap. eapply Forall_impl; [exact Hrows|]. simpl.
    intros row Hrow. by rewrite length_fmap.
Qed.

Lemma apply_value_mapping_substitutes (p : ndarray.t)
    (vm : Z * ValueMapping.t) (σ : ndarray.Heap) :
  (ndarray.buf p < length σ)%nat → well_formed (ndarray.read σ p) →
  not_conditional vm →
  ∃ σ', TransformationPredictor.apply_value_mapping p () vm σ = Ok ((), σ')
        ∧ length σ' = length σ
        ∧ ndarray.read σ' p
          = map (map (λ x, substitute x vm)) (ndarray.read σ p).
Proof.
  intros Hp Hwf Hvm. unfold TransformationPredictor.apply_value_mapping.
  unfold mbind at 1. unfold M_bind at 1. unfold heap.get at 1. cbv zeta.
  unfold substitute, not_conditional in *.
  destruct vm as [v [to|conditions|position_values]]; simpl in *.
  - destruct (read_update p
                (λ g, np.set_mask g (np.eq_mask (ndarray.read σ p) v) to) σ)
      as (σ' & Hrun & Hlen & Hread); [done| |].
    { rewrite set_mask_eq_mask. by apply well_formed_map_map. }
    exists σ'. split; [done|]. split; [done|].
    by rewrite Hread, set_mask_eq_mask.
  - by destruct (Hvm conditions).
  - exists σ. split; [done|]. split; [done|].
    rewrite <- (map_id (ndarray.read σ p)) at 1. apply map_ext.
    intros row. by rewrite map_id.
Qed.

(** X27: the direct value mappings of a hypothesis are applied one after
    the other, each to the result of the ones before it: an entry is
    taken through the substitutions in the order of the dictionary, so a
    value that an earlier mapping produces is replaced again by a later
    mapping of that value.  Complex mappings change nothing.  The prediction
    may be a rotated or flipped view; its shape stays. *)
Theorem value_mappings_in_sequence (p : ndarray.t)
    (value_mappings : list (Z * ValueMapping.t)) (σ : ndarray.Heap) :
  (ndarray.buf p < length σ)%nat → well_formed (ndarray.read σ p) →
  Forall not_conditional value_mappings →
  ∃ σ', for_each_M value_mappings
          (TransformationPredictor.apply_value_mapping p) () σ
        = Ok ((), σ')
        ∧ ndarray.read σ' p
          = map (map (λ x, foldl substitute x value_mappings))
                (ndarray.read σ p).
Proof.
  intros Hp Hwf Hvms. revert σ Hp Hwf.
  induction Hvms as [|vm vms Hvm Hvms IH]; intros σ Hp Hwf.
  { exists σ. split; [done|]. simpl.
    rewrite <- (map_id (ndarray.read σ p)) at 1. apply map_ext.
    intros row. by rewrite map_id. }
  destruct (apply_value_mapping_substitutes p vm σ Hp Hwf Hvm)
    as (σ1 & Hrun & Hlen & Hread).
  destruct (IH σ1) as (σ' & Hrun' & Hread').
  { by rewrite Hlen. }
  { rewrite Hread. by apply well_formed_map_map. }
  exists σ'. split.
  - cbn [for_each_M]. unfold mbind at 1. unfold M_bind at 1.
    by rewrite Hrun.
  - rewrite Hread', Hread, map_map. apply map_ext. intros row.
    by rewrite map_map.
Qed.

Lemma value_mappings_in_sequence_witness :
  ∃ σ', for_each_M [(1, ValueMapping.direct 2); (2, ValueMapping.direct 1)]
          (TransformationPredictor.apply_value_mapping (ndarray.mk 0 []))
          () [[[1; 2]; [0; 1]]]
        = Ok ((), σ')
        ∧ ndarray.read σ' (ndarray.mk 0 []) = [[1; 1]; [0; 1]].
Proof.
  apply (value_mappings_in_sequence (ndarray.mk 0 [])
           [(1, ValueMapping.direct 2); (2, ValueMapping.direct 1)]
           [[[1; 2]; [0; 1]]]).
  - simpl. lia.
  - split_and!; [done| |done]. unfold rectangular. by repeat constructor.
  - repeat constructor; intros conditions; done.
Defined.

(** * The analysis of object transformations *)

Lemma has_shape_imap (f : nat → nat → Z → Z) (g : np.Grid) (h w : nat) :
  has_shape g h w → has_shape (imap (λ i row, imap (f i) row) g) h w.
Proof.
  intros [Hlen Hrows]. unfold has_shape, np.Grid in *. split.
  - by rewrite length_imap.
  - apply Forall_lookup. intros i row Hi. rewrite list_lookup_imap in Hi.
    destruct (g !! i) as [row'|] eqn:Hrow; [|done]. injection Hi as <-.
    rewrite length_imap. rewrite Forall_forall in Hrows. apply Hrows.
    by eapply list_elem_of_lookup_2.
Qed.

Lemma well_formed_object_grid (g : np.Grid) (o : Object.t) :
  rectangular g → component g o →
  well_formed (GridOperations.get_object_grid g o).
Proof.
  intros Hrect Hcomp.
  destruct (component_bounding_box g o Hcomp)
    as (Hin & (p1 & Hp1 & E1) & _ & (p3 & Hp3 & E3) & _
        & ? & ? & ? & ? & _).
  destruct (Hin p1 Hp1) as [? _]. destruct (Hin p3 Hp3) as [_ ?].
  pose proof (has_shape_rectangular g Hrect) as Hg.
  unfold np.height in *.
  destruct (has_shape_slice g _ _ (Object.min_r o) (Object.max_r o + 1)
              (Object.min_c o) (Object.max_c o + 1) Hg) as [Hs _];
    [lia..|].
  apply has_shape_well_formed. eexists _, _. split_and!; cycle 2.
  - unfold GridOperations.get_object_grid. apply has_shape_imap, Hs.
  - lia.
  - lia.
Qed.

Lemma find_object_transform_Ok (obj1 obj2 : np.Grid) :
  well_formed obj1 →
  ∃ t, TransformationAnalyzer._find_object_transform obj1 obj2 = Ok t.
Proof.
  intros Hwf.
  destruct (decide (np.shape obj1 = np.shape obj2)) as [Hshape|Hshape].
  - destruct (find_object_transform_same_shape obj1 obj2 Hwf Hshape)
      as (t & Ht & _). by exists t.
  - destruct (find_object_transform_other_shape obj1 obj2 Hwf Hshape)
      as (t & Ht & _). by exists t.
Qed.

(** X28: on two rectangular grids that have fewer cells than the
    interpreter admits nested calls of the flood fill,
    [analyze_object_transformations] returns.  The count change is the number of objects of the output grid
    minus that of the input grid.  An input object is listed exactly when
    the subgrid of some output object is related to its subgrid by a
    transform other than [none], and its matches are exactly those output
    objects, each with its transform; so an object whose subgrid occurs
    unchanged in the output grid is not matched with it. *)
Theorem analyze_object_transformations_matches (frames : nat)
    (input output : np.Grid) :
  rectangular input → rectangular output →
  np.height input * np.width input < Z.of_nat frames →
  np.height output * np.width output < Z.of_nat frames →
  ∃ ins outs analysis,
    GridOperations.get_objects frames input = Ok ins
    ∧ GridOperations.get_objects frames output = Ok outs
    ∧ TransformationAnalyzer.analyze_object_transformations frames
        input output
      = Ok analysis
    ∧ ObjectAnalysis.object_count_change analysis
      = Z.of_nat (length outs) - Z.of_nat (length ins)
    ∧ (∀ m, m ∈ ObjectAnalysis.object_mappings analysis →
         ObjectMapping.input_object m ∈ ins
         ∧ ObjectMapping.matches m ≠ []
         ∧ ∀ mt, mt ∈ ObjectMapping.matches m
                 ↔ object_match input output
                     (ObjectMapping.input_object m) outs mt)
    ∧ (∀ in_obj mt,
         in_obj ∈ ins → object_match input output in_obj outs mt →
         ∃ m, m ∈ ObjectAnalysis.object_mappings analysis
              ∧ ObjectMapping.input_object m = in_obj
              ∧ mt ∈ ObjectMapping.matches m).
Proof.
  intros Hin Hout Hfin Hfout.
  destruct (get_objects_components frames input Hfin)
    as (ins & Hins & Hcin).
  destruct (get_objects_components frames output Hfout)
    as (outs & Houts & Hcout).
  unfold TransformationAnalyzer.analyze_object_transformations.
  rewrite Hins, Houts. cbn [mbind result_bind].
  match goal with
  | |- context [for_each ins ?body []] =>
    destruct (for_each_invariant
      (λ visited mappings,
         (∀ m, m ∈ mappings →
            ObjectMapping.input_object m ∈ visited
            ∧ ObjectMapping.matches m ≠ []
            ∧ ∀ mt, mt ∈ ObjectMapping.matches m
                    ↔ object_match input output
                        (ObjectMapping.input_object m) outs mt)
         ∧ (∀ in_obj mt,
              in_obj ∈ visited → object_match input output in_obj outs mt →
              ∃ m, m ∈ mappings ∧ ObjectMapping.input_object m = in_obj
                   ∧ mt ∈ ObjectMapping.matches m))
      body ins []) as (mappings & Hrun & Hsound & Hcomplete)
  end.
  - split; [by intros m ?%elem_of_nil|].
    by intros in_obj mt ?%elem_of_nil.
  - intros visited in_obj mappings [Hsound Hcomplete] Hobj.
    cbv zeta.
    match goal with
    | |- context [for_each outs ?body []] =>
      destruct (for_each_invariant
        (λ seen matches,
           ∀ mt, mt ∈ matches
                 ↔ object_match input output in_obj seen mt)
        body outs []) as (matches & -> & Hmatches)
    end.
    + intros mt. unfold object_match. split; [by intros ?%elem_of_nil|].
      by intros [?%elem_of_nil _].
    + intros seen out_obj matches Hmatches Hout_obj. cbv zeta.
      destruct (find_object_transform_Ok
                  (GridOperations.get_object_grid input in_obj)
                  (GridOperations.get_object_grid output out_obj))
        as [t Ht].
      { apply well_formed_object_grid; [done|]. by apply Hcin. }
      rewrite Ht. cbn [mbind result_bind]. case_bool_decide as Hnone.
      * eexists. split; [done|]. intros mt.
        rewrite elem_of_app, list_elem_of_singleton, Hmatches.
        unfold object_match. rewrite elem_of_app, list_elem_of_singleton.
        split.
        -- intros [(? & ? & ?)| ->]; [by split_and!; [left|..]|].
           simpl. split_and!; [by right|done..].
        -- intros ([?|Eo] & Hne & Heq); [left; by split_and!|right].
           destruct mt as [o t']. simpl in *. subst o.
           rewrite Ht in Heq. by injection Heq as ->.
      * eexists. split; [done|]. intros mt. rewrite Hmatches.
        unfold object_match. rewrite elem_of_app, list_elem_of_singleton.
        split.
        -- intros (? & ? & ?). by split_and!; [left|..].
        -- intros ([?|Eo] & Hne & Heq); [by split_and!|].
           rewrite Eo, Ht in Heq. injection Heq as Heq.
           destruct Hnone. by rewrite Heq.
    + cbn [mbind result_bind]. case_bool_decide as Hempty.
      * eexists. split; [done|]. split.
        -- intros m [Hm|Hm]%elem_of_app.
           ++ destruct (Hsound m Hm) as (? & ? & ?).
              split_and!; [set_solver|done..].
           ++ apply list_elem_of_singleton in Hm as ->. simpl.
              split_and!; [set_solver|done..].
        -- intros obj mt [Hvis| ->%list_elem_of_singleton]%elem_of_app Hmt.
           ++ destruct (Hcomplete obj mt Hvis Hmt) as (m & ? & ? & ?).
              exists m. split_and!; [set_solver|done..].
           ++ eexists. split_and!; [apply elem_of_app; right;
                                    by apply list_elem_of_singleton|done|].
              simpl. by apply Hmatches.
      * eexists. split; [done|]. split.
        -- intros m Hm. destruct (Hsound m Hm) as (? & ? & ?).
           split_and!; [set_solver|done..].
        -- intros obj mt [Hvis| ->%list_elem_of_singleton]%elem_of_app Hmt.
           ++ by apply Hcomplete.
           ++ apply Hmatches in Hmt.
              rewrite Hempty in Hmt. by apply elem_of_nil in Hmt.
  - rewrite Hrun. cbn [mbind result_bind].
    exists ins, outs. eexists. split_and!; [done..|apply Hsound|apply Hcomplete].
Qed.

Lemma analyze_object_transformations_matches_witness :
  ∃ ins outs analysis,
    GridOperations.get_objects 5 [[1; 0]; [0; 0]] = Ok ins
    ∧ GridOperations.get_objects 5 [[0; 0]; [0; 2]] = Ok outs
    ∧ TransformationAnalyzer.analyze_object_transformations 5
        [[1; 0]; [0; 0]] [[0; 0]; [0; 2]] = Ok analysis
    ∧ ObjectAnalysis.object_count_change analysis
      = Z.of_nat (length outs) - Z.of_nat (length ins)
    ∧ (∀ m, m ∈ ObjectAnalysis.object_mappings analysis →
         ObjectMapping.input_object m ∈ ins
         ∧ ObjectMapping.matches m ≠ []
         ∧ ∀ mt, mt ∈ ObjectMapping.matches m
                 ↔ object_match [[1; 0]; [0; 0]] [[0; 0]; [0; 2]]
                     (ObjectMapping.input_object m) outs mt)
    ∧ (∀ in_obj mt,
         in_obj ∈ ins →
         object_match [[1; 0]; [0; 0]] [[0; 0]; [0; 2]] in_obj outs mt →
         ∃ m, m ∈ ObjectAnalysis.object_mappings analysis
              ∧ ObjectMapping.input_object m = in_obj
              ∧ mt ∈ ObjectMapping.matches m).
Proof.
  apply (analyze_object_transformations_matches 5).
  - unfold rectangular. by repeat constructor.
  - unfold rectangular. by repeat constructor.
  - reflexivity.
  - reflexivity.
Defined.

(** * Applying object mappings *)



Lemma object_grid_shape (g : np.Grid) (o : Object.t) :
  rectangular g → component g o →
  ∃ h w, (0 < h)%nat ∧ (0 < w)%nat
    ∧ has_shape (GridOperations.get_object_grid g o) h w
    ∧ Z.of_nat h = Object.max_r o - Object.min_r o + 1
    ∧ Z.of_nat w = Object.max_c o - Object.min_c o + 1.
Proof.
  intros Hrect Hcomp.
  destruct (component_bounding_box g o Hcomp)
    as (Hin & (p1 & Hp1 & E1) & _ & (p3 & Hp3 & E3) & _
        & ? & ? & ? & ? & _).
  destruct (Hin p1 Hp1) as [? _]. destruct (Hin p3 Hp3) as [_ ?].
  pose proof (has_shape_rectangular g Hrect) as Hg.
  unfold np.height in *.
  destruct (has_shape_slice g _ _ (Object.min_r o) (Object.max_r o + 1)
              (Object.min_c o) (Object.max_c o + 1) Hg) as [Hs _];
    [lia..|].
  eexists _, _. split_and!; cycle 2.
  - unfold GridOperations.get_object_grid. apply has_shape_imap, Hs.
  - lia.
  - lia.
  - lia.
  - lia.
Qed.



(** ** A value change of one object *)

Lemma set_mask_ne_mask (g : np.Grid) (to : Z) :
  np.set_mask g (np.ne_mask g 0) to
  = map (map (λ x, if bool_decide (x = 0) then x else to)) g.
Proof.
  unfold np.set_mask, np.ne_mask.
  induction g as [|row g IH]; simpl; [done|]. rewrite IH. f_equal.
  clear IH. induction row as [|x row IH]; simpl; [done|]. rewrite IH.
  by destruct (bool_decide (x = 0)).
Qed.

Lemma cell_map_map (f : Z → Z) (g : np.Grid) (i j : nat) :
  cell (map (map f) g) i j = f <$> cell g i j.
Proof.
  unfold cell, np.Grid in *. change (map ?f ?l) with (f <$> l).
  rewrite list_lookup_fmap. destruct (g !! i) as [row|]; simpl; [|done].
  change (map ?f ?l) with (f <$> l). by rewrite list_lookup_fmap.
Qed.

Lemma get_set_slice (g block : np.Grid) (r1 r2 c1 c2 r c : Z) :
  rectangular g → in_bounds g (r, c) →
  np.get (np.set_slice g r1 r2 c1 c2 block) r c
  = if bool_decide (r1 ≤ r < r2 ∧ c1 ≤ c < c2)
    then np.get block (r - r1) (c - c1) else np.get g r c.
Proof.
  intros Hrect [Hr Hc]. simpl in *. unfold np.set_slice.
  rewrite get_imap.
  pose proof (has_shape_rectangular g Hrect) as Hg.
  assert (cell g (Z.to_nat r) (Z.to_nat c) = Some (np.get g r c)) as Hcell.
  { rewrite (cell_get g _ _ _ _ Hg) by (unfold np.height in *; lia).
    by rewrite !Z2Nat.id by lia. }
  unfold cell, np.Grid in *. rewrite Hcell.
  simpl. by rewrite !Z2Nat.id by lia.
Qed.

Lemma object_mapping_step (transforms : Consistent.t)
    (ot : ConsistentObjects.t) (p : ndarray.t) (o : Object.t)
    (t : Transform.t) (block : np.Grid) (σ : ndarray.Heap) :
  (ndarray.buf p < length σ)%nat →
  well_formed (ndarray.read σ p) →
  Consistent.object_transforms transforms = Some ot →
  ConsistentObjects.mappings ot
  = Some [ConsistentMapping.mk (Object.value o) t] →
  TransformationPredictor.transform_object
    (GridOperations.get_object_grid (ndarray.read σ p) o) t = Ok block →
  np.shape block = (Object.max_r o + 1 - Object.min_r o,
                    Object.max_c o + 1 - Object.min_c o) →
  ∃ σ', TransformationPredictor.apply_object_mappings transforms p () o σ
        = Ok ((), σ')
    ∧ ndarray.read σ' p
      = np.set_slice (ndarray.read σ p) (Object.min_r o) (Object.max_r o + 1)
          (Object.min_c o) (Object.max_c o + 1) block.
Proof.
  intros Hp Hwf Hot Hmappings Hblock Hshape.
  unfold TransformationPredictor.apply_object_mappings.
  unfold mbind at 1. unfold M_bind at 1. rewrite Hot. simpl.
  rewrite Hmappings. simpl.
  rewrite bool_decide_eq_true_2 by done.
  unfold mbind, M_bind, heap.get, lift. rewrite Hblock.
  rewrite bool_decide_eq_true_2 by done.
  destruct (read_update p
              (λ g, np.set_slice g (Object.min_r o) (Object.max_r o + 1)
                      (Object.min_c o) (Object.max_c o + 1) block) σ Hp)
    as (σ' & Hrun & _ & Hread).
  { apply has_shape_well_formed in Hwf as (h & w & Hh & Hw & Hg).
    apply has_shape_well_formed. exists h, w. split_and!; [done..|].
    by apply has_shape_imap. }
  rewrite Hrun. simpl. by exists σ'.
Qed.

(** X30: when the value change of an object is applied, the whole bounding
    box of the object is assigned: the cells of the object get the new
    value, and every other cell inside the box becomes 0, also a cell that
    belongs to another object.  The cells outside the box keep their
    values. *)
Theorem object_value_change_region (transforms : Consistent.t)
    (ot : ConsistentObjects.t) (p : ndarray.t) (o : Object.t)
    (from to : Z) (σ : ndarray.Heap) :
  (ndarray.buf p < length σ)%nat →
  rectangular (ndarray.read σ p) → component (ndarray.read σ p) o →
  Consistent.object_transforms transforms = Some ot →
  ConsistentObjects.mappings ot
  = Some [ConsistentMapping.mk (Object.value o)
            (Transform.value_change from to)] →
  ∃ σ', TransformationPredictor.apply_object_mappings transforms p () o σ
        = Ok ((), σ')
    ∧ ∀ r c, in_bounds (ndarray.read σ p) (r, c) →
        np.get (ndarray.read σ' p) r c
        = if decide ((r, c) ∈ Object.coords o) then to
          else if bool_decide (Object.min_r o ≤ r ≤ Object.max_r o
                               ∧ Object.min_c o ≤ c ≤ Object.max_c o)
          then 0
          else np.get (ndarray.read σ p) r c.
Proof.
  intros Hp Hrect Hcomp Hot Hmappings. set (g := ndarray.read σ p) in *.
  destruct (component_object_grid g o Hrect Hcomp) as [Hdim Hcells].
  destruct (object_grid_shape g o Hrect Hcomp)
    as (h & w & Hh & Hw & Hog & Eh & Ew).
  destruct (component_bounding_box g o Hcomp) as (Hin & _).
  pose proof Hcomp as (_ & Hne & Hnz & Hval & _).
  assert (well_formed g) as Hwf.
  { destruct (Object.coords o) as [|q qs] eqn:Eq; [done|].
    destruct (Hval q) as [[Hq1 Hq2] _]; [set_solver|].
    unfold well_formed. split_and!; [|done|lia].
    intros E. rewrite E in Hq1. simpl in Hq1. unfold np.height in Hq1.
    simpl in Hq1. lia. }
  set (block := map (map (λ x, if bool_decide (x = 0) then x else to))
                    (GridOperations.get_object_grid g o)).
  destruct (object_mapping_step transforms ot p o
              (Transform.value_change from to) block σ)
    as (σ' & Hrun & Hread); [done..| | |].
  { simpl. by rewrite set_mask_ne_mask. }
  { unfold block. rewrite shape_map_map.
    rewrite (has_shape_shape _ h w Hh Hog). f_equal; lia. }
  exists σ'. split; [done|]. intros r c Hrc. rewrite Hread.
  fold g. rewrite get_set_slice by done.
  destruct (decide ((r, c) ∈ Object.coords o)) as [Hmem|Hmem].
  - destruct (Hin _ Hmem) as [? ?]. simpl in *.
    rewrite bool_decide_eq_true_2 by lia.
    unfold block. rewrite get_cell, cell_map_map.
    rewrite (cell_get _ h w) by (done || lia).
    rewrite !Z2Nat.id by lia. rewrite Hcells by lia.
    replace (r - Object.min_r o + Object.min_r o) with r by lia.
    replace (c - Object.min_c o + Object.min_c o) with c by lia.
    rewrite decide_True by done. simpl.
    by rewrite bool_decide_eq_false_2.
  - destruct (decide (Object.min_r o ≤ r ≤ Object.max_r o
                      ∧ Object.min_c o ≤ c ≤ Object.max_c o)) as [Hbox|Hbox].
    + rewrite !bool_decide_eq_true_2 by lia.
      unfold block. rewrite get_cell, cell_map_map.
      rewrite (cell_get _ h w) by (done || lia).
      rewrite !Z2Nat.id by lia. rewrite Hcells by lia.
      replace (r - Object.min_r o + Object.min_r o) with r by lia.
      replace (c - Object.min_c o + Object.min_c o) with c by lia.
      by rewrite decide_False by done.
    + by rewrite !bool_decide_eq_false_2 by lia.
Qed.

Lemma object_value_change_region_witness :
  ∃ σ', TransformationPredictor.apply_object_mappings
          {| Consistent.value_mappings := Some [];
             Consistent.object_transforms :=
               Some (ConsistentObjects.mk (Some 0)
                       (Some [ConsistentMapping.mk 1
                                (Transform.value_change 1 5)]));
             Consistent.spatial_transforms := None |}
          (ndarray.mk 0 []) ()
          (GridOperations.make_object 1 [(0, 0); (1, 0); (1, 1)])
          [[[1; 2]; [1; 1]]]
        = Ok ((), σ')
    ∧ ndarray.read σ' (ndarray.mk 0 []) = [[5; 0]; [5; 5]].
Proof.
  destruct (object_value_change_region
              {| Consistent.value_mappings := Some [];
                 Consistent.object_transforms :=
                   Some (ConsistentObjects.mk (Some 0)
                           (Some [ConsistentMapping.mk 1
                                    (Transform.value_change 1 5)]));
                 Consistent.spatial_transforms := None |}
              (ConsistentObjects.mk (Some 0)
                 (Some [ConsistentMapping.mk 1 (Transform.value_change 1 5)]))
              (ndarray.mk 0 [])
              (GridOperations.make_object 1 [(0, 0); (1, 0); (1, 1)])
              1 5 [[[1; 2]; [1; 1]]]) as (σ' & Hrun & _).
  - simpl. lia.
  - unfold rectangular. by repeat constructor.
  - destruct (get_objects_components 10 [[1; 2]; [1; 1]])
      as (objs & Hobjs & Hcomp); [reflexivity|].
    apply Hcomp. vm_compute in Hobjs. injection Hobjs as <-.
    apply list_elem_of_here.
  - reflexivity.
  - reflexivity.
  - exists σ'. split; [exact Hrun|].
    vm_compute in Hrun. by injection Hrun as <-.
Defined.
(** * When [_apply_transforms] returns *)

(** ** The shape of the prediction under value mappings *)

Lemma mask_shape_map {A} (f : A → bool) (g : list (list A)) (h w : nat) :
  length g = h → Forall (λ row, length row = w) g →
  mask_shape (map (map f) g) h w.
Proof.
  intros Hlen Hrows. split; [by rewrite length_map|].
  change (map ?f ?l) with (f <$> l). apply Forall_fmap.
  eapply Forall_impl; [exact Hrows|]. simpl. intros row Hrow.
  by rewrite length_fmap.
Qed.

Lemma mask_shape_eq_mask (g : np.Grid) (v : Z) (h w : nat) :
  has_shape g h w → mask_shape (np.eq_mask g v) h w.
Proof. intros [Hlen Hrows]. by apply mask_shape_map. Qed.

Lemma mask_shape_position_mask (h w : nat) (pos_type : PosType) :
  mask_shape
    (TransformationPredictor.position_mask (Z.of_nat h, Z.of_nat w) pos_type)
    h w.
Proof.
  unfold TransformationPredictor.position_mask, np.range. simpl. split.
  - by rewrite length_map, length_seqZ, Nat2Z.id.
  - change (map ?f ?l) with (f <$> l). apply Forall_fmap, Forall_forall.
    intros r _. simpl. by rewrite length_fmap, length_seqZ, Nat2Z.id.
Qed.

Lemma length_zip_with_rows {A B C} (f : A → B → C) (n : nat)
    (l : list (list A)) (k : list (list B)) :
  Forall (λ row, length row = n) l → Forall (λ row, length row = n) k →
  Forall (λ row, length row = n) (zip_with (zip_with f) l k).
Proof.
  intros Hl. revert k. induction Hl as [|row l Hrow Hl IH]; intros k Hk;
    [constructor|].
  destruct Hk as [|krow k Hkrow Hk]; [constructor|]. simpl.
  constructor; [|by apply IH].
  rewrite length_zip_with. lia.
Qed.

Lemma mask_shape_and_mask (m1 m2 : np.Mask) (h w : nat) :
  mask_shape m1 h w → mask_shape m2 h w →
  mask_shape (np.and_mask m1 m2) h w.
Proof.
  intros [Hl1 Hr1] [Hl2 Hr2]. split.
  - unfold np.and_mask. rewrite length_zip_with. lia.
  - by apply length_zip_with_rows.
Qed.

Lemma has_shape_set_mask (g : np.Grid) (m : np.Mask) (v : Z) (h w : nat) :
  has_shape g h w → mask_shape m h w → has_shape (np.set_mask g m v) h w.
Proof.
  intros [Hl1 Hr1] [Hl2 Hr2]. split.
  - unfold np.set_mask. rewrite length_zip_with. lia.
  - by apply length_zip_with_rows.
Qed.

(** an assignment that keeps the shape of a prediction with cells is
    read back as it was written *)
Lemma update_keeps_shape (p : ndarray.t) (f : np.Grid → np.Grid)
    (σ : ndarray.Heap) (h w : nat) :
  (ndarray.buf p < length σ)%nat → (0 < h)%nat → (0 < w)%nat →
  has_shape (f (ndarray.read σ p)) h w →
  ∃ σ', heap.update p f σ = Ok ((), σ')
        ∧ length σ' = length σ
        ∧ ndarray.read σ' p = f (ndarray.read σ p).
Proof.
  intros Hp Hh Hw Hshape. apply read_update; [done|].
  apply has_shape_well_formed. by exists h, w.
Qed.

(** the loop over the conditions of one conditional mapping *)
Lemma conditions_keep_shape (p : ndarray.t) (mask : np.Mask)
    (conditions : list (PosType * Z)) (h w : nat) :
  (0 < h)%nat → (0 < w)%nat → mask_shape mask h w →
  ∀ σ, (ndarray.buf p < length σ)%nat →
  has_shape (ndarray.read σ p) h w →
  ∃ σ', for_each_M conditions
          (λ _ (cond : PosType * Z),
             type_mask ← lift (TransformationPredictor.type_mask mask
                                 (Z.of_nat h, Z.of_nat w) cond.1);
             heap.update p (λ g, np.set_mask g type_mask cond.2))
          () σ
        = Ok ((), σ')
        ∧ length σ' = length σ
        ∧ has_shape (ndarray.read σ' p) h w.
Proof.
  intros Hh Hw Hmask.
  induction conditions as [|cond conditions IH]; intros σ Hp Hshape.
  { by exists σ. }
  assert (TransformationPredictor.type_mask mask (Z.of_nat h, Z.of_nat w)
            cond.1
          = Ok (np.and_mask mask
                  (TransformationPredictor.position_mask
                     (Z.of_nat h, Z.of_nat w) cond.1))) as Htm.
  { unfold TransformationPredictor.type_mask. simpl.
    rewrite bool_decide_eq_false_2 by lia. done. }
  cbn [for_each_M]. unfold mbind at 1. unfold M_bind at 1.
  unfold mbind at 1. unfold M_bind at 1. rewrite Htm. unfold lift at 1.
  destruct (update_keeps_shape p
              (λ g, np.set_mask g
                      (np.and_mask mask
                         (TransformationPredictor.position_mask
                            (Z.of_nat h, Z.of_nat w) cond.1))
                      cond.2) σ h w)
    as (σ1 & -> & Hlen & Hread); [done..| |].
  { apply has_shape_set_mask; [done|].
    apply mask_shape_and_mask; [done|]. apply mask_shape_position_mask. }
  destruct (IH σ1) as (σ' & Hrun & Hlen' & Hshape').
  { by rewrite Hlen. }
  { rewrite Hread. apply has_shape_set_mask; [done|].
    apply mask_shape_and_mask; [done|]. apply mask_shape_position_mask. }
  exists σ'. split; [done|]. split; [by rewrite Hlen'|done].
Qed.

(** one value mapping returns on a prediction with cells and keeps its
    shape *)
Lemma apply_value_mapping_shape (p : ndarray.t) (vm : Z * ValueMapping.t)
    (σ : ndarray.Heap) (h w : nat) :
  (ndarray.buf p < length σ)%nat → (0 < h)%nat → (0 < w)%nat →
  has_shape (ndarray.read σ p) h w →
  ∃ σ', TransformationPredictor.apply_value_mapping p () vm σ = Ok ((), σ')
        ∧ length σ' = length σ
        ∧ has_shape (ndarray.read σ' p) h w.
Proof.
  intros Hp Hh Hw Hshape.
  unfold TransformationPredictor.apply_value_mapping.
  unfold mbind at 1. unfold M_bind at 1. unfold heap.get at 1. cbv zeta.
  pose proof (mask_shape_eq_mask (ndarray.read σ p) vm.1 h w Hshape) as Hmask.
  destruct vm.2 as [to|conditions|position_values].
  - destruct (update_keeps_shape p
                (λ g, np.set_mask g (np.eq_mask (ndarray.read σ p) vm.1) to)
                σ h w) as (σ' & Hrun & Hlen & Hread); [done..| |].
    { by apply has_shape_set_mask. }
    exists σ'. split; [done|]. split; [done|].
    rewrite Hread. by apply has_shape_set_mask.
  - rewrite (has_shape_shape _ h w Hh Hshape).
    by apply conditions_keep_shape.
  - by exists σ.
Qed.

Lemma value_mappings_keep_shape (p : ndarray.t)
    (value_mappings : list (Z * ValueMapping.t)) (h w : nat) :
  (0 < h)%nat → (0 < w)%nat →
  ∀ σ, (ndarray.buf p < length σ)%nat →
  has_shape (ndarray.read σ p) h w →
  ∃ σ', for_each_M value_mappings
          (TransformationPredictor.apply_value_mapping p) () σ
        = Ok ((), σ')
        ∧ length σ' = length σ
        ∧ has_shape (ndarray.read σ' p) h w.
Proof.
  intros Hh Hw.
  induction value_mappings as [|vm vms IH]; intros σ Hp Hshape.
  { by exists σ. }
  destruct (apply_value_mapping_shape p vm σ h w Hp Hh Hw Hshape)
    as (σ1 & Hrun & Hlen & Hshape1).
  destruct (IH σ1) as (σ' & Hrun' & Hlen' & Hshape');
    [by rewrite Hlen|done|].
  exists σ'. split.
  - cbn [for_each_M]. unfold mbind at 1. unfold M_bind at 1.
    by rewrite Hrun.
  - split; [by rewrite Hlen'|done].
Qed.

(** ** The steps before and after the value mappings *)

(** the global transform yields an array whose contents are the image of
    the copy *)
Lemma apply_global_image (t : Transform.t) (g image : np.Grid)
    (σ : ndarray.Heap) :
  global_image t g = Ok image →
  ∃ p σ1,
    TransformationPredictor.apply_global (ndarray.mk (length σ) []) t
      (σ ++ [g])
    = Ok (p, σ1)
    ∧ (ndarray.buf p < length σ1)%nat
    ∧ ndarray.read σ1 p = image.
Proof.
  destruct t as [| | factor | degrees | [|] |]; simpl.
  - intros [= <-]. eexists _, _. split; [done|].
    rewrite length_app. simpl. split; [lia|apply read_alloc].
  - intros [= <-]. eexists _, _. split; [done|].
    rewrite length_app. simpl. split; [lia|apply read_alloc].
  - intros Hk. unfold mbind, M_bind, heap.get, heap.alloc, lift.
    rewrite read_alloc, Hk. eexists _, _. split; [done|].
    split; [rewrite !length_app; simpl; lia|apply read_alloc].
  - intros [= <-]. eexists _, _. split; [done|].
    rewrite length_app. simpl. split; [lia|apply read_view].
  - intros [= <-]. eexists _, _. split; [done|].
    rewrite length_app. simpl. split; [lia|apply read_view].
  - intros [= <-]. eexists _, _. split; [done|].
    rewrite length_app. simpl. split; [lia|apply read_view].
  - intros [= <-]. eexists _, _. split; [done|].
    rewrite length_app. simpl. split; [lia|apply read_alloc].
Qed.

(** the loops over the objects and over the relative-position changes *)
Lemma returns_later_steps (transforms : Consistent.t)
    (object_transforms : ConsistentObjects.t) (p : ndarray.t)
    (objects : list Object.t) :
  Consistent.object_transforms transforms = Some object_transforms →
  (∀ mapping factor,
     mapping ∈ default [] (ConsistentObjects.mappings object_transforms) →
     ConsistentMapping.transform mapping = Transform.scale factor →
     0 ≤ factor) →
  returns
    (for_each_M objects
       (TransformationPredictor.apply_object_mappings transforms p) ();;
     for_each_M []
       (TransformationPredictor.apply_relative_position p) ();;
     mret p).
Proof.
  intros Hot Hscale.
  apply returns_bind.
  { apply returns_for_each_M. intros u obj _.
    by eapply returns_apply_object_mappings. }
  intros _. apply returns_bind; [apply returns_ret|].
  intros _. apply returns_ret.
Qed.

(** X22: [_apply_transforms] returns a prediction whenever the hypothesis
    holds all three keys, none of its scaling factors is negative, no
    relative-position change has survived, and the image of the input grid
    under the global transform is a well-formed grid with fewer cells than
    the interpreter admits nested calls of the flood fill.  The value
    mappings, conditional ones included, keep the shape of that image, so
    the search for the objects returns; the object mappings and the
    global rotation or flip never raise. *)
Theorem apply_transforms_returns (frames : nat) (input_grid : ndarray.t)
    (transforms : Consistent.t) (σ : ndarray.Heap) (image : np.Grid) :
  applicable transforms →
  global_image (global_transform_of transforms) (ndarray.read σ input_grid)
  = Ok image →
  well_formed image →
  np.height image * np.width image < Z.of_nat frames →
  ∃ prediction σ',
    TransformationPredictor._apply_transforms frames input_grid transforms σ
    = Ok (prediction, σ').
Proof.
  intros (vm & ot & sp & Hvm & Hot & Hsp & Hglobal & Hobject & Hrel)
         Himage Hwf Hframes.
  unfold global_transform_of in Himage. rewrite Hsp in Himage.
  simpl in Himage.
  destruct (apply_global_image _ _ _ σ Himage)
    as (p & σ1 & Hrun1 & Hp & Hread1).
  apply has_shape_well_formed in Hwf as (h & w & Hh & Hw & Hshape).
  destruct (value_mappings_keep_shape p vm h w Hh Hw σ1 Hp)
    as (σ2 & Hrun2 & Hlen2 & Hshape2); [by rewrite Hread1|].
  destruct (get_objects_ok frames (ndarray.read σ2 p))
    as (objects & Hobjects & _).
  { destruct (has_shape_width _ h w Hh Hshape2) as [-> ->].
    destruct (has_shape_width _ h w Hh Hshape) as [E1 E2].
    by rewrite E1, E2 in Hframes. }
  destruct (returns_later_steps transforms ot p objects Hot Hobject σ2)
    as (prediction & σ' & Hrun3).
  exists prediction, σ'.
  unfold TransformationPredictor._apply_transforms.
  rewrite Hsp, Hvm. cbn [getitem].
  unfold mbind at 1. unfold M_bind at 1.
  unfold heap.copy at 1. unfold mbind at 1. unfold M_bind at 1.
  unfold heap.get at 1, heap.alloc at 1. cbv beta iota.
  unfold mbind at 1. unfold M_bind at 1. unfold lift at 1. cbv beta iota.
  unfold mbind at 1. unfold M_bind at 1. rewrite Hrun1.
  unfold mbind at 1. unfold M_bind at 1. unfold lift at 1. cbv beta iota.
  unfold mbind at 1. unfold M_bind at 1. rewrite Hrun2.
  unfold mbind at 1. unfold M_bind at 1. unfold heap.get at 1.
  cbv beta iota.
  unfold mbind at 1. unfold M_bind at 1. rewrite Hobjects.
  unfold lift at 1. cbv beta iota. rewrite Hrel. exact Hrun3.
Qed.

Lemma apply_transforms_returns_witness :
  ∃ prediction σ',
    TransformationPredictor._apply_transforms 10 (ndarray.mk 0 [])
      {| Consistent.value_mappings :=
           Some [(1, ValueMapping.direct 2);
                 (3, ValueMapping.conditional {[ corner := 4 ]})];
         Consistent.object_transforms :=
           Some (ConsistentObjects.mk (Some 0)
                   (Some [ConsistentMapping.mk 2 (Transform.scale 1)]));
         Consistent.spatial_transforms :=
           Some (ConsistentSpatial.mk (Some (Transform.rotation 90))
                                      (Some [])) |}
      [[[1; 0]; [0; 3]]]
    = Ok (prediction, σ').
Proof.
  apply (apply_transforms_returns 10 (ndarray.mk 0 []) _ [[[1; 0]; [0; 3]]]
           [[0; 3]; [1; 0]]).
  - eexists _, _, _. split_and!; [reflexivity..| | |reflexivity].
    + intros factor. simpl. intros [=].
    + intros mapping factor. simpl.
      intros ->%list_elem_of_singleton. simpl. intros [= <-]. lia.
  - reflexivity.
  - split_and!; [done| |reflexivity]. unfold rectangular.
    by repeat constructor.
  - reflexivity.
Defined.
